(* ===== verification/_CoqProject ===== *)
-Q . S2P
Prelude.v
Effects.v
CLib.v
Crypto.v
JsonUtils.v
Auth.v
AuthSpec.v
AuthTokens.v
AuthLimiter.v
JsonValue.v
PeerRegistry.v
PeerRegistrySpec.v
AuthLife.v
AuthExamples.v
Storage.v
StorageSpec.v
TransferQueue.v
TransferQueueSpec.v
TransferQueueSystem.v
TransferQueueJson.v
TransferQueueTheorems.v
TransferQueueExamples.v
Transfer.v
TransferSpec.v
Ui.v
Server.v
ServerForm.v
ServerReply.v
ServerSpec.v
ServerTheorems.v
ServerUpload.v
ServerInvariant.v
Discovery.v
DiscoverySpec.v
Main.v
MainSpec.v
Devices.v
System.v
SystemSpec.v
ServerExamples.v
DevicesExamples.v
SystemExamples.v
