(* ===== verification/Prelude.v ===== *)
(** * LocalDrop: a verified model of the program

    LocalDrop shares files on a local network.  One process serves a web
    interface (src/server.c, src/ui.c), announces itself and finds its peers by
    mDNS (src/discovery.c, src/peer_registry.c), pairs with them and checks
    credentials (src/auth.c, src/crypto.c), stages and commits files
    (src/storage.c), and sends files from a queue with a worker thread
    (src/transfer_queue.c, src/transfer.c); src/main.c starts and stops it all.
    JSON text is written by src/json_utils.c.  Each C function is a definition
    of the same name; static variables are the fields of a record.

    ** Files

    - Prelude, Effects, CLib: C strings as lists of bytes; the environment
      [Env] (clock, random bytes, locks, memory, files: the answer to the call
      made at tick [k]); the monad [M S A] that threads tick and state, loops
      with an early exit, locks, and the rules of [wp]; the C library's string
      functions.
    - Crypto (crypto.c); JsonUtils (json_utils.c) and JsonValue, a reference
      printer and reader of the JSON the program emits.
    - Auth (auth.c); AuthSpec: invariant, sessions, the views of the tables;
      AuthTokens: peer tokens and pairing codes; AuthLimiter: rate limits;
      AuthLife: start-up, all calls together.
    - PeerRegistry, PeerRegistrySpec (peer_registry.c).
    - Storage (storage.c, on a file system of names, inodes and modification
      times); StorageSpec.
    - TransferQueue (transfer_queue.c), its worker cut at the critical sections;
      TransferQueueSpec: the ring; TransferQueueSystem: callers and worker as a
      step relation; TransferQueueJson: the reports; TransferQueueTheorems.
    - Transfer, TransferSpec (transfer.c); Ui (ui.c).
    - Server (server.c): [World] joins the states of the modules a handler
      calls; ServerForm: form fields; ServerReply: replies as JSON values;
      ServerSpec: who can make the server do what; ServerTheorems: pairing and
      sending; ServerUpload: a whole upload, from the first call of its
      connection to the last; ServerInvariant: every handler keeps every table
      in order.
    - Discovery, DiscoverySpec (discovery.c); Main, MainSpec (main.c).
    - System, SystemSpec: the running program, the server, the worker and
      discovery interleaved.
    - Devices: two devices, each with a clock, a memory and a world of its own,
      and the network between them.
    - AuthExamples, TransferQueueExamples, ServerExamples, DevicesExamples,
      SystemExamples: the theorems at concrete inputs, the last of them a whole
      session.

    ** What is shown

    - The program as a whole (SystemSpec, MainSpec): in every interleaving,
      every HTTP request made and every file queued was asked for by a client
      with an unlocked interface, for a peer that was discovered, active and,
      for files, paired; all tables stay in order; start-up is all or nothing;
      the worker alone empties the queue from every state; the program can be
      stopped from every state, with any requests open, and leaves no module, no
      lock and no object of discovery in use ([all_down]).
    - Two devices (Devices): a pairing leaves both with the same token or
      neither with a new one; a file sent with that token arrives byte for byte
      or is reported as not sent, the exceptions being those the code has.
    - The server (ServerSpec, ServerTheorems): no file is delivered, no transfer
      queued and no request made without a credential, whatever the order of
      the calls of a connection and whatever happens between them; /api/send
      queues exactly the staged file or nothing; what /api/pair/exchange replies
      is what [transfer_pair_peer] of the other side reads; form fields and the
      page hold what they should whatever bytes arrive.
    - Credentials (AuthSpec, AuthTokens, AuthLimiter, AuthLife): when sessions,
      codes and tokens are accepted and issued; the limiter refines a map and
      bounds the requests of every window.
    - The queue (TransferQueueTheorems): first in, first out, nothing lost or
      repeated; the job being sent does not change; shutdown drains the queue.
    - Files (StorageSpec, ServerUpload): uploads are all or nothing; names are harmless; the
      sweep removes what is old and nothing else.
    - The registry refines a finite map; discovery changes it only as Avahi's
      reports ask, and never enters the device itself.
    - The client (TransferSpec): at most one request, the right one, and what
      is made of the answer.
    - Texts: escaping and reports read back as what they stand for; buffers
      keep within their capacity whatever the allocator does.

    ** Parameters

    libmicrohttpd ([Host], [Connection]), libcurl ([Curl]), inet_pton ([Inet]),
    Avahi ([Avahi], the events of a round in [Machine]), libqrencode, getifaddrs
    and gethostname are arguments of the definitions that call them; the classes
    [RandOk], [ClockMono], [ClockRange], [InetOk], [HostOk], [CurlOk], [MachineOk]
    state what their documentation promises.  [LocksOk], [AllocOk], [IoOk] and [CurlSetUp]
    (nothing is refused) are assumed only where a theorem says what happens
    when the machine works; instances are in the examples.

    ** Bounds and fuel

    - [grow] doubles a capacity: 64 rounds are enough below 2^63 and no number
      is above it ([grow_terminates]); out of fuel, [ensure_capacity] fails
      where the code never returns.
    - [transfer_queue_shutdown] gives the worker one round more than there are
      jobs, [MAX_TRANSFER_JOBS + 1]: enough for any queue ([shutdown_drains]).
    - [main] runs its loop for a given number of rounds, any of them; the reader
      of JsonValue uses the length of its text.
    - Integers are kept in Z, with [wrap] where the code narrows them.

    ** Not modelled

    - [free], [MHD_destroy_post_processor], [fflush] and usleep, the lines the
      server prints.  C objects are values; being given back, and twice, is
      tracked for Avahi's objects alone, and says nothing of the memory the
      handlers free.
    - A read-write lock is one lock: no reader holds it across a call.
    - In System.v one call of a handler is one step: other threads do not act
      between two module calls of one handler call.  The theorem on credentials
      of ServerSpec lets the world change in any way between the calls of a
      connection, and the worker is cut at its critical sections.
    - [transfer_queue_shutdown] runs the worker to the end with a send that is
      a parameter: by then nothing else runs.
    - The default answer of uninitialised memory is the parameter [stack_text].
    - What is on the wire between two devices: Devices says of the network that
      the fields, the header and the file of a request are what the other side
      parses, and that its reply is what libcurl reports.
    - The tests, the build file and the documents. *)

From stdpp Require Import base numbers list strings gmap.
From Stdlib Require Import ZArith Lia Ascii.

Open Scope Z_scope.

(** ** C strings

    A C string is the list of its bytes before the terminating NUL.  *)

Abbreviation cstring := (list ascii).

(** A literal of the source. *)
Definition lit (s : string) : cstring := String.list_ascii_of_string s.

(** The double quote, and a literal whose single quotes stand for double
    quotes (no literal of the sources modelled here holds a single quote). *)
Definition dquote : ascii := ascii_of_nat 34.
Definition requote (c : ascii) : ascii :=
  if bool_decide (c = "'"%char) then dquote else c.
Definition jlit (s : string) : cstring := map requote (lit s).

#[export] Instance ascii_inhabited : Inhabited ascii := populate zero.

(** Character codes: [code] is [(unsigned char)c], [chr] the converse. *)
Definition code (c : ascii) : Z := Z.of_N (N_of_ascii c).
Definition chr (z : Z) : ascii := ascii_of_N (Z.to_N z).

Lemma code_bounds c : 0 <= code c < 256.
Proof. destruct c as [[] [] [] [] [] [] [] []]; vm_compute; split; congruence. Qed.

Lemma chr_code c : chr (code c) = c.
Proof. unfold chr, code. rewrite N2Z.id. apply ascii_N_embedding. Qed.

Lemma code_chr z : 0 <= z < 256 -> code (chr z) = z.
Proof.
  intros H. unfold code, chr. rewrite N_ascii_embedding; lia.
Qed.

Lemma code_inj a b : code a = code b -> a = b.
Proof. intros H. rewrite <- (chr_code a), <- (chr_code b). by rewrite H. Qed.

(** ** Machine integers *)

Definition wrap (w z : Z) : Z := z mod 2 ^ w.
Definition size_t_wrap (z : Z) : Z := wrap 64 z.
Definition SIZE_MAX : Z := 2 ^ 64 - 1.
Definition LONG_MAX : Z := 2 ^ 63 - 1.
Definition LONG_MIN : Z := - 2 ^ 63.

Lemma wrap_small w z : 0 <= z < 2 ^ w -> wrap w z = z.
Proof. apply Z.mod_small. Qed.

(** ** Automation shared by the components *)

Create HintDb ld.
Create Rewrite HintDb ld.

(** Turn the boolean tests of the code into propositions. *)
Ltac bool_prop :=
  repeat match goal with
  | H : _ && _ = true |- _ => apply andb_true_iff in H as [? ?]
  | H : _ || _ = false |- _ => apply orb_false_iff in H as [? ?]
  | H : _ && _ = false |- _ => apply andb_false_iff in H
  | H : _ || _ = true |- _ => apply orb_true_iff in H
  | H : negb _ = true |- _ => apply negb_true_iff in H
  | H : negb _ = false |- _ => apply negb_false_iff in H
  | H : bool_decide _ = true |- _ => apply bool_decide_eq_true in H
  | H : bool_decide _ = false |- _ => apply bool_decide_eq_false in H
  | H : (_ <=? _) = true |- _ => apply Z.leb_le in H
  | H : (_ <=? _) = false |- _ => apply Z.leb_gt in H
  | H : (_ <? _) = true |- _ => apply Z.ltb_lt in H
  | H : (_ <? _) = false |- _ => apply Z.ltb_ge in H
  | H : (_ =? _) = true |- _ => apply Z.eqb_eq in H
  | H : (_ =? _) = false |- _ => apply Z.eqb_neq in H
  end.

(** Case analysis on the first conditional of the goal. *)
Ltac case_cond :=
  match goal with
  | |- context [ if ?b then _ else _ ] =>
      lazymatch type of b with bool => destruct b eqn:?; bool_prop end
  end.

(** ** Arrays: lists indexed below their length *)

Section Arrays.
Context {A : Type} `{Inhabited A}.
Implicit Types (l : list A) (i j : nat).

Lemma array_get l i : (i < length l)%nat -> l !! i = Some (l !!! i).
Proof. apply list_lookup_lookup_total_lt. Qed.

Lemma array_set_eq l i x : (i < length l)%nat -> <[i:=x]> l !!! i = x.
Proof. apply list_lookup_total_insert_eq. Qed.

Lemma array_set_ne l i j x : i <> j -> <[i:=x]> l !!! j = l !!! j.
Proof. apply list_lookup_total_insert_ne. Qed.
End Arrays.

#[export] Hint Rewrite @length_insert @length_take @length_app @length_replicate : ld.
