(* ===== verification/Effects.v ===== *)
(** * Effects: the environment, the state monad and its program logic

    The code reads the clock, asks OpenSSL for random bytes, takes POSIX
    locks, allocates memory and does file I/O.  [Env] collects what the
    environment answers: the answer to the call made at tick [k].  A
    computation of type [M S A] threads the tick and a state [S].  *)

From stdpp Require Import base numbers list strings gmap.
From Stdlib Require Import ZArith Lia Ascii.
From S2P Require Import Prelude.

(** ** The environment *)

Class Env := {
  env_clock : nat -> Z;                     (* time(NULL) *)
  env_rand : nat -> nat -> option (list Z); (* RAND_bytes: None when it fails *)
  env_lock : nat -> Z;                      (* pthread_*_lock, 0 on success *)
  env_init : nat -> Z;                      (* pthread_*_init, pthread_create *)
  env_alloc : nat -> bool;                  (* malloc, calloc, realloc *)
  env_io : nat -> bool;                     (* a file operation succeeds *)
  env_short : nat -> nat                    (* bytes a failing fwrite stored *)
}.

(** Documented behaviour of [RAND_bytes]: it fills the buffer with bytes. *)
Class RandOk (E : Env) : Prop := {
  rand_length k n bs : env_rand k n = Some bs -> length bs = n;
  rand_byte k n bs : env_rand k n = Some bs -> Forall (fun b => 0 <= b < 256) bs
}.

(** The wall clock does not go backwards. *)
Class ClockMono (E : Env) : Prop :=
  clock_mono i j : (i <= j)%nat -> env_clock i <= env_clock j.

(** [time_t] is a 64-bit integer. *)
Class ClockRange (E : Env) : Prop :=
  clock_range k : LONG_MIN <= env_clock k <= LONG_MAX.

(** No file operation is refused. *)
Class IoOk (E : Env) : Prop := io_ok k : env_io k = true.

(** The random generator answers. *)
Class RandTotal (E : Env) : Prop := rand_total k n : env_rand k n <> None.

(** Locking a valid mutex succeeds. *)
Class LocksOk (E : Env) : Prop := lock_ok k : env_lock k = 0.

(** Memory is available. *)
Class AllocOk (E : Env) : Prop := alloc_ok k : env_alloc k = true.

(** ** The monad *)

Definition M (S A : Type) : Type := nat -> S -> A * (nat * S).

Section Monad.
Context {S : Type}.

Definition ret {A} (a : A) : M S A := fun k s => (a, (k, s)).
Definition bind {A B} (m : M S A) (f : A -> M S B) : M S B :=
  fun k s => let '(a, (k', s')) := m k s in f a k' s'.
Definition get : M S S := fun k s => (s, (k, s)).
Definition put (s : S) : M S unit := fun k _ => (tt, (k, s)).
Definition modify (f : S -> S) : M S unit := fun k s => (tt, (k, f s)).

(** Run a computation on a component of the state. *)
Definition zoom {T A} (g : S -> T) (p : T -> S -> S) (m : M T A) : M S A :=
  fun k s => let '(a, (k', t')) := m k (g s) in (a, (k', p t' s)).

(** A call of the environment: its answer is the one of the current tick. *)
Definition ask {A} (f : nat -> A) : M S A := fun k s => (f k, (Datatypes.S k, s)).
End Monad.

Declare Scope prog_scope.
Delimit Scope prog_scope with prog.
Notation "x <- m ;; f" := (bind m (fun x => f))
  (at level 100, m at next level, right associativity) : prog_scope.
Notation "'let*' p := m 'in' f" := (bind m (fun x => match x with p => f end))
  (at level 100, p pattern, m at level 200, f at level 200, right associativity) : prog_scope.
Notation "m ;; f" := (bind m (fun _ => f))
  (at level 100, right associativity) : prog_scope.
Open Scope prog_scope.

(** [for (index = i; index < i + n; index++) body]: [Some x] from the body
    leaves the loop with [x] ([break] or [return]), [None] continues. *)
Fixpoint for_range {S R} (n i : nat) (body : nat -> M S (option R)) : M S (option R) :=
  match n with
  | O => ret None
  | Datatypes.S n' =>
      r <- body i ;;
      match r with
      | Some x => ret (Some x)
      | None => for_range n' (Datatypes.S i) body
      end
  end.

(** The same loop with locals carried round by round: [inl] continues with
    new locals, [inr] leaves the loop. *)
Fixpoint for_acc {S Acc R} (n i : nat) (body : nat -> Acc -> M S (Acc + R)) (acc : Acc) : M S (Acc + R) :=
  match n with
  | O => ret (inl acc)
  | Datatypes.S n' =>
      r <- body i acc ;;
      match r with
      | inr x => ret (inr x)
      | inl acc' => for_acc n' (Datatypes.S i) body acc'
      end
  end.

(** How a loop body that is not done leaves: [break], or [return] from the
    enclosing function. *)
Inductive exit (R : Type) := Break (r : R) | Return (r : R).
Arguments Break {R}.
Arguments Return {R}.

Section Calls.
Context `{E : Env} {S : Type}.
Definition time_NULL : M S Z := ask env_clock.
Definition RAND_bytes (n : nat) : M S (option (list Z)) := ask (fun k => env_rand k n).
Definition alloc : M S bool := ask env_alloc.
Definition io : M S bool := ask env_io.
Definition short_count : M S nat := ask env_short.
End Calls.

(** ** Locks

    A [pthread_mutex_t] (or a [pthread_rwlock_t]) of the code.  Misuse, which
    POSIX leaves undefined or makes a deadlock, leads to [MBroken]. *)
Inductive mutex := MUninit | MFree | MHeld | MBroken.

Class HasMutex (S : Type) := {
  get_mutex : S -> mutex;
  set_mutex : mutex -> S -> S;
  get_set_mutex m s : get_mutex (set_mutex m s) = m
}.

Section Locks.
Context `{E : Env} {S : Type} `{HasMutex S}.

(** Acquire; a non-zero result leaves the lock as it was. *)
Definition pthread_lock : M S Z :=
  r <- ask env_lock ;;
  if r =? 0
  then modify (fun s => set_mutex (match get_mutex s with MFree => MHeld | _ => MBroken end) s) ;; ret r
  else ret r.

Definition pthread_unlock : M S unit :=
  modify (fun s => set_mutex (match get_mutex s with MHeld => MFree | _ => MBroken end) s).

Definition pthread_init : M S Z :=
  r <- ask env_init ;;
  if r =? 0
  then modify (set_mutex MFree) ;; ret r
  else ret r.

Definition pthread_destroy : M S unit :=
  modify (fun s => set_mutex (match get_mutex s with MFree => MUninit | _ => MBroken end) s).
End Locks.

(** ** Weakest preconditions *)

Definition wp {S A} (m : M S A) (Q : A -> nat -> S -> Prop) (k : nat) (s : S) : Prop :=
  let '(a, (k', s')) := m k s in Q a k' s'.

Section Wp.
Context {S A : Type}.
Implicit Types (m : M S A) (k : nat) (s : S).

Lemma wp_run m Q k s a k' s' : m k s = (a, (k', s')) -> wp m Q k s <-> Q a k' s'.
Proof. intros E. unfold wp. by rewrite E. Qed.

(** From a program-logic fact to a fact about a given run. *)
Lemma wp_use m (Q : A -> nat -> S -> Prop) k s a k' s' :
  wp m Q k s -> m k s = (a, (k', s')) -> Q a k' s'.
Proof. intros H E. by rewrite wp_run in H. Qed.

Lemma wp_intro m (Q : A -> nat -> S -> Prop) k s :
  (forall a k' s', m k s = (a, (k', s')) -> Q a k' s') -> wp m Q k s.
Proof. unfold wp. destruct (m k s) as [a [k' s']] eqn:E. auto. Qed.

Lemma wp_mono m (Q R : A -> nat -> S -> Prop) k s :
  wp m Q k s -> (forall a k' s', Q a k' s' -> R a k' s') -> wp m R k s.
Proof. unfold wp. destruct (m k s) as [a [k' s']]. auto. Qed.

Lemma wp_and m (Q R : A -> nat -> S -> Prop) k s :
  wp m Q k s -> wp m R k s -> wp m (fun a k' s' => Q a k' s' /\ R a k' s') k s.
Proof. unfold wp. destruct (m k s) as [a [k' s']]. auto. Qed.

Lemma wp_ret (a : A) (Q : A -> nat -> S -> Prop) k s : Q a k s -> wp (ret a) Q k s.
Proof. done. Qed.

Lemma wp_bind {B} (m : M S B) (f : B -> M S A) Q k s :
  wp m (fun b k' s' => wp (f b) Q k' s') k s -> wp (bind m f) Q k s.
Proof. unfold wp, bind. by destruct (m k s) as [b [k' s']]. Qed.

Lemma wp_ask (f : nat -> A) Q k s :
  Q (f k) (Datatypes.S k) s -> wp (ask f) Q k s.
Proof. done. Qed.

Lemma wp_zoom {T} (g : S -> T) (p : T -> S -> S) (m : M T A) Q k s :
  wp m (fun a k' t' => Q a k' (p t' s)) k (g s) -> wp (zoom g p m) Q k s.
Proof. unfold wp, zoom. by destruct (m k (g s)) as [b [k' s']]. Qed.

Lemma wp_if (b : bool) (m1 m2 : M S A) Q k s :
  (b = true -> wp m1 Q k s) -> (b = false -> wp m2 Q k s) ->
  wp (if b then m1 else m2) Q k s.
Proof. destruct b; auto. Qed.
End Wp.

Lemma wp_get {S} (Q : S -> nat -> S -> Prop) k s : Q s k s -> wp get Q k s.
Proof. done. Qed.
Lemma wp_put {S} (s' : S) (Q : unit -> nat -> S -> Prop) k s : Q tt k s' -> wp (put s') Q k s.
Proof. done. Qed.
Lemma wp_modify {S} (f : S -> S) (Q : unit -> nat -> S -> Prop) k s :
  Q tt k (f s) -> wp (modify f) Q k s.
Proof. done. Qed.

(** Loop rule: [I j] holds when the body is about to run at index [j]. *)
Lemma wp_for {S R} (I : nat -> nat -> S -> Prop) n i (body : nat -> M S (option R)) Q k s :
  I i k s ->
  (forall j k s, (i <= j < i + n)%nat -> I j k s ->
    wp (body j) (fun r k' s' =>
      match r with Some _ => Q r k' s' | None => I (Datatypes.S j) k' s' end) k s) ->
  (forall k s, I (i + n)%nat k s -> Q None k s) ->
  wp (for_range n i body) Q k s.
Proof.
  revert i k s. induction n as [|n IH]; intros i k s Hi Hb Hq; simpl.
  - apply wp_ret, Hq. by rewrite Nat.add_0_r.
  - apply wp_bind. eapply wp_mono; [apply Hb; [lia|done]|].
    intros [x|] k' s'; simpl; [by intros; apply wp_ret|].
    intros HI. apply IH; [done| |].
    + intros. apply Hb; [lia|done].
    + intros k0 s0 H0. apply Hq. by rewrite <- Nat.add_succ_comm.
Qed.

(** The invariant form used when the loop never leaves early. *)
Lemma wp_for_inv {S R} (I : nat -> S -> Prop) n i (body : nat -> M S (option R))
    (Q : option R -> nat -> S -> Prop) k s :
  I k s ->
  (forall j k s, (i <= j < i + n)%nat -> I k s ->
    wp (body j) (fun r k' s' =>
      match r with Some _ => Q r k' s' | None => I k' s' end) k s) ->
  (forall k s, I k s -> Q None k s) ->
  wp (for_range n i body) Q k s.
Proof. intros Hi Hb Hq. apply (wp_for (fun _ => I)); auto. Qed.

Lemma wp_for_acc {S Acc R} (I : nat -> Acc -> nat -> S -> Prop) n i
    (body : nat -> Acc -> M S (Acc + R)) acc Q k s :
  I i acc k s ->
  (forall j a k s, (i <= j < i + n)%nat -> I j a k s ->
    wp (body j a) (fun r k' s' =>
      match r with inr _ => Q r k' s' | inl a' => I (Datatypes.S j) a' k' s' end) k s) ->
  (forall a k s, I (i + n)%nat a k s -> Q (inl a) k s) ->
  wp (for_acc n i body acc) Q k s.
Proof.
  revert i acc k s. induction n as [|n IH]; intros i acc k s Hi Hb Hq; simpl.
  - apply wp_ret, Hq. by rewrite Nat.add_0_r.
  - apply wp_bind. eapply wp_mono; [apply Hb; [lia|done]|].
    intros [a|x] k' s'; simpl; [|by intros; apply wp_ret].
    intros HI. apply IH; [done| |].
    + intros. apply Hb; [lia|done].
    + intros a0 k0 s0 H0. apply Hq. by rewrite <- Nat.add_succ_comm.
Qed.

(** Linear search: the first index that satisfies a test leaves the loop. *)
Lemma wp_find {S R} n (p : S -> nat -> bool) (hit : S -> nat -> M S (option R)) (Q : option R -> nat -> S -> Prop) k s :
  (forall i, (i < n)%nat -> p s i = true -> (forall j, (j < i)%nat -> p s j = false) ->
     wp (hit s i) (fun r k' s' => r <> None /\ Q r k' s') k s) ->
  ((forall i, (i < n)%nat -> p s i = false) -> Q None k s) ->
  wp (for_range n 0 (fun i => s <- get ;; if p s i then hit s i else ret None)) Q k s.
Proof.
  intros H1 H0.
  apply (wp_for (fun i k1 s1 => k1 = k /\ s1 = s /\ forall j, (j < i)%nat -> p s j = false)).
  - split; [done|]. split; [done|lia].
  - intros j ? ? Hj (-> & -> & Hno). apply wp_bind, wp_get, wp_if; intros Hp.
    + eapply wp_mono; [apply H1; [lia|done|done]|]. intros [r|] k' s' [? HQ]; done.
    + apply wp_ret. split; [done|]. split; [done|]. intros i Hi.
      destruct (decide (i = j)) as [->|]; [done|]. apply Hno. lia.
  - intros ? ? (-> & -> & Hno). apply H0. intros i Hi. apply Hno. lia.
Qed.

(** Taking a free lock, and releasing a held one. *)
Section LockRules.
Context `{E : Env} {S : Type} `{HasMutex S}.

Lemma wp_lock (Q : Z -> nat -> S -> Prop) k s :
  get_mutex s = MFree ->
  (env_lock k = 0 -> Q 0 (Datatypes.S k) (set_mutex MHeld s)) ->
  (forall r, r <> 0 -> env_lock k = r -> Q r (Datatypes.S k) s) ->
  wp pthread_lock Q k s.
Proof.
  intros Hm H0 H1. unfold pthread_lock. apply wp_bind, wp_ask, wp_if; intros Hr.
  - apply wp_bind, wp_modify, wp_ret. apply Z.eqb_eq in Hr. rewrite Hr, Hm. auto.
  - apply wp_ret. apply Z.eqb_neq in Hr. auto.
Qed.

Lemma wp_unlock (Q : unit -> nat -> S -> Prop) k s :
  get_mutex s = MHeld -> Q tt k (set_mutex MFree s) -> wp pthread_unlock Q k s.
Proof. intros Hm HQ. unfold pthread_unlock. apply wp_modify. by rewrite Hm. Qed.
End LockRules.

(** ** Tables with expiring slots

    Several functions walk a fixed table, skip inactive slots, deactivate the
    expired ones and stop at the first live slot that matches.  The rule below
    is proved once for any table and any match. *)
Section Scan.
Context `{E : Env} {S T R : Type} `{Inhabited T}.
Context (tbl : S -> list T) (put_tbl : list T -> S -> S).
Context (tbl_put : forall l s, tbl (put_tbl l s) = l).
Context (put_id : forall s, put_tbl (tbl s) s = s).
Context (put_put : forall l l' s, put_tbl l (put_tbl l' s) = put_tbl l s).
Context (active : T -> bool) (expires : T -> Z) (deactivate : T -> T) (matches : T -> bool) (result : T -> R).

Definition scan_body (index : nat) : M S (option R) :=
  s <- get ;;
  let slot := tbl s !!! index in
  if negb (active slot) then ret None
  else
    now <- time_NULL ;;
    if expires slot <=? now
    then modify (fun s => put_tbl (<[index := deactivate slot]> (tbl s)) s) ;; ret None
    else if matches slot then ret (Some (result slot)) else ret None.

(** A slot is kept, or deactivated because it had expired by some tick of [k, k'). *)
Definition swept (k k' : nat) (a b : T) : Prop :=
  b = a \/ (active a = true /\ b = deactivate a /\ exists j, (k <= j < k')%nat /\ expires a <= env_clock j).

Definition scan_post k s (r : option R) k' s' : Prop :=
  (k <= k')%nat /\
  exists l', s' = put_tbl l' s /\ Forall2 (swept k k') (tbl s) l' /\
  match r with
  | Some v => exists i slot, tbl s !! i = Some slot /\ l' !! i = Some slot /\ active slot = true /\
      matches slot = true /\ v = result slot /\ exists j, (k <= j < k')%nat /\ env_clock j < expires slot
  | None => forall i slot, tbl s !! i = Some slot -> active slot = true -> matches slot = true ->
      exists j, (k <= j < k')%nat /\ expires slot <= env_clock j
  end.

Lemma swept_mono k k1 k2 a b : (k1 <= k2)%nat -> swept k k1 a b -> swept k k2 a b.
Proof. intros Hk [->|(Ha & -> & j & Hj & Hc)]; [by left|]. right. split; [done|]. split; [done|]. exists j. split; [lia|done]. Qed.

Definition scan_inv k s (n : nat) k1 s1 : Prop :=
  (k <= k1)%nat /\ exists l1, s1 = put_tbl l1 s /\ Forall2 (swept k k1) (tbl s) l1 /\
  (forall i, (n <= i)%nat -> l1 !! i = tbl s !! i) /\
  (forall i slot, (i < n)%nat -> tbl s !! i = Some slot -> active slot = true -> matches slot = true ->
      exists j, (k <= j < k1)%nat /\ expires slot <= env_clock j).

Lemma scan_inv_next k s n k1 k2 s1 slot :
  (k1 <= k2)%nat -> scan_inv k s n k1 s1 -> tbl s !! n = Some slot ->
  (active slot = true -> matches slot = true -> exists j, (k <= j < k2)%nat /\ expires slot <= env_clock j) ->
  scan_inv k s (Datatypes.S n) k2 s1.
Proof.
  intros Hk (Hk1 & l1 & -> & Hf & Hr & Hn) Hs Hno. split; [lia|]. exists l1. split; [done|]. split.
  - eapply Forall2_impl; [exact Hf|]. intros a b. by apply swept_mono.
  - split; [intros i Hi; apply Hr; lia|]. intros i sl Hi Hsl Ha Hm.
    destruct (decide (i = n)) as [->|]; [simplify_eq; auto|].
    destruct (Hn i sl) as (j & Hj & Hc); [lia|done..|]. exists j. split; [lia|done].
Qed.

Lemma wp_scan n k s (Q : option R -> nat -> S -> Prop) :
  length (tbl s) = n ->
  (forall r k' s', scan_post k s r k' s' -> Q r k' s') ->
  wp (for_range n 0 scan_body) Q k s.
Proof.
  intros Hlen HQ. eapply (wp_mono _ (scan_post k s)); [|done].
  apply (wp_for (scan_inv k s)).
  - split; [done|]. exists (tbl s). split; [done|]. split; [|split; [done|intros; lia]].
    apply Forall2_same_length_lookup_2; [done|]. intros i x y Hx Hy. simplify_eq. by left.
  - intros n' k1 s1 Hn' Hinv. pose proof Hinv as (Hk1 & l1 & -> & Hf & Hr & Hno).
    destruct (lookup_lt_is_Some_2 (tbl s) n') as [slot Hslot]; [lia|].
    unfold scan_body. apply wp_bind, wp_get. cbv zeta. rewrite tbl_put.
    assert (Hsl : l1 !!! n' = slot) by (apply list_lookup_total_correct; rewrite Hr by lia; done).
    rewrite Hsl. apply wp_if; intros Ha; bool_prop.
    + apply wp_ret. eapply (scan_inv_next _ _ _ k1); [done..|]. congruence.
    + apply wp_bind, wp_ask, wp_if; intros He; bool_prop.
      * apply wp_bind, wp_modify, wp_ret. rewrite tbl_put, put_put. split; [lia|].
        eexists. split; [done|]. split; [|split].
        -- apply Forall2_same_length_lookup_2; [rewrite length_insert; by eapply Forall2_length|].
           intros i x y Hx Hy. destruct (decide (i = n')) as [->|Hne].
           ++ rewrite list_lookup_insert_eq in Hy by (rewrite <- (Forall2_length _ _ _ Hf); lia).
              simplify_eq. right. split; [done|]. split; [done|]. exists k1. split; [lia|done].
           ++ rewrite list_lookup_insert_ne in Hy by done.
              apply (swept_mono k k1); [lia|]. by eapply Forall2_lookup_lr.
        -- intros i Hi. rewrite list_lookup_insert_ne by lia. apply Hr. lia.
        -- intros i sl Hi Hs Hact Hm. destruct (decide (i = n')) as [->|].
           ++ simplify_eq. exists k1. split; [lia|done].
           ++ destruct (Hno i sl) as (j & Hj & Hc); [lia|done..|]. exists j. split; [lia|done].
      * apply wp_if; intros Hm; apply wp_ret.
        -- split; [lia|]. exists l1. split; [done|]. split.
           ++ eapply Forall2_impl; [exact Hf|]. intros a b. apply swept_mono. lia.
           ++ exists n', slot. rewrite Hr by lia. do 5 (split; [done|]). exists k1. split; [lia|done].
        -- eapply (scan_inv_next _ _ _ k1); [lia|done..|]. congruence.
  - intros k1 s1 (Hk1 & l1 & -> & Hf & Hr & Hno). split; [done|]. exists l1. split; [done|]. split; [done|].
    intros i slot Hs. apply (Hno i slot); [|done]. apply lookup_lt_Some in Hs. lia.
Qed.

(** The same scan between a lock and an unlock of the state. *)
Lemma scan_post_between (f g : S -> S) k s r k' s' :
  (tbl (f s) = tbl s) -> (forall l, g (put_tbl l (f s)) = put_tbl l s) ->
  scan_post k (f s) r k' s' -> scan_post k s r k' (g s').
Proof.
  intros Hf Hg (Hk & l' & -> & Hsw & Hr). split; [done|]. exists l'. rewrite Hf in *. by split; [apply Hg|].
Qed.

(** *** With a clock that does not go backwards *)
Context `{!ClockMono E} (dead : forall a, active (deactivate a) = false).

(** Slot [a] is live at time [t]. *)
Definition live (t : Z) (a : T) : Prop := active a = true /\ t < expires a.

Lemma swept_live k k' t a b : swept k k' a b -> env_clock k' <= t -> live t b <-> live t a.
Proof.
  intros [->|(Ha & -> & j & Hj & Hc)] Ht; [done|]. unfold live. rewrite dead.
  pose proof (clock_mono j k'). split; [by intros [? _]|]. intros [_ H1]. lia.
Qed.

Lemma swept_live_eq k k' t a b : swept k k' a b -> env_clock k' <= t -> live t a -> b = a.
Proof.
  intros [->|(Ha & -> & j & Hj & Hc)] Ht [_ H1]; [done|]. pose proof (clock_mono j k'). lia.
Qed.

Lemma scan_sound k s v k' s' : scan_post k s (Some v) k' s' ->
  exists i slot, tbl s !! i = Some slot /\ live (env_clock k) slot /\ matches slot = true /\ v = result slot.
Proof.
  intros (_ & l' & _ & _ & i & slot & Hs & _ & Ha & Hm & Hv & j & Hj & Hc).
  exists i, slot. split; [done|]. split; [split; [done|]|done]. pose proof (clock_mono k j). lia.
Qed.

Lemma scan_complete k s k' s' i slot : scan_post k s None k' s' ->
  tbl s !! i = Some slot -> matches slot = true -> ~ live (env_clock k') slot.
Proof.
  intros (_ & l' & _ & _ & Hno) Hs Hm [Ha Hl]. destruct (Hno i slot Hs Ha Hm) as (j & Hj & Hc).
  pose proof (clock_mono j k'). lia.
Qed.

(** The live slots are the ones they were. *)
Lemma scan_keeps k s r k' s' t i slot : scan_post k s r k' s' -> env_clock k' <= t ->
  live t slot -> tbl s' !! i = Some slot <-> tbl s !! i = Some slot.
Proof.
  intros (_ & l' & -> & Hf & _) Ht Hl. rewrite tbl_put. split; intros Hs.
  - destruct (Forall2_lookup_r _ _ _ _ _ Hf Hs) as (a & Ha & Hsw).
    pose proof (proj1 (swept_live _ _ _ _ _ Hsw Ht) Hl) as Hla.
    by rewrite (swept_live_eq _ _ _ _ _ Hsw Ht Hla).
  - destruct (Forall2_lookup_l _ _ _ _ _ Hf Hs) as (b & Hb & Hsw).
    by rewrite <- (swept_live_eq _ _ _ _ _ Hsw Ht Hl).
Qed.
End Scan.

(** One step of symbolic execution, and its iteration.  Conditionals on
    booleans are split and their tests become hypotheses. *)
Ltac wp_step :=
  cbv beta;
  lazymatch goal with
  | |- wp (bind _ _) _ _ _ => apply wp_bind
  | |- wp (ret _) _ _ _ => apply wp_ret
  | |- wp get _ _ _ => apply wp_get
  | |- wp (put _) _ _ _ => apply wp_put
  | |- wp (modify _) _ _ _ => apply wp_modify
  | |- wp (ask _) _ _ _ => apply wp_ask
  | |- wp time_NULL _ _ _ => apply wp_ask
  | |- wp (RAND_bytes _) _ _ _ => apply wp_ask
  | |- wp alloc _ _ _ => apply wp_ask
  | |- wp io _ _ _ => apply wp_ask
  | |- wp short_count _ _ _ => apply wp_ask
  | |- wp (zoom _ _ _) _ _ _ => apply wp_zoom
  | |- wp (if _ then _ else _) _ _ _ => apply wp_if; intros
  | |- wp pthread_init _ _ _ => unfold pthread_init
  | |- wp pthread_destroy _ _ _ => unfold pthread_destroy
  end.
Ltac wp_run := repeat wp_step.

#[global] Arguments for_range : simpl never.
#[global] Arguments for_acc : simpl never.
#[global] Arguments bind : simpl never.
#[global] Arguments wp : simpl never.

(** Turn a goal about one run, [m k s = (r, (k', s')) -> G], into a goal on
    the program logic. *)
Ltac to_wp :=
  let He := fresh "He" in intros He;
  lazymatch type of He with
  | ?m ?k ?s = ((?a, ?b, ?c), (?k', ?s')) =>
      pattern a, b, c, k', s';
      match goal with |- ?G a b c k' s' =>
        apply (wp_use m (fun x k s => G (fst (fst x)) (snd (fst x)) (snd x) k s) k s (a, b, c) k' s'); [|exact He] end
  | ?m ?k ?s = ((?a, ?b), (?k', ?s')) =>
      pattern a, b, k', s';
      match goal with |- ?G a b k' s' =>
        apply (wp_use m (fun x k s => G (fst x) (snd x) k s) k s (a, b) k' s'); [|exact He] end
  | ?m ?k ?s = (?a, (?k', ?s')) =>
      pattern a, k', s';
      match goal with |- ?G a k' s' => apply (wp_use m G k s a k' s'); [|exact He] end
  end; clear He; cbv beta.

(** Reduce the tests the previous steps have decided. *)
Ltac reduce_tests :=
  cbn [negb orb andb Z.eqb Z.leb Z.ltb Z.compare Pos.eqb Nat.eqb Nat.leb Nat.ltb default option_rect].

(** Enter a critical section: the lock is free; both outcomes of the call. *)
Ltac enter Hl :=
  apply wp_bind, wp_lock; [exact Hl|intros Hlk; reduce_tests
  |let r := fresh "r" in let Hr := fresh "Hr" in intros r Hr Hlk; rewrite (proj2 (Z.eqb_neq r 0) Hr); reduce_tests].

(** Leave it. *)
Ltac leave := apply wp_bind, wp_unlock; [done|].

(** A run, taken apart. *)
Definition result {S A} (m : M S A) k s : A := fst (m k s).
Definition tick {S A} (m : M S A) k s : nat := fst (snd (m k s)).
Definition final {S A} (m : M S A) k s : S := snd (snd (m k s)).

Lemma run_eta {S A} (m : M S A) k s : m k s = (result m k s, (tick m k s, final m k s)).
Proof. unfold result, tick, final. by destruct (m k s) as [a [k' s']]. Qed.
Lemma run_eta2 {S A B} (m : M S (A * B)) k s :
  m k s = ((fst (result m k s), snd (result m k s)), (tick m k s, final m k s)).
Proof. unfold result, tick, final. by destruct (m k s) as [[a b] [k' s']]. Qed.

(** ** A concrete environment, for the examples

    The clock starts at a fixed date and advances by one second every call;
    every other call succeeds (after 2^40 calls it stands still). *)
Module Sample.
Definition start : Z := 1700000000.
#[export] Instance env : Env := {
  env_clock k := start + Z.min (Z.of_nat k) (2 ^ 40);
  env_rand k n := Some ((fun i => Z.of_nat (k * 7 + i) mod 256) <$> seq 0 n);
  env_lock _ := 0;
  env_init _ := 0;
  env_alloc _ := true;
  env_io _ := true;
  env_short _ := 0%nat
}.
#[export] Instance rand_ok : RandOk env.
Proof.
  split; simpl; intros k n bs [= <-]; [by rewrite length_fmap, length_seq|].
  apply Forall_fmap, Forall_true. intros x. simpl. apply Z.mod_pos_bound. lia.
Qed.
#[export] Instance clock_ok : ClockMono env.
Proof. intros i j Hij. simpl. lia. Qed.
#[export] Instance range_ok : ClockRange env.
Proof.
intros k. change (env_clock k) with (start + Z.min (Z.of_nat k) (2 ^ 40)). unfold LONG_MIN, LONG_MAX, start. lia.
Qed.
#[export] Instance ios_ok : IoOk env.
Proof. done. Qed.
#[export] Instance rands_ok : RandTotal env.
Proof. done. Qed.
#[export] Instance locks_ok : LocksOk env.
Proof. done. Qed.
#[export] Instance allocs_ok : AllocOk env.
Proof. done. Qed.
End Sample.
