(* ===== verification/CLib.v ===== *)
(** * CLib: the string functions of the C library the code calls

    [strcmp], [strchr], [strrchr], [strstr], [strncmp], the [snprintf]
    conversions in use and [strtol], on C strings, with their lemmas. *)

From stdpp Require Import base numbers list strings gmap.
From Stdlib Require Import ZArith Lia Ascii.
From S2P Require Import Prelude.

(** ** Comparison and search *)

Fixpoint strcmp (a b : cstring) : Z :=
  match a, b with
  | [], [] => 0
  | [], y :: _ => - code y
  | x :: _, [] => code x
  | x :: a', y :: b' => if code x =? code y then strcmp a' b' else code x - code y
  end.

(** Every character of a C string is non-zero. *)
Definition c_string (s : cstring) : Prop := Forall (fun c => code c <> 0) s.

#[export] Instance c_string_dec s : Decision (c_string s).
Proof. unfold c_string. apply _. Defined.

Definition streq (a b : cstring) : bool := bool_decide (a = b).

(** [strchr(s, c)]: the suffix that starts at the first [c]. *)
Fixpoint strchr (s : cstring) (c : ascii) : option cstring :=
  match s with
  | [] => None
  | x :: s' => if bool_decide (x = c) then Some s else strchr s' c
  end.

(** [strrchr(s, c)]: the suffix that starts at the last [c]. *)
Fixpoint strrchr (s : cstring) (c : ascii) : option cstring :=
  match s with
  | [] => None
  | x :: s' =>
      match strrchr s' c with
      | Some r => Some r
      | None => if bool_decide (x = c) then Some s else None
      end
  end.

Fixpoint is_prefix (p s : cstring) : bool :=
  match p, s with
  | [], _ => true
  | x :: p', y :: s' => bool_decide (x = y) && is_prefix p' s'
  | _ :: _, [] => false
  end.

(** [strstr(s, p)]: the suffix of [s] that starts at the first [p]. *)
Fixpoint strstr (s p : cstring) : option cstring :=
  if is_prefix p s then Some s
  else match s with [] => None | _ :: s' => strstr s' p end.

(** The C string held by a character array: what precedes the first NUL. *)
Fixpoint cstr (buf : list ascii) : cstring :=
  match buf with
  | [] => []
  | c :: buf' => if code c =? 0 then [] else c :: cstr buf'
  end.

(** ** Printing *)

Definition digit (d : Z) : ascii := chr (48 + d).

Fixpoint dec_loop (fuel : nat) (n : Z) (acc : cstring) : cstring :=
  match fuel with
  | O => acc
  | S fuel' =>
      if n <? 10 then digit n :: acc
      else dec_loop fuel' (n / 10) (digit (n mod 10) :: acc)
  end.

(** [%zu] and [%u]: decimal digits; [S (log2 n)] rounds are enough. *)
Definition show_nat (n : Z) : cstring := dec_loop (S (Z.to_nat (Z.log2 n))) n [].

(** [%ld] *)
Definition show_long (n : Z) : cstring :=
  if n <? 0 then "-"%char :: show_nat (- n) else show_nat n.

Definition hex_digit (d : Z) : ascii := if d <? 10 then chr (48 + d) else chr (87 + d).

(** [%04x] of a value below 65536 *)
Definition show_hex4 (n : Z) : cstring :=
  [hex_digit (n / 4096); hex_digit (n / 256 mod 16); hex_digit (n / 16 mod 16); hex_digit (n mod 16)].

(** The conversions of the format strings in use. *)
Inductive fmt := Lit (s : cstring) | Str (s : cstring) | Long (z : Z) | UInt (z : Z) | Size (z : Z) | Hex4 (z : Z).

Definition fmt_text (f : fmt) : cstring :=
  match f with
  | Lit s | Str s => s
  | Long z => show_long z
  | UInt z | Size z => show_nat z
  | Hex4 z => show_hex4 z
  end.
Definition sprintf (fs : list fmt) : cstring := mjoin (fmt_text <$> fs).

(** [snprintf(dest, size, ...)] with [size > 0]: at most [size - 1] bytes. *)
Definition snprintf (size : nat) (fs : list fmt) : cstring := take (size - 1) (sprintf fs).

(** ** strtol, base 10 *)

Definition isspace (c : ascii) : bool :=
  (code c =? 32) || ((9 <=? code c) && (code c <=? 13)).
Definition isdigit (c : ascii) : bool := (48 <=? code c) && (code c <=? 57).

Fixpoint skip_spaces (s : cstring) : cstring :=
  match s with
  | c :: s' => if isspace c then skip_spaces s' else s
  | [] => []
  end.

Fixpoint span_digits (s : cstring) : cstring * cstring :=
  match s with
  | c :: s' => if isdigit c then let '(d, r) := span_digits s' in (c :: d, r) else ([], s)
  | [] => ([], [])
  end.

Definition dec_value (acc : Z) (ds : cstring) : Z :=
  fold_left (fun v c => 10 * v + (code c - 48)) ds acc.

Definition clamp_long (z : Z) : Z := Z.max LONG_MIN (Z.min LONG_MAX z).

(** The value and [*endptr], as the suffix it points to. *)
Definition strtol (s : cstring) : Z * cstring :=
  let s1 := skip_spaces s in
  let '(neg, s2) := match s1 with
    | c :: t => if bool_decide (c = "-"%char) then (true, t)
                else if bool_decide (c = "+"%char) then (false, t) else (false, s1)
    | [] => (false, s1) end in
  let '(ds, rest) := span_digits s2 in
  match ds with
  | [] => (0, s)
  | _ => (clamp_long (if neg then - dec_value 0 ds else dec_value 0 ds), rest)
  end.

(** ** Lemmas: comparison *)

Lemma strcmp_refl a : strcmp a a = 0.
Proof. induction a as [|x a IH]; simpl; [done|]. by rewrite Z.eqb_refl. Qed.

Lemma strcmp_eq a b : c_string a -> c_string b -> strcmp a b = 0 <-> a = b.
Proof.
  intros Ha Hb. split; [|intros ->; apply strcmp_refl].
  revert b Hb. induction Ha as [|x a Hx Ha IH]; intros b Hb; destruct Hb as [|y b Hy Hb]; simpl; try lia; [done|].
  pose proof (code_bounds x). destruct (Z.eqb_spec (code x) (code y)) as [E|E]; [|lia].
  intros H0. f_equal; [by apply code_inj|by apply IH].
Qed.

Lemma streq_true a b : streq a b = true <-> a = b.
Proof. apply bool_decide_eq_true. Qed.
Lemma streq_false a b : streq a b = false <-> a <> b.
Proof. apply bool_decide_eq_false. Qed.
Lemma streq_refl a : streq a a = true.
Proof. by apply streq_true. Qed.

(** ** Lemmas: search *)

Lemma is_prefix_spec p s : is_prefix p s = true <-> exists r, s = p ++ r.
Proof.
  revert s. induction p as [|x p IH]; intros s; simpl; [split; eauto|].
  destruct s as [|y s]; [split; [done|intros [r ?]; done]|].
  rewrite andb_true_iff, bool_decide_eq_true, IH. split.
  - intros [-> [r ->]]. by exists r.
  - intros [r Hr]. simplify_eq. split; eauto.
Qed.

Lemma strchr_app_notin (s t : cstring) c :
  c ∉ s -> strchr (s ++ c :: t) c = Some (c :: t).
Proof.
  induction s as [|x s IH]; intros Hn; simpl.
  - by rewrite bool_decide_true.
  - rewrite bool_decide_false by set_solver. apply IH. set_solver.
Qed.

Lemma strrchr_some s c r : strrchr s c = Some r -> exists p q, s = p ++ c :: q /\ r = c :: q /\ c ∉ q.
Proof.
  induction s as [|x s IH]; simpl; [done|].
  destruct (strrchr s c) as [r'|] eqn:E.
  - intros [= <-]. destruct (IH eq_refl) as (p & q & -> & -> & Hq). by exists (x :: p), q.
  - case_bool_decide as Hx; [|done]. intros [= <-]. subst. exists [], s. split; [done|split; [done|]].
    clear IH. revert E. induction s as [|y s IHs]; simpl; intros E; [set_solver|].
    destruct (strrchr s c); [done|]. case_bool_decide; [done|]. set_solver.
Qed.

Lemma strrchr_none s c : strrchr s c = None <-> c ∉ s.
Proof.
  induction s as [|x s IH]; simpl; [set_solver|].
  destruct (strrchr s c) as [r|]; [split; [done|]|].
  - intros Hn. exfalso. assert (c ∉ s) as Hs by set_solver. by apply IH in Hs.
  - case_bool_decide as Hx; [split; [done|set_solver]|]. split; [|done]. intros _.
    pose proof (proj1 IH eq_refl). set_solver.
Qed.

Lemma strrchr_app p q c : c ∉ q -> strrchr (p ++ c :: q) c = Some (c :: q).
Proof.
  intros Hq. induction p as [|x p IH]; simpl; [|by rewrite IH].
  by rewrite (proj2 (strrchr_none q c) Hq), bool_decide_true.
Qed.

Lemma strstr_step s p : is_prefix p s = false -> strstr s p = match s with [] => None | _ :: s' => strstr s' p end.
Proof. destruct s; simpl; intros ->; done. Qed.

Lemma strstr_here p t : strstr (p ++ t) p = Some (p ++ t).
Proof.
  assert (H : is_prefix p (p ++ t) = true) by (apply is_prefix_spec; eauto).
  destruct (p ++ t) eqn:E; simpl; by rewrite H.
Qed.

Lemma cstr_id s : c_string s -> cstr s = s.
Proof.
  induction 1 as [|c s Hc Hs IH]; simpl; [done|]. destruct (Z.eqb_spec (code c) 0); [done|]. by rewrite IH.
Qed.

Lemma cstr_c_string buf : c_string (cstr buf).
Proof. induction buf as [|c b IH]; simpl; [constructor|]. case_cond; constructor; auto; lia. Qed.

Lemma cstr_nil buf : cstr buf = [] <-> match buf with [] => True | c :: _ => code c = 0 end.
Proof. destruct buf as [|c b]; simpl; [done|]. case_cond; split; done. Qed.

(** ** Lemmas: printing and reading numbers *)

Lemma code_digit d : 0 <= d < 10 -> code (digit d) = 48 + d.
Proof. intros. unfold digit. apply code_chr. lia. Qed.

Lemma isdigit_digit d : 0 <= d < 10 -> isdigit (digit d) = true.
Proof. intros. unfold isdigit. rewrite code_digit by done. apply andb_true_iff. split; apply Z.leb_le; lia. Qed.

Definition all_digits (s : cstring) : Prop := Forall (fun c => isdigit c = true) s.

Lemma dec_loop_spec fuel n acc :
  0 <= n < 2 ^ Z.of_nat fuel -> (0 < fuel)%nat ->
  exists ds, dec_loop fuel n acc = ds ++ acc /\ ds <> [] /\ all_digits ds /\
    forall a, dec_value a ds = a * 10 ^ Z.of_nat (length ds) + n.
Proof.
  revert n acc. induction fuel as [|fuel IH]; intros n acc Hn Hf; [lia|]. simpl.
  destruct (Z.ltb_spec n 10) as [Hlt|Hge].
  - exists [digit n]. split; [done|]. split; [done|]. split.
    + constructor; [apply isdigit_digit; lia|constructor].
    + intros a. unfold dec_value. simpl. rewrite code_digit by lia. lia.
  - assert (Hf' : (0 < fuel)%nat).
    { destruct fuel; [|lia]. simpl in Hn. lia. }
    destruct (IH (n / 10) (digit (n mod 10) :: acc)) as (ds & E & Hne & Hd & Hv); [|done|].
    { rewrite Nat2Z.inj_succ, Z.pow_succ_r in Hn by lia. split; [apply Z.div_pos; lia|].
      apply Z.div_lt_upper_bound; lia. }
    exists (ds ++ [digit (n mod 10)]). rewrite E, <- app_assoc. split; [done|].
    split; [by destruct ds|]. pose proof (Z.mod_pos_bound n 10). split.
    + apply Forall_app. split; [done|]. constructor; [apply isdigit_digit; lia|constructor].
    + intros a. unfold dec_value in *. rewrite fold_left_app, Hv. simpl. rewrite code_digit by lia.
      rewrite length_app. simpl. rewrite Nat2Z.inj_add, Z.pow_add_r by lia.
      pose proof (Z.div_mod n 10). simpl. lia.
Qed.

Lemma show_nat_spec n : 0 <= n ->
  show_nat n <> [] /\ all_digits (show_nat n) /\ dec_value 0 (show_nat n) = n.
Proof.
  intros Hn. destruct (dec_loop_spec (S (Z.to_nat (Z.log2 n))) n []) as (ds & E & Hne & Hd & Hv); [|lia|].
  - rewrite Nat2Z.inj_succ, Z2Nat.id by apply Z.log2_nonneg.
    destruct (Z.eq_dec n 0) as [->|]; [done|]. pose proof (Z.log2_spec n). lia.
  - unfold show_nat. rewrite E, app_nil_r. by rewrite Hv.
Qed.

(** A decimal text has at most [d] digits when its value is below [10 ^ d]. *)
Lemma dec_loop_length fuel n acc d :
  0 <= n < 10 ^ Z.of_nat d -> (0 < d)%nat ->
  (length (dec_loop fuel n acc) <= d + length acc)%nat.
Proof.
  revert n acc d. induction fuel as [|fuel IH]; intros n acc d Hn Hd; simpl; [lia|].
  destruct (Z.ltb_spec n 10) as [Hlt|Hge]; simpl; [lia|].
  destruct d as [|d]; [lia|]. rewrite Nat2Z.inj_succ, Z.pow_succ_r in Hn by lia.
  destruct d as [|d]; [simpl in Hn; lia|].
  pose proof (IH (n / 10) (digit (n mod 10) :: acc) (S d)) as H. simpl in H.
  enough (length (dec_loop fuel (n / 10) (digit (n mod 10) :: acc)) <= S (d + S (length acc)))%nat by lia.
  apply H; [|lia]. split; [apply Z.div_pos; lia|]. apply Z.div_lt_upper_bound; lia.
Qed.

Lemma show_nat_length n d :
  0 <= n < 10 ^ Z.of_nat d -> (0 < d)%nat -> (length (show_nat n) <= d)%nat.
Proof. intros Hn Hd. unfold show_nat. pose proof (dec_loop_length (S (Z.to_nat (Z.log2 n))) n [] d Hn Hd). simpl in *. lia. Qed.

Lemma show_long_length n : LONG_MIN <= n <= LONG_MAX -> (length (show_long n) <= 20)%nat.
Proof.
  unfold LONG_MIN, LONG_MAX, show_long. intros Hn. case_cond; simpl.
  - pose proof (show_nat_length (- n) 19). simpl in *. lia.
  - pose proof (show_nat_length n 19). simpl in *. lia.
Qed.

Lemma span_digits_app ds r :
  all_digits ds -> match r with [] => True | c :: _ => isdigit c = false end ->
  span_digits (ds ++ r) = (ds, r).
Proof.
  induction 1 as [|c ds Hc Hds IH]; intros Hr; simpl.
  - destruct r as [|c r]; simpl; [done|]. by rewrite Hr.
  - rewrite Hc, IH; done.
Qed.

Lemma isdigit_not_space c : isdigit c = true -> isspace c = false.
Proof. unfold isdigit, isspace. intros H. bool_prop. apply orb_false_iff. rewrite andb_false_iff, Z.eqb_neq, !Z.leb_gt. lia. Qed.

Lemma skip_spaces_hd c s : isspace c = false -> skip_spaces (c :: s) = c :: s.
Proof. simpl. by intros ->. Qed.

(** Reading back a printed number: [strtol] inverts [%ld], and leaves
    [*endptr] on what follows. *)
Lemma strtol_show_long n r :
  LONG_MIN <= n <= LONG_MAX ->
  match r with [] => True | c :: _ => isdigit c = false end ->
  strtol (show_long n ++ r) = (n, r).
Proof.
  intros Hn Hr.
  assert (Hpos : forall m, 0 <= m -> exists c ds, show_nat m = c :: ds /\ isdigit c = true /\ all_digits (c :: ds) /\ dec_value 0 (c :: ds) = m).
  { intros m Hm. destruct (show_nat_spec m Hm) as (Hne & Hd & Hv). destruct (show_nat m) as [|c ds]; [done|].
    exists c, ds. split; [done|]. split; [by inversion Hd|done]. }
  unfold show_long, strtol. destruct (Z.ltb_spec n 0) as [Hneg|Hneg].
  - destruct (Hpos (- n)) as (c & ds & -> & Hc & Hd & Hv); [lia|]. rewrite <- app_comm_cons.
    rewrite skip_spaces_hd by done. rewrite bool_decide_true by done. rewrite span_digits_app by done.
    cbv beta iota. rewrite Hv. f_equal. unfold clamp_long. lia.
  - destruct (Hpos n) as (c & ds & -> & Hc & Hd & Hv); [lia|]. rewrite <- app_comm_cons.
    rewrite skip_spaces_hd by (by apply isdigit_not_space).
    rewrite !bool_decide_false by (intros ->; vm_compute in Hc; done).
    rewrite app_comm_cons, span_digits_app by done.
    cbv beta iota. rewrite Hv. f_equal. unfold clamp_long. lia.
Qed.

Lemma show_long_nat n : 0 <= n -> show_long n = show_nat n.
Proof. intros. unfold show_long. case_cond; [lia|done]. Qed.

Lemma snprintf_length n fs : (0 < n)%nat -> (length (snprintf n fs) < n)%nat.
Proof. unfold snprintf. rewrite length_take. lia. Qed.

Lemma snprintf_fits n fs : (length (sprintf fs) < n)%nat -> snprintf n fs = sprintf fs.
Proof. intros H. unfold snprintf. apply take_ge. lia. Qed.

Lemma sprintf_str s : sprintf [Str s] = s.
Proof. unfold sprintf. simpl. apply app_nil_r. Qed.

(** ** copy_string

    The static helper of auth.c, peer_registry.c, storage.c and
    transfer_queue.c: [copy_string(dest, size, src)] with a destination of
    [size > 0] bytes. *)
Definition copy_string (size : nat) (src : option cstring) : cstring := snprintf size [Str (default [] src)].

Lemma copy_string_some n s : copy_string n (Some s) = take (n - 1) s.
Proof. unfold copy_string, snprintf. by rewrite sprintf_str. Qed.

Lemma copy_string_fits n s : (length s < n)%nat -> copy_string n (Some s) = s.
Proof. intros. rewrite copy_string_some. apply take_ge. lia. Qed.

Lemma c_string_take n s : c_string s -> c_string (take n s).
Proof. apply Forall_take. Qed.

Lemma copy_string_c n s : c_string (default [] s) -> c_string (copy_string n s).
Proof. intros H. unfold copy_string, snprintf. rewrite sprintf_str. by apply c_string_take. Qed.

Lemma strcmp_eqb a b : c_string a -> c_string b -> (strcmp a b =? 0) = bool_decide (a = b).
Proof.
  intros Ha Hb. destruct (Z.eqb_spec (strcmp a b) 0) as [H|H]; symmetry.
  - apply bool_decide_eq_true. by apply strcmp_eq.
  - apply bool_decide_eq_false. intros ->. by rewrite strcmp_refl in H.
Qed.
