(* ===== verification/Crypto.v ===== *)
(** * Crypto: random tokens and numeric codes (src/crypto.c)

    A destination buffer is [None] for NULL and [Some n] for an array of [n]
    bytes; the text a call leaves in it is returned beside the status. *)

From stdpp Require Import base numbers list strings gmap.
From Stdlib Require Import ZArith Lia Ascii.
From S2P Require Import Prelude Effects CLib.

Section Crypto.
Context `{E : Env} {S : Type}.

Definition crypto_random_bytes (buffer : bool) (length : nat) : M S (Z * list Z) :=
  if negb buffer || (length =? 0)%nat then ret (-1, [])
  else
    r <- RAND_bytes length ;;
    match r with Some bs => ret (0, bs) | None => ret (-1, []) end.

Definition HEX : cstring := lit "0123456789abcdef".

(** [dest[2i], dest[2i+1]] from [bytes[i]]. *)
Definition hex_pair (b : Z) : cstring :=
  [HEX !!! Z.to_nat (Z.land (Z.shiftr b 4) 15); HEX !!! Z.to_nat (Z.land b 15)].

Definition crypto_random_token (dest : option nat) (byte_count : nat) : M S (Z * option cstring) :=
  match dest with
  | None => ret (-1, None)
  | Some dest_size =>
      if (byte_count =? 0)%nat || (32 <? byte_count)%nat || (dest_size <=? byte_count * 2)%nat
      then ret (-1, None)
      else
        let* (r, bytes) := crypto_random_bytes true byte_count in
        if negb (r =? 0) then ret (-1, None)
        else ret (0, Some (mjoin (hex_pair <$> bytes)))
  end.

Definition crypto_random_numeric_code (dest : option nat) (digits : nat) : M S (Z * option cstring) :=
  match dest with
  | None => ret (-1, None)
  | Some dest_size =>
      if (digits =? 0)%nat || (16 <? digits)%nat || (dest_size <=? digits)%nat
      then ret (-1, None)
      else
        let* (r, bytes) := crypto_random_bytes true digits in
        if negb (r =? 0) then ret (-1, None)
        else ret (0, Some ((fun b => chr (48 + b mod 10)) <$> bytes))
  end.
End Crypto.

(** ** What a token is *)

Definition is_hex (c : ascii) : bool := bool_decide (c ∈ HEX).
Definition hex_token (n : nat) (s : cstring) : Prop :=
  length s = n /\ Forall (fun c => is_hex c = true) s.
Definition numeric_code (n : nat) (s : cstring) : Prop := length s = n /\ all_digits s.

(** Reference decoder of a hexadecimal text. *)
Definition hex_value (c : ascii) : Z := if isdigit c then code c - 48 else code c - 87.
Fixpoint hex_decode (s : cstring) : list Z :=
  match s with
  | a :: b :: s' => 16 * hex_value a + hex_value b :: hex_decode s'
  | _ => []
  end.

(** All bytes, for exhaustive checks. *)
Definition all_bytes : list Z := Z.of_nat <$> seq 0 256.

Lemma all_bytes_spec b : 0 <= b < 256 -> b ∈ all_bytes.
Proof.
  intros Hb. unfold all_bytes. apply list_elem_of_fmap. exists (Z.to_nat b).
  split; [lia|]. apply elem_of_seq. lia.
Qed.

Lemma forall_bytes (P : Z -> bool) : forallb P all_bytes = true -> forall b, 0 <= b < 256 -> P b = true.
Proof. intros H b Hb. rewrite forallb_forall in H. apply H, list_elem_of_In, all_bytes_spec, Hb. Qed.

Lemma hex_pair_ok b : 0 <= b < 256 ->
  Forall (fun c => is_hex c = true) (hex_pair b) /\ hex_decode (hex_pair b) = [b].
Proof.
  intros Hb.
  pose proof (forall_bytes (fun b => forallb is_hex (hex_pair b) && bool_decide (hex_decode (hex_pair b) = [b]))) as H.
  specialize (H ltac:(vm_compute; reflexivity) b Hb).
  apply andb_true_iff in H as [H1 H2]. apply bool_decide_eq_true in H2. split; [|done].
  apply Forall_forall. intros c Hc. rewrite forallb_forall in H1. by apply H1, list_elem_of_In.
Qed.

Lemma hex_decode_app a b s : hex_decode (a :: b :: s) = 16 * hex_value a + hex_value b :: hex_decode s.
Proof. done. Qed.

Lemma hex_text bs : Forall (fun b => 0 <= b < 256) bs ->
  hex_token (2 * length bs) (mjoin (hex_pair <$> bs)) /\ hex_decode (mjoin (hex_pair <$> bs)) = bs.
Proof.
  induction 1 as [|b bs Hb Hbs [[IHl IHh] IHd]]; [split; [split; [done|constructor]|done]|].
  destruct (hex_pair_ok b Hb) as [Hh Hd].
  rewrite fmap_cons. change (mjoin (hex_pair b :: ?x)) with (hex_pair b ++ mjoin x).
  split; [split|].
  - rewrite length_app, IHl. simpl. lia.
  - by apply Forall_app.
  - unfold hex_pair in *. rewrite <- !app_comm_cons, app_nil_l, hex_decode_app, IHd. rewrite hex_decode_app in Hd. by injection Hd as ->.
Qed.

Lemma digit_byte b : 0 <= b < 256 -> isdigit (chr (48 + b mod 10)) = true.
Proof. intros. pose proof (Z.mod_pos_bound b 10). apply isdigit_digit. lia. Qed.

Lemma hex_c_string n s : hex_token n s -> c_string s.
Proof.
  intros [_ H]. eapply Forall_impl; [exact H|]. intros c Hc.
  apply bool_decide_eq_true in Hc. intros Hz.
  assert (Forall (fun c => code c <> 0) HEX) as HF by (unfold HEX; simpl; repeat constructor; vm_compute; congruence).
  rewrite Forall_forall in HF. by apply (HF c).
Qed.

(** The parameter checks of both generators. *)
Lemma guards_false n m d x :
  ((n =? 0) || (m <? n) || (d <=? x))%nat = false <-> (0 < n <= m)%nat /\ (x < d)%nat.
Proof. rewrite !orb_false_iff, Nat.eqb_neq, Nat.ltb_ge, Nat.leb_gt. lia. Qed.

(** ** Correctness *)

Section CryptoSpec.
Context `{E : Env} {R : RandOk E} {S : Type}.
Implicit Types (k : nat) (s : S).

Lemma wp_random_bytes n (Q : Z * list Z -> nat -> S -> Prop) k s :
  (forall k' bs, (k <= k')%nat -> length bs = n -> Forall (fun b => 0 <= b < 256) bs -> n <> 0%nat -> Q (0, bs) k' s) ->
  (forall k', (k <= k')%nat -> Q (-1, []) k' s) ->
  wp (crypto_random_bytes true n) Q k s.
Proof.
  intros H0 H1. unfold crypto_random_bytes. apply wp_if; intros Hg; [by apply wp_ret, H1|].
  wp_run. destruct (env_rand k n) as [bs|] eqn:Er; apply wp_ret; [|apply H1; lia].
  apply H0; [lia|by eapply rand_length|by eapply rand_byte|]. simpl in Hg. by apply Nat.eqb_neq in Hg.
Qed.

(** The shape used by the callers: a token or a failure, the state unchanged. *)
Lemma wp_random_token dest n (Q : Z * option cstring -> nat -> S -> Prop) k s :
  (forall k' t, (k <= k')%nat -> hex_token (2 * n) t -> (2 * n < dest)%nat -> Q (0, Some t) k' s) ->
  (forall k', (k <= k')%nat -> Q (-1, None) k' s) ->
  wp (crypto_random_token (Some dest) n) Q k s.
Proof.
  intros H0 H1. unfold crypto_random_token. apply wp_if; intros Hg; [by apply wp_ret, H1|].
  apply wp_bind, wp_random_bytes.
  - intros k' bs Hk Hl Hb Hn. simpl. apply wp_ret. apply orb_false_iff in Hg as [_ Hg]. apply Nat.leb_gt in Hg.
    apply H0; [done| |lia]. rewrite <- Hl. by apply hex_text.
  - intros k' Hk. simpl. by apply wp_ret, H1.
Qed.

(** The failure is the generator's when the parameters are fine. *)
Lemma wp_random_token_why (Q : Z * option cstring -> nat -> S -> Prop) k s :
  (forall k' t, hex_token 16 t -> Q (0, Some t) k' s) ->
  (forall k', (exists j, env_rand j 8 = None) -> Q (-1, None) k' s) ->
  wp (crypto_random_token (Some 17%nat) 8) Q k s.
Proof.
intros H0 H1. unfold crypto_random_token, crypto_random_bytes. reduce_tests. apply wp_bind, wp_bind, wp_ask.
destruct (env_rand k 8) as [bs|] eqn:Er; apply wp_ret; reduce_tests; apply wp_ret; [|apply H1; by exists k].
apply H0. destruct (hex_text bs (rand_byte _ _ _ Er)) as [Ht _]. by rewrite (rand_length _ _ _ Er) in Ht.
Qed.

Lemma wp_random_code dest n (Q : Z * option cstring -> nat -> S -> Prop) k s :
  (forall k' t, (k <= k')%nat -> numeric_code n t -> n <> 0%nat -> Q (0, Some t) k' s) ->
  (forall k', (k <= k')%nat -> Q (-1, None) k' s) ->
  wp (crypto_random_numeric_code (Some dest) n) Q k s.
Proof.
  intros H0 H1. unfold crypto_random_numeric_code. apply wp_if; intros Hg; [by apply wp_ret, H1|].
  apply wp_bind, wp_random_bytes.
  - intros k' bs Hk Hl Hb Hn. simpl. apply wp_ret, H0; [done| |done]. split; [by rewrite length_fmap|].
    apply Forall_fmap. eapply Forall_impl; [exact Hb|]. intros b Hbb. by apply digit_byte.
  - intros k' Hk. simpl. by apply wp_ret, H1.
Qed.
End CryptoSpec.

Section CryptoTheorems.
Context (E : Env) (R : RandOk E) (S : Type).

(** A token is the hexadecimal text of fresh random bytes.  The call
    succeeds exactly when the destination can hold the text and its NUL, the
    byte count is between 1 and 32 and the generator answers; the text then
    has two lower-case hexadecimal digits per byte and decodes to the bytes
    the generator gave, so that distinct bytes give distinct tokens.  A
    failing call writes no token. *)
Theorem random_token_correct dest n k (s : S) r out k' s' :
  crypto_random_token dest n k s = ((r, out), (k', s')) ->
  s' = s /\
  (r = 0 <-> (exists d, dest = Some d /\ (2 * n < d)%nat) /\ (0 < n <= 32)%nat /\ env_rand k n <> None) /\
  (r = 0 -> exists t, out = Some t /\ hex_token (2 * n) t /\ env_rand k n = Some (hex_decode t)) /\
  (r <> 0 -> r = -1 /\ out = None).
Proof.
  to_wp. cbn [fst snd]. unfold crypto_random_token. destruct dest as [d|].
  2: { apply wp_ret. split; [done|]. split; [|done]. split; [done|]. intros ((d & ? & _) & _). done. }
  apply wp_if; intros Hg.
  - apply wp_ret. split; [done|]. split; [|done]. split; [done|]. intros ((d' & [= ->] & Hd) & Hn & _).
    apply not_false_iff_true in Hg. destruct Hg. apply guards_false. lia.
  - apply guards_false in Hg as [Hn Hd].
    unfold crypto_random_bytes. rewrite (proj2 (Nat.eqb_neq n 0)) by lia. reduce_tests.
    apply wp_bind, wp_bind, wp_ask. destruct (env_rand k n) as [bs|] eqn:Er; apply wp_ret; reduce_tests; apply wp_ret; cbn [fst snd].
    + destruct (hex_text bs (rand_byte _ _ _ Er)) as [Ht Hdec]. rewrite (rand_length _ _ _ Er) in Ht.
      split; [done|]. split; [|split; [|done]]; [split; [|done]|].
      * intros _. split; [exists d; split; [done|lia]|]. done.
      * intros _. eexists. split; [done|]. split; [done|]. by rewrite Hdec.
    + split; [done|]. split; [|done]. split; [done|]. by intros (_ & _ & ?).
Qed.

(** A numeric code has the digits asked for and nothing else.  The call
    succeeds exactly when the destination can hold the digits and a NUL, the
    count is between 1 and 16 and the generator answers; digit [i] is byte
    [i] modulo 10. *)
Theorem random_numeric_code_correct dest n k (s : S) r out k' s' :
  crypto_random_numeric_code dest n k s = ((r, out), (k', s')) ->
  s' = s /\
  (r = 0 <-> (exists d, dest = Some d /\ (n < d)%nat) /\ (0 < n <= 16)%nat /\ env_rand k n <> None) /\
  (r = 0 -> exists t bs, out = Some t /\ numeric_code n t /\ env_rand k n = Some bs /\
     forall i b, bs !! i = Some b -> exists c, t !! i = Some c /\ code c - 48 = b mod 10) /\
  (r <> 0 -> r = -1 /\ out = None).
Proof.
  to_wp. cbn [fst snd]. unfold crypto_random_numeric_code. destruct dest as [d|].
  2: { apply wp_ret. split; [done|]. split; [|done]. split; [done|]. intros ((d & ? & _) & _). done. }
  apply wp_if; intros Hg.
  - apply wp_ret. split; [done|]. split; [|done]. split; [done|]. intros ((d' & [= ->] & Hd) & Hn & _).
    apply not_false_iff_true in Hg. destruct Hg. apply guards_false. lia.
  - apply guards_false in Hg as [Hn Hd].
    unfold crypto_random_bytes. rewrite (proj2 (Nat.eqb_neq n 0)) by lia. reduce_tests.
    apply wp_bind, wp_bind, wp_ask. destruct (env_rand k n) as [bs|] eqn:Er; apply wp_ret; reduce_tests; apply wp_ret; cbn [fst snd].
    + pose proof (rand_byte _ _ _ Er) as Hb. split; [done|]. split; [|split; [|done]]; [split; [|done]|].
      * intros _. split; [exists d; split; [done|lia]|]. done.
      * intros _. eexists _, bs. split; [done|]. split; [|split; [done|]].
        -- split; [by rewrite length_fmap, (rand_length _ _ _ Er)|].
           apply Forall_fmap. eapply Forall_impl; [exact Hb|]. intros b Hbb. by apply digit_byte.
        -- intros i b Hi. eexists. rewrite list_lookup_fmap, Hi. split; [done|].
           pose proof (Z.mod_pos_bound b 10). rewrite code_chr; lia.
    + split; [done|]. split; [|done]. split; [done|]. by intros (_ & _ & ?).
Qed.
End CryptoTheorems.

(** ** Examples *)

Lemma random_token_witness :
  env_rand (Env := Sample.env) 3 2 = Some (hex_decode (lit "1516")).
Proof.
  destruct (random_token_correct Sample.env Sample.rand_ok unit (Some 5%nat) 2 3%nat tt 0 (Some (lit "1516")) 4%nat tt
    ltac:(vm_compute; reflexivity)) as (_ & _ & H & _).
  destruct (H eq_refl) as (t & Ht & _ & Hd). injection Ht as <-. exact Hd.
Defined.

Lemma random_numeric_code_witness : numeric_code 6 (lit "123456").
Proof.
  destruct (random_numeric_code_correct Sample.env Sample.rand_ok unit (Some 7%nat) 6 3%nat tt 0 (Some (lit "123456")) 4%nat tt
    ltac:(vm_compute; reflexivity)) as (_ & _ & H & _).
  destruct (H eq_refl) as (t & bs & Ht & Hn & _). injection Ht as <-. exact Hn.
Defined.
