(* ===== verification/JsonUtils.v ===== *)
(** * JsonUtils: growing text buffers and JSON escaping (src/json_utils.c)

    A [JsonBuf] is the triple [*buffer], [*length], [*capacity] every caller
    keeps in three locals and passes by address.  [*buffer] is the text before
    the terminating NUL, [None] for a NULL pointer. *)

From stdpp Require Import base numbers list strings gmap.
From Stdlib Require Import ZArith Lia Ascii.
From S2P Require Import Prelude Effects CLib.

Record JsonBuf := { jb_buffer : option cstring; jb_length : Z; jb_capacity : Z }.

(** [char *buffer = NULL; size_t length = 0; size_t capacity = 0;] *)
Definition empty_buf : JsonBuf := {| jb_buffer := None; jb_length := 0; jb_capacity := 0 |}.

Definition contents (b : JsonBuf) : cstring := default [] (jb_buffer b).

(** The doubling loop; [None] when the fuel runs out. *)
Fixpoint grow (fuel : nat) (new_capacity required_length : Z) : option Z :=
  if new_capacity <=? required_length then
    match fuel with
    | O => None
    | S fuel' => grow fuel' (size_t_wrap (new_capacity * 2)) required_length
    end
  else Some new_capacity.

(** From any positive capacity 64 doublings leave the 64-bit range. *)
Definition grow_fuel : nat := 64.

Section Json.
Context `{E : Env} {S : Type}.

Definition ensure_capacity (b : JsonBuf) (required_length : Z) : M S (Z * JsonBuf) :=
  match jb_buffer b, required_length <? jb_capacity b with
  | Some _, true => ret (0, b)
  | _, _ =>
      match grow grow_fuel (if 0 <? jb_capacity b then jb_capacity b else 256) required_length with
      | None => ret (-1, b)
      | Some new_capacity =>
          new_buffer <- alloc ;;
          if negb new_buffer then ret (-1, b)
          else ret (0, {| jb_buffer := Some (contents b); jb_length := jb_length b; jb_capacity := new_capacity |})
      end
  end.

(** The [memcpy] at [*length], the new length and the terminating NUL. *)
Definition put_text (b : JsonBuf) (text : cstring) : JsonBuf :=
  {| jb_buffer := Some (take (Z.to_nat (jb_length b)) (contents b) ++ text);
     jb_length := size_t_wrap (jb_length b + Z.of_nat (length text));
     jb_capacity := jb_capacity b |}.

Definition json_buffer_append (b : JsonBuf) (text : option cstring) : M S (Z * JsonBuf) :=
  match text with
  | None => ret (-1, b)
  | Some text =>
      let* (r, b1) := ensure_capacity b (size_t_wrap (jb_length b + Z.of_nat (length text) + 1)) in
      if negb (r =? 0) then ret (-1, b1) else ret (0, put_text b1 text)
  end.

(** [vsnprintf] returns an [int]: a longer text is an error. *)
Definition INT_MAX : Z := 2 ^ 31 - 1.

Definition json_buffer_appendf (b : JsonBuf) (format : list fmt) : M S (Z * JsonBuf) :=
  let required := Z.of_nat (length (sprintf format)) in
  if INT_MAX <? required then ret (-1, b)
  else
    let* (r, b1) := ensure_capacity b (size_t_wrap (jb_length b + required + 1)) in
    if negb (r =? 0) then ret (-1, b1)
    else
      ret (0, {| jb_buffer := Some (take (Z.to_nat (jb_length b1)) (contents b1) ++
                                    snprintf (Z.to_nat (jb_capacity b1 - jb_length b1)) format);
                 jb_length := size_t_wrap (jb_length b1 + required);
                 jb_capacity := jb_capacity b1 |}).

(** One round of the loop: the switch on the current character. *)
Definition append_escaped_char (c : ascii) (b : JsonBuf) : M S (Z * JsonBuf) :=
  if bool_decide (c = "\"%char) then json_buffer_append b (Some (lit "\\"))
  else if bool_decide (c = dquote) then json_buffer_append b (Some (jlit "\'"))
  else if code c =? 8 then json_buffer_append b (Some (lit "\b"))
  else if code c =? 12 then json_buffer_append b (Some (lit "\f"))
  else if code c =? 10 then json_buffer_append b (Some (lit "\n"))
  else if code c =? 13 then json_buffer_append b (Some (lit "\r"))
  else if code c =? 9 then json_buffer_append b (Some (lit "\t"))
  else if code c <? 32 then json_buffer_appendf b [Lit (lit "\u"); Hex4 (code c)]
  else json_buffer_append b (Some [c]).

Fixpoint escape_loop (cursor : cstring) (b : JsonBuf) : M S (Z * JsonBuf) :=
  match cursor with
  | [] => ret (0, b)
  | c :: rest =>
      let* (r, b') := append_escaped_char c b in
      if negb (r =? 0) then ret (-1, b') else escape_loop rest b'
  end.

Definition json_buffer_append_escaped (b : JsonBuf) (text : option cstring) : M S (Z * JsonBuf) :=
  match text with
  | None => json_buffer_append b (Some [])
  | Some text => escape_loop text b
  end.

(** [op1 != 0 || op2 != 0 || ...]: 0 when every call returned 0. *)
Fixpoint all_ok (ops : list (JsonBuf -> M S (Z * JsonBuf))) (b : JsonBuf) : M S (Z * JsonBuf) :=
  match ops with
  | [] => ret (0, b)
  | op :: ops' =>
      let* (r, b') := op b in
      if negb (r =? 0) then ret (-1, b') else all_ok ops' b'
  end.
Definition app_lit (s : cstring) (b : JsonBuf) := json_buffer_append b (Some s).
Definition app_esc (s : cstring) (b : JsonBuf) := json_buffer_append_escaped b (Some s).
Definition app_fmt (fs : list fmt) (b : JsonBuf) := json_buffer_appendf b fs.
End Json.

(** ** The text an escaped string adds *)

Definition escape_char (c : ascii) : cstring :=
  if bool_decide (c = "\"%char) then lit "\\"
  else if bool_decide (c = dquote) then jlit "\'"
  else if code c =? 8 then lit "\b"
  else if code c =? 12 then lit "\f"
  else if code c =? 10 then lit "\n"
  else if code c =? 13 then lit "\r"
  else if code c =? 9 then lit "\t"
  else if code c <? 32 then lit "\u" ++ show_hex4 (code c)
  else [c].
Definition escape (s : cstring) : cstring := mjoin (escape_char <$> s).

(** Reference reader of a JSON string after its opening quote (RFC 8259,
    section 7): the decoded text and what follows the closing quote.  Raw
    control characters are rejected. *)
Definition hex_val (c : ascii) : Z := if isdigit c then code c - 48 else code c - 87.
Definition simple_escape (e : ascii) : option ascii :=
  if bool_decide (e = dquote) || bool_decide (e = "\"%char) || bool_decide (e = "/"%char) then Some e
  else if bool_decide (e = "b"%char) then Some (chr 8)
  else if bool_decide (e = "f"%char) then Some (chr 12)
  else if bool_decide (e = "n"%char) then Some (chr 10)
  else if bool_decide (e = "r"%char) then Some (chr 13)
  else if bool_decide (e = "t"%char) then Some (chr 9)
  else None.
Definition hex4 (h1 h2 h3 h4 : ascii) : Z :=
  4096 * hex_val h1 + 256 * hex_val h2 + 16 * hex_val h3 + hex_val h4.
Fixpoint json_string (s : cstring) : option (cstring * cstring) :=
  match s with
  | [] => None
  | c :: r =>
      if bool_decide (c = dquote) then Some ([], r)
      else if code c <? 32 then None
      else if bool_decide (c = "\"%char) then
        match r with
        | [] => None
        | e :: r' =>
            if bool_decide (e = "u"%char) then
              match r' with
              | h1 :: h2 :: h3 :: h4 :: r'' => prod_map (cons (chr (hex4 h1 h2 h3 h4))) id <$> json_string r''
              | _ => None
              end
            else match simple_escape e with
                 | Some x => prod_map (cons x) id <$> json_string r'
                 | None => None
                 end
        end
      else prod_map (cons c) id <$> json_string r
  end.

(** ** The growth loop *)

Lemma grow_some fuel c req c' : 0 <= c -> grow fuel c req = Some c' -> req < c' /\ 0 <= c'.
Proof.
  revert c. induction fuel as [|fuel IH]; intros c Hc; simpl; case_cond; try done.
  - intros [= <-]. lia.
  - apply IH. unfold size_t_wrap, wrap. apply Z.mod_pos_bound. lia.
  - intros [= <-]. lia.
Qed.

Lemma grow_enough fuel c req :
  0 < c < 2 ^ 64 -> req < 2 ^ 63 -> 2 ^ 63 <= c * 2 ^ Z.of_nat fuel ->
  exists c', grow fuel c req = Some c' /\ req < c' /\ c' < 2 ^ 64 /\ c <= c' <= Z.max c (2 * req).
Proof.
  revert c. induction fuel as [|fuel IH]; intros c Hc Hr Hf; simpl.
  - simpl in Hf. case_cond; [lia|]. exists c. split; [done|lia].
  - case_cond; [|exists c; split; [done|lia]].
    rewrite Nat2Z.inj_succ, Z.pow_succ_r in Hf by lia.
    unfold size_t_wrap. rewrite wrap_small by lia.
    destruct (IH (c * 2)) as (c' & Hg & H1 & H2 & H3); [lia|lia|lia|].
    exists c'. split; [done|]. lia.
Qed.

(** ** Well-formed buffers *)

(** A buffer holds the whole text and its NUL inside its capacity. *)
Definition buf_ok (b : JsonBuf) : Prop :=
  match jb_buffer b with
  | None => jb_length b = 0 /\ jb_capacity b = 0
  | Some s => jb_length b = Z.of_nat (length s) /\ jb_length b < jb_capacity b < 2 ^ 64
  end.

(** A text this long still has room to grow. *)
Definition roomy (b : JsonBuf) (n : nat) : Prop := Z.of_nat (length (contents b) + n) + 1 < 2 ^ 63.

Lemma buf_ok_empty : buf_ok empty_buf.
Proof. done. Qed.

Lemma buf_ok_length b : buf_ok b -> jb_length b = Z.of_nat (length (contents b)).
Proof. unfold buf_ok, contents. destruct (jb_buffer b); simpl; lia. Qed.

Section JsonSpec.
Context `{E : Env} {S : Type}.
Implicit Types (k : nat) (s : S) (b : JsonBuf) (Q : Z * JsonBuf -> nat -> S -> Prop).

(** What an append that added [t] leaves. *)
Definition appended b (t : cstring) b' : Prop :=
  buf_ok b' /\ contents b' = contents b ++ t /\ jb_buffer b' <> None.

(** Postcondition of an append: success, or a failed allocation. *)
Definition append_post b (t : cstring) (Q : Z * JsonBuf -> nat -> S -> Prop) s : Prop :=
  (forall k' b', appended b t b' -> Q (0, b') k' s) /\
  (forall k' b', (exists j, env_alloc j = false) -> buf_ok b' -> Q (-1, b') k' s).

Lemma wp_ensure b req Q k s :
  buf_ok b -> jb_length b <= req < 2 ^ 63 ->
  (forall k' b', buf_ok b' -> jb_length b' = jb_length b -> contents b' = contents b ->
      jb_buffer b' <> None -> req < jb_capacity b' -> Q (0, b') k' s) ->
  (forall k', (exists j, env_alloc j = false) -> Q (-1, b) k' s) ->
  wp (ensure_capacity b req) Q k s.
Proof.
  intros Hb Hr H0 H1. unfold ensure_capacity.
  assert (Hslow : wp (match grow grow_fuel (if 0 <? jb_capacity b then jb_capacity b else 256) req with
      | None => ret (-1, b)
      | Some new_capacity => new_buffer <- alloc ;;
          if negb new_buffer then ret (-1, b)
          else ret (0, {| jb_buffer := Some (contents b); jb_length := jb_length b; jb_capacity := new_capacity |})
      end) Q k s).
  { set (c0 := if 0 <? jb_capacity b then jb_capacity b else 256).
    assert (Hc0 : 0 < c0 < 2 ^ 64).
    { unfold c0. case_cond; [|lia]. unfold buf_ok in Hb. destruct (jb_buffer b); lia. }
    destruct (grow_enough grow_fuel c0 req) as (c' & -> & Hc1 & Hc2 & Hc3); [done|lia|unfold grow_fuel; simpl; lia|].
    wp_run.
    - apply H1. exists k. by bool_prop.
    - pose proof (buf_ok_length b Hb). apply H0; simpl; try done.
      unfold buf_ok; simpl. lia. }
  destruct (jb_buffer b) as [t|] eqn:Et; [|exact Hslow].
  destruct (req <? jb_capacity b) eqn:Hlt; [|exact Hslow].
  wp_run. bool_prop. apply H0; try done. congruence.
Qed.

Lemma put_text_ok b t req :
  buf_ok b -> jb_buffer b <> None -> req < jb_capacity b -> Z.of_nat (length (contents b) + length t) < req ->
  appended b t (put_text b t).
Proof.
  intros Hb Hn Hc Hr. pose proof (buf_ok_length b Hb) as Hl.
  assert (jb_capacity b < 2 ^ 64) by (unfold buf_ok in Hb; destruct (jb_buffer b); lia).
  unfold appended, put_text, buf_ok, contents at 2. simpl. rewrite Hl, Nat2Z.id, take_ge by lia.
  split; [|done]. unfold size_t_wrap. rewrite wrap_small by lia. rewrite length_app. lia.
Qed.

Lemma wp_append b t Q k s :
  buf_ok b -> roomy b (length t) -> append_post b t Q s ->
  wp (json_buffer_append b (Some t)) Q k s.
Proof.
  intros Hb Hr [H0 H1]. unfold roomy in Hr. pose proof (buf_ok_length b Hb) as Hl.
  unfold json_buffer_append, size_t_wrap. rewrite wrap_small by lia.
  apply wp_bind, wp_ensure; [done|lia| |].
  - intros k' b' Hb' Hl' Hc' Hn' Hcap. simpl. apply wp_ret, H0.
    destruct (put_text_ok b' t _ Hb' Hn' Hcap) as (A1 & A2 & A3); [rewrite Hc'; lia|].
    split; [done|]. split; [by rewrite A2, Hc'|done].
  - intros k' Ha. simpl. apply wp_ret. by apply H1.
Qed.

Lemma wp_appendf b fs Q k s :
  buf_ok b -> roomy b (length (sprintf fs)) -> Z.of_nat (length (sprintf fs)) <= INT_MAX ->
  append_post b (sprintf fs) Q s -> wp (json_buffer_appendf b fs) Q k s.
Proof.
  intros Hb Hr Hi [H0 H1]. unfold roomy in Hr. pose proof (buf_ok_length b Hb) as Hl.
  unfold json_buffer_appendf, size_t_wrap. rewrite (wrap_small _ (jb_length b + _ + 1)) by lia.
  apply wp_if; intros Hlim; bool_prop; [lia|].
  apply wp_bind, wp_ensure; [done|lia| |].
  - intros k' b' Hb' Hl' Hc' Hn' Hcap. simpl. apply wp_ret, H0.
    destruct (put_text_ok b' (sprintf fs) _ Hb' Hn' Hcap) as (A1 & A2 & A3); [rewrite Hc'; lia|].
    rewrite snprintf_fits by lia. change (appended b (sprintf fs) (put_text b' (sprintf fs))).
    split; [done|]. split; [by rewrite A2, Hc'|done].
  - intros k' Ha. simpl. apply wp_ret. by apply H1.
Qed.

Lemma show_hex4_length n : length (show_hex4 n) = 4%nat.
Proof. done. Qed.

Lemma escape_char_length c : (1 <= length (escape_char c) <= 6)%nat.
Proof. unfold escape_char. repeat case_cond; simpl; lia. Qed.

Lemma escape_length t : (length (escape t) <= 6 * length t)%nat.
Proof.
  induction t as [|c t IH]; [done|]. change (escape (c :: t)) with (escape_char c ++ escape t).
  rewrite length_app. pose proof (escape_char_length c). simpl. lia.
Qed.

Lemma escape_length_le t n : (length t <= n)%nat -> (length (escape t) <= 6 * n)%nat.
Proof. intros Hn. pose proof (escape_length t). lia. Qed.

Lemma wp_append_escaped_char c b Q k s :
  buf_ok b -> roomy b (length (escape_char c)) -> append_post b (escape_char c) Q s ->
  wp (append_escaped_char c b) Q k s.
Proof.
  unfold append_escaped_char, escape_char. intros Hb Hr Hp.
  repeat case_cond; try (apply wp_append; done).
  apply wp_appendf; try done; by rewrite app_nil_r in *.
Qed.

Lemma append_post_trans b t u b' (Q : Z * JsonBuf -> nat -> S -> Prop) s :
  append_post b (t ++ u) Q s -> appended b t b' -> append_post b' u Q s.
Proof.
  intros [H0 H1] (A1 & A2 & A3). split; [|done].
  intros k' b'' (B1 & B2 & B3). apply H0. split; [done|]. split; [|done]. by rewrite B2, A2, app_assoc.
Qed.

Lemma roomy_trans b t u b' : roomy b (length (t ++ u)) -> appended b t b' -> roomy b' (length u).
Proof. unfold roomy. intros H (_ & -> & _). rewrite length_app in *. lia. Qed.

Lemma roomy_weaken b n m : (m <= n)%nat -> roomy b n -> roomy b m.
Proof. unfold roomy. lia. Qed.

(** Escaping a text appends [escape text].  On the empty text nothing is
    written: a NULL buffer stays NULL. *)
Lemma wp_escape_loop t b Q k s :
  buf_ok b -> roomy b (length (escape t)) ->
  (forall k' b', buf_ok b' -> contents b' = contents b ++ escape t ->
     (t <> [] \/ jb_buffer b <> None -> jb_buffer b' <> None) -> Q (0, b') k' s) ->
  (forall k' b', (exists j, env_alloc j = false) -> buf_ok b' -> Q (-1, b') k' s) ->
  wp (escape_loop t b) Q k s.
Proof.
  revert b k. induction t as [|c t IH]; intros b k Hb Hr H0 H1; simpl.
  - apply wp_ret, H0; [done|by rewrite app_nil_r|]. by intros [?|?].
  - change (escape (c :: t)) with (escape_char c ++ escape t) in *.
    apply wp_bind, wp_append_escaped_char; [done|eapply roomy_weaken; [|exact Hr]; rewrite length_app; lia|].
    split.
    + intros k' b' Ha. simpl. pose proof Ha as (A1 & A2 & A3).
      apply IH; [done|by eapply roomy_trans| |done].
      intros k'' b'' B1 B2 B3. apply H0; [done| |auto]. by rewrite B2, A2, app_assoc.
    + intros k' b' Ha A1. simpl. apply wp_ret. by apply H1.
Qed.

(** *** Operations that add a text

    [Adds op t]: on a well-formed buffer with room for [t], [op] either adds
    [t] and returns 0, or fails because memory ran out and leaves a
    well-formed buffer; it never touches the caller's state. *)
Definition grown b t b' : Prop :=
  buf_ok b' /\ contents b' = contents b ++ t /\ (jb_buffer b' = None -> jb_buffer b = None /\ t = []).

Class Adds (op : JsonBuf -> M S (Z * JsonBuf)) (t : cstring) : Prop :=
  adds : forall b Q k s,
    buf_ok b -> roomy b (length t) ->
    (forall k' b', grown b t b' -> Q (0, b') k' s) ->
    (forall k' b', (exists j, env_alloc j = false) -> buf_ok b' -> Q (-1, b') k' s) ->
    wp (op b) Q k s.

#[export] Instance app_lit_adds t : Adds (app_lit t) t.
Proof.
  intros b Q k s Hb Hr H0 H1. apply wp_append; [done..|]. split; [|done].
  intros k' b' (A1 & A2 & A3). apply H0. by split; [|split].
Qed.

#[export] Instance app_esc_adds t : Adds (app_esc t) (escape t).
Proof.
  intros b Q k s Hb Hr H0 H1. apply wp_escape_loop; [done..| |done].
  intros k' b' A1 A2 A3. apply H0. split; [done|]. split; [done|]. intros Hn.
  destruct t as [|c t]; [|exfalso; apply A3; auto].
  split; [|done]. destruct (jb_buffer b); [|done]. exfalso. by apply A3; [right|].
Qed.

Lemma app_fmt_adds fs : Z.of_nat (length (sprintf fs)) <= INT_MAX -> Adds (app_fmt fs) (sprintf fs).
Proof.
  intros Hi b Q k s Hb Hr H0 H1. apply wp_appendf; [done..|]. split; [|done].
  intros k' b' (A1 & A2 & A3). apply H0. by split; [|split].
Qed.

Lemma grown_trans b t u b1 b2 : grown b t b1 -> grown b1 u b2 -> grown b (t ++ u) b2.
Proof.
  intros (A1 & A2 & A3) (B1 & B2 & B3). split; [done|]. split; [by rewrite B2, A2, app_assoc|].
  intros Hn. destruct (B3 Hn) as [Hn1 ->]. destruct (A3 Hn1) as [Hn0 ->]. done.
Qed.

Lemma grown_roomy b t u b' : roomy b (length (t ++ u)) -> grown b t b' -> roomy b' (length u).
Proof. unfold roomy. intros H (_ & -> & _). rewrite length_app in *. lia. Qed.

#[export] Instance all_ok_nil_adds : Adds (all_ok []) [].
Proof. intros b Q k s Hb Hr H0 H1. apply wp_ret, H0. split; [done|]. by rewrite app_nil_r. Qed.

#[export] Instance all_ok_cons_adds op ops t u :
  Adds op t -> Adds (all_ok ops) u -> Adds (all_ok (op :: ops)) (t ++ u).
Proof.
  intros Hop Hops b Q k s Hb Hr H0 H1. simpl. apply wp_bind, Hop; [done| | |].
  - eapply roomy_weaken; [|exact Hr]. rewrite length_app. lia.
  - intros k' b' Hg. simpl. apply Hops; [apply Hg|by eapply grown_roomy| |done].
    intros k'' b'' Hg'. by eapply H0, grown_trans.
  - intros k' b' Ha Hb'. simpl. apply wp_ret. by apply H1.
Qed.

(** Whatever happens, an append leaves the caller's state alone, and the tick
    only grows. *)
Class Silent (op : JsonBuf -> M S (Z * JsonBuf)) : Prop :=
  silent : forall b k s, wp (op b) (fun _ k' s' => (k <= k')%nat /\ s' = s) k s.

Lemma unchanged op b k s : Silent op -> wp (op b) (fun _ _ s' => s' = s) k s.
Proof. intros Ho. eapply wp_mono; [apply Ho|]. by intros x k' s' [_ ->]. Qed.

(** What follows a silent call. *)
Lemma silent_bind {A} op b (f : Z * JsonBuf -> M S A) (Q : A -> nat -> S -> Prop) k s : Silent op ->
  (forall x k', (k <= k')%nat -> wp (f x) Q k' s) -> wp (bind (op b) f) Q k s.
Proof. intros Ho Hf. apply wp_bind. eapply wp_mono; [apply Ho|]. intros x k' s' [Hk ->]. by apply Hf. Qed.

Lemma ensure_silent req : Silent (fun b => ensure_capacity b req).
Proof.
intros b k s. unfold ensure_capacity.
destruct (jb_buffer b), (req <? jb_capacity b), (grow grow_fuel (if 0 <? jb_capacity b then jb_capacity b else 256) req); wp_run; split; (done || lia).
Qed.

Lemma append_silent t : Silent (fun b => json_buffer_append b t).
Proof.
intros b k s. destruct t as [t|]; [|done]. apply (silent_bind (fun b => ensure_capacity b _)); [apply ensure_silent|].
intros [r b'] k' Hk. by apply wp_if; intros; apply wp_ret.
Qed.

#[export] Instance app_lit_silent t : Silent (app_lit t).
Proof. apply append_silent. Qed.

#[export] Instance app_fmt_silent fs : Silent (app_fmt fs).
Proof.
intros b k s. unfold app_fmt, json_buffer_appendf. apply wp_if; intros; [done|].
apply (silent_bind (fun b => ensure_capacity b _)); [apply ensure_silent|]. intros [r b'] k' Hk. by apply wp_if; intros; apply wp_ret.
Qed.

Lemma escaped_char_silent c : Silent (append_escaped_char c).
Proof. intros b k s. unfold append_escaped_char. repeat case_cond; try apply append_silent. apply app_fmt_silent. Qed.

(** A loop of silent calls. *)
Lemma silent_step op b (next : JsonBuf -> M S (Z * JsonBuf)) : Silent op -> Silent next -> forall k s,
  wp (let* (r, b') := op b in if negb (r =? 0) then ret (-1, b') else next b') (fun _ k' s' => (k <= k')%nat /\ s' = s) k s.
Proof.
intros Ho Hn k s. apply (silent_bind op); [done|]. intros [r b'] k' Hk. apply wp_if; intros _; [by apply wp_ret|].
eapply wp_mono; [apply Hn|]. intros x k2 s2 [Hk2 ->]. split; [lia|done].
Qed.

#[export] Instance app_esc_silent t : Silent (app_esc t).
Proof.
induction t as [|c t IH]; intros b k s; [done|]. exact (silent_step _ b (escape_loop t) (escaped_char_silent c) IH k s).
Qed.

Lemma all_ok_silent ops : Forall Silent ops -> Silent (all_ok ops).
Proof.
intros Ho. induction Ho as [|op ops Hop Ho IH]; intros b k s; [done|]. exact (silent_step op b (all_ok ops) Hop IH k s).
Qed.

(** With memory available the operation succeeds. *)
Lemma adds_success `{!AllocOk E} op t b k s r b' k' s' :
  Adds op t -> buf_ok b -> roomy b (length t) ->
  op b k s = ((r, b'), (k', s')) -> r = 0 /\ grown b t b' /\ s' = s.
Proof.
  intros Hop Hb Hr He.
  apply (wp_use (op b) (fun '(r, b') _ s' => r = 0 /\ grown b t b' /\ s' = s) k s (r, b') k' s'); [|done].
  apply Hop; [done..|by auto|]. intros k'' b'' [j Hj]. by rewrite alloc_ok in Hj.
Qed.
End JsonSpec.

#[export] Hint Resolve buf_ok_empty : ld.

(** ** Escaping against the reference reader *)

Lemma json_string_plain c r : c <> dquote -> 32 <= code c -> c <> "\"%char ->
  json_string (c :: r) = prod_map (cons c) id <$> json_string r.
Proof.
  intros. cbn [json_string]. rewrite !bool_decide_false by done.
  destruct (Z.ltb_spec (code c) 32); [lia|done].
Qed.

(** The value of [\u00xx] for a control character. *)
Lemma hex4_value c : code c < 32 ->
  chr (hex4 (hex_digit (code c / 4096)) (hex_digit (code c / 256 mod 16))
            (hex_digit (code c / 16 mod 16)) (hex_digit (code c mod 16))) = c.
Proof.
  destruct c as [[] [] [] [] [] [] [] []]; vm_compute; intros H; first [reflexivity|discriminate].
Qed.

Lemma json_string_escape_char c r :
  json_string (escape_char c ++ r) = prod_map (cons c) id <$> json_string r.
Proof.
  assert (Hcode : forall z, (code c =? z) = true -> c = chr z).
  { intros z Hz. apply Z.eqb_eq in Hz. by rewrite <- Hz, chr_code. }
  unfold escape_char.
  destruct (bool_decide (c = "\"%char)) eqn:H1; [bool_prop; by subst|].
  destruct (bool_decide (c = dquote)) eqn:H2; [bool_prop; by subst|].
  repeat match goal with
  | |- context [code c =? ?z] => destruct (code c =? z) eqn:?; [by rewrite (Hcode z)|]
  end.
  destruct (Z.ltb_spec (code c) 32) as [Hlt|Hge].
  - unfold show_hex4. rewrite <- app_assoc. simpl app. cbn [json_string].
    by rewrite hex4_value.
  - simpl app. bool_prop. by apply json_string_plain.
Qed.

Lemma json_string_escape t r : json_string (escape t ++ dquote :: r) = Some (t, r).
Proof.
  induction t as [|c t IH]; [done|].
  change (escape (c :: t)) with (escape_char c ++ escape t). rewrite <- app_assoc.
  by rewrite json_string_escape_char, IH.
Qed.

(** What escaping can produce: no control character, and a quote only
    behind a backslash. *)
Lemma escape_char_printable c : Forall (fun x => 32 <= code x) (escape_char c).
Proof.
  assert (H : forallb (fun x => 32 <=? code x) (escape_char c) = true)
    by (destruct c as [[] [] [] [] [] [] [] []]; vm_compute; reflexivity).
  apply Forall_forall. intros x Hx. rewrite forallb_forall in H.
  by apply Z.leb_le, H, list_elem_of_In.
Qed.

Lemma escape_printable t : Forall (fun x => 32 <= code x) (escape t).
Proof.
  induction t as [|c t IH]; [constructor|].
  change (escape (c :: t)) with (escape_char c ++ escape t). apply Forall_app. split; [apply escape_char_printable|done].
Qed.

Lemma escape_plain t : Forall (fun c => escape_char c = [c]) t -> escape t = t.
Proof.
  induction 1 as [|c t Hc Ht IH]; [done|].
  change (escape (c :: t)) with (escape_char c ++ escape t). by rewrite Hc, IH.
Qed.

(** ** Theorems *)

(** More fuel does not change the result. *)
Lemma grow_stable f f' c req c1 c2 : (f <= f')%nat -> grow f c req = Some c1 -> grow f' c req = Some c2 -> c2 = c1.
Proof.
  revert f' c. induction f as [|f IH]; intros f' c Hf; destruct f' as [|f']; simpl; try lia;
    destruct (c <=? req); try congruence; intros; eapply IH; [|done..]; lia.
Qed.

(** From a power of two the capacity reaches 0 without passing 2^63. *)
Lemma grow_diverges fuel req : 2 ^ 63 <= req ->
  grow fuel 0 req = None /\ forall e, 0 <= e <= 63 -> grow fuel (2 ^ e) req = None.
Proof.
  intros Hr. induction fuel as [|f [IH0 IH]]; simpl.
  - split; [case_cond; [done|lia]|]. intros e He. pose proof (Z.pow_le_mono_r 2 e 63). case_cond; [done|lia].
  - split; [case_cond; [done|lia]|]. intros e He. pose proof (Z.pow_le_mono_r 2 e 63). case_cond; [|lia].
    destruct (Z.eq_dec e 63) as [->|]; [exact IH0|].
    replace (2 ^ e * 2) with (2 ^ (e + 1)) by (rewrite Z.pow_add_r; lia).
    unfold size_t_wrap. rewrite wrap_small; [apply IH; lia|]. pose proof (Z.pow_lt_mono_r 2 (e + 1) 64). lia.
Qed.

(** The appends of the interface. *)
Inductive json_call := CAppend (text : option cstring) | CAppendf (fs : list fmt) | CEscaped (text : option cstring).
Definition json_run `{E : Env} {S : Type} (c : json_call) (b : JsonBuf) : M S (Z * JsonBuf) :=
  match c with
  | CAppend text => json_buffer_append b text
  | CAppendf fs => json_buffer_appendf b fs
  | CEscaped text => json_buffer_append_escaped b text
  end.

(** The text a call adds. *)
Definition call_text (c : json_call) : cstring :=
  match c with
  | CAppend text => default [] text
  | CAppendf fs => sprintf fs
  | CEscaped text => escape (default [] text)
  end.

Section JsonTheorems.
Context (E : Env) (S : Type).
Implicit Types (k : nat) (s : S) (b : JsonBuf).

(** C33: the capacity loop ends.  From any capacity and for any required
    length below 2^63 sixty-four doublings are enough, whatever more fuel is
    given; the new capacity exceeds what is required and at most doubles it.
    For a required length of 2^63 or more the loop that starts from the
    initial capacity never ends: the doubling overflows to 0. *)
Theorem grow_terminates :
  (forall c req, 0 < c < 2 ^ 64 -> req < 2 ^ 63 -> exists c', req < c' < 2 ^ 64 /\ c' <= Z.max c (2 * req) /\
     forall fuel, (64 <= fuel)%nat -> grow fuel c req = Some c') /\
  (forall req, 2 ^ 63 <= req -> forall fuel, grow fuel 256 req = None).
Proof.
  split.
  - intros c req Hc Hr. destruct (grow_enough 64 c req Hc Hr) as (c' & Hg & H1 & H2 & H3); [lia|].
    exists c'. split; [lia|]. split; [lia|]. intros fuel Hf.
    destruct (grow_enough fuel c req Hc Hr) as (c2 & Hg2 & _).
    { pose proof (Z.pow_le_mono_r 2 64 (Z.of_nat fuel)). lia. }
    rewrite Hg2. f_equal. by eapply grow_stable.
  - intros req Hr fuel. apply (proj2 (grow_diverges fuel req Hr) 8). lia.
Qed.

(** C32: a text buffer is never overrun.  On a well-formed buffer every append
    leaves a well-formed one (the text, its length and the terminating NUL
    inside the capacity) whatever the allocator answers.  An append that
    returns 0 added exactly its text at the end; one that fails was given
    NULL, was given a formatted text longer than INT_MAX, or was refused
    memory. *)
Theorem json_append_correct c b k s r b' k' s' :
  buf_ok b -> roomy b (length (call_text c)) ->
  json_run c b k s = ((r, b'), (k', s')) ->
  s' = s /\ buf_ok b' /\
  (r = 0 -> contents b' = contents b ++ call_text c) /\
  (r <> 0 -> r = -1 /\
     (c = CAppend None \/ (exists fs, c = CAppendf fs /\ INT_MAX < Z.of_nat (length (sprintf fs))) \/
      exists j, env_alloc j = false)).
Proof.
  intros Hb Hr. to_wp. cbn [fst snd].
  assert (Hadds : forall op : JsonBuf -> M S (Z * JsonBuf), Adds op (call_text c) ->
    wp (op b) (fun x k' s' => s' = s /\ buf_ok x.2 /\ (x.1 = 0 -> contents x.2 = contents b ++ call_text c) /\
      (x.1 <> 0 -> x.1 = -1 /\ (c = CAppend None \/ (exists fs, c = CAppendf fs /\ INT_MAX < Z.of_nat (length (sprintf fs))) \/
        exists j, env_alloc j = false))) k s).
  { intros op Hop. apply Hop; [done..| |]; intros k1 b1; simpl.
    - intros (H1 & H2 & _). done.
    - intros Hj H1. split; [done|]. split; [done|]. split; [done|]. intros _. auto. }
  destruct c as [[t|]|fs|[t|]]; simpl json_run.
  - apply (Hadds (app_lit t)), app_lit_adds.
  - apply wp_ret. simpl. split; [done|]. split; [done|]. split; [done|]. auto.
  - destruct (Z.leb_spec (Z.of_nat (length (sprintf fs))) INT_MAX) as [Hle|Hgt]; [by apply (Hadds (app_fmt fs)), app_fmt_adds|].
    unfold json_buffer_appendf. rewrite (proj2 (Z.ltb_lt _ _)) by done. apply wp_ret. simpl.
    split; [done|]. split; [done|]. split; [done|]. intros _. split; [done|]. right. left. by exists fs.
  - apply (Hadds (app_esc t)), app_esc_adds.
  - apply (Hadds (app_lit [])), app_lit_adds.
Qed.

(** C31: escaping round-trips.  For every text, whatever its bytes, what
    [json_buffer_append_escaped] adds contains no control character and,
    followed by a closing quote, is read by a JSON reader as exactly that
    text, ending at that quote: no text can close the string or inject
    members into the object around it. *)
Theorem append_escaped_roundtrip (A : AllocOk E) text b k s r b' k' s' :
  buf_ok b -> roomy b (length (escape text)) ->
  json_buffer_append_escaped b (Some text) k s = ((r, b'), (k', s')) ->
  r = 0 /\ buf_ok b' /\ exists added, contents b' = contents b ++ added /\ Forall (fun c => 32 <= code c) added /\
    forall rest, json_string (added ++ dquote :: rest) = Some (text, rest).
Proof.
  intros Hb Hr He. destruct (adds_success (app_esc text) (escape text) b k s r b' k' s' _ Hb Hr He) as (-> & (H1 & H2 & _) & _).
  split; [done|]. split; [done|]. exists (escape text). split; [done|]. split; [apply escape_printable|].
  intros rest. apply json_string_escape.
Qed.
End JsonTheorems.

(** ** Examples *)

Definition buf1 : JsonBuf := {| jb_buffer := Some (jlit "{'a':'"); jb_length := 6; jb_capacity := 256 |}.

Lemma buf1_ok : buf_ok buf1 /\ forall n, (n <= 1000)%nat -> roomy buf1 n.
Proof. split; [vm_compute; done|]. intros n Hn. unfold roomy, buf1, contents. simpl. lia. Qed.

Lemma json_append_witness :
  contents (snd (result (json_run (E := Sample.env) (S := unit) (CEscaped (Some (jlit "b'c"))) buf1) 0%nat tt)) = jlit "{'a':'b\'c".
Proof.
  destruct (json_append_correct Sample.env unit (CEscaped (Some (jlit "b'c"))) buf1 0%nat tt _ _ _ _
    (proj1 buf1_ok) (proj2 buf1_ok 4%nat ltac:(lia)) (run_eta2 _ _ _)) as (_ & _ & H & _).
  rewrite H; vm_compute; reflexivity.
Defined.

Lemma append_escaped_witness :
  fst (result (json_buffer_append_escaped (E := Sample.env) (S := unit) buf1 (Some (jlit "b'c"))) 0%nat tt) = 0.
Proof.
  destruct (append_escaped_roundtrip Sample.env unit Sample.allocs_ok (jlit "b'c") buf1 0%nat tt _ _ _ _
    (proj1 buf1_ok) (proj2 buf1_ok 4%nat ltac:(lia)) (run_eta2 _ _ _)) as [H _]. exact H.
Defined.
