(* ===== verification/Auth.v ===== *)
(** * Auth: sessions, pairing codes, peer tokens and rate limits (src/auth.c)

    The static variables of the file are the fields of [AuthState]; each
    function is a computation on it. *)

From stdpp Require Import base numbers list strings gmap.
From Stdlib Require Import ZArith Lia Ascii.
From S2P Require Import Prelude Effects CLib Crypto.

Definition MAX_UI_SESSIONS : nat := 32.
Definition MAX_PEER_TOKENS : nat := 64.
Definition MAX_RATE_LIMITS : nat := 64.
Definition PAIRING_CODE_TTL_SECONDS : Z := 300.
Definition UI_SESSION_TTL_SECONDS : Z := 43200.

Record UiSession := {
  us_active : bool; us_token : cstring; us_client_ip : cstring; us_expires_at : Z }.

Record PeerTokenRecord := {
  pt_active : bool; pt_peer_ip : cstring; pt_peer_name : cstring; pt_peer_port : Z;
  pt_token : cstring; pt_expires_at : Z }.

Record RateLimitRecord := {
  rl_active : bool; rl_client_ip : cstring; rl_scope : cstring; rl_count : Z;
  rl_window_started_at : Z }.

(** Records after [memset(..., 0, ...)]. *)
#[export] Instance ui_session_zero : Inhabited UiSession := populate
  {| us_active := false; us_token := []; us_client_ip := []; us_expires_at := 0 |}.
#[export] Instance peer_token_zero : Inhabited PeerTokenRecord := populate
  {| pt_active := false; pt_peer_ip := []; pt_peer_name := []; pt_peer_port := 0; pt_token := []; pt_expires_at := 0 |}.
#[export] Instance rate_limit_zero : Inhabited RateLimitRecord := populate
  {| rl_active := false; rl_client_ip := []; rl_scope := []; rl_count := 0; rl_window_started_at := 0 |}.

Record AuthState := {
  auth_lock : mutex;
  auth_initialized : bool;
  admin_code : cstring;
  pairing_code : cstring;
  pairing_code_expires_at : Z;
  ui_sessions : list UiSession;
  peer_tokens : list PeerTokenRecord;
  rate_limits : list RateLimitRecord }.

(** The static variables before [auth_init]. *)
Definition auth_boot : AuthState := {|
  auth_lock := MUninit; auth_initialized := false; admin_code := []; pairing_code := [];
  pairing_code_expires_at := 0; ui_sessions := replicate MAX_UI_SESSIONS inhabitant;
  peer_tokens := replicate MAX_PEER_TOKENS inhabitant; rate_limits := replicate MAX_RATE_LIMITS inhabitant |}.

(** Assignments to one static variable. *)
Section Setters.
Definition set_auth_lock v s := {| auth_lock := v; auth_initialized := auth_initialized s; admin_code := admin_code s;
  pairing_code := pairing_code s; pairing_code_expires_at := pairing_code_expires_at s; ui_sessions := ui_sessions s;
  peer_tokens := peer_tokens s; rate_limits := rate_limits s |}.
Definition set_initialized v s := {| auth_lock := auth_lock s; auth_initialized := v; admin_code := admin_code s;
  pairing_code := pairing_code s; pairing_code_expires_at := pairing_code_expires_at s; ui_sessions := ui_sessions s;
  peer_tokens := peer_tokens s; rate_limits := rate_limits s |}.
Definition set_admin_code v s := {| auth_lock := auth_lock s; auth_initialized := auth_initialized s; admin_code := v;
  pairing_code := pairing_code s; pairing_code_expires_at := pairing_code_expires_at s; ui_sessions := ui_sessions s;
  peer_tokens := peer_tokens s; rate_limits := rate_limits s |}.
Definition set_pairing_code v s := {| auth_lock := auth_lock s; auth_initialized := auth_initialized s; admin_code := admin_code s;
  pairing_code := v; pairing_code_expires_at := pairing_code_expires_at s; ui_sessions := ui_sessions s;
  peer_tokens := peer_tokens s; rate_limits := rate_limits s |}.
Definition set_pairing_code_expires_at v s := {| auth_lock := auth_lock s; auth_initialized := auth_initialized s; admin_code := admin_code s;
  pairing_code := pairing_code s; pairing_code_expires_at := v; ui_sessions := ui_sessions s;
  peer_tokens := peer_tokens s; rate_limits := rate_limits s |}.
Definition set_ui_sessions v s := {| auth_lock := auth_lock s; auth_initialized := auth_initialized s; admin_code := admin_code s;
  pairing_code := pairing_code s; pairing_code_expires_at := pairing_code_expires_at s; ui_sessions := v;
  peer_tokens := peer_tokens s; rate_limits := rate_limits s |}.
Definition set_peer_tokens v s := {| auth_lock := auth_lock s; auth_initialized := auth_initialized s; admin_code := admin_code s;
  pairing_code := pairing_code s; pairing_code_expires_at := pairing_code_expires_at s; ui_sessions := ui_sessions s;
  peer_tokens := v; rate_limits := rate_limits s |}.
Definition set_rate_limits v s := {| auth_lock := auth_lock s; auth_initialized := auth_initialized s; admin_code := admin_code s;
  pairing_code := pairing_code s; pairing_code_expires_at := pairing_code_expires_at s; ui_sessions := ui_sessions s;
  peer_tokens := peer_tokens s; rate_limits := v |}.
End Setters.

#[export] Instance auth_mutex : HasMutex AuthState := {
  get_mutex := auth_lock; set_mutex := set_auth_lock; get_set_mutex m s := eq_refl }.

(** [table[index].active = 0] *)
Definition ui_deactivate (r : UiSession) : UiSession := {|
  us_active := false; us_token := us_token r; us_client_ip := us_client_ip r; us_expires_at := us_expires_at r |}.
Definition pt_deactivate (r : PeerTokenRecord) : PeerTokenRecord := {|
  pt_active := false; pt_peer_ip := pt_peer_ip r; pt_peer_name := pt_peer_name r; pt_peer_port := pt_peer_port r;
  pt_token := pt_token r; pt_expires_at := pt_expires_at r |}.
Definition rl_deactivate (r : RateLimitRecord) : RateLimitRecord := {|
  rl_active := false; rl_client_ip := rl_client_ip r; rl_scope := rl_scope r; rl_count := rl_count r;
  rl_window_started_at := rl_window_started_at r |}.

(** Assignment to one element of an array. *)
Definition set_ui i r s := set_ui_sessions (<[i := r]> (ui_sessions s)) s.
Definition set_pt i r s := set_peer_tokens (<[i := r]> (peer_tokens s)) s.
Definition set_rl i r s := set_rate_limits (<[i := r]> (rate_limits s)) s.

Section Auth.
Context `{E : Env}.

Definition ensure_pairing_code_locked : M AuthState Z :=
  now <- time_NULL ;;
  s <- get ;;
  if (now <? pairing_code_expires_at s) && negb (bool_decide (pairing_code s = []))
  then ret 0
  else
    let* (r, code) := crypto_random_numeric_code (Some 7%nat) 6 in
    if negb (r =? 0) then ret (-1)
    else
      modify (set_pairing_code (default [] code)) ;;
      modify (set_pairing_code_expires_at (now + PAIRING_CODE_TTL_SECONDS)) ;;
      ret 0.

Definition auth_init : M AuthState Z :=
  s <- get ;;
  if auth_initialized s then ret 0
  else
    r <- pthread_init ;;
    if negb (r =? 0) then ret (-1)
    else
      modify (set_ui_sessions (replicate MAX_UI_SESSIONS inhabitant)) ;;
      modify (set_peer_tokens (replicate MAX_PEER_TOKENS inhabitant)) ;;
      modify (set_rate_limits (replicate MAX_RATE_LIMITS inhabitant)) ;;
      let* (r, code) := crypto_random_numeric_code (Some 7%nat) 6 in
      if negb (r =? 0) then pthread_destroy ;; ret (-1)
      else
        modify (set_admin_code (default [] code)) ;;
        let* (r, code) := crypto_random_numeric_code (Some 7%nat) 6 in
        if negb (r =? 0) then pthread_destroy ;; ret (-1)
        else
          modify (set_pairing_code (default [] code)) ;;
          now <- time_NULL ;;
          modify (set_pairing_code_expires_at (now + PAIRING_CODE_TTL_SECONDS)) ;;
          modify (set_initialized true) ;;
          ret 0.

Definition auth_cleanup : M AuthState unit :=
  s <- get ;;
  if negb (auth_initialized s) then ret tt
  else pthread_destroy ;; modify (set_initialized false).

Definition auth_get_admin_code (dest : option nat) : M AuthState (Z * option cstring) :=
  s <- get ;;
  match dest with
  | None => ret (-1, None)
  | Some dest_size =>
      if negb (auth_initialized s) || (dest_size =? 0)%nat then ret (-1, None)
      else
        r <- pthread_lock ;;
        if negb (r =? 0) then ret (-1, None)
        else
          s <- get ;;
          pthread_unlock ;;
          ret (0, Some (copy_string dest_size (Some (admin_code s))))
  end.

(** The loop body of [auth_create_ui_session]: take the first slot that is
    inactive, expired or owned by the same client. *)
Definition create_ui_session_body (client_ip : cstring) (token_size index : nat)
    : M AuthState (option (exit (Z * option cstring))) :=
  s <- get ;;
  let slot := ui_sessions s !!! index in
  take <- (if negb (us_active slot) then ret true
           else
             now <- time_NULL ;;
             if us_expires_at slot <=? now then ret true
             else ret (strcmp (us_client_ip slot) client_ip =? 0)) ;;
  if negb take then ret None
  else
    let* (r, token) := crypto_random_token (Some 65%nat) 32 in
    if negb (r =? 0) then pthread_unlock ;; ret (Some (Return (-1, None)))
    else
      now <- time_NULL ;;
      let slot' := {| us_active := true; us_token := default [] token;
                      us_client_ip := copy_string 46 (Some client_ip);
                      us_expires_at := now + UI_SESSION_TTL_SECONDS |} in
      modify (set_ui index slot') ;;
      ret (Some (Break (0, Some (copy_string token_size (Some (us_token slot')))))).

Definition auth_create_ui_session (client_ip provided_admin_code : option cstring) (token_out : option nat)
    : M AuthState (Z * option cstring) :=
  s <- get ;;
  match client_ip, provided_admin_code, token_out with
  | Some client_ip, Some provided, Some token_size =>
      if negb (auth_initialized s) || (token_size <? 65)%nat then ret (-1, None)
      else
        r <- pthread_lock ;;
        if negb (r =? 0) then ret (-1, None)
        else
          s <- get ;;
          if negb (strcmp (admin_code s) provided =? 0) then pthread_unlock ;; ret (-1, None)
          else
            x <- for_range MAX_UI_SESSIONS 0 (create_ui_session_body client_ip token_size) ;;
            match x with
            | Some (Return v) => ret v
            | Some (Break v) => pthread_unlock ;; ret v
            | None => pthread_unlock ;; ret (-1, None)
            end
  | _, _, _ => ret (-1, None)
  end.

Definition validate_ui_session_body (client_ip token : cstring) (index : nat) : M AuthState (option Z) :=
  s <- get ;;
  let slot := ui_sessions s !!! index in
  if negb (us_active slot) then ret None
  else
    now <- time_NULL ;;
    if us_expires_at slot <=? now then modify (set_ui index (ui_deactivate slot)) ;; ret None
    else if (strcmp (us_client_ip slot) client_ip =? 0) && (strcmp (us_token slot) token =? 0)
    then ret (Some 0)
    else ret None.

Definition auth_validate_ui_session (client_ip token : option cstring) : M AuthState Z :=
  s <- get ;;
  match client_ip, token with
  | Some client_ip, Some token =>
      if negb (auth_initialized s) || bool_decide (token = []) then ret (-1)
      else
        r <- pthread_lock ;;
        if negb (r =? 0) then ret (-1)
        else
          x <- for_range MAX_UI_SESSIONS 0 (validate_ui_session_body client_ip token) ;;
          pthread_unlock ;;
          ret (default (-1) x)
  | _, _ => ret (-1)
  end.

(** [expires_at] says whether the out-parameter is given. *)
Definition auth_get_pairing_code (code_out : option nat) (expires_at : bool)
    : M AuthState (Z * option cstring * option Z) :=
  s <- get ;;
  match code_out with
  | None => ret (-1, None, None)
  | Some code_size =>
      if negb (auth_initialized s) || (code_size =? 0)%nat then ret (-1, None, None)
      else
        r <- pthread_lock ;;
        if negb (r =? 0) then ret (-1, None, None)
        else
          r <- ensure_pairing_code_locked ;;
          s <- get ;;
          pthread_unlock ;;
          if r =? 0
          then ret (0, Some (copy_string code_size (Some (pairing_code s))),
                    if expires_at then Some (pairing_code_expires_at s) else None)
          else ret (-1, None, None)
  end.

Definition upsert_peer_token_body (peer_ip : cstring) (peer_port : Z) (peer_name : option cstring)
    (token : cstring) (expires_at : Z) (index empty_index : nat) : M AuthState (nat + Z) :=
  s <- get ;;
  let slot := peer_tokens s !!! index in
  if pt_active slot && (strcmp (pt_peer_ip slot) peer_ip =? 0) && (pt_peer_port slot =? peer_port) then
    modify (set_pt index {| pt_active := pt_active slot; pt_peer_ip := pt_peer_ip slot;
                            pt_peer_name := copy_string 256 peer_name; pt_peer_port := pt_peer_port slot;
                            pt_token := copy_string 65 (Some token); pt_expires_at := expires_at |}) ;;
    ret (inr 0)
  else if negb (pt_active slot) && (empty_index =? MAX_PEER_TOKENS)%nat then ret (inl index)
  else ret (inl empty_index).

Definition upsert_peer_token_locked (peer_ip : cstring) (peer_port : Z) (peer_name : option cstring)
    (token : cstring) (expires_at : Z) : M AuthState Z :=
  x <- for_acc MAX_PEER_TOKENS 0 (upsert_peer_token_body peer_ip peer_port peer_name token expires_at) MAX_PEER_TOKENS ;;
  match x with
  | inr r => ret r
  | inl empty_index =>
      if (empty_index =? MAX_PEER_TOKENS)%nat then ret (-1)
      else
        modify (set_pt empty_index {| pt_active := true; pt_peer_ip := copy_string 46 (Some peer_ip);
                                      pt_peer_name := copy_string 256 peer_name; pt_peer_port := peer_port;
                                      pt_token := copy_string 65 (Some token); pt_expires_at := expires_at |}) ;;
        ret 0
  end.

Definition auth_issue_pair_token (peer_ip peer_name : option cstring) (peer_port : Z)
    (provided_pair_code : option cstring) (token_out : option nat) (expires_at : bool)
    : M AuthState (Z * option cstring * option Z) :=
  s <- get ;;
  match peer_ip, provided_pair_code, token_out with
  | Some peer_ip, Some provided, Some token_size =>
      if negb (auth_initialized s) || (token_size <? 65)%nat then ret (-1, None, None)
      else
        r <- pthread_lock ;;
        if negb (r =? 0) then ret (-1, None, None)
        else
          r <- ensure_pairing_code_locked ;;
          s <- get ;;
          if negb (r =? 0) || negb (strcmp (pairing_code s) provided =? 0)
          then pthread_unlock ;; ret (-1, None, None)
          else
            let* (r, token) := crypto_random_token (Some 65%nat) 32 in
            if negb (r =? 0) then pthread_unlock ;; ret (-1, None, None)
            else
              now <- time_NULL ;;
              let token := default [] token in
              let token_expires_at := now + 7 * 24 * 60 * 60 in
              r <- upsert_peer_token_locked peer_ip peer_port peer_name token token_expires_at ;;
              pthread_unlock ;;
              if r =? 0
              then ret (0, Some (copy_string token_size (Some token)),
                        if expires_at then Some token_expires_at else None)
              else ret (-1, None, None)
  | _, _, _ => ret (-1, None, None)
  end.

Definition auth_store_peer_token (peer_ip : option cstring) (peer_port : Z) (peer_name token : option cstring)
    (expires_at : Z) : M AuthState Z :=
  s <- get ;;
  match peer_ip, token with
  | Some peer_ip, Some token =>
      if negb (auth_initialized s) then ret (-1)
      else
        r <- pthread_lock ;;
        if negb (r =? 0) then ret (-1)
        else
          status <- upsert_peer_token_locked peer_ip peer_port peer_name token expires_at ;;
          pthread_unlock ;;
          ret status
  | _, _ => ret (-1)
  end.

Definition get_peer_token_body (peer_ip : cstring) (peer_port : Z) (token_size index : nat)
    : M AuthState (option (Z * option cstring)) :=
  s <- get ;;
  let slot := peer_tokens s !!! index in
  if negb (pt_active slot) then ret None
  else
    now <- time_NULL ;;
    if pt_expires_at slot <=? now then modify (set_pt index (pt_deactivate slot)) ;; ret None
    else if (strcmp (pt_peer_ip slot) peer_ip =? 0) && (pt_peer_port slot =? peer_port)
    then ret (Some (0, Some (copy_string token_size (Some (pt_token slot)))))
    else ret None.

Definition auth_get_peer_token (peer_ip : option cstring) (peer_port : Z) (token_out : option nat)
    : M AuthState (Z * option cstring) :=
  s <- get ;;
  match peer_ip, token_out with
  | Some peer_ip, Some token_size =>
      if negb (auth_initialized s) || (token_size =? 0)%nat then ret (-1, None)
      else
        r <- pthread_lock ;;
        if negb (r =? 0) then ret (-1, None)
        else
          x <- for_range MAX_PEER_TOKENS 0 (get_peer_token_body peer_ip peer_port token_size) ;;
          pthread_unlock ;;
          ret (default (-1, None) x)
  | _, _ => ret (-1, None)
  end.

Definition validate_peer_token_body (peer_ip token : cstring) (index : nat) : M AuthState (option Z) :=
  s <- get ;;
  let slot := peer_tokens s !!! index in
  if negb (pt_active slot) then ret None
  else
    now <- time_NULL ;;
    if pt_expires_at slot <=? now then modify (set_pt index (pt_deactivate slot)) ;; ret None
    else if (strcmp (pt_peer_ip slot) peer_ip =? 0) && (strcmp (pt_token slot) token =? 0)
    then ret (Some 0)
    else ret None.

Definition auth_validate_peer_token (peer_ip token : option cstring) : M AuthState Z :=
  s <- get ;;
  match peer_ip, token with
  | Some peer_ip, Some token =>
      if negb (auth_initialized s) || bool_decide (token = []) then ret (-1)
      else
        r <- pthread_lock ;;
        if negb (r =? 0) then ret (-1)
        else
          x <- for_range MAX_PEER_TOKENS 0 (validate_peer_token_body peer_ip token) ;;
          pthread_unlock ;;
          ret (default (-1) x)
  | _, _ => ret (-1)
  end.

(** [message[size]] after the refusal of the limiter. *)
Definition rate_limit_message (message : option nat) (scope : cstring) : option cstring :=
  match message with
  | Some size => if (0 <? size)%nat
                 then Some (snprintf size [Lit (lit "Limite de requisicoes atingido para "); Str scope])
                 else None
  | None => None
  end.

Definition rate_limit_body (client_ip scope : cstring) (limit window_seconds now : Z) (message : option nat)
    (index empty_index : nat) : M AuthState (nat + (Z * option cstring)) :=
  s <- get ;;
  let slot := rate_limits s !!! index in
  let empty_index' := if (empty_index =? MAX_RATE_LIMITS)%nat then index else empty_index in
  if negb (rl_active slot) then ret (inl empty_index')
  else if rl_window_started_at slot + window_seconds <=? now
  then modify (set_rl index (rl_deactivate slot)) ;; ret (inl empty_index')
  else if (strcmp (rl_client_ip slot) client_ip =? 0) && (strcmp (rl_scope slot) scope =? 0) then
    if limit <=? rl_count slot
    then pthread_unlock ;; ret (inr (-1, rate_limit_message message scope))
    else
      modify (set_rl index {| rl_active := rl_active slot; rl_client_ip := rl_client_ip slot;
                              rl_scope := rl_scope slot; rl_count := wrap 32 (rl_count slot + 1);
                              rl_window_started_at := rl_window_started_at slot |}) ;;
      pthread_unlock ;;
      ret (inr (0, None))
  else ret (inl empty_index).

Definition auth_rate_limit_allow (client_ip scope : option cstring) (limit window_seconds : Z)
    (message : option nat) : M AuthState (Z * option cstring) :=
  now <- time_NULL ;;
  s <- get ;;
  match client_ip, scope with
  | Some client_ip, Some scope =>
      if negb (auth_initialized s) || (limit =? 0) || (window_seconds <=? 0) then ret (-1, None)
      else
        r <- pthread_lock ;;
        if negb (r =? 0) then ret (-1, None)
        else
          x <- for_acc MAX_RATE_LIMITS 0 (rate_limit_body client_ip scope limit window_seconds now message) MAX_RATE_LIMITS ;;
          match x with
          | inr v => ret v
          | inl empty_index =>
              if (empty_index =? MAX_RATE_LIMITS)%nat then pthread_unlock ;; ret (-1, None)
              else
                modify (set_rl empty_index {| rl_active := true; rl_client_ip := copy_string 46 (Some client_ip);
                                              rl_scope := copy_string 32 (Some scope); rl_count := 1;
                                              rl_window_started_at := now |}) ;;
                pthread_unlock ;;
                ret (0, None)
          end
  | _, _ => ret (-1, None)
  end.
End Auth.
