(* ===== verification/AuthSpec.v ===== *)
(** * AuthSpec: what the authentication state promises

    Invariants of the tables of Auth.v, the views of the state that give
    sessions, peer tokens and rate limits their meaning, and the theorems that
    the operations implement them. *)

From stdpp Require Import base numbers list strings gmap.
From Stdlib Require Import ZArith Lia Ascii.
From S2P Require Import Prelude Effects CLib Crypto Auth.

(** ** Strings in the tables *)

Lemma numeric_c_string n s : numeric_code n s -> c_string s.
Proof.
  intros [_ H]. eapply Forall_impl; [exact H|]. intros c Hc Hz. unfold isdigit in Hc. by rewrite Hz in Hc.
Qed.

(** ** The invariant *)

Definition ui_ok (r : UiSession) : Prop := c_string (us_token r) /\ c_string (us_client_ip r).
Definition pt_ok (r : PeerTokenRecord) : Prop := c_string (pt_token r) /\ c_string (pt_peer_ip r).
Definition rl_ok (r : RateLimitRecord) : Prop :=
  c_string (rl_client_ip r) /\ c_string (rl_scope r) /\ 0 <= rl_count r < 2 ^ 32.

Record auth_inv (s : AuthState) : Prop := {
  inv_lock : auth_lock s = if auth_initialized s then MFree else MUninit;
  inv_codes : auth_initialized s = true -> numeric_code 6 (admin_code s) /\ numeric_code 6 (pairing_code s);
  inv_ui_len : length (ui_sessions s) = MAX_UI_SESSIONS;
  inv_pt_len : length (peer_tokens s) = MAX_PEER_TOKENS;
  inv_rl_len : length (rate_limits s) = MAX_RATE_LIMITS;
  inv_ui : Forall ui_ok (ui_sessions s);
  inv_pt : Forall pt_ok (peer_tokens s);
  inv_rl : Forall rl_ok (rate_limits s) }.

(** The state reached by [auth_init]: running, the mutex free. *)
Definition auth_ready (s : AuthState) : Prop := auth_inv s /\ auth_initialized s = true.

Lemma ready_lock s : auth_ready s -> auth_lock s = MFree.
Proof. intros [H Hi]. rewrite (inv_lock _ H). by rewrite Hi. Qed.

Lemma auth_boot_inv : auth_inv auth_boot.
Proof.
  split; try done; by apply Forall_replicate; repeat split; try constructor.
Qed.

(** Locking and unlocking around a change of one table. *)
Lemma unlock_id s : auth_lock s = MFree -> set_auth_lock MFree (set_auth_lock MHeld s) = s.
Proof. destruct s; simpl; by intros ->. Qed.
Lemma unlock_ui l s : auth_lock s = MFree -> set_auth_lock MFree (set_ui_sessions l (set_auth_lock MHeld s)) = set_ui_sessions l s.
Proof. destruct s; simpl; by intros ->. Qed.
Lemma unlock_pt l s : auth_lock s = MFree -> set_auth_lock MFree (set_peer_tokens l (set_auth_lock MHeld s)) = set_peer_tokens l s.
Proof. destruct s; simpl; by intros ->. Qed.
Lemma unlock_rl l s : auth_lock s = MFree -> set_auth_lock MFree (set_rate_limits l (set_auth_lock MHeld s)) = set_rate_limits l s.
Proof. destruct s; simpl; by intros ->. Qed.
Lemma set_ui_id s : set_ui_sessions (ui_sessions s) s = s.
Proof. by destruct s. Qed.
Lemma set_pt_id s : set_peer_tokens (peer_tokens s) s = s.
Proof. by destruct s. Qed.
Lemma set_rl_id s : set_rate_limits (rate_limits s) s = s.
Proof. by destruct s. Qed.

(** Replacing a table by one of the same shape keeps the invariant. *)
Lemma inv_set_ui l s : auth_inv s -> length l = MAX_UI_SESSIONS -> Forall ui_ok l -> auth_inv (set_ui_sessions l s).
Proof. intros [] Hl Hf. by split. Qed.
Lemma inv_set_pt l s : auth_inv s -> length l = MAX_PEER_TOKENS -> Forall pt_ok l -> auth_inv (set_peer_tokens l s).
Proof. intros [] Hl Hf. by split. Qed.
Lemma inv_set_rl l s : auth_inv s -> length l = MAX_RATE_LIMITS -> Forall rl_ok l -> auth_inv (set_rate_limits l s).
Proof. intros [] Hl Hf. by split. Qed.

(** A swept table keeps length and well-formedness. *)
Lemma swept_forall {E : Env} {T} (act : T -> bool) ex de (P : T -> Prop) k k' l l' :
  (forall a, P a -> P (de a)) -> Forall2 (swept act ex de k k') l l' -> Forall P l -> Forall P l'.
Proof.
  intros Hd Hf HP. induction Hf as [|a b l l' Hab Hf IH]; [constructor|].
  inversion HP; subst. constructor; [|auto]. destruct Hab as [->|(_ & -> & _)]; auto.
Qed.

(** ** Views *)

(** Session [(ip, token)] is open at time [t]. *)
Definition session_valid (s : AuthState) (t : Z) (ip token : cstring) : Prop :=
  exists i r, ui_sessions s !! i = Some r /\ live us_active us_expires_at t r /\ us_client_ip r = ip /\ us_token r = token.

(** Peer [ip] holds [token] at time [t], whatever its port. *)
Definition peer_token_valid (s : AuthState) (t : Z) (ip token : cstring) : Prop :=
  exists i r, peer_tokens s !! i = Some r /\ live pt_active pt_expires_at t r /\ pt_peer_ip r = ip /\ pt_token r = token.

(** The token stored for endpoint [(ip, port)]. *)
Definition peer_token_at (s : AuthState) (ip : cstring) (port : Z) (token : cstring) (expires : Z) : Prop :=
  exists i r, peer_tokens s !! i = Some r /\ pt_active r = true /\ pt_peer_ip r = ip /\ pt_peer_port r = port /\
    pt_token r = token /\ pt_expires_at r = expires.

(** At most one active record per endpoint. *)
Definition pt_unique (s : AuthState) : Prop :=
  forall i j a b, peer_tokens s !! i = Some a -> peer_tokens s !! j = Some b ->
    pt_active a = true -> pt_active b = true ->
    pt_peer_ip a = pt_peer_ip b -> pt_peer_port a = pt_peer_port b -> i = j.

Definition ui_match (ip token : cstring) (r : UiSession) : bool :=
  (strcmp (us_client_ip r) ip =? 0) && (strcmp (us_token r) token =? 0).
Definition pt_match (ip token : cstring) (r : PeerTokenRecord) : bool :=
  (strcmp (pt_peer_ip r) ip =? 0) && (strcmp (pt_token r) token =? 0).
Definition pt_match_port (ip : cstring) (port : Z) (r : PeerTokenRecord) : bool :=
  (strcmp (pt_peer_ip r) ip =? 0) && (pt_peer_port r =? port).

Section Validation.
Context `{E : Env}.
Implicit Types (k : nat) (s : AuthState).

(** The scans of the three lookups are instances of the generic rule. *)
Definition ui_scan ip tok := scan_post ui_sessions set_ui_sessions us_active us_expires_at ui_deactivate (ui_match ip tok) (fun _ => 0).
Definition pt_scan {R} m (f : _ -> R) := scan_post peer_tokens set_peer_tokens pt_active pt_expires_at pt_deactivate m f.

Lemma wp_ui_scan ip tok (Q : option Z -> nat -> AuthState -> Prop) k s :
  auth_ready s ->
  (forall r k' s', auth_lock s' = MHeld -> ui_scan ip tok k s r k' (set_auth_lock MFree s') -> Q r k' s') ->
  wp (for_range MAX_UI_SESSIONS 0 (validate_ui_session_body ip tok)) Q k (set_auth_lock MHeld s).
Proof.
  intros Hs HQ. pose proof (ready_lock _ Hs) as Hl. destruct Hs as [Hinv _].
  apply (wp_scan ui_sessions set_ui_sessions) with (active := us_active) (expires := us_expires_at)
    (deactivate := ui_deactivate) (matches := ui_match ip tok) (result := fun _ => 0);
    [done|apply set_ui_id|done|exact (inv_ui_len _ Hinv)|].
  intros r k' s' Hpost. apply HQ; [by destruct Hpost as (_ & l' & -> & _)|].
  revert Hpost. apply scan_post_between; [done|]. intros l. by apply unlock_ui.
Qed.

Lemma wp_pt_scan {R} (m : PeerTokenRecord -> bool) (f : PeerTokenRecord -> R) body (Q : option R -> nat -> AuthState -> Prop) k s :
  body = scan_body peer_tokens set_peer_tokens pt_active pt_expires_at pt_deactivate m f ->
  auth_ready s ->
  (forall r k' s', auth_lock s' = MHeld -> pt_scan m f k s r k' (set_auth_lock MFree s') -> Q r k' s') ->
  wp (for_range MAX_PEER_TOKENS 0 body) Q k (set_auth_lock MHeld s).
Proof.
  intros -> Hs HQ. pose proof (ready_lock _ Hs) as Hl. destruct Hs as [Hinv _].
  apply wp_scan; [done|apply set_pt_id|done|exact (inv_pt_len _ Hinv)|].
  intros r k' s' Hpost. apply HQ; [by destruct Hpost as (_ & l' & -> & _)|].
  revert Hpost. apply scan_post_between; [done|]. intros l. by apply unlock_pt.
Qed.

Lemma wp_validate_ui ip tok (Q : Z -> nat -> AuthState -> Prop) k s :
  auth_ready s -> tok <> [] ->
  (env_lock k <> 0 -> Q (-1) (S k) s) ->
  (forall r k' s', env_lock k = 0 -> ui_scan ip tok (S k) s r k' s' -> Q (default (-1) r) k' s') ->
  wp (auth_validate_ui_session (Some ip) (Some tok)) Q k s.
Proof.
  intros Hs Htok H1 H0. unfold auth_validate_ui_session.
  apply wp_bind, wp_get. rewrite (proj2 Hs), bool_decide_false by done. reduce_tests.
  enter (ready_lock _ Hs); [|apply wp_ret, H1; congruence].
  apply wp_bind, wp_ui_scan; [done|]. intros r k' s' Hlk' Hpost. leave. by apply wp_ret, H0.
Qed.

Lemma wp_validate_peer ip tok (Q : Z -> nat -> AuthState -> Prop) k s :
  auth_ready s -> tok <> [] ->
  (env_lock k <> 0 -> Q (-1) (S k) s) ->
  (forall r k' s', env_lock k = 0 -> pt_scan (pt_match ip tok) (fun _ => 0) (S k) s r k' s' -> Q (default (-1) r) k' s') ->
  wp (auth_validate_peer_token (Some ip) (Some tok)) Q k s.
Proof.
  intros Hs Htok H1 H0. unfold auth_validate_peer_token.
  apply wp_bind, wp_get. rewrite (proj2 Hs), bool_decide_false by done. reduce_tests.
  enter (ready_lock _ Hs); [|apply wp_ret, H1; congruence].
  eapply wp_bind, (wp_pt_scan (pt_match ip tok) (fun _ => 0)); [done..|].
  intros r k' s' Hlk' Hpost. leave. by apply wp_ret, H0.
Qed.

Lemma wp_get_peer_token ip port size (Q : Z * option cstring -> nat -> AuthState -> Prop) k s :
  auth_ready s -> (0 < size)%nat ->
  (env_lock k <> 0 -> Q (-1, None) (S k) s) ->
  (forall r k' s', env_lock k = 0 ->
     pt_scan (pt_match_port ip port) (fun r => (0, Some (copy_string size (Some (pt_token r))))) (S k) s r k' s' ->
     Q (default (-1, None) r) k' s') ->
  wp (auth_get_peer_token (Some ip) port (Some size)) Q k s.
Proof.
  intros Hs Hsz H1 H0. unfold auth_get_peer_token.
  apply wp_bind, wp_get. rewrite (proj2 Hs). destruct (Nat.eqb_spec size 0); [lia|]. reduce_tests.
  enter (ready_lock _ Hs); [|apply wp_ret, H1; congruence].
  eapply wp_bind, (wp_pt_scan (pt_match_port ip port) (fun r => (0, Some (copy_string size (Some (pt_token r))))));
    [done..|]. intros r k' s' Hlk' Hpost. leave. by apply wp_ret, H0.
Qed.

(** *** Sweeps keep the invariant and the live slots *)

Lemma ui_scan_ready ip tok k s r k' s' : auth_ready s -> ui_scan ip tok k s r k' s' -> auth_ready s'.
Proof.
  intros [Hinv Hi] (_ & l' & -> & Hf & _). split; [|done]. apply inv_set_ui; [done| |].
  - rewrite <- (Forall2_length _ _ _ Hf). apply inv_ui_len, Hinv.
  - eapply swept_forall; [|exact Hf|apply inv_ui, Hinv]. by intros a.
Qed.

Lemma pt_scan_ready {R} m (f : _ -> R) k s r k' s' : auth_ready s -> pt_scan m f k s r k' s' -> auth_ready s'.
Proof.
  intros [Hinv Hi] (_ & l' & -> & Hf & _). split; [|done]. apply inv_set_pt; [done| |].
  - rewrite <- (Forall2_length _ _ _ Hf). apply inv_pt_len, Hinv.
  - eapply swept_forall; [|exact Hf|apply inv_pt, Hinv]. by intros a.
Qed.

Lemma ui_match_true ip tok s i r : auth_inv s -> ui_sessions s !! i = Some r -> c_string ip -> c_string tok ->
  ui_match ip tok r = true <-> us_client_ip r = ip /\ us_token r = tok.
Proof.
  intros Hinv Hr Hip Htok. destruct (Forall_lookup_1 _ _ _ _ (inv_ui _ Hinv) Hr) as [H1 H2].
  unfold ui_match. rewrite !strcmp_eqb by done. by rewrite andb_true_iff, !bool_decide_eq_true.
Qed.

Lemma pt_match_true ip tok s i r : auth_inv s -> peer_tokens s !! i = Some r -> c_string ip -> c_string tok ->
  pt_match ip tok r = true <-> pt_peer_ip r = ip /\ pt_token r = tok.
Proof.
  intros Hinv Hr Hip Htok. destruct (Forall_lookup_1 _ _ _ _ (inv_pt _ Hinv) Hr) as [H1 H2].
  unfold pt_match. rewrite !strcmp_eqb by done. by rewrite andb_true_iff, !bool_decide_eq_true.
Qed.

Lemma pt_match_port_true ip port s i r : auth_inv s -> peer_tokens s !! i = Some r -> c_string ip ->
  pt_match_port ip port r = true <-> pt_peer_ip r = ip /\ pt_peer_port r = port.
Proof.
  intros Hinv Hr Hip. destruct (Forall_lookup_1 _ _ _ _ (inv_pt _ Hinv) Hr) as [H1 H2].
  unfold pt_match_port. rewrite !strcmp_eqb by done. by rewrite andb_true_iff, bool_decide_eq_true, Z.eqb_eq.
Qed.

Context `{!ClockMono E}.

Lemma live_later {T} (act : T -> bool) ex t t' r : t <= t' -> live act ex t' r -> live act ex t r.
Proof. intros Ht [H1 H2]. split; [done|lia]. Qed.

Lemma ui_scan_valid ip tok k s r k' s' t ip' tok' : ui_scan ip tok k s r k' s' -> env_clock k' <= t ->
  session_valid s' t ip' tok' <-> session_valid s t ip' tok'.
Proof.
  intros Hp Ht. split; intros (i & x & Hx & Hl & He); exists i, x; (split; [|done]);
    by apply (scan_keeps ui_sessions set_ui_sessions (fun _ _ => eq_refl) us_active us_expires_at ui_deactivate _ _ (fun _ => eq_refl) _ _ _ _ _ _ _ _ Hp Ht Hl).
Qed.

Lemma pt_scan_valid {R} m (f : _ -> R) k s r k' s' t ip' tok' : pt_scan m f k s r k' s' -> env_clock k' <= t ->
  peer_token_valid s' t ip' tok' <-> peer_token_valid s t ip' tok'.
Proof.
  intros Hp Ht. split; intros (i & x & Hx & Hl & He); exists i, x; (split; [|done]);
    by apply (scan_keeps peer_tokens set_peer_tokens (fun _ _ => eq_refl) pt_active pt_expires_at pt_deactivate _ _ (fun _ => eq_refl) _ _ _ _ _ _ _ _ Hp Ht Hl).
Qed.

Lemma ui_scan_result ip tok k s r k' s' :
  auth_inv s -> c_string ip -> c_string tok -> ui_scan ip tok k s r k' s' ->
  (default (-1) r = 0 -> session_valid s (env_clock k) ip tok) /\
  (session_valid s (env_clock k') ip tok -> default (-1) r = 0).
Proof.
  intros Hinv Hip Htok Hp. unfold ui_scan, pt_scan in Hp. split.
  - destruct r as [v|]; [|done]. intros _.
    destruct (scan_sound _ _ _ _ _ _ _ _ _ _ _ _ Hp) as (i & x & Hx & Hl & Hm & _).
    exists i, x. apply (ui_match_true _ _ _ _ _ Hinv Hx Hip Htok) in Hm as [H1 H2]. done.
  - intros (i & x & Hx & Hl & H1 & H2). destruct r as [v|].
    + destruct (scan_sound _ _ _ _ _ _ _ _ _ _ _ _ Hp) as (? & ? & _ & _ & _ & ->). done.
    + exfalso. eapply (scan_complete _ _ _ _ _ _ _ _ _ _ _ _ _ Hp Hx); [|exact Hl].
      by apply (ui_match_true _ _ _ _ _ Hinv Hx Hip Htok).
Qed.

Lemma pt_scan_result ip tok k s r k' s' :
  auth_inv s -> c_string ip -> c_string tok -> pt_scan (pt_match ip tok) (fun _ => 0) k s r k' s' ->
  (default (-1) r = 0 -> peer_token_valid s (env_clock k) ip tok) /\
  (peer_token_valid s (env_clock k') ip tok -> default (-1) r = 0).
Proof.
  intros Hinv Hip Htok Hp. unfold ui_scan, pt_scan in Hp. split.
  - destruct r as [v|]; [|done]. intros _.
    destruct (scan_sound _ _ _ _ _ _ _ _ _ _ _ _ Hp) as (i & x & Hx & Hl & Hm & _).
    exists i, x. apply (pt_match_true _ _ _ _ _ Hinv Hx Hip Htok) in Hm as [H1 H2]. done.
  - intros (i & x & Hx & Hl & H1 & H2). destruct r as [v|].
    + destruct (scan_sound _ _ _ _ _ _ _ _ _ _ _ _ Hp) as (? & ? & _ & _ & _ & ->). done.
    + exfalso. eapply (scan_complete _ _ _ _ _ _ _ _ _ _ _ _ _ Hp Hx); [|exact Hl].
      by apply (pt_match_true _ _ _ _ _ Hinv Hx Hip Htok).
Qed.
End Validation.

(** ** Opening sessions *)

Definition new_session (ip token : cstring) (now : Z) : UiSession :=
  {| us_active := true; us_token := token; us_client_ip := copy_string 46 (Some ip);
     us_expires_at := now + UI_SESSION_TTL_SECONDS |}.

Section Sessions.
Context `{E : Env} {R : RandOk E}.
Implicit Types (k : nat) (s : AuthState).

(** What a successful unlock did: one slot, which was free for this client
    at some tick of the call, now holds the new session. *)
Definition session_opened s ip tok k k' s' : Prop :=
  exists i old j, ui_sessions s !! i = Some old /\ (k <= j < k')%nat /\ hex_token 64 tok /\
    (us_active old = false \/ (exists j', (k <= j' < k')%nat /\ us_expires_at old <= env_clock j') \/ us_client_ip old = ip) /\
    s' = set_ui i (new_session ip tok (env_clock j)) s.

Lemma wp_take_slot slot ip (Q : bool -> nat -> AuthState -> Prop) k s :
  (forall b k', (k <= k')%nat ->
     (b = true -> us_active slot = false \/ (exists j, (k <= j < k')%nat /\ us_expires_at slot <= env_clock j) \/
                  strcmp (us_client_ip slot) ip = 0) -> Q b k' s) ->
  wp (if negb (us_active slot) then ret true
      else now <- time_NULL ;;
           if us_expires_at slot <=? now then ret true
           else ret (strcmp (us_client_ip slot) ip =? 0)) Q k s.
Proof.
  intros H. apply wp_if; intros Ha; bool_prop; [apply wp_ret, H; auto|].
  apply wp_bind, wp_ask, wp_if; intros He; bool_prop; apply wp_ret, H; try lia.
  intros _. right. left. exists k. split; [lia|done].
Qed.

Lemma wp_create_ui ip code size (Q : Z * option cstring -> nat -> AuthState -> Prop) k s :
  auth_ready s -> c_string ip -> c_string code -> (65 <= size)%nat ->
  (forall k', Q (-1, None) k' s) ->
  (forall k' tok s', (k <= k')%nat -> code = admin_code s -> session_opened s ip tok k k' s' -> Q (0, Some tok) k' s') ->
  wp (auth_create_ui_session (Some ip) (Some code) (Some size)) Q k s.
Proof.
  intros Hs Hip Hcode Hsz H1 H0. pose proof (ready_lock _ Hs) as Hl. pose proof Hs as [Hinv Hi].
  unfold auth_create_ui_session. apply wp_bind, wp_get. rewrite Hi. destruct (Nat.ltb_spec size 65); [lia|]. reduce_tests.
  enter Hl; [|by apply wp_ret]. apply wp_bind, wp_get. simpl admin_code.
  rewrite strcmp_eqb by (done || by apply (numeric_c_string 6), (inv_codes _ Hinv)).
  apply wp_if; intros Hc; bool_prop.
  { leave. simpl. rewrite unlock_id by done. by apply wp_ret. }
  apply wp_bind.
  apply (wp_for (fun _ k1 s1 => (S k <= k1)%nat /\ s1 = set_auth_lock MHeld s)); [by split| |].
  - intros j k1 s1 Hj [Hk1 ->]. unfold create_ui_session_body. apply wp_bind, wp_get. cbv zeta.
    simpl ui_sessions. set (slot := ui_sessions s !!! j).
    assert (Hslot : ui_sessions s !! j = Some slot).
    { apply array_get. rewrite (inv_ui_len _ Hinv). lia. }
    apply wp_bind, wp_take_slot. intros b k2 Hk2 Hb. apply wp_if; intros Hnb; bool_prop; [apply wp_ret; split; [lia|done]|].
    apply wp_bind, wp_random_token.
    + intros k3 tok Hk3 Htok _. reduce_tests. apply wp_bind, wp_ask, wp_bind, wp_modify, wp_ret. cbv beta iota. leave. apply wp_ret.
      cbn [us_token default from_option id]. rewrite (copy_string_fits size tok) by (destruct Htok as [-> _]; lia).
      apply H0; [lia|done|]. exists j, slot, k3. split; [done|]. split; [lia|]. split; [done|]. split.
      * destruct (Hb Hnb) as [?|[(j' & ? & ?)|Heq]]; [by left|right; left; exists j'; split; [lia|done]|].
        right. right. apply strcmp_eq in Heq; [done| |done]. by apply (Forall_lookup_1 _ _ _ _ (inv_ui _ Hinv) Hslot).
      * unfold set_ui. by apply (unlock_ui _ s).
    + intros k3 Hk3. reduce_tests. leave. simpl. rewrite unlock_id by done. by apply wp_ret, wp_ret.
  - intros k1 s1 [Hk1 ->]. leave. simpl. rewrite unlock_id by done. by apply wp_ret.
Qed.

Lemma session_opened_ready s ip tok k k' s' :
  auth_ready s -> c_string ip -> session_opened s ip tok k k' s' -> auth_ready s'.
Proof.
  intros [Hinv Hi] Hip (i & old & j & Ho & Hj & Htok & _ & ->). split; [|done].
  apply inv_set_ui; [done|by rewrite length_insert, (inv_ui_len _ Hinv)|].
  apply Forall_insert; [apply Hinv|]. split; simpl; [by eapply hex_c_string|by apply copy_string_c].
Qed.

Context `{!ClockMono E}.

Lemma session_opened_valid s ip tok k k' s' t :
  (length ip <= 45)%nat -> session_opened s ip tok k k' s' ->
  t < env_clock k + 12 * 60 * 60 -> session_valid s' t ip tok.
Proof.
  intros Hlen (i & old & j & Ho & Hj & Htok & _ & ->) Ht. exists i, (new_session ip tok (env_clock j)).
  pose proof (clock_mono k j). split; [|split; [split; [done|simpl; unfold UI_SESSION_TTL_SECONDS; lia]|]].
  - simpl. apply list_lookup_insert_eq. by eapply lookup_lt_Some.
  - split; [|done]. simpl. apply copy_string_fits. lia.
Qed.

(** The client's sessions of that token are the new one and those there were. *)
Lemma session_opened_expires s ip tok k k' s' t : session_opened s ip tok k k' s' -> env_clock k' + 12 * 60 * 60 <= t ->
  session_valid s' t ip tok -> session_valid s t ip tok.
Proof.
  intros (i & old & j & Ho & Hj & _ & _ & ->) Ht (n & r & Hr & Hl & Hrest). pose proof (clock_mono j k'). simpl in Hr.
  destruct (decide (n = i)) as [->|Hn]; [exfalso|exists n, r; by rewrite list_lookup_insert_ne in Hr].
  rewrite list_lookup_insert_eq in Hr by (by eapply lookup_lt_Some). simplify_eq. destruct Hl as [_ Hl]. simpl in Hl.
  unfold UI_SESSION_TTL_SECONDS in Hl. lia.
Qed.

(** A session of another client is neither evicted nor created. *)
Lemma session_opened_others s ip tok k k' s' t ip' tok' :
  (length ip <= 45)%nat -> session_opened s ip tok k k' s' -> ip' <> ip -> env_clock k' <= t ->
  session_valid s' t ip' tok' <-> session_valid s t ip' tok'.
Proof.
  intros Hlen (i & old & j & Ho & Hj & Htok & Hfree & ->) Hne Ht.
  assert (Hold : us_client_ip old = ip' -> ~ live us_active us_expires_at t old).
  { intros Hip [Ha He]. destruct Hfree as [?|[(j' & Hj' & Hc)|?]]; [congruence| |congruence].
    pose proof (clock_mono j' k'). lia. }
  split; intros (n & r & Hr & Hl & Hrip & Hrtok); exists n, r; (split; [|done]); simpl in *.
  - destruct (decide (n = i)) as [->|Hn]; [|by rewrite list_lookup_insert_ne in Hr].
    rewrite list_lookup_insert_eq in Hr by (by eapply lookup_lt_Some). simplify_eq. simpl in Hne.
    rewrite copy_string_fits in Hne by lia. done.
  - rewrite list_lookup_insert_ne; [done|]. intros ->. simplify_eq. by apply Hold in Hl.
Qed.
End Sessions.

(** ** Theorems on sessions *)

Section SessionTheorems.
Context (E : Env) (R : RandOk E) (C : ClockMono E).

(** C13: a session token is accepted exactly while the session is open.  When
    [auth_validate_ui_session] returns 0 the pair (client address, token) was
    an unexpired session when the call began; when the pair is unexpired as
    the call returns and the mutex could be taken, the call returns 0.  The
    sweep it does on the way removes only expired sessions, and the state
    stays well formed with the mutex released. *)
Theorem validate_ui_session_correct ip tok k s r k' s' :
  auth_ready s -> c_string ip -> c_string tok -> tok <> [] ->
  auth_validate_ui_session (Some ip) (Some tok) k s = (r, (k', s')) ->
  auth_ready s' /\
  (r = 0 -> session_valid s (env_clock k) ip tok) /\
  (env_lock k = 0 -> session_valid s (env_clock k') ip tok -> r = 0) /\
  (forall t ip' tok', env_clock k' <= t -> session_valid s' t ip' tok' <-> session_valid s t ip' tok').
Proof.
  intros Hs Hip Htok Hne. to_wp. apply wp_validate_ui; [done..| |].
  - intros Hlk. split; [done|]. split; [done|]. by split.
  - intros v k1 s1 Hlk Hp. split; [by eapply ui_scan_ready|].
    destruct (ui_scan_result _ _ _ _ _ _ _ (proj1 Hs) Hip Htok Hp) as [H1 H2]. split; [|split].
    + intros Hv. destruct (H1 Hv) as (i & x & Hx & Hl & Hm). exists i, x. split; [done|]. split; [|done].
      eapply live_later; [|exact Hl]. apply clock_mono. lia.
    + auto.
    + intros t ip' tok' Ht. by eapply ui_scan_valid.
Qed.

(** C22: unlocking needs the admin code, and only touches the client's own
    session.  A failing call changes nothing; a successful one was given the
    admin code and returns a 64-digit hexadecimal token.  The token is an open
    session of that client for twelve hours: at every time less than twelve
    hours after the call began, and, unless it was one before the call already,
    at no time twelve hours or more after the call ended.  Every other client's
    open sessions are left alone. *)
Theorem create_ui_session_correct ip code size k s r out k' s' :
  auth_ready s -> c_string ip -> c_string code -> (length ip <= 45)%nat -> (65 <= size)%nat ->
  auth_create_ui_session (Some ip) (Some code) (Some size) k s = ((r, out), (k', s')) ->
  auth_ready s' /\
  (r <> 0 -> out = None /\ s' = s) /\
  (r = 0 -> code = admin_code s /\ exists tok, out = Some tok /\ hex_token 64 tok /\
     (forall t, t < env_clock k + 12 * 60 * 60 -> session_valid s' t ip tok) /\
     (forall t, env_clock k' + 12 * 60 * 60 <= t -> session_valid s' t ip tok -> session_valid s t ip tok) /\
     (forall t ip' tok', ip' <> ip -> env_clock k' <= t ->
        session_valid s' t ip' tok' <-> session_valid s t ip' tok')).
Proof.
  intros Hs Hip Hcode Hlen Hsz. to_wp.
  apply wp_create_ui; [done..| |].
  - intros k1. by split.
  - intros k1 tok s1 Hk Hc Hop. cbn [fst snd]. split; [by eapply (session_opened_ready s ip)|]. split; [done|]. intros _. split; [done|].
    exists tok. split; [done|]. split; [by destruct Hop as (? & ? & ? & ? & ? & ? & _)|].
    split; [intros t Ht; by eapply session_opened_valid|]. split; [intros t Ht; by eapply session_opened_expires|intros t ip' tok' Hne Ht; by eapply session_opened_others].
Qed.
End SessionTheorems.
