(* ===== verification/AuthTokens.v ===== *)
(** * AuthTokens: pairing codes and peer tokens

    The table of peer tokens as a finite map from endpoints to tokens, the
    pairing code, and the theorems on issuing, storing and checking tokens. *)

From stdpp Require Import base numbers list strings gmap.
From Stdlib Require Import ZArith Lia Ascii.
From S2P Require Import Prelude Effects CLib Crypto Auth AuthSpec.

Definition new_peer_token (ip : cstring) (port : Z) (name : option cstring) (token : cstring) (expires : Z) : PeerTokenRecord :=
  {| pt_active := true; pt_peer_ip := copy_string 46 (Some ip); pt_peer_name := copy_string 256 name;
     pt_peer_port := port; pt_token := copy_string 65 (Some token); pt_expires_at := expires |}.

(** ** The upsert *)

Section Upsert.
Context `{E : Env}.
Implicit Types (k : nat) (s : AuthState).

Definition same_endpoint (ip : cstring) (port : Z) (r : PeerTokenRecord) : Prop :=
  pt_active r = true /\ pt_peer_ip r = ip /\ pt_peer_port r = port.

(** The slot the record goes to: the one of the endpoint, or a free one when
    the endpoint has none. *)
Definition upserted s ip port name token expires s' : Prop :=
  exists i old, peer_tokens s !! i = Some old /\
    (same_endpoint ip port old \/
     (pt_active old = false /\ forall j r, peer_tokens s !! j = Some r -> ~ same_endpoint ip port r)) /\
    s' = set_pt i (new_peer_token ip port name token expires) s.

(** No room: every slot is active and none is the endpoint's. *)
Definition upsert_full s ip port : Prop :=
  forall i r, peer_tokens s !! i = Some r -> pt_active r = true /\ ~ same_endpoint ip port r.

Definition upsert_inv s ip port (n empty k1 : nat) s1 : Prop :=
  s1 = s /\
  (forall i r, (i < n)%nat -> peer_tokens s !! i = Some r -> ~ same_endpoint ip port r) /\
  ((empty < n)%nat /\ (exists r, peer_tokens s !! empty = Some r /\ pt_active r = false) \/
   empty = MAX_PEER_TOKENS /\ forall i r, (i < n)%nat -> peer_tokens s !! i = Some r -> pt_active r = true).

Lemma same_endpoint_test ip port s i r : Forall pt_ok (peer_tokens s) -> c_string ip -> peer_tokens s !! i = Some r ->
  pt_active r && (strcmp (pt_peer_ip r) ip =? 0) && (pt_peer_port r =? port) = true <-> same_endpoint ip port r.
Proof.
  intros Hf Hip Hr. destruct (Forall_lookup_1 _ _ _ _ Hf Hr) as [_ H2].
  rewrite strcmp_eqb by done. rewrite !andb_true_iff, bool_decide_eq_true, Z.eqb_eq. unfold same_endpoint. tauto.
Qed.

Lemma wp_upsert_body ip port name token expires n empty (Q : nat + Z -> nat -> AuthState -> Prop) k s r :
  Forall pt_ok (peer_tokens s) -> c_string ip -> (length ip <= 45)%nat ->
  peer_tokens s !! n = Some r ->
  (same_endpoint ip port r -> Q (inr 0) k (set_pt n (new_peer_token ip port name token expires) s)) ->
  (~ same_endpoint ip port r -> Q (inl (if negb (pt_active r) && (empty =? MAX_PEER_TOKENS)%nat then n else empty)) k s) ->
  wp (upsert_peer_token_body ip port name token expires n empty) Q k s.
Proof.
  intros Hf Hip Hlen Hr H1 H2. pose proof (same_endpoint_test ip port s n r Hf Hip Hr) as Ht.
  unfold upsert_peer_token_body. apply wp_bind, wp_get. cbv zeta. rewrite (list_lookup_total_correct _ _ _ Hr).
  apply wp_if; intros Hm.
  - apply Ht in Hm. apply wp_bind, wp_modify, wp_ret. specialize (H1 Hm). destruct Hm as (Ha & Hi & Hp).
    unfold new_peer_token in H1. rewrite (copy_string_fits 46 ip) in H1 by lia. by rewrite Ha, Hi, Hp.
  - assert (Hn : ~ same_endpoint ip port r) by (rewrite <- Ht; congruence). specialize (H2 Hn).
    apply wp_if; intros Hb; apply wp_ret; by rewrite Hb in H2.
Qed.

Lemma wp_upsert ip port name token expires (Q : Z -> nat -> AuthState -> Prop) k s :
  length (peer_tokens s) = MAX_PEER_TOKENS -> Forall pt_ok (peer_tokens s) -> c_string ip -> (length ip <= 45)%nat ->
  (forall s', upserted s ip port name token expires s' -> Q 0 k s') ->
  (upsert_full s ip port -> Q (-1) k s) ->
  wp (upsert_peer_token_locked ip port name token expires) Q k s.
Proof.
  intros Hlen Hf Hip Hil H0 H1. unfold upsert_peer_token_locked. apply wp_bind.
  apply (wp_for_acc (fun n e k1 s1 => k1 = k /\ upsert_inv s ip port n e k1 s1)).
  - split; [done|]. split; [done|]. split; [intros; lia|]. right. split; [done|]. intros; lia.
  - intros j e k1 s1 Hj (-> & -> & Hno & He).
    destruct (lookup_lt_is_Some_2 (peer_tokens s) j) as [r Hr]; [lia|].
    apply (wp_upsert_body _ _ _ _ _ _ _ _ _ _ r); [done..| |].
    + intros Hm. apply wp_ret, H0. exists j, r. by split; [|split; [left|]].
    + intros Hm. split; [done|]. split; [done|]. split.
      * intros i x Hi Hx. destruct (decide (i = j)) as [->|]; [congruence|]. apply (Hno i x); [lia|done].
      * destruct (pt_active r) eqn:Ha; simpl.
        -- destruct He as [[He Hx]|[-> Hx]]; [left; split; [lia|done]|]. right. split; [done|].
           intros i x Hi Hxi. destruct (decide (i = j)) as [->|]; [congruence|]. apply (Hx i x); [lia|done].
        -- destruct He as [[He Hx]|[-> Hx]].
           ++ left. destruct (Nat.eqb_spec e MAX_PEER_TOKENS); [lia|]. split; [lia|done].
           ++ left. rewrite Nat.eqb_refl. split; [lia|]. by exists r.
  - intros e k1 s1 (-> & -> & Hno & He). simpl in Hno.
    assert (Hall : forall i r, peer_tokens s !! i = Some r -> ~ same_endpoint ip port r).
    { intros i r Hr. apply (Hno i r); [|done]. apply lookup_lt_Some in Hr. lia. }
    destruct He as [[He (r & Hr & Ha)]|[-> Hx]].
    + destruct (Nat.eqb_spec e MAX_PEER_TOKENS); [lia|]. apply wp_bind, wp_modify, wp_ret, H0.
      exists e, r. split; [done|]. split; [by right|done].
    + rewrite Nat.eqb_refl. apply wp_ret, H1. intros i r Hr. split; [|by eapply Hall].
      apply (Hx i r); [|done]. apply lookup_lt_Some in Hr. lia.
Qed.
End Upsert.

(** ** The map from endpoints to tokens *)

Section TokenMap.
Implicit Types (s : AuthState).

Lemma upserted_ready s ip port name tok e s' :
  auth_ready s -> c_string ip -> c_string tok -> upserted s ip port name tok e s' -> auth_ready s'.
Proof.
  intros [Hinv Hi] Hip Htok (i & old & Ho & _ & ->). split; [|done].
  apply inv_set_pt; [done|by rewrite length_insert, (inv_pt_len _ Hinv)|].
  apply Forall_insert; [apply Hinv|]. by split; apply copy_string_c.
Qed.

Lemma new_peer_endpoint ip port name tok e : (length ip <= 45)%nat ->
  same_endpoint ip port (new_peer_token ip port name tok e).
Proof. intros. split; [done|]. split; [|done]. simpl. apply copy_string_fits. lia. Qed.

(** With unique endpoints, the slot written is the only one of the endpoint. *)
Lemma upserted_elsewhere s ip port name tok e s' :
  pt_unique s -> upserted s ip port name tok e s' ->
  exists i, s' = set_pt i (new_peer_token ip port name tok e) s /\ (i < length (peer_tokens s))%nat /\
    forall j r, j <> i -> peer_tokens s !! j = Some r -> ~ same_endpoint ip port r.
Proof.
  intros Hu (i & old & Ho & Hc & ->). exists i. split; [done|]. split; [by eapply lookup_lt_Some|].
  intros j r Hj Hr Hse. destruct Hc as [Hso|[_ Hno]]; [|by eapply Hno].
  destruct Hse as (A1 & A2 & A3), Hso as (B1 & B2 & B3).
  apply Hj, (Hu j i r old); congruence.
Qed.

Lemma upserted_unique s ip port name tok e s' : (length ip <= 45)%nat ->
  pt_unique s -> upserted s ip port name tok e s' -> pt_unique s'.
Proof.
  intros Hlen Hu Hup. destruct (upserted_elsewhere _ _ _ _ _ _ _ Hu Hup) as (i & -> & Hi & Hno).
  destruct (new_peer_endpoint ip port name tok e Hlen) as (N1 & N2 & N3).
  intros m n a b Ha Hb Haa Hba Heip Hport. simpl in *.
  destruct (decide (m = i)) as [->|Hm], (decide (n = i)) as [->|Hn]; [done|..].
  - rewrite list_lookup_insert_eq in Ha by done. rewrite list_lookup_insert_ne in Hb by congruence. simplify_eq.
    exfalso. apply (Hno n b); [done..|]. simpl in *. split; [done|]. split; congruence.
  - rewrite list_lookup_insert_ne in Ha by congruence. rewrite list_lookup_insert_eq in Hb by done. simplify_eq.
    exfalso. apply (Hno m a); [done..|]. simpl in *. split; [done|]. split; congruence.
  - rewrite list_lookup_insert_ne in Ha, Hb by congruence. by apply (Hu m n a b).
Qed.

(** The endpoint maps to the new token; every other endpoint maps to what it
    mapped to. *)
Lemma upserted_at s ip port name tok e s' : (length ip <= 45)%nat ->
  upserted s ip port name tok e s' -> peer_token_at s' ip port (take 64 tok) e.
Proof.
  intros Hlen (i & old & Ho & _ & ->). exists i, (new_peer_token ip port name tok e).
  destruct (new_peer_endpoint ip port name tok e Hlen) as (N1 & N2 & N3).
  split; [apply list_lookup_insert_eq; by eapply lookup_lt_Some|].
  do 3 (split; [done|]). split; [|done]. simpl. by rewrite copy_string_some.
Qed.

Lemma upserted_other s ip port name tok e s' ip' port' tok' e' : (length ip <= 45)%nat ->
  upserted s ip port name tok e s' -> (ip', port') <> (ip, port) ->
  peer_token_at s' ip' port' tok' e' <-> peer_token_at s ip' port' tok' e'.
Proof.
  intros Hlen (i & old & Ho & Hc & ->) Hne.
  destruct (new_peer_endpoint ip port name tok e Hlen) as (N1 & N2 & N3).
  split; intros (j & r & Hr & Ha & Hip & Hpo & He); exists j, r; simpl in *.
  - destruct (decide (j = i)) as [->|]; [|by rewrite list_lookup_insert_ne in Hr].
    rewrite list_lookup_insert_eq in Hr by (by eapply lookup_lt_Some). simplify_eq. simpl in *. congruence.
  - rewrite list_lookup_insert_ne; [done|]. intros ->. simplify_eq.
    destruct Hc as [(B1 & B2 & B3)|[Hf _]]; [|congruence]. apply Hne. congruence.
Qed.

Lemma peer_token_functional s ip port tok e tok' e' : pt_unique s ->
  peer_token_at s ip port tok e -> peer_token_at s ip port tok' e' -> tok = tok' /\ e = e'.
Proof.
  intros Hu (i & r & Hr & A1 & A2 & A3 & A4 & A5) (j & q & Hq & B1 & B2 & B3 & B4 & B5).
  assert (i = j) as -> by (apply (Hu i j r q); congruence). simplify_eq. done.
Qed.

Lemma peer_token_at_valid s ip port tok e t : peer_token_at s ip port tok e -> t < e -> peer_token_valid s t ip tok.
Proof.
  intros (i & r & Hr & Ha & Hip & Hpo & Htok & He) Ht. exists i, r. split; [done|]. split; [|done].
  split; [done|]. by rewrite He.
Qed.

(** After its expiry the stored token is valid only if another endpoint of the
    address has the same. *)
Lemma upserted_expires s ip port name tok e s' ip' tok' t : upserted s ip port name tok e s' -> e <= t ->
  peer_token_valid s' t ip' tok' -> peer_token_valid s t ip' tok'.
Proof.
  intros (i & old & Ho & _ & ->) Ht (n & r & Hr & [Ha Hl] & Hrest). simpl in Hr.
  destruct (decide (n = i)) as [->|Hn]; [exfalso|exists n, r; by rewrite list_lookup_insert_ne in Hr].
  rewrite list_lookup_insert_eq in Hr by (by eapply lookup_lt_Some). simplify_eq. simpl in Hl. lia.
Qed.

Lemma upserted_auth_lock s ip port name tok e s' : upserted s ip port name tok e s' -> auth_lock s' = auth_lock s.
Proof. by intros (i & old & _ & _ & ->). Qed.

Lemma upserted_lock m s ip port name tok e s' :
  upserted s ip port name tok e s' -> upserted (set_auth_lock m s) ip port name tok e (set_auth_lock m s').
Proof. intros (i & old & Ho & Hc & ->). by exists i, old. Qed.
End TokenMap.

(** ** The pairing code *)

Section Pairing.
Context `{E : Env} {R : RandOk E}.
Implicit Types (k : nat) (s : AuthState).

(** After [ensure_pairing_code_locked] at tick [k]: the code in force is kept,
    an expired one is replaced by six fresh digits. *)
Definition pairing_refreshed s k s' : Prop :=
  (s' = s /\ env_clock k < pairing_code_expires_at s) \/
  (exists c, numeric_code 6 c /\ (pairing_code_expires_at s <= env_clock k \/ pairing_code s = []) /\
     s' = set_pairing_code_expires_at (env_clock k + PAIRING_CODE_TTL_SECONDS) (set_pairing_code c s)).

Lemma wp_ensure_pairing (Q : Z -> nat -> AuthState -> Prop) k s :
  (forall k' s', (k < k')%nat -> pairing_refreshed s k s' -> Q 0 k' s') ->
  (forall k', (k < k')%nat -> Q (-1) k' s) ->
  wp ensure_pairing_code_locked Q k s.
Proof.
  intros H0 H1. unfold ensure_pairing_code_locked. apply wp_bind, wp_ask, wp_bind, wp_get, wp_if; intros Hc; bool_prop.
  - apply wp_ret, H0; [lia|]. by left.
  - apply wp_bind, wp_random_code.
    + intros k' c Hk Hn _. reduce_tests. apply wp_bind, wp_modify, wp_bind, wp_modify, wp_ret, H0; [lia|].
      right. exists c. split; [done|]. split; [|done].
      destruct Hc as [Hc|Hc]; bool_prop; [by left|]. by right.
    + intros k' Hk. reduce_tests. apply wp_ret, H1. lia.
Qed.

Lemma pairing_refreshed_facts s k s' : pairing_refreshed s k s' -> auth_inv s -> auth_initialized s = true ->
  numeric_code 6 (pairing_code s') /\ env_clock k < pairing_code_expires_at s' /\ peer_tokens s' = peer_tokens s /\
  ui_sessions s' = ui_sessions s /\ rate_limits s' = rate_limits s /\ admin_code s' = admin_code s /\
  auth_initialized s' = true /\ auth_lock s' = auth_lock s.
Proof.
  intros [[-> Hc]|(c & Hn & _ & ->)] Hinv Hi; simpl; repeat split; try done; try apply Hn; try (by apply (inv_codes _ Hinv)).
  unfold PAIRING_CODE_TTL_SECONDS. lia.
Qed.

Lemma pairing_refreshed_lock s k s' m : pairing_refreshed s k s' ->
  pairing_refreshed (set_auth_lock m s) k (set_auth_lock m s').
Proof. intros [[-> Hc]|(c & Hn & Hc & ->)]; [by left|]. right. by exists c. Qed.

Lemma pairing_refreshed_ready s k s' : auth_ready s -> pairing_refreshed s k s' -> auth_ready s'.
Proof.
  intros [Hinv Hi] Hp. destruct (pairing_refreshed_facts _ _ _ Hp Hinv Hi) as (Hn & _ & H1 & H2 & H3 & H4 & H5 & H6).
  split; [|done]. split; rewrite ?H1, ?H2, ?H3, ?H4, ?H5, ?H6; try apply Hinv.
  - by rewrite (inv_lock _ Hinv), Hi.
  - intros _. split; [by apply Hinv|done].
Qed.

(** What a successful pairing did: the code in force was given, and the fresh
    token [tok], valid for a week from tick [j], is stored for the endpoint. *)
Definition token_issued s ip port name code tok e k k' s' : Prop :=
  exists s1 j, pairing_refreshed s (S k) s1 /\ code = pairing_code s1 /\ hex_token 64 tok /\
    (k <= j < k')%nat /\ e = env_clock j + 7 * 24 * 60 * 60 /\ upserted s1 ip port name tok e s'.

Lemma wp_issue ip port name code size (exp : bool) (Q : Z * option cstring * option Z -> nat -> AuthState -> Prop) k s :
  auth_ready s -> c_string ip -> (length ip <= 45)%nat -> c_string code -> (65 <= size)%nat ->
  (forall k' s', s' = s \/ pairing_refreshed s (S k) s' -> Q (-1, None, None) k' s') ->
  (forall k' tok e s', (k <= k')%nat -> token_issued s ip port name code tok e k k' s' ->
     Q (0, Some tok, if exp then Some e else None) k' s') ->
  wp (auth_issue_pair_token (Some ip) name port (Some code) (Some size) exp) Q k s.
Proof.
  intros Hs Hip Hlen Hcode Hsz H1 H0. pose proof (ready_lock _ Hs) as Hl. pose proof Hs as [Hinv Hi].
  unfold auth_issue_pair_token. apply wp_bind, wp_get. rewrite Hi. destruct (Nat.ltb_spec size 65); [lia|]. reduce_tests.
  enter Hl; [|apply wp_ret, H1; by left]. apply wp_bind, wp_ensure_pairing.
  2:{ intros k1 Hk1. apply wp_bind, wp_get. reduce_tests. leave. simpl. rewrite unlock_id by done. apply wp_ret, H1. by left. }
  intros k1 s1 Hk1 Hp. apply wp_bind, wp_get. reduce_tests.
  (* the refreshed state without the lock *)
  set (u := set_auth_lock MFree s1).
  assert (Hpu : pairing_refreshed s (S k) u).
  { apply (pairing_refreshed_lock _ _ _ MFree) in Hp. simpl in Hp. by rewrite unlock_id in Hp. }
  assert (Hs1 : s1 = set_auth_lock MHeld u).
  { destruct Hp as [[-> _]|(c & _ & _ & ->)]; by destruct s. }
  pose proof (pairing_refreshed_ready _ _ _ Hs Hpu) as Hu. clearbody u. subst s1. simpl pairing_code.
  rewrite strcmp_eqb by (done || by apply (numeric_c_string 6), (inv_codes _ (proj1 Hu)), Hu).
  apply wp_if; intros Hc; bool_prop.
  { leave. simpl. rewrite unlock_id by (by apply ready_lock). apply wp_ret, H1. by right. }
  apply wp_bind, wp_random_token.
  2:{ intros k2 Hk2. reduce_tests. leave. simpl. rewrite unlock_id by (by apply ready_lock). apply wp_ret, H1. by right. }
  intros k2 tok Hk2 Htok _. reduce_tests. apply wp_bind, wp_ask. cbn [default from_option id]. cbv zeta.
  apply wp_bind, wp_upsert; simpl; [apply Hu|apply Hu|done|done| |].
  - intros s2 Hup. pose proof (upserted_auth_lock _ _ _ _ _ _ _ Hup) as Hl2. apply (upserted_lock MFree) in Hup. simpl in Hup. rewrite unlock_id in Hup by (by apply ready_lock).
    apply wp_bind, wp_unlock; [done|]. reduce_tests. apply wp_ret.
    rewrite copy_string_fits by (destruct Htok as [-> _]; lia). simpl. apply H0; [lia|].
    exists u, k2. do 3 (split; [done|]). split; [lia|]. done.
  - intros _. leave. simpl. rewrite unlock_id by (by apply ready_lock). reduce_tests. apply wp_ret, H1. by right.
Qed.
End Pairing.

Section Store.
Context `{E : Env}.
Implicit Types (k : nat) (s : AuthState).

Lemma wp_store ip port name tok e (Q : Z -> nat -> AuthState -> Prop) k s :
  auth_ready s -> c_string ip -> (length ip <= 45)%nat ->
  (env_lock k <> 0 \/ upsert_full s ip port -> Q (-1) (S k) s) ->
  (forall s', upserted s ip port name tok e s' -> Q 0 (S k) s') ->
  wp (auth_store_peer_token (Some ip) port name (Some tok) e) Q k s.
Proof.
  intros Hs Hip Hlen H1 H0. pose proof (ready_lock _ Hs) as Hl. pose proof Hs as [Hinv Hi].
  unfold auth_store_peer_token. apply wp_bind, wp_get. rewrite Hi. reduce_tests.
  enter Hl; [|apply wp_ret, H1; left; congruence].
  apply wp_bind, wp_upsert; simpl; [apply Hinv|apply Hinv|done|done| |].
  - intros s2 Hup. pose proof (upserted_auth_lock _ _ _ _ _ _ _ Hup) as Hl2. apply (upserted_lock MFree) in Hup.
    simpl in Hup. rewrite unlock_id in Hup by done. apply wp_bind, wp_unlock; [done|]. by apply wp_ret, H0.
  - intros Hf. leave. simpl. rewrite unlock_id by done. apply wp_ret, H1. by right.
Qed.
End Store.

(** ** Theorems on peer tokens *)

Section TokenTheorems.
Context (E : Env) (R : RandOk E) (C : ClockMono E).
Implicit Types (k : nat) (s : AuthState).

(** A peer token is accepted exactly while it is valid.  When
    [auth_validate_peer_token] returns 0, the token was stored for that
    address and unexpired when the call began; when it is unexpired as the
    call returns and the mutex could be taken, the call returns 0.  The sweep
    removes only expired tokens and leaves the state well formed. *)
Theorem validate_peer_token_correct ip tok k s r k' s' :
  auth_ready s -> c_string ip -> c_string tok -> tok <> [] ->
  auth_validate_peer_token (Some ip) (Some tok) k s = (r, (k', s')) ->
  auth_ready s' /\
  (r = 0 -> peer_token_valid s (env_clock k) ip tok) /\
  (env_lock k = 0 -> peer_token_valid s (env_clock k') ip tok -> r = 0) /\
  (forall t ip' tok', env_clock k' <= t -> peer_token_valid s' t ip' tok' <-> peer_token_valid s t ip' tok').
Proof.
  intros Hs Hip Htok Hne. to_wp. apply wp_validate_peer; [done..| |].
  - intros Hlk. split; [done|]. split; [done|]. by split.
  - intros v k1 s1 Hlk Hp. split; [by eapply pt_scan_ready|].
    destruct (pt_scan_result _ _ _ _ _ _ _ (proj1 Hs) Hip Htok Hp) as [H1 H2]. split; [|split].
    + intros Hv. destruct (H1 Hv) as (i & x & Hx & Hl & Hm). exists i, x. split; [done|]. split; [|done].
      eapply live_later; [|exact Hl]. apply clock_mono. lia.
    + auto.
    + intros t ip' tok' Ht. by eapply pt_scan_valid.
Qed.

(** C14: pairing needs the pairing code in force and yields a week-long token.
    A refused call stores no token.  A successful one was given the code that
    is in force (unexpired at the time of the call), returns a fresh token of
    64 hexadecimal digits and an expiry seven days after the time of the call,
    stores both for the caller's endpoint so that the token is accepted until
    then and not after (unless it was a token of that address before the call
    already), leaves the tokens of all other endpoints alone,
    and keeps one token per endpoint. *)
Theorem issue_pair_token_correct ip port name code size k s r out exp k' s' :
  auth_ready s -> pt_unique s -> c_string ip -> (length ip <= 45)%nat -> c_string code -> (65 <= size)%nat ->
  auth_issue_pair_token (Some ip) name port (Some code) (Some size) true k s = ((r, out, exp), (k', s')) ->
  auth_ready s' /\ pt_unique s' /\
  (r <> 0 -> out = None /\ peer_tokens s' = peer_tokens s) /\
  (r = 0 -> exists tok e, out = Some tok /\ exp = Some e /\ hex_token 64 tok /\
     code = pairing_code s' /\ env_clock (S k) < pairing_code_expires_at s' /\
     peer_token_at s' ip port tok e /\
     env_clock k + 7 * 24 * 60 * 60 <= e <= env_clock k' + 7 * 24 * 60 * 60 /\
     (forall t, t < e -> peer_token_valid s' t ip tok) /\
     (forall t, e <= t -> peer_token_valid s' t ip tok -> peer_token_valid s t ip tok) /\
     (forall ip' port' tok' e', (ip', port') <> (ip, port) ->
        peer_token_at s' ip' port' tok' e' <-> peer_token_at s ip' port' tok' e')).
Proof.
  intros Hs Hu Hip Hlen Hcode Hsz. to_wp. apply wp_issue; [done..| |].
  - intros k1 s1 Hs1. cbn [fst snd]. destruct Hs1 as [->|Hp]; [by split|].
    pose proof (pairing_refreshed_facts _ _ _ Hp (proj1 Hs) (proj2 Hs)) as (_ & _ & Hpt & _).
    split; [by eapply pairing_refreshed_ready|]. split; [|by split]. unfold pt_unique. by rewrite Hpt.
  - intros k1 tok e s1 Hk (s0 & j & Hp & Hc & Htok & Hj & He & Hup). cbn [fst snd].
    pose proof (pairing_refreshed_facts _ _ _ Hp (proj1 Hs) (proj2 Hs)) as (_ & Hexp & Hpt & _).
    pose proof (pairing_refreshed_ready _ _ _ Hs Hp) as Hs0.
    assert (Hu0 : pt_unique s0) by (unfold pt_unique; by rewrite Hpt).
    assert (Hat : peer_token_at s1 ip port tok e).
    { pose proof (upserted_at _ _ _ _ _ _ _ Hlen Hup) as Hat. rewrite take_ge in Hat by (destruct Htok as [-> _]; lia). done. }
    split; [eapply (upserted_ready s0 ip); [done..|by eapply hex_c_string|done]|].
    split; [by eapply upserted_unique|]. split; [done|]. intros _. exists tok, e. do 3 (split; [done|]).
    split; [by destruct Hup as (? & ? & _ & _ & ->)|]. split; [by destruct Hup as (? & ? & _ & _ & ->)|].
    split; [done|]. split; [pose proof (clock_mono k j); pose proof (clock_mono j k1); lia|]. split; [|split].
    + intros t Ht. by eapply peer_token_at_valid.
    + intros t Ht Hv. unfold peer_token_valid. rewrite <- Hpt. by eapply upserted_expires.
    + intros ip' port' tok' e' Hne. rewrite (upserted_other _ _ _ _ _ _ _ _ _ _ _ Hlen Hup Hne).
      unfold peer_token_at. by rewrite Hpt.
Qed.

(** The token table is a map.  Storing a token for an endpoint makes that
    endpoint map to it and changes no other endpoint; the call fails only when
    the mutex cannot be taken or all 64 slots hold other endpoints, and then
    changes nothing. *)
Theorem store_peer_token_correct ip port name tok e k s r k' s' :
  auth_ready s -> pt_unique s -> c_string ip -> (length ip <= 45)%nat -> c_string tok -> (length tok <= 64)%nat ->
  auth_store_peer_token (Some ip) port name (Some tok) e k s = (r, (k', s')) ->
  auth_ready s' /\ pt_unique s' /\
  (r = 0 \/ r = -1) /\
  (r = -1 -> s' = s /\ (env_lock k <> 0 \/ upsert_full s ip port)) /\
  (r = 0 -> peer_token_at s' ip port tok e /\
     forall ip' port' tok' e', (ip', port') <> (ip, port) ->
       peer_token_at s' ip' port' tok' e' <-> peer_token_at s ip' port' tok' e').
Proof.
  intros Hs Hu Hip Hlen Htok Htl. to_wp. apply wp_store; [done..| |].
  - intros Hf. split; [done|]. split; [done|]. split; [by right|]. by split.
  - intros s1 Hup. split; [by eapply (upserted_ready s ip)|]. split; [by eapply upserted_unique|].
    split; [by left|]. split; [done|]. intros _. split.
    + pose proof (upserted_at _ _ _ _ _ _ _ Hlen Hup) as Hat. by rewrite take_ge in Hat by lia.
    + intros. by eapply upserted_other.
Qed.

(** Looking a token up.  [auth_get_peer_token] returns the token the
    endpoint maps to while it is unexpired, and fails otherwise. *)
Theorem get_peer_token_correct ip port size k s r out k' s' :
  auth_ready s -> pt_unique s -> c_string ip -> (0 < size)%nat ->
  auth_get_peer_token (Some ip) port (Some size) k s = ((r, out), (k', s')) ->
  auth_ready s' /\
  (r = 0 -> exists tok e, peer_token_at s ip port tok e /\ env_clock k < e /\ out = Some (take (size - 1) tok)) /\
  (forall tok e, env_lock k = 0 -> peer_token_at s ip port tok e -> env_clock k' < e ->
     r = 0 /\ out = Some (take (size - 1) tok)).
Proof.
  intros Hs Hu Hip Hsz. to_wp. apply wp_get_peer_token; [done..| |].
  - intros Hlk. split; [done|]. by split.
  - intros v k1 s1 Hlk Hp. split; [by eapply pt_scan_ready|]. unfold pt_scan in Hp.
    assert (Hsome : forall x, v = Some x -> exists tok e, peer_token_at s ip port tok e /\ env_clock k < e /\ x = (0, Some (take (size - 1) tok))).
    { intros x ->. destruct (scan_sound _ _ _ _ _ _ _ _ _ _ _ _ Hp) as (i & q & Hq & [Ha Hl] & Hm & ->).
      apply (pt_match_port_true _ _ _ _ _ (proj1 Hs) Hq Hip) in Hm as [M1 M2].
      exists (pt_token q), (pt_expires_at q). split; [by exists i, q|]. split; [|by rewrite copy_string_some].
      pose proof (clock_mono k (S k)). lia. }
    split.
    + destruct v as [x|]; [|done]. intros _. destruct (Hsome x eq_refl) as (tok & e & H1 & H2 & ->). by exists tok, e.
    + intros tok e _ Hat He. destruct v as [x|].
      * destruct (Hsome x eq_refl) as (tok' & e' & Hat' & _ & ->).
        by destruct (peer_token_functional _ _ _ _ _ _ _ Hu Hat Hat') as [-> _].
      * exfalso. destruct Hat as (i & q & Hq & A1 & A2 & A3 & A4 & A5).
        apply (scan_complete _ _ _ _ _ _ _ _ _ _ _ i q Hp Hq); [by apply (pt_match_port_true _ _ _ _ _ (proj1 Hs) Hq Hip)|].
        split; [done|]. by rewrite A5.
Qed.
End TokenTheorems.
