(* ===== verification/AuthLimiter.v ===== *)
(** * AuthLimiter: the request limiter of src/auth.c

    The table of rate-limit records read as a finite map from (client, scope)
    to a request count and the start of its window; [auth_rate_limit_allow]
    implements the fixed-window limiter on that map. *)

From stdpp Require Import base numbers list strings gmap.
From Stdlib Require Import ZArith Lia Ascii.
From S2P Require Import Prelude Effects CLib Auth AuthSpec.

(** ** The map *)

Definition rl_live (now w : Z) (r : RateLimitRecord) : Prop :=
  rl_active r = true /\ now < rl_window_started_at r + w.
Definition rl_key (r : RateLimitRecord) : cstring * cstring := (rl_client_ip r, rl_scope r).

(** At time [now] key [key] has an open window: [c] requests since [st]. *)
Definition rl_at (s : AuthState) (now w : Z) (key : cstring * cstring) (c st : Z) : Prop :=
  exists i r, rate_limits s !! i = Some r /\ rl_live now w r /\ rl_key r = key /\ rl_count r = c /\ rl_window_started_at r = st.

Definition rl_none (s : AuthState) (now w : Z) (key : cstring * cstring) : Prop :=
  forall c st, ~ rl_at s now w key c st.

(** At most one active record per key. *)
Definition rl_unique (s : AuthState) : Prop :=
  forall i j a b, rate_limits s !! i = Some a -> rate_limits s !! j = Some b ->
    rl_active a = true -> rl_active b = true -> rl_key a = rl_key b -> i = j.

(** Every slot holds an open window. *)
Definition rl_full (s : AuthState) (now w : Z) : Prop :=
  forall i r, rate_limits s !! i = Some r -> rl_live now w r.

Lemma rl_at_functional s now w key c st c' st' : rl_unique s ->
  rl_at s now w key c st -> rl_at s now w key c' st' -> c = c' /\ st = st'.
Proof.
  intros Hu (i & r & Hr & [Ha _] & Hk & Hc & Hs) (j & q & Hq & [Hb _] & Hk' & Hc' & Hs').
  assert (i = j) as -> by (apply (Hu i j r q); congruence). by simplify_eq.
Qed.

(** An open window stays open until its end; a closed one stays closed. *)
Lemma rl_at_later s t t' w key c st : rl_at s t w key c st -> t' < st + w -> rl_at s t' w key c st.
Proof. intros (i & r & Hr & [Ha _] & Hk & Hc & <-) Ht. exists i, r. by repeat split. Qed.

Lemma rl_none_later s t t' w key : rl_none s t w key -> t <= t' -> rl_none s t' w key.
Proof.
  intros Hn Ht c st (i & r & Hr & [Ha Hl] & Hk & Hc & Hs). apply (Hn c st). exists i, r.
  split; [done|]. split; [split; [done|lia]|done].
Qed.

(** ** The sweep of the loop *)

Section Sweep.
Variables (now w : Z).

Definition rl_sweep (r : RateLimitRecord) : RateLimitRecord :=
  if rl_active r && (rl_window_started_at r + w <=? now) then rl_deactivate r else r.

(** [l1] is [l] with expired records deactivated here and there. *)
Definition rl_swept (l l1 : list RateLimitRecord) : Prop :=
  forall i, l1 !! i = l !! i \/ l1 !! i = rl_sweep <$> l !! i.

Lemma rl_swept_length l l1 : rl_swept l l1 -> length l1 = length l.
Proof.
  intros H. apply Nat.le_antisymm; apply Nat.le_ngt; intros Hlt.
  - destruct (lookup_lt_is_Some_2 _ _ Hlt) as [x Hx].
    assert (l !! length l = None) as Hn by (by apply lookup_ge_None). specialize (H (length l)). rewrite Hx, Hn in H. by destruct H.
  - destruct (lookup_lt_is_Some_2 _ _ Hlt) as [x Hx].
    assert (l1 !! length l1 = None) as Hn by (by apply lookup_ge_None). specialize (H (length l1)). rewrite Hx, Hn in H. by destruct H.
Qed.

Lemma rl_sweep_live r : rl_live now w (rl_sweep r) <-> rl_live now w r.
Proof.
  unfold rl_sweep. destruct (rl_active r && (rl_window_started_at r + w <=? now)) eqn:Hb; [|done]. bool_prop.
  unfold rl_live. simpl. split; [by intros [? _]|]. intros [_ ?]. lia.
Qed.

Lemma rl_sweep_id r : rl_live now w r -> rl_sweep r = r.
Proof.
  intros [Ha Hl]. unfold rl_sweep. rewrite Ha. destruct (Z.leb_spec (rl_window_started_at r + w) now); [lia|done].
Qed.

Lemma rl_sweep_active r : rl_active (rl_sweep r) = true -> rl_sweep r = r.
Proof. unfold rl_sweep. by destruct (_ && _). Qed.

Lemma rl_swept_live l l1 i r : rl_swept l l1 -> rl_live now w r -> l1 !! i = Some r <-> l !! i = Some r.
Proof.
  intros H Hl. destruct (H i) as [->| ->]; [done|]. destruct (l !! i) as [x|]; simpl; [|done]. split; intros [= <-].
  - f_equal. symmetry. by apply rl_sweep_id, rl_sweep_live.
  - f_equal. by apply rl_sweep_id.
Qed.

(** An active record after the sweep was there before. *)
Lemma rl_swept_active l l1 i r : rl_swept l l1 -> l1 !! i = Some r -> rl_active r = true -> l !! i = Some r.
Proof.
  intros H Hr Ha. destruct (H i) as [He|He]; [congruence|]. rewrite Hr in He.
  destruct (l !! i) as [x|]; [|done]. simpl in He. injection He as He. rewrite He in Ha.
  apply rl_sweep_active in Ha. congruence.
Qed.

Lemma rl_swept_forall (P : RateLimitRecord -> Prop) l l1 :
  (forall r, P r -> P (rl_deactivate r)) -> rl_swept l l1 -> Forall P l -> Forall P l1.
Proof.
  intros Hd H Hf. apply Forall_lookup. intros i r Hr. destruct (H i) as [He|He]; rewrite Hr in He.
  - by eapply Forall_lookup_1.
  - destruct (l !! i) as [x|] eqn:Hx; [|done]. simpl in He. injection He as ->.
    pose proof (Forall_lookup_1 _ _ _ _ Hf Hx) as HP. unfold rl_sweep. destruct (_ && _); auto.
Qed.
End Sweep.

(** ** Outcomes of a call *)

Definition bump (r : RateLimitRecord) : RateLimitRecord :=
  {| rl_active := rl_active r; rl_client_ip := rl_client_ip r; rl_scope := rl_scope r;
     rl_count := wrap 32 (rl_count r + 1); rl_window_started_at := rl_window_started_at r |}.
Definition first_request (ip scope : cstring) (now : Z) : RateLimitRecord :=
  {| rl_active := true; rl_client_ip := copy_string 46 (Some ip); rl_scope := copy_string 32 (Some scope);
     rl_count := 1; rl_window_started_at := now |}.

Definition rl_no_key now w (key : cstring * cstring) (l : list RateLimitRecord) : Prop :=
  forall i r, l !! i = Some r -> rl_live now w r -> rl_key r <> key.

Inductive limiter (now w limit : Z) (ip scope : cstring) (s : AuthState) : Z -> AuthState -> Prop :=
  | lim_refused i r l1 :
      rate_limits s !! i = Some r -> rl_live now w r -> rl_key r = (ip, scope) -> limit <= rl_count r ->
      rl_swept now w (rate_limits s) l1 ->
      limiter now w limit ip scope s (-1) (set_rate_limits l1 s)
  | lim_counted i r l1 :
      rate_limits s !! i = Some r -> rl_live now w r -> rl_key r = (ip, scope) -> rl_count r < limit ->
      rl_swept now w (rate_limits s) l1 ->
      limiter now w limit ip scope s 0 (set_rate_limits (<[i := bump r]> l1) s)
  | lim_opened i old l1 :
      rl_swept now w (rate_limits s) l1 -> rl_no_key now w (ip, scope) (rate_limits s) ->
      (forall j r, l1 !! j = Some r -> rl_active r = true -> rl_live now w r) ->
      l1 !! i = Some old -> rl_active old = false ->
      limiter now w limit ip scope s 0 (set_rate_limits (<[i := first_request ip scope now]> l1) s)
  | lim_full l1 :
      rl_swept now w (rate_limits s) l1 -> rl_no_key now w (ip, scope) (rate_limits s) -> rl_full s now w ->
      limiter now w limit ip scope s (-1) (set_rate_limits l1 s).

Lemma unlock_set_rl i x l s : auth_lock s = MFree ->
  set_auth_lock MFree (set_rl i x (set_rate_limits l (set_auth_lock MHeld s))) = set_rate_limits (<[i := x]> l) s.
Proof. apply unlock_rl. Qed.

Section Limiter.
Context `{E : Env}.
Implicit Types (k : nat) (s : AuthState).

Definition lim_inv s now w (key : cstring * cstring) (n e : nat) s1 : Prop :=
  exists l1, s1 = set_rate_limits l1 (set_auth_lock MHeld s) /\
  (forall i, l1 !! i = if decide (i < n)%nat then rl_sweep now w <$> rate_limits s !! i else rate_limits s !! i) /\
  (forall i r, (i < n)%nat -> rate_limits s !! i = Some r -> rl_live now w r -> rl_key r <> key) /\
  ((e < n)%nat /\ (exists r, l1 !! e = Some r /\ rl_active r = false) \/
   e = MAX_RATE_LIMITS /\ forall i r, (i < n)%nat -> l1 !! i = Some r -> rl_active r = true).

Lemma lim_inv_swept s now w key n e s1 l1 : lim_inv s now w key n e s1 -> s1 = set_rate_limits l1 (set_auth_lock MHeld s) ->
  rl_swept now w (rate_limits s) l1.
Proof.
  intros (l' & -> & Hl & _) Heq i. apply (f_equal rate_limits) in Heq. simpl in Heq. subst l'.
  rewrite Hl. case_decide; auto.
Qed.

(** Moving past slot [n], whose swept content is [x]. *)
Lemma lim_inv_next s now w key n e r s1 l1 l2 :
  lim_inv s now w key n e s1 -> s1 = set_rate_limits l1 (set_auth_lock MHeld s) ->
  rate_limits s !! n = Some r -> l2 = <[n := rl_sweep now w r]> l1 ->
  (rl_live now w r -> rl_key r <> key) ->
  lim_inv s now w key (S n)
    (if rl_active (rl_sweep now w r) then e else if (e =? MAX_RATE_LIMITS)%nat then n else e)
    (set_rate_limits l2 (set_auth_lock MHeld s)).
Proof.
  intros (l' & Hs1 & Hl & Hno & He) Hs1' Hr -> Hk. rewrite Hs1 in Hs1'.
  apply (f_equal rate_limits) in Hs1'. simpl in Hs1'. subst l'.
  assert (Hn : (n < length l1)%nat).
  { apply lookup_lt_is_Some. rewrite Hl, decide_False by lia. by exists r. }
  exists (<[n := rl_sweep now w r]> l1). split; [done|]. split; [|split].
  - intros i. destruct (decide (i = n)) as [->|Hin].
    + rewrite list_lookup_insert_eq by done. rewrite decide_True by lia. by rewrite Hr.
    + rewrite list_lookup_insert_ne by done. rewrite Hl. repeat case_decide; try done; lia.
  - intros i x Hi Hx Hlive. destruct (decide (i = n)) as [->|]; [simplify_eq; auto|]. apply (Hno i x); [lia|done..].
  - destruct (rl_active (rl_sweep now w r)) eqn:Ha.
    + destruct He as [[He (x & Hx & Hxa)]|[-> Hall]].
      * left. split; [lia|]. exists x. rewrite list_lookup_insert_ne by lia. done.
      * right. split; [done|]. intros i x Hi Hx. destruct (decide (i = n)) as [->|].
        -- rewrite list_lookup_insert_eq in Hx by done. by simplify_eq.
        -- rewrite list_lookup_insert_ne in Hx by done. apply (Hall i x); [lia|done].
    + left. destruct He as [[He (x & Hx & Hxa)]|[-> Hall]].
      * destruct (Nat.eqb_spec e MAX_RATE_LIMITS).
        -- split; [lia|]. exists (rl_sweep now w r). by rewrite list_lookup_insert_eq.
        -- split; [lia|]. exists x. by rewrite list_lookup_insert_ne by lia.
      * rewrite Nat.eqb_refl. split; [lia|]. exists (rl_sweep now w r). by rewrite list_lookup_insert_eq.
Qed.

Lemma wp_rate_body ip scope limit w now msg n e (Q : nat + (Z * option cstring) -> nat -> AuthState -> Prop) k s s1 r :
  auth_inv s -> c_string ip -> c_string scope ->
  lim_inv s now w (ip, scope) n e s1 -> rate_limits s !! n = Some r -> auth_lock s = MFree ->
  (forall e' s2, lim_inv s now w (ip, scope) (S n) e' s2 -> Q (inl e') k s2) ->
  (forall v m s2, limiter now w limit ip scope s v s2 -> Q (inr (v, m)) k s2) ->
  wp (rate_limit_body ip scope limit w now msg n e) Q k s1.
Proof.
  intros Hinv Hip Hsc HI Hr Hlk Hn Hq. pose proof HI as (l1 & -> & Hl & Hno & He).
  assert (Hl1 : l1 !! n = Some r) by (rewrite Hl, decide_False by lia; done).
  pose proof (lim_inv_swept _ _ _ _ _ _ _ _ HI eq_refl) as Hsw.
  destruct (Forall_lookup_1 _ _ _ _ (inv_rl _ Hinv) Hr) as (Hc1 & Hc2 & _).
  assert (Hnext := fun l2 => lim_inv_next s now w (ip, scope) n e r _ l1 l2 HI eq_refl Hr).
  unfold rate_limit_body. apply wp_bind, wp_get. cbv zeta. simpl rate_limits.
  rewrite (list_lookup_total_correct _ _ _ Hl1).
  apply wp_if; intros Ha; bool_prop.
  { apply wp_ret, Hn. assert (Hs : rl_sweep now w r = r) by (unfold rl_sweep; by rewrite Ha).
    specialize (Hnext l1). rewrite Hs, Ha in Hnext. apply Hnext; [by rewrite list_insert_id|]. intros [? _]. congruence. }
  apply wp_if; intros Hexp; bool_prop.
  { apply wp_bind, wp_modify, wp_ret, Hn.
    assert (Hs : rl_sweep now w r = rl_deactivate r).
    { unfold rl_sweep. rewrite Ha. by rewrite (proj2 (Z.leb_le _ _) Hexp). }
    specialize (Hnext (<[n := rl_deactivate r]> l1)). rewrite Hs in Hnext. simpl in Hnext. apply Hnext; [done|].
    intros [_ ?]. lia. }
  assert (Hlive : rl_live now w r) by (split; [done|lia]).
  rewrite !strcmp_eqb by done. apply wp_if; intros Hm.
  - apply andb_true_iff in Hm as [M1 M2]. bool_prop. subst ip scope.
    apply wp_if; intros Hlim; bool_prop.
    + apply wp_bind, wp_unlock; [done|]. apply wp_ret, Hq. simpl. rewrite unlock_rl by done. by eapply lim_refused.
    + apply wp_bind, wp_modify, wp_bind, wp_unlock; [done|]. apply wp_ret, Hq. simpl.
      rewrite unlock_set_rl by done. by eapply (lim_counted _ _ _ _ _ _ n r).
  - apply wp_ret, Hn. specialize (Hnext l1). rewrite (rl_sweep_id _ _ _ Hlive), Ha in Hnext.
    apply Hnext; [by rewrite list_insert_id|]. intros _ Heq. unfold rl_key in Heq. injection Heq as E1 E2.
    by rewrite E1, E2, !bool_decide_true in Hm.
Qed.

Lemma wp_limiter ip scope limit w msg (Q : Z * option cstring -> nat -> AuthState -> Prop) k s :
  auth_ready s -> c_string ip -> c_string scope -> 0 < limit -> 0 < w ->
  (env_lock (S k) <> 0 -> Q (-1, None) (S (S k)) s) ->
  (forall v m s', env_lock (S k) = 0 -> limiter (env_clock k) w limit ip scope s v s' -> Q (v, m) (S (S k)) s') ->
  wp (auth_rate_limit_allow (Some ip) (Some scope) limit w msg) Q k s.
Proof.
  intros Hs Hip Hsc Hlim Hw H1 H0. pose proof (ready_lock _ Hs) as Hl. pose proof Hs as [Hinv Hi].
  unfold auth_rate_limit_allow. apply wp_bind, wp_ask, wp_bind, wp_get. rewrite Hi.
  rewrite (proj2 (Z.eqb_neq limit 0)), (proj2 (Z.leb_gt w 0)) by lia. reduce_tests.
  enter Hl; [|apply wp_ret, H1; congruence]. apply wp_bind.
  set (now := env_clock k) in *.
  apply (wp_for_acc (fun n e k1 s1 => k1 = S (S k) /\ lim_inv s now w (ip, scope) n e s1)).
  - split; [done|]. exists (rate_limits s). split; [by destruct s|]. split; [intros i; by rewrite decide_False by lia|].
    split; [intros; lia|]. right. split; [done|]. intros; lia.
  - intros n e k1 s1 Hn [-> HI]. destruct (lookup_lt_is_Some_2 (rate_limits s) n) as [r Hr]; [rewrite (inv_rl_len _ Hinv); lia|].
    eapply wp_rate_body; [done..| |].
    + intros e' s2 HI'. by split.
    + intros v m s2 Hv. by apply wp_ret, H0.
  - intros e k1 s1 (-> & HI). pose proof HI as (l1 & -> & Hl1 & Hno & He).
    pose proof (lim_inv_swept _ _ _ _ _ _ _ _ HI eq_refl) as Hsw.
    assert (Hin : forall i x, l1 !! i = Some x -> (i < 0 + MAX_RATE_LIMITS)%nat).
    { intros i x Hx. apply lookup_lt_Some in Hx. rewrite (rl_swept_length _ _ _ _ Hsw), (inv_rl_len _ Hinv) in Hx. done. }
    assert (Hin' : forall i x, rate_limits s !! i = Some x -> (i < 0 + MAX_RATE_LIMITS)%nat).
    { intros i x Hx. apply lookup_lt_Some in Hx. by rewrite (inv_rl_len _ Hinv) in Hx. }
    assert (Hnk : rl_no_key now w (ip, scope) (rate_limits s)) by (intros i r Hr; exact (Hno i r (Hin' i r Hr) Hr)).
    assert (Hact : forall j x, l1 !! j = Some x -> rl_active x = true -> rl_live now w x).
    { intros j x Hx Hax. pose proof (Hin j x Hx) as Hj. rewrite Hl1, decide_True in Hx by done.
      destruct (rate_limits s !! j) as [y|] eqn:Hy; [|done]. simpl in Hx. injection Hx as <-.
      unfold rl_sweep in Hax |- *. destruct (rl_active y) eqn:Hay; simpl in *; [|congruence].
      destruct (Z.leb_spec (rl_window_started_at y + w) now); [done|]. by split. }
    destruct He as [[He (old & Hold & Ho)]|[-> Hall]].
    + destruct (Nat.eqb_spec e MAX_RATE_LIMITS); [lia|]. apply wp_bind, wp_modify, wp_bind, wp_unlock; [done|].
      apply wp_ret, H0; [done|]. simpl. rewrite unlock_set_rl by done. by eapply lim_opened.
    + rewrite Nat.eqb_refl. apply wp_bind, wp_unlock; [done|]. apply wp_ret, H0; [done|]. simpl.
      rewrite unlock_rl by done. apply lim_full; [done..|]. intros i r Hr.
      destruct (Hsw i) as [Hx|Hx]; rewrite Hr in Hx.
      * apply (Hact i); [done|]. exact (Hall i _ (Hin i _ Hx) Hx).
      * simpl in Hx. apply rl_sweep_live, (Hact i); [done|]. by eapply Hall; eauto.
Qed.
End Limiter.

(** ** What an outcome does to the map *)

Section LimiterMap.
Variables (now w limit : Z) (ip scope : cstring).
Hypothesis Hip : (length ip <= 45)%nat.
Hypothesis Hscope : (length scope <= 31)%nat.
Hypothesis Hw : 0 < w.

Abbreviation key := (ip, scope).

Lemma first_request_key : rl_key (first_request ip scope now) = key.
Proof. unfold rl_key. simpl. by rewrite !copy_string_fits by lia. Qed.
Lemma first_request_live : rl_live now w (first_request ip scope now).
Proof. split; [done|]. simpl. lia. Qed.

Lemma swept_at s l1 key' c st : rl_swept now w (rate_limits s) l1 ->
  rl_at (set_rate_limits l1 s) now w key' c st <-> rl_at s now w key' c st.
Proof.
  intros Hsw. split; intros (i & r & Hr & Hl & Hx); exists i, r; (split; [|done]);
    by apply (rl_swept_live _ _ _ _ i r Hsw Hl).
Qed.

(** Writing a live record of [key] at slot [i] that no live record of
    another key occupies. *)
Lemma written_at s i old new l1 key' c st : rl_swept now w (rate_limits s) l1 ->
  l1 !! i = Some old -> (rl_active old = false \/ rl_key old = rl_key new) -> key' <> rl_key new ->
  rl_at (set_rate_limits (<[i := new]> l1) s) now w key' c st <-> rl_at s now w key' c st.
Proof.
  intros Hsw Ho Hc Hne. rewrite <- (swept_at s l1 key' c st Hsw).
  split; intros (j & r & Hr & Hl & Hk & Hx); simpl in *; exists j, r; (split; [|done]); simpl.
  - destruct (decide (j = i)) as [->|]; [|by rewrite list_lookup_insert_ne in Hr].
    rewrite list_lookup_insert_eq in Hr by (by eapply lookup_lt_Some). congruence.
  - rewrite list_lookup_insert_ne; [done|]. intros ->. simplify_eq. destruct Hl. destruct Hc; congruence.
Qed.

Lemma written_here s i l1 new : (i < length l1)%nat -> rl_live now w new ->
  rl_at (set_rate_limits (<[i := new]> l1) s) now w (rl_key new) (rl_count new) (rl_window_started_at new).
Proof. intros Hi Hl. exists i, new. split; [by apply list_lookup_insert_eq|done]. Qed.

Lemma limiter_others s v s' key' c st : limiter now w limit ip scope s v s' -> key' <> key ->
  rl_at s' now w key' c st <-> rl_at s now w key' c st.
Proof.
  intros H Hne. destruct H as [i r l1 Hr Hl Hk Hlim Hsw|i r l1 Hr Hl Hk Hlim Hsw|i old l1 Hsw Hnk Hact Ho Ha|l1 Hsw Hnk Hf].
  - by apply swept_at.
  - apply (written_at _ _ r); [done|by apply (rl_swept_live _ _ _ _ i r Hsw Hl)|by right|]. change (rl_key (bump r)) with (rl_key r). by rewrite Hk.
  - apply (written_at _ _ old); [done|done|by left|]. by rewrite first_request_key.
  - by apply swept_at.
Qed.

Lemma limiter_open s v s' c st : limiter now w limit ip scope s v s' -> limit <= 2 ^ 32 - 1 ->
  Forall rl_ok (rate_limits s) -> rl_unique s -> rl_at s now w key c st ->
  if limit <=? c then v = -1 /\ rl_at s' now w key c st else v = 0 /\ rl_at s' now w key (c + 1) st.
Proof.
  intros H Hmax Hok Hu Hat.
  destruct H as [i r l1 Hr Hl Hk Hlim Hsw|i r l1 Hr Hl Hk Hlim Hsw|i old l1 Hsw Hnk Hact Ho Ha|l1 Hsw Hnk Hf].
  - assert (Hat' : rl_at s now w key (rl_count r) (rl_window_started_at r)) by (exists i, r; done).
    destruct (rl_at_functional _ _ _ _ _ _ _ _ Hu Hat Hat') as [-> ->].
    rewrite (proj2 (Z.leb_le _ _) Hlim). split; [done|]. by apply swept_at.
  - assert (Hat' : rl_at s now w key (rl_count r) (rl_window_started_at r)) by (exists i, r; done).
    destruct (rl_at_functional _ _ _ _ _ _ _ _ Hu Hat Hat') as [-> ->].
    rewrite (proj2 (Z.leb_gt _ _) Hlim). split; [done|].
    destruct (Forall_lookup_1 _ _ _ _ Hok Hr) as (_ & _ & Hcnt).
    pose proof (written_here s i l1 (bump r)) as Hwh. simpl in Hwh. rewrite wrap_small in Hwh by lia.
    rewrite <- Hk. apply Hwh; [|done]. apply (rl_swept_live _ _ _ _ i r Hsw Hl) in Hr. by eapply lookup_lt_Some.
  - destruct Hat as (j & q & Hq & Hl & Hk & _). exfalso. by apply (Hnk j q).
  - destruct Hat as (j & q & Hq & Hl & Hk & _). exfalso. by apply (Hnk j q).
Qed.

Lemma limiter_fresh s v s' : limiter now w limit ip scope s v s' -> rl_none s now w key ->
  (v = 0 /\ rl_at s' now w key 1 now) \/ (v = -1 /\ rl_full s now w /\ rl_none s' now w key).
Proof.
  intros H Hn.
  destruct H as [i r l1 Hr Hl Hk Hlim Hsw|i r l1 Hr Hl Hk Hlim Hsw|i old l1 Hsw Hnk Hact Ho Ha|l1 Hsw Hnk Hf].
  - exfalso. apply (Hn (rl_count r) (rl_window_started_at r)). by exists i, r.
  - exfalso. apply (Hn (rl_count r) (rl_window_started_at r)). by exists i, r.
  - left. split; [done|]. rewrite <- first_request_key. apply (written_here s i l1 (first_request ip scope now)); [by eapply lookup_lt_Some|apply first_request_live].
  - right. split; [done|]. split; [done|]. intros c st. by rewrite swept_at.
Qed.

Lemma limiter_unique s v s' : limiter now w limit ip scope s v s' -> rl_unique s -> rl_unique s'.
Proof.
  assert (Hswu : forall l1, rl_swept now w (rate_limits s) l1 -> rl_unique s -> rl_unique (set_rate_limits l1 s)).
  { intros l1 Hsw Hu i j a b Ha Hb Haa Hba. apply (Hu i j a b); eauto using rl_swept_active. }
  assert (Hput : forall l i new, (i < length l)%nat -> rl_unique (set_rate_limits l s) ->
    (forall j r, j <> i -> l !! j = Some r -> rl_active r = true -> rl_key r <> rl_key new) ->
    rl_unique (set_rate_limits (<[i := new]> l) s)).
  { intros l i new Hi Hu Hno m n a b Ha Hb Haa Hba Hk. simpl in *.
    destruct (decide (m = i)) as [->|Hm], (decide (n = i)) as [->|Hn]; [done|..].
    - rewrite list_lookup_insert_eq in Ha by done. rewrite list_lookup_insert_ne in Hb by congruence. simplify_eq.
      exfalso. apply (Hno n b); [done..|]. unfold rl_key. congruence.
    - rewrite list_lookup_insert_ne in Ha by congruence. rewrite list_lookup_insert_eq in Hb by done. simplify_eq.
      exfalso. apply (Hno m a); [done..|]. unfold rl_key. congruence.
    - rewrite list_lookup_insert_ne in Ha, Hb by congruence. by apply (Hu m n a b). }
  intros H Hu.
  destruct H as [i r l1 Hr Hl Hk Hlim Hsw|i r l1 Hr Hl Hk Hlim Hsw|i old l1 Hsw Hnk Hact Ho Ha|l1 Hsw Hnk Hf]; auto.
  - apply (rl_swept_live _ _ _ _ i r Hsw Hl) in Hr as Hr1. apply Hput; [by eapply lookup_lt_Some|auto|].
    intros j q Hj Hq Hqa Hkq. destruct Hl as [Hra _]. apply Hj, (Hswu l1 Hsw Hu j i q r); done.
  - apply Hput; [by eapply lookup_lt_Some|auto|]. rewrite first_request_key.
    intros j q Hj Hq Hqa. apply (Hnk j q); [by eapply rl_swept_active|by eapply Hact].
Qed.

Lemma limiter_ready s v s' : limiter now w limit ip scope s v s' -> limit <= 2 ^ 32 - 1 ->
  c_string ip -> c_string scope -> auth_ready s -> auth_ready s'.
Proof.
  intros H Hmax Hci Hcs [Hinv Hi].
  assert (Hsw : forall l1, rl_swept now w (rate_limits s) l1 -> length l1 = MAX_RATE_LIMITS /\ Forall rl_ok l1).
  { intros l1 Hsw. split; [by rewrite (rl_swept_length _ _ _ _ Hsw), (inv_rl_len _ Hinv)|].
    eapply rl_swept_forall; [|exact Hsw|apply Hinv]. by intros r. }
  split; [|by destruct H]. destruct H as [i r l1 Hr Hl Hk Hlim Hs|i r l1 Hr Hl Hk Hlim Hs|i old l1 Hs Hnk Hact Ho Ha|l1 Hs Hnk Hf];
    destruct (Hsw _ Hs) as [L1 L2]; apply inv_set_rl; rewrite ?length_insert; try done; apply Forall_insert; try done.
  - destruct (Forall_lookup_1 _ _ _ _ (inv_rl _ Hinv) Hr) as (H1 & H2 & H3). split; [done|]. split; [done|]. simpl. rewrite wrap_small; lia.
  - unfold rl_ok. simpl. split; [by apply copy_string_c|]. split; [by apply copy_string_c|]. lia.
Qed.
End LimiterMap.

(** ** Theorems *)

(** Requests handled one after the other with the same window [w]. *)
Record request := { rq_ip : cstring; rq_scope : cstring; rq_limit : Z; rq_message : option nat }.
Definition rq_key (q : request) : cstring * cstring := (rq_ip q, rq_scope q).

Definition rq_ok (q : request) : Prop :=
  c_string (rq_ip q) /\ (length (rq_ip q) <= 45)%nat /\ c_string (rq_scope q) /\ (length (rq_scope q) <= 31)%nat /\
  0 < rq_limit q <= 2 ^ 32 - 1.

Section Requests.
Context `{E : Env}.

Fixpoint run_requests (w : Z) (qs : list request) : M AuthState (list Z) :=
  match qs with
  | [] => ret []
  | q :: qs' =>
      let* (r, _) := auth_rate_limit_allow (Some (rq_ip q)) (Some (rq_scope q)) (rq_limit q) w (rq_message q) in
      rs <- run_requests w qs' ;;
      ret (r :: rs)
  end.

(** How many requests of [key] were let through. *)
Fixpoint admitted (key : cstring * cstring) (qs : list request) (rs : list Z) : Z :=
  match qs, rs with
  | q :: qs', r :: rs' =>
      (if bool_decide (rq_key q = key) && (r =? 0) then 1 else 0) + admitted key qs' rs'
  | _, _ => 0
  end.
End Requests.

Section LimiterTheorems.
Context (E : Env) (C : ClockMono E).
Implicit Types (k : nat) (s : AuthState).

(** C26: the limiter implements a map from (client, scope) to a request count
    in a fixed window.  Other keys never change.  For the caller's key: with
    an open window the call is refused exactly when [limit] requests were
    counted, and otherwise counts one more; without one it opens a window
    that counts this request, unless all 64 slots hold open windows, in which
    case it is refused and the map is unchanged.  A failed lock refuses. *)
Theorem rate_limit_refines_map ip scope limit w msg k s r m k' s' :
  auth_ready s -> rl_unique s -> c_string ip -> (length ip <= 45)%nat -> c_string scope -> (length scope <= 31)%nat ->
  0 < limit <= 2 ^ 32 - 1 -> 0 < w ->
  auth_rate_limit_allow (Some ip) (Some scope) limit w msg k s = ((r, m), (k', s')) ->
  auth_ready s' /\ rl_unique s' /\
  (env_lock (S k) <> 0 -> r = -1 /\ s' = s) /\
  (forall key c st, key <> (ip, scope) -> rl_at s' (env_clock k) w key c st <-> rl_at s (env_clock k) w key c st) /\
  (env_lock (S k) = 0 -> forall c st, rl_at s (env_clock k) w (ip, scope) c st ->
     if limit <=? c then r = -1 /\ rl_at s' (env_clock k) w (ip, scope) c st
     else r = 0 /\ rl_at s' (env_clock k) w (ip, scope) (c + 1) st) /\
  (env_lock (S k) = 0 -> rl_none s (env_clock k) w (ip, scope) ->
     (r = 0 /\ rl_at s' (env_clock k) w (ip, scope) 1 (env_clock k)) \/
     (r = -1 /\ rl_full s (env_clock k) w /\ rl_none s' (env_clock k) w (ip, scope))).
Proof.
  intros Hs Hu Hip Hil Hsc Hsl Hlim Hw. to_wp. apply wp_limiter; [done..|lia|done| |]; cbn [fst snd].
  - intros Hlk. do 2 (split; [done|]). split; [by split|]. by split.
  - intros v m' s1 Hlk Hv. split; [eapply limiter_ready; try exact Hv; try done; lia|].
    split; [by eapply limiter_unique|]. split; [done|]. split; [|split].
    + intros key c st Hne. by eapply limiter_others.
    + intros _ c st Hat. eapply limiter_open; try done; [lia|apply Hs].
    + intros _ Hn. by eapply limiter_fresh.
Qed.

(** One request, in the form the sequences below use. *)
Lemma wp_request q w (Q : Z * option cstring -> nat -> AuthState -> Prop) k s :
  auth_ready s -> rl_unique s -> rq_ok q -> 0 < w ->
  (forall r m s', auth_ready s' -> rl_unique s' ->
     (r <> 0 -> s' = s \/ limiter (env_clock k) w (rq_limit q) (rq_ip q) (rq_scope q) s r s') ->
     (r = 0 -> limiter (env_clock k) w (rq_limit q) (rq_ip q) (rq_scope q) s r s') -> Q (r, m) (S (S k)) s') ->
  wp (auth_rate_limit_allow (Some (rq_ip q)) (Some (rq_scope q)) (rq_limit q) w (rq_message q)) Q k s.
Proof.
  intros Hs Hu (H1 & H2 & H3 & H4 & H5) Hw HQ. apply wp_limiter; try done; try lia.
  - intros _. apply HQ; [done|done|by left|done].
  - intros v m s' Hlk Hv. apply HQ; [eapply limiter_ready; try exact Hv; try done; lia|by eapply limiter_unique|by right|done].
Qed.

Lemma wp_requests_le w qs k s : auth_ready s -> rl_unique s -> Forall rq_ok qs -> 0 < w ->
  wp (run_requests w qs) (fun rs k' s' => (k <= k')%nat) k s.
Proof.
  intros Hs Hu Hq Hw. revert k s Hs Hu. induction Hq as [|q qs Hq Hqs IH]; intros k s Hs Hu; simpl; [by apply wp_ret|].
  apply wp_bind, wp_request; [done..|]. intros r m s1 Hs1 Hu1 _ _. apply wp_bind.
  eapply wp_mono; [by apply IH|]. intros rs k2 s2 Hk. apply wp_ret. simpl in *. lia.
Qed.

(** The state of the count of [key] at time [t], in a run begun at [t0]. *)
Definition counting s t w key (t0 n : Z) : Prop :=
  (rl_none s t w key /\ n = 0) \/ exists st, t0 <= st /\ rl_at s t w key n st.

Lemma counting_later s t t' w key t0 n : counting s t w key t0 n -> t <= t' -> t' < t0 + w -> counting s t' w key t0 n.
Proof.
  intros [[Hn ->]|(st & Hst & Hat)] Ht Hw; [left; split; [by eapply rl_none_later|done]|].
  right. exists st. split; [done|]. eapply rl_at_later; [done|lia].
Qed.

(** One admitted or refused request moves the count. *)
Lemma counting_step q w key t0 n s r s' now :
  rq_ok q -> 0 < w -> auth_ready s -> rl_unique s -> t0 <= now ->
  limiter now w (rq_limit q) (rq_ip q) (rq_scope q) s r s' ->
  counting s now w key t0 n ->
  counting s' now w key t0 (n + if bool_decide (rq_key q = key) && (r =? 0) then 1 else 0) /\
  (rq_key q = key -> r = 0 -> n < rq_limit q).
Proof.
  intros (H1 & H2 & H3 & H4 & H5) Hw Hs Hu Ht0 Hlim Hc. destruct (decide (rq_key q = key)) as [Hk|Hk].
  - rewrite bool_decide_true by done. unfold rq_key in Hk. rewrite <- Hk in *. clear Hk. destruct Hc as [[Hn ->]|(st & Hst & Hat)].
    + destruct (limiter_fresh now w (rq_limit q) _ _ H2 H4 Hw _ _ _ Hlim Hn) as [[-> Hat]|(-> & _ & Hn')].
      * split; [right; exists now; by split|lia].
      * split; [by left|done].
    + pose proof (limiter_open now w (rq_limit q) (rq_ip q) (rq_scope q) H2 H4 s r s' n st Hlim ltac:(lia) (inv_rl _ (proj1 Hs)) Hu Hat) as Ho.
      destruct (Z.leb_spec (rq_limit q) n).
      * destruct Ho as [-> Hat']. split; [right; exists st; by rewrite Z.add_0_r|done].
      * destruct Ho as [-> Hat']. split; [right; exists st; by split|lia].
  - rewrite bool_decide_false by done. simpl. rewrite Z.add_0_r. split; [|done].
    pose proof (fun c st => limiter_others now w (rq_limit q) _ _ H2 H4 _ _ _ key c st Hlim ltac:(unfold rq_key in Hk; congruence)) as Hoth.
    destruct Hc as [[Hn ->]|(st & Hst & Hat)]; [left; split; [|done]; intros c st; by rewrite Hoth|].
    right. exists st. split; [done|]. by apply Hoth.
Qed.

Lemma wp_requests_bound w qs key L t0 n k s : 0 < w ->
  auth_ready s -> rl_unique s -> Forall rq_ok qs -> Forall (fun q => rq_key q = key -> rq_limit q = L) qs ->
  t0 <= env_clock k -> n <= L -> counting s (env_clock k) w key t0 n ->
  wp (run_requests w qs) (fun rs k' s' => env_clock k' < t0 + w -> n + admitted key qs rs <= L) k s.
Proof.
  intros Hw Hs Hu Hq HL. revert n k s Hs Hu. induction Hq as [|q qs Hq Hqs IH]; intros n k s Hs Hu Ht0 Hn Hc; simpl.
  { apply wp_ret. simpl. lia. }
  inversion HL as [|? ? HqL HqsL]; subst. specialize (IH HqsL).
  apply wp_bind, wp_request; [done..|]. intros r m s1 Hs1 Hu1 Hne Heq. apply wp_bind.
  pose proof (wp_requests_le w qs (S (S k)) s1 Hs1 Hu1 Hqs Hw) as Hle.
  set (d := if bool_decide (rq_key q = key) && (r =? 0) then 1 else 0).
  assert (Hstep : counting s1 (env_clock k) w key t0 (n + d) /\ n + d <= L).
  { destruct (Z.eq_dec r 0) as [Hr|Hr].
    - destruct (counting_step q w key t0 n s r s1 (env_clock k) Hq Hw Hs Hu Ht0 (Heq Hr) Hc) as [H1 H2]. split; [done|].
      unfold d. destruct (decide (rq_key q = key)) as [Hk|Hk]; [|rewrite bool_decide_false by done; simpl; lia].
      specialize (H2 Hk Hr). rewrite (HqL Hk) in H2. destruct (_ && _); lia.
    - assert (Hd : d = 0) by (unfold d; rewrite (proj2 (Z.eqb_neq r 0) Hr), andb_false_r; done). rewrite Hd, Z.add_0_r. split; [|done].
      destruct (Hne Hr) as [->|Hlim]; [done|].
      destruct (counting_step q w key t0 n s r s1 (env_clock k) Hq Hw Hs Hu Ht0 Hlim Hc) as [H1 _]. fold d in H1.
      by rewrite Hd, Z.add_0_r in H1. }
  destruct Hstep as [Hc1 Hn1]. pose proof (clock_mono k (S (S k)) ltac:(lia)) as Hmono.
  destruct (Z.lt_ge_cases (env_clock (S (S k))) (t0 + w)) as [Hin|Hout].
  - eapply wp_mono; [apply (IH (n + d)); [done|done|lia|done|by eapply counting_later]|].
    intros rs k2 s2 HP. apply wp_ret. intros Hend. specialize (HP Hend). fold d. lia.
  - eapply wp_mono; [exact Hle|]. intros rs k2 s2 Hk2. apply wp_ret. intros Hend.
    pose proof (clock_mono (S (S k)) k2 Hk2). lia.
Qed.

(** C12: no more than [limit] requests per window.  Take any sequence of
    requests of any clients, handled with window [w], that starts when [key]
    has no open window.  If the last of them is handled less than [w] seconds
    after the first, at most [L] requests of [key] were let through, [L] being
    the limit of that scope. *)
Theorem rate_limit_window_bound w qs key L k s rs k' s' :
  0 < w -> 0 <= L -> auth_ready s -> rl_unique s -> Forall rq_ok qs ->
  Forall (fun q => rq_key q = key -> rq_limit q = L) qs ->
  rl_none s (env_clock k) w key ->
  run_requests w qs k s = (rs, (k', s')) -> env_clock k' < env_clock k + w ->
  admitted key qs rs <= L.
Proof.
  intros Hw HL Hs Hu Hq HqL Hn Hrun Hend.
  pose proof (wp_requests_bound w qs key L (env_clock k) 0 k s Hw Hs Hu Hq HqL (Z.le_refl _) HL (or_introl (conj Hn eq_refl))) as Hwp.
  pose proof (wp_use _ _ _ _ _ _ _ Hwp Hrun) as H. cbv beta in H. specialize (H Hend). lia.
Qed.
End LimiterTheorems.
