(* ===== verification/JsonValue.v ===== *)
(** * JsonValue: the JSON the program emits, as values

    The code writes JSON by appending pieces of text.  [print] is the text of a
    value in the layout the code uses, [parse] a reference reader of that
    subset of RFC 8259; [parse_print] says a printed value reads back as
    itself, so that a piece of code whose output is [print v] is known to emit
    well-formed JSON that means [v]. *)

From stdpp Require Import base numbers list strings gmap.
From Stdlib Require Import ZArith Lia Ascii.
From S2P Require Import Prelude Effects CLib JsonUtils.

Inductive json :=
| JBool (b : bool)
| JNum (z : Z)
| JStr (s : cstring)
| JArr (l : list json)
| JObj (l : list (cstring * json)).

(** Texts separated by commas. *)
Fixpoint sep (l : list cstring) : cstring :=
  match l with
  | [] => []
  | [x] => x
  | x :: l' => x ++ lit "," ++ sep l'
  end.

Definition bool_text (b : bool) : cstring := if b then lit "true" else lit "false".
Definition quoted (s : cstring) : cstring := dquote :: escape s ++ [dquote].
Definition member (k v : cstring) : cstring := quoted k ++ lit ":" ++ v.

Fixpoint print (v : json) : cstring :=
  match v with
  | JBool b => bool_text b
  | JNum z => show_long z
  | JStr s => quoted s
  | JArr l => lit "[" ++ sep (map print l) ++ lit "]"
  | JObj l => lit "{" ++ sep (map (fun kv => member (fst kv) (print (snd kv))) l) ++ lit "}"
  end.

(** ** The reader *)

Definition parse_number (s : cstring) : option (json * cstring) :=
  let '(neg, t) := match s with c :: r => if bool_decide (c = "-"%char) then (true, r) else (false, s) | [] => (false, s) end in
  match span_digits t with
  | ([], _) => None
  | (ds, r) => Some (JNum (if neg then - dec_value 0 ds else dec_value 0 ds), r)
  end.

Definition parse_key (s : cstring) : option (cstring * cstring) :=
  match s with
  | c :: r => if bool_decide (c = dquote) then
      match json_string r with
      | Some (k, c' :: r') => if bool_decide (c' = ":"%char) then Some (k, r') else None
      | _ => None
      end else None
  | [] => None
  end.

Fixpoint parse_value (fuel : nat) (s : cstring) : option (json * cstring) :=
  match fuel with
  | O => None
  | S f =>
      match s with
      | [] => None
      | c :: r =>
          if bool_decide (c = dquote) then prod_map JStr id <$> json_string r
          else if bool_decide (c = "["%char) then
            match r with
            | c' :: r' => if bool_decide (c' = "]"%char) then Some (JArr [], r') else prod_map JArr id <$> parse_elements f r
            | [] => None
            end
          else if bool_decide (c = "{"%char) then
            match r with
            | c' :: r' => if bool_decide (c' = "}"%char) then Some (JObj [], r') else prod_map JObj id <$> parse_members f r
            | [] => None
            end
          else if is_prefix (lit "true") s then Some (JBool true, drop 4 s)
          else if is_prefix (lit "false") s then Some (JBool false, drop 5 s)
          else parse_number s
      end
  end
with parse_elements (fuel : nat) (s : cstring) : option (list json * cstring) :=
  match fuel with
  | O => None
  | S f =>
      match parse_value f s with
      | Some (v, c :: r) =>
          if bool_decide (c = ","%char) then prod_map (cons v) id <$> parse_elements f r
          else if bool_decide (c = "]"%char) then Some ([v], r) else None
      | _ => None
      end
  end
with parse_members (fuel : nat) (s : cstring) : option (list (cstring * json) * cstring) :=
  match fuel with
  | O => None
  | S f =>
      match parse_key s with
      | Some (k, s') =>
          match parse_value f s' with
          | Some (v, c :: r) =>
              if bool_decide (c = ","%char) then prod_map (cons (k, v)) id <$> parse_members f r
              else if bool_decide (c = "}"%char) then Some ([(k, v)], r) else None
          | _ => None
          end
      | None => None
      end
  end.

(** The whole text is one value. *)
Definition parse (s : cstring) : option json :=
  match parse_value (length s) s with Some (v, []) => Some v | _ => None end.

Example parse_example : parse (jlit "{'a':[1,-2,true],'b':'x\'y'}") =
  Some (JObj [(lit "a", JArr [JNum 1; JNum (-2); JBool true]); (lit "b", JStr (jlit "x'y"))]).
Proof. vm_compute. reflexivity. Qed.

(** ** Reading back *)

(** Induction that reaches the elements of arrays and objects. *)
Section JsonInd.
Context (P : json -> Prop).
Context (Hb : forall b, P (JBool b)) (Hn : forall z, P (JNum z)) (Hs : forall s, P (JStr s)).
Context (Ha : forall l, Forall P l -> P (JArr l)) (Ho : forall l, Forall (fun kv => P (snd kv)) l -> P (JObj l)).
Fixpoint json_nested_ind (v : json) : P v :=
  match v with
  | JBool b => Hb b
  | JNum z => Hn z
  | JStr s => Hs s
  | JArr l => Ha l ((fix go l : Forall P l := match l with
      | [] => @List.Forall_nil _ P
      | x :: l' => @List.Forall_cons _ P x l' (json_nested_ind x) (go l') end) l)
  | JObj l => Ho l ((fix go l : Forall (fun kv => P (snd kv)) l := match l with
      | [] => @List.Forall_nil _ (fun kv => P (snd kv))
      | x :: l' => @List.Forall_cons _ (fun kv => P (snd kv)) x l' (json_nested_ind (snd x)) (go l') end) l)
  end.
End JsonInd.

(** The fuel a value needs. *)
Fixpoint jsize (v : json) : nat :=
  match v with
  | JArr l => S (list_sum (map (fun v => S (jsize v)) l))
  | JObj l => S (list_sum (map (fun kv => S (jsize (snd kv))) l))
  | _ => 1
  end.

(** What may follow a value: not a digit. *)
Definition ends (s : cstring) : Prop := match s with [] => True | c :: _ => isdigit c = false end.

Definition reads (v : json) : Prop :=
  forall fuel r, (jsize v <= fuel)%nat -> ends r -> parse_value fuel (print v ++ r) = Some (v, r).

(** A printed value starts with none of the closing brackets. *)
Lemma show_nat_head n : 0 <= n -> exists c t, show_nat n = c :: t /\ isdigit c = true /\ all_digits (c :: t) /\ dec_value 0 (c :: t) = n.
Proof.
  intros Hn. destruct (show_nat_spec n Hn) as (H1 & H2 & H3). destruct (show_nat n) as [|c t]; [done|].
  exists c, t. split; [done|]. by inversion H2.
Qed.

Lemma digit_not c x : isdigit c = true -> isdigit x = false -> c <> x.
Proof. intros H1 H2 ->. congruence. Qed.

Lemma print_head v : exists c t, print v = c :: t /\ c <> "]"%char /\ c <> "}"%char.
Proof.
  destruct v as [b|z|s|l|l]; simpl.
  - by destruct b; eexists _, _.
  - unfold show_long. case_cond; [by eexists _, _|].
    destruct (show_nat_head z) as (c & t & -> & Hc & _); [lia|].
    exists c, t. split; [done|]. split; by eapply digit_not.
  - by eexists _, _.
  - by eexists _, _.
  - by eexists _, _.
Qed.

Lemma reads_num z : reads (JNum z).
Proof.
  intros fuel r Hf Hr. destruct fuel as [|f]; [simpl in Hf; lia|]. cbn [print]. unfold show_long.
  assert (Hnum : forall m, 0 <= m -> span_digits (show_nat m ++ r) = (show_nat m, r)).
  { intros m Hm. apply span_digits_app; [by apply show_nat_spec|done]. }
  case_cond.
  - transitivity (parse_number ("-"%char :: show_nat (- z) ++ r)); [done|]. unfold parse_number.
    rewrite bool_decide_true by done. rewrite Hnum by lia. destruct (show_nat_spec (- z)) as (H1 & _ & H3); [lia|].
    destruct (show_nat (- z)); [done|]. rewrite H3. repeat f_equal. lia.
  - destruct (show_nat_head z) as (c & t & E & Hc & _ & Hv); [lia|].
    specialize (Hnum z ltac:(lia)). rewrite E in *. cbn [app parse_value] in *.
    repeat (rewrite bool_decide_false; [|by eapply digit_not]).
    assert (Hp : forall x p, isdigit x = false -> is_prefix (x :: p) (c :: t ++ r) = false).
    { intros x p Hx. cbn. rewrite bool_decide_false; [done|]. intros ->. congruence. }
    change (lit "true") with ("t"%char :: lit "rue"). change (lit "false") with ("f"%char :: lit "alse").
    rewrite !Hp by done. unfold parse_number. rewrite bool_decide_false by (by eapply digit_not).
    by rewrite Hnum, Hv.
Qed.

Lemma reads_str s : reads (JStr s).
Proof.
  intros fuel r Hf Hr. destruct fuel as [|f]; [simpl in Hf; lia|]. cbn [print]. unfold quoted.
  cbn [app parse_value]. rewrite bool_decide_true by done. rewrite <- app_assoc. cbn [app].
  by rewrite json_string_escape.
Qed.

Lemma parse_key_member k v r : parse_key (member k v ++ r) = Some (k, v ++ r).
Proof.
  unfold member, quoted, parse_key. cbn [app]. rewrite bool_decide_true by done.
  rewrite <- !app_assoc. cbn [app]. by rewrite json_string_escape.
Qed.

Lemma sep_cons x y l : sep (x :: y :: l) = x ++ ","%char :: sep (y :: l).
Proof. done. Qed.

Lemma reads_elements l r fuel :
  Forall reads l -> l <> [] -> (list_sum (map (fun v => S (jsize v)) l) <= fuel)%nat ->
  parse_elements fuel (sep (map print l) ++ "]"%char :: r) = Some (l, r).
Proof.
  intros Hl. revert fuel. induction Hl as [|v l Hv Hl IH]; intros fuel Hn Hf; [done|].
  destruct fuel as [|f]; [simpl in Hf; lia|]. simpl in Hf.
  destruct l as [|w l]; cbn [map]; [cbn [sep parse_elements]; by rewrite Hv by (done || lia)|].
  rewrite sep_cons, <- app_assoc. cbn [app parse_elements]. rewrite Hv by (done || lia).
  rewrite bool_decide_true by done. cbn [map] in IH. rewrite IH; [done|done|simpl in *; lia].
Qed.

Lemma reads_members l r fuel :
  Forall (fun kv => reads (snd kv)) l -> l <> [] -> (list_sum (map (fun kv => S (jsize (snd kv))) l) <= fuel)%nat ->
  parse_members fuel (sep (map (fun kv => member (fst kv) (print (snd kv))) l) ++ "}"%char :: r) = Some (l, r).
Proof.
  intros Hl. revert fuel. induction Hl as [|[k v] l Hv Hl IH]; intros fuel Hn Hf; [done|].
  destruct fuel as [|f]; [simpl in Hf; lia|]. simpl in Hf, Hv.
  destruct l as [|w l]; cbn [map fst snd].
  - cbn [sep parse_members]. rewrite parse_key_member. by rewrite Hv by (done || lia).
  - rewrite sep_cons, <- app_assoc. cbn [app parse_members]. rewrite parse_key_member, Hv by (done || lia).
    rewrite bool_decide_true by done. cbn [map] in IH. rewrite IH; [done|done|simpl in *; lia].
Qed.

Lemma sep_head (l : list cstring) x t c : l = (c :: x) :: t -> exists u, sep l = c :: u.
Proof. intros ->. destruct t; [by eexists|]. rewrite sep_cons. by eexists. Qed.

Lemma reads_all v : reads v.
Proof.
  induction v as [b|z|s|l Hl|l Hl] using json_nested_ind.
  - intros [|f] r Hf Hr; [simpl in Hf; lia|]. by destruct b.
  - apply reads_num.
  - apply reads_str.
  - intros [|f] r Hf Hr; [simpl in Hf; lia|]. cbn [print]. cbn [lit String.list_ascii_of_string app parse_value].
    rewrite bool_decide_false by done. rewrite bool_decide_true by done.
    destruct l as [|v l]; [done|]. rewrite <- app_assoc.
    destruct (print_head v) as (c & t & E & Hc & _).
    destruct (sep_head (map print (v :: l)) t (map print l) c) as (u & Eu); [cbn [map]; by rewrite E|].
    pose proof (reads_elements (v :: l) r f Hl ltac:(done) ltac:(simpl in *; lia)) as H. rewrite Eu in H |- *.
    cbn [app] in *. rewrite bool_decide_false by done. by rewrite H.
  - intros [|f] r Hf Hr; [simpl in Hf; lia|]. cbn [print]. cbn [lit String.list_ascii_of_string app parse_value].
    rewrite !bool_decide_false by done. rewrite bool_decide_true by done.
    destruct l as [|[k v] l]; [done|]. rewrite <- app_assoc.
    pose proof (reads_members ((k, v) :: l) r f Hl ltac:(done) ltac:(simpl in *; lia)) as H.
    destruct (sep_head (map (fun kv => member (fst kv) (print (snd kv))) ((k, v) :: l)) (escape k ++ [dquote] ++ lit ":" ++ print v)
      (map (fun kv => member (fst kv) (print (snd kv))) l) dquote) as (u & Eu).
    { cbn [map fst snd]. unfold member, quoted. cbn [app]. by rewrite <- app_assoc. }
    rewrite Eu in H |- *. cbn [app] in *. rewrite bool_decide_false by done. by rewrite H.
Qed.

Lemma sep_length (l : list cstring) (m : list nat) :
  Forall2 (fun t n => n <= length t)%nat l m -> (list_sum (map S m) <= S (length (sep l)))%nat.
Proof.
  induction 1 as [|t n l m Ht Hl IH]; [simpl; lia|]. destruct l as [|u l].
  - inversion Hl; subst. simpl in *. lia.
  - rewrite sep_cons, length_app. cbn [map list_sum length] in *. simpl in *. lia.
Qed.

Lemma jsize_length v : (jsize v <= length (print v))%nat.
Proof.
  induction v as [b|z|s|l Hl|l Hl] using json_nested_ind.
  - destruct b; simpl; lia.
  - destruct (print_head (JNum z)) as (c & t & -> & _). simpl. lia.
  - simpl. lia.
  - simpl. rewrite length_app. simpl.
    pose proof (sep_length (map print l) (map jsize l)) as H. rewrite map_map in H.
    enough (Forall2 (fun t n => n <= length t)%nat (map print l) (map jsize l)) as H2 by (specialize (H H2); lia).
    clear H. induction Hl; constructor; auto.
  - simpl. rewrite length_app. simpl.
    pose proof (sep_length (map (fun kv => member (fst kv) (print (snd kv))) l) (map (fun kv => jsize (snd kv)) l)) as H.
    rewrite map_map in H.
    enough (Forall2 (fun t n => n <= length t)%nat (map (fun kv => member (fst kv) (print (snd kv))) l) (map (fun kv => jsize (snd kv)) l))
      as H2 by (specialize (H H2); lia).
    clear H. induction Hl as [|kv l Hkv Hl IH]; constructor; auto. unfold member. rewrite !length_app. lia.
Qed.

(** A printed value reads back as itself. *)
Lemma parse_print v : parse (print v) = Some v.
Proof.
  unfold parse. pose proof (reads_all v (length (print v)) [] (jsize_length v) I) as H.
  rewrite app_nil_r in H. by rewrite H.
Qed.

(** Equality of two texts made of literals and the same variable parts, up to
    association. *)
Ltac eval_literals :=
  repeat match goal with
  | |- context [escape (lit ?x)] => let v := eval vm_compute in (escape (lit x)) in change (escape (lit x)) with v
  | |- context [lit ?x] => let v := eval vm_compute in (lit x) in change (lit x) with v
  | |- context [jlit ?x] => let v := eval vm_compute in (jlit x) in change (jlit x) with v
  | |- context [dquote] => let v := eval vm_compute in dquote in change dquote with v
  end.
Ltac json_text :=
  unfold sprintf; cbn [print map fst snd fmt_text fmap list_fmap mjoin list_join sep];
  unfold member, quoted, bool_text; eval_literals; cbn [app];
  repeat (rewrite <- app_assoc; cbn [app]); rewrite ?app_nil_r; reflexivity.

(** ** Arrays written element by element *)

Lemma sep_snoc l x : sep (l ++ [x]) = sep l ++ (match l with [] => [] | _ => lit "," end) ++ x.
Proof.
  induction l as [|y l IH]; [done|]. destruct l as [|z l]; [done|].
  cbn [app] in *. rewrite !sep_cons, IH. by rewrite <- !app_assoc.
Qed.

(** The comma in front of every element but the first. *)
Definition lead (i : nat) : cstring := if (0 <? i)%nat then lit "," else [].

Lemma sep_seq (elem : nat -> cstring) n :
  sep (elem <$> seq 0 (S n)) = sep (elem <$> seq 0 n) ++ lead n ++ elem n.
Proof.
  rewrite seq_S, fmap_app. cbn [fmap list_fmap]. rewrite sep_snoc. f_equal. by destruct n.
Qed.

Lemma sep_seq_le (elem : nat -> cstring) n m : (n <= m)%nat ->
  (length (sep (elem <$> seq 0 n)) <= length (sep (elem <$> seq 0 m)))%nat.
Proof. induction 1 as [|m Hm IH]; [done|]. rewrite sep_seq, !length_app. lia. Qed.

Section Elements.
Context `{E : Env} {S R : Type}.

(** A loop whose rounds each add one element, or leave. *)
Lemma wp_elements (elem : nat -> cstring) n (body : nat -> JsonBuf -> M S (JsonBuf + R)) b
    (Q : JsonBuf + R -> nat -> S -> Prop) k s :
  buf_ok b -> roomy b (length (sep (elem <$> seq 0 n))) ->
  (forall i b1 (Q1 : JsonBuf + R -> nat -> S -> Prop) k1, (i < n)%nat -> buf_ok b1 ->
     roomy b1 (length (lead i ++ elem i)) ->
     (forall k2 b2, grown b1 (lead i ++ elem i) b2 -> Q1 (inl b2) k2 s) ->
     (forall x k2 s2, Q (inr x) k2 s2 -> Q1 (inr x) k2 s2) ->
     wp (body i b1) Q1 k1 s) ->
  (forall k1 b1, grown b (sep (elem <$> seq 0 n)) b1 -> Q (inl b1) k1 s) ->
  wp (for_acc n 0 body b) Q k s.
Proof.
  intros Hb Hr Hbody HQ.
  apply (wp_for_acc (fun i b1 _ s1 => s1 = s /\ grown b (sep (elem <$> seq 0 i)) b1)).
  - split; [done|]. split; [done|]. split; [by rewrite app_nil_r|done].
  - intros i b1 k1 ? Hi [-> Hg]. apply Hbody; [lia|apply Hg| | |by intros].
    + eapply grown_roomy; [|exact Hg]. eapply roomy_weaken; [|exact Hr].
      rewrite <- sep_seq. apply sep_seq_le. lia.
    + intros k2 b2 Hg2. split; [done|]. rewrite sep_seq. by eapply grown_trans.
  - intros b1 k1 ? [-> Hg]. by apply HQ.
Qed.
End Elements.
