(* ===== verification/PeerRegistry.v ===== *)
(** * PeerRegistry: the table of discovered peers (src/peer_registry.c)

    The static variables are the fields of [RegistryState]; entries below
    [registry_count] are in use. *)

From stdpp Require Import base numbers list strings gmap.
From Stdlib Require Import ZArith Lia Ascii.
From S2P Require Import Prelude Effects CLib JsonUtils.

Definition PEER_REGISTRY_MAX_PEERS : nat := 50.

Record PeerInfo := {
  pi_name : cstring; pi_ip : cstring; pi_port : Z; pi_active : bool; pi_paired : bool; pi_last_seen : Z }.

#[export] Instance peer_info_zero : Inhabited PeerInfo := populate
  {| pi_name := []; pi_ip := []; pi_port := 0; pi_active := false; pi_paired := false; pi_last_seen := 0 |}.

Record RegistryState := {
  registry_lock : mutex; registry_initialized : bool; registry : list PeerInfo; registry_count : nat }.

Definition registry_boot : RegistryState := {|
  registry_lock := MUninit; registry_initialized := false;
  registry := replicate PEER_REGISTRY_MAX_PEERS inhabitant; registry_count := 0 |}.

Definition set_registry_lock v s := {| registry_lock := v; registry_initialized := registry_initialized s;
  registry := registry s; registry_count := registry_count s |}.
Definition set_registry_initialized v s := {| registry_lock := registry_lock s; registry_initialized := v;
  registry := registry s; registry_count := registry_count s |}.
Definition set_registry v s := {| registry_lock := registry_lock s; registry_initialized := registry_initialized s;
  registry := v; registry_count := registry_count s |}.
Definition set_registry_count v s := {| registry_lock := registry_lock s; registry_initialized := registry_initialized s;
  registry := registry s; registry_count := v |}.

#[export] Instance registry_mutex : HasMutex RegistryState := {
  get_mutex := registry_lock; set_mutex := set_registry_lock; get_set_mutex m s := eq_refl }.

(** [registry[index] = p] *)
Definition set_peer index p s := set_registry (<[index := p]> (registry s)) s.

(** The test of the searches: [strcmp(registry[index].ip, ip) == 0 && registry[index].port == port]. *)
Definition endpoint_is (ip : cstring) (port : Z) (s : RegistryState) (index : nat) : bool :=
  (strcmp (pi_ip (registry s !!! index)) ip =? 0) && (pi_port (registry s !!! index) =? port).

Section Registry.
Context `{E : Env}.

Definition peer_registry_init : M RegistryState Z :=
  s <- get ;;
  if registry_initialized s then ret 0
  else
    modify (set_registry (replicate PEER_REGISTRY_MAX_PEERS inhabitant)) ;;
    modify (set_registry_count 0) ;;
    r <- pthread_init ;;
    if negb (r =? 0) then ret (-1)
    else modify (set_registry_initialized true) ;; ret 0.

Definition peer_registry_cleanup : M RegistryState unit :=
  s <- get ;;
  if negb (registry_initialized s) then ret tt
  else pthread_destroy ;; modify (set_registry_initialized false).

(** The known endpoint is refreshed. *)
Definition refresh_peer (name : cstring) (s : RegistryState) (index : nat) : M RegistryState (option Z) :=
  let p := registry s !!! index in
  now <- time_NULL ;;
  modify (set_peer index {| pi_name := copy_string 256 (Some name); pi_ip := pi_ip p; pi_port := pi_port p;
                            pi_active := true; pi_paired := pi_paired p; pi_last_seen := now |}) ;;
  pthread_unlock ;;
  ret (Some 0).

Definition peer_registry_add_or_update (name ip : option cstring) (port : Z) : M RegistryState Z :=
  s <- get ;;
  match name, ip with
  | Some name, Some ip =>
      if negb (registry_initialized s) then ret (-1)
      else
        r <- pthread_lock ;;
        if negb (r =? 0) then ret (-1)
        else
          s <- get ;;
          x <- for_range (registry_count s) 0 (fun index =>
                 s <- get ;;
                 if endpoint_is ip port s index then refresh_peer name s index else ret None) ;;
          match x with
          | Some v => ret v
          | None =>
              s <- get ;;
              if (PEER_REGISTRY_MAX_PEERS <=? registry_count s)%nat then pthread_unlock ;; ret (-1)
              else
                now <- time_NULL ;;
                modify (set_peer (registry_count s)
                  {| pi_name := copy_string 256 (Some name); pi_ip := copy_string 46 (Some ip); pi_port := port;
                     pi_active := true; pi_paired := false; pi_last_seen := now |}) ;;
                modify (fun s => set_registry_count (Datatypes.S (registry_count s)) s) ;;
                pthread_unlock ;;
                ret 0
          end
  | _, _ => ret (-1)
  end.

(** Every entry of that name is deactivated; [updated] is carried along. *)
Definition mark_inactive_body (name : cstring) (index : nat) (updated : bool) : M RegistryState (bool + Z) :=
  s <- get ;;
  let p := registry s !!! index in
  if strcmp (pi_name p) name =? 0
  then
    modify (set_peer index {| pi_name := pi_name p; pi_ip := pi_ip p; pi_port := pi_port p;
                              pi_active := false; pi_paired := pi_paired p; pi_last_seen := pi_last_seen p |}) ;;
    ret (inl true)
  else ret (inl updated).

Definition peer_registry_mark_inactive (name : option cstring) : M RegistryState Z :=
  s <- get ;;
  match name with
  | Some name =>
      if negb (registry_initialized s) then ret (-1)
      else
        r <- pthread_lock ;;
        if negb (r =? 0) then ret (-1)
        else
          s <- get ;;
          x <- for_acc (registry_count s) 0 (mark_inactive_body name) false ;;
          pthread_unlock ;;
          ret (match x with inl true => 0 | inl false => -1 | inr r => r end)
  | None => ret (-1)
  end.

Definition set_paired_entry (paired : Z) (s : RegistryState) (index : nat) : M RegistryState (option Z) :=
  let p := registry s !!! index in
  modify (set_peer index {| pi_name := pi_name p; pi_ip := pi_ip p; pi_port := pi_port p;
                            pi_active := pi_active p; pi_paired := negb (paired =? 0); pi_last_seen := pi_last_seen p |}) ;;
  pthread_unlock ;;
  ret (Some 0).

Definition peer_registry_set_paired (ip : option cstring) (port paired : Z) : M RegistryState Z :=
  s <- get ;;
  match ip with
  | Some ip =>
      if negb (registry_initialized s) then ret (-1)
      else
        r <- pthread_lock ;;
        if negb (r =? 0) then ret (-1)
        else
          s <- get ;;
          x <- for_range (registry_count s) 0 (fun index =>
                 s <- get ;;
                 if endpoint_is ip port s index then set_paired_entry paired s index else ret None) ;;
          match x with
          | Some v => ret v
          | None => pthread_unlock ;; ret (-1)
          end
  | None => ret (-1)
  end.

(** [out_peer] says whether the out-parameter is given. *)
Definition peer_registry_find_by_endpoint (ip : option cstring) (port : Z) (out_peer : bool)
    : M RegistryState (Z * option PeerInfo) :=
  s <- get ;;
  match ip with
  | Some ip =>
      if negb (registry_initialized s) then ret (-1, None)
      else
        r <- pthread_lock ;;
        if negb (r =? 0) then ret (-1, None)
        else
          s <- get ;;
          x <- for_range (registry_count s) 0 (fun index =>
                 s <- get ;;
                 if endpoint_is ip port s index
                 then ret (Some (0, if out_peer then Some (registry s !!! index) else None))
                 else ret None) ;;
          pthread_unlock ;;
          ret (default (-1, None) x)
  | None => ret (-1, None)
  end.

(** [peers] says whether the array is given; the entries written are returned. *)
Definition peer_registry_copy_snapshot (peers : bool) (max_peers : nat) : M RegistryState (nat * list PeerInfo) :=
  s <- get ;;
  if negb (registry_initialized s) || negb peers || (max_peers =? 0)%nat then ret (0%nat, [])
  else
    r <- pthread_lock ;;
    if negb (r =? 0) then ret (0%nat, [])
    else
      s <- get ;;
      let count := if (registry_count s <? max_peers)%nat then registry_count s else max_peers in
      pthread_unlock ;;
      ret (count, take count (registry s)).

(** The pieces appended for one entry. *)
Definition peer_pieces (p : PeerInfo) : list (JsonBuf -> M RegistryState (Z * JsonBuf)) :=
  [ app_lit (jlit "{'name':'");
    app_esc (pi_name p);
    app_lit (jlit "','ip':'");
    app_esc (pi_ip p);
    app_fmt [Lit (jlit "','port':"); UInt (pi_port p);
             Lit (jlit ",'active':"); Str (if pi_active p then lit "true" else lit "false");
             Lit (jlit ",'paired':"); Str (if pi_paired p then lit "true" else lit "false");
             Lit (jlit ",'last_seen':"); Long (pi_last_seen p); Lit (lit "}")] ].

Definition snapshot_body (index : nat) (buffer : JsonBuf) : M RegistryState (JsonBuf + (Z * option cstring)) :=
  s <- get ;;
  let* (r, buffer) := (if (0 <? index)%nat then app_lit (lit ",") buffer else ret (0, buffer)) in
  if negb (r =? 0) then pthread_unlock ;; ret (inr (-1, None))
  else
    let* (r, buffer) := all_ok (peer_pieces (registry s !!! index)) buffer in
    if negb (r =? 0) then pthread_unlock ;; ret (inr (-1, None))
    else ret (inl buffer).

Definition peer_registry_snapshot_json (json_out : bool) : M RegistryState (Z * option cstring) :=
  s <- get ;;
  if negb (registry_initialized s) || negb json_out then ret (-1, None)
  else
    r <- pthread_lock ;;
    if negb (r =? 0) then ret (-1, None)
    else
      let* (r, buffer) := app_lit (lit "[") empty_buf in
      if negb (r =? 0) then pthread_unlock ;; ret (-1, None)
      else
        s <- get ;;
        x <- for_acc (registry_count s) 0 snapshot_body buffer ;;
        match x with
        | inr v => ret v
        | inl buffer =>
            pthread_unlock ;;
            let* (r, buffer) := app_lit (lit "]") buffer in
            if negb (r =? 0) then ret (-1, None)
            else ret (0, jb_buffer buffer)
        end.
End Registry.
