(* ===== verification/PeerRegistrySpec.v ===== *)
(** * PeerRegistrySpec: the registry is a finite map

    The abstract specification is a map from endpoints to peers; every
    operation of PeerRegistry.v implements the map operation of
    [registry_spec]. *)

From stdpp Require Import base numbers list strings gmap.
From Stdlib Require Import ZArith Lia Ascii.
From S2P Require Import Prelude Effects CLib JsonUtils JsonValue PeerRegistry.

(** ** The abstract registry *)

Abbreviation endpoint := (cstring * Z)%type.
Definition pi_key (p : PeerInfo) : endpoint := (pi_ip p, pi_port p).
Definition peers (s : RegistryState) : list PeerInfo := take (registry_count s) (registry s).
Definition view (l : list PeerInfo) : gmap endpoint PeerInfo := list_to_map ((fun p => (pi_key p, p)) <$> l).
Definition reg_view (s : RegistryState) : gmap endpoint PeerInfo := view (peers s).

(** An endpoint whose address fits its field. *)
Definition endpoint_ok (ip : cstring) (port : Z) : Prop := c_string ip /\ (length ip <= 45)%nat /\ 0 <= port < 65536.

Definition peer_ok (p : PeerInfo) : Prop :=
  endpoint_ok (pi_ip p) (pi_port p) /\ c_string (pi_name p) /\ (length (pi_name p) <= 255)%nat.

Record reg_inv (s : RegistryState) : Prop := {
  reg_lock_ok : registry_lock s = if registry_initialized s then MFree else MUninit;
  reg_len : length (registry s) = PEER_REGISTRY_MAX_PEERS;
  reg_count : (registry_count s <= PEER_REGISTRY_MAX_PEERS)%nat;
  reg_peers : Forall peer_ok (peers s);
  reg_unique : NoDup (pi_key <$> peers s) }.

Definition reg_ready (s : RegistryState) : Prop := reg_inv s /\ registry_initialized s = true.

Inductive reg_call :=
| RAdd (name ip : cstring) (port : Z)
| RInactive (name : cstring)
| RPaired (ip : cstring) (port paired : Z)
| RFind (ip : cstring) (port : Z).

Definition reg_call_ok (c : reg_call) : Prop :=
  match c with
  | RAdd name ip port => c_string name /\ endpoint_ok ip port
  | RInactive name => c_string name
  | RPaired ip port _ | RFind ip port => endpoint_ok ip port
  end.

Definition reg_run `{E : Env} (c : reg_call) : M RegistryState (Z * option PeerInfo) :=
  match c with
  | RAdd name ip port => r <- peer_registry_add_or_update (Some name) (Some ip) port ;; ret (r, None)
  | RInactive name => r <- peer_registry_mark_inactive (Some name) ;; ret (r, None)
  | RPaired ip port paired => r <- peer_registry_set_paired (Some ip) port paired ;; ret (r, None)
  | RFind ip port => peer_registry_find_by_endpoint (Some ip) port true
  end.

Definition refreshed (name : cstring) (now : Z) (p : PeerInfo) : PeerInfo :=
  {| pi_name := take 255 name; pi_ip := pi_ip p; pi_port := pi_port p; pi_active := true;
     pi_paired := pi_paired p; pi_last_seen := now |}.
Definition discovered (name ip : cstring) (port now : Z) : PeerInfo :=
  {| pi_name := take 255 name; pi_ip := ip; pi_port := port; pi_active := true;
     pi_paired := false; pi_last_seen := now |}.
Definition inactive (p : PeerInfo) : PeerInfo :=
  {| pi_name := pi_name p; pi_ip := pi_ip p; pi_port := pi_port p; pi_active := false;
     pi_paired := pi_paired p; pi_last_seen := pi_last_seen p |}.
Definition with_paired (b : bool) (p : PeerInfo) : PeerInfo :=
  {| pi_name := pi_name p; pi_ip := pi_ip p; pi_port := pi_port p; pi_active := pi_active p;
     pi_paired := b; pi_last_seen := pi_last_seen p |}.
Definition inactivate (name : cstring) (p : PeerInfo) : PeerInfo := if streq (pi_name p) name then inactive p else p.

(** The map operations: results and new map. *)
Definition registry_spec (now : Z) (c : reg_call) (m : gmap endpoint PeerInfo)
    : (Z * option PeerInfo) * gmap endpoint PeerInfo :=
  match c with
  | RAdd name ip port =>
      match m !! (ip, port) with
      | Some p => ((0, None), <[(ip, port) := refreshed name now p]> m)
      | None => if (size m <? PEER_REGISTRY_MAX_PEERS)%nat
                then ((0, None), <[(ip, port) := discovered name ip port now]> m)
                else ((-1, None), m)
      end
  | RInactive name =>
      ((if bool_decide (map_Exists (fun _ p => pi_name p = name) m) then 0 else -1, None), inactivate name <$> m)
  | RPaired ip port paired =>
      match m !! (ip, port) with
      | Some p => ((0, None), <[(ip, port) := with_paired (negb (paired =? 0)) p]> m)
      | None => ((-1, None), m)
      end
  | RFind ip port => ((match m !! (ip, port) with Some _ => 0 | None => -1 end, m !! (ip, port)), m)
  end.

(** ** Lists of peers as maps *)

Lemma keys_of l : ((fun p => (pi_key p, p)) <$> l).*1 = pi_key <$> l.
Proof. by rewrite <- list_fmap_compose. Qed.

Lemma view_none l key : view l !! key = None <-> key ∉ pi_key <$> l.
Proof. unfold view. rewrite <- keys_of. symmetry. apply not_elem_of_list_to_map. Qed.

Lemma view_some l (i : nat) p : NoDup (pi_key <$> l) -> l !! i = Some p -> view l !! pi_key p = Some p.
Proof.
  intros Hn Hi. apply elem_of_list_to_map; [by rewrite keys_of|].
  apply list_elem_of_fmap. exists p. split; [done|]. by eapply list_elem_of_lookup_2.
Qed.

Lemma view_inv l key p : view l !! key = Some p -> pi_key p = key /\ p ∈ l.
Proof.
  intros H. apply elem_of_list_to_map_2, list_elem_of_fmap in H as (q & [= -> ->] & Hq). done.
Qed.

Lemma view_cons p l : view (p :: l) = <[pi_key p := p]> (view l).
Proof. done. Qed.

Lemma view_insert l i p p' :
  NoDup (pi_key <$> l) -> l !! i = Some p -> pi_key p' = pi_key p ->
  view (<[i := p']> l) = <[pi_key p := p']> (view l).
Proof.
  intros Hn Hi Hk. revert i Hi. induction l as [|x l IH]; intros i Hi; [done|].
  rewrite fmap_cons in Hn. apply NoDup_cons in Hn as [Hx Hn]. destruct i as [|i]; simpl in Hi.
  - injection Hi as ->. change (<[0%nat := p']> (p :: l)) with (p' :: l).
    by rewrite !view_cons, Hk, insert_insert_eq.
  - change (<[S i := p']> (x :: l)) with (x :: <[i := p']> l). rewrite !view_cons, (IH Hn i Hi). apply insert_insert_ne.
    intros Heq. apply Hx. rewrite Heq. apply (list_elem_of_fmap_2 pi_key). by eapply list_elem_of_lookup_2.
Qed.

Lemma keys_insert (l : list PeerInfo) (i : nat) p p' : l !! i = Some p -> pi_key p' = pi_key p -> pi_key <$> <[i := p']> l = pi_key <$> l.
Proof.
  intros Hi Hk. rewrite list_fmap_insert, Hk. apply list_insert_id. by rewrite list_lookup_fmap, Hi.
Qed.

Lemma view_snoc l p : pi_key p ∉ pi_key <$> l -> view (l ++ [p]) = <[pi_key p := p]> (view l).
Proof.
  intros H. unfold view. rewrite fmap_app. simpl. apply list_to_map_snoc. by rewrite keys_of.
Qed.

Lemma view_size l : NoDup (pi_key <$> l) -> size (view l) = length l.
Proof. intros H. unfold view. rewrite map_size_list_to_map by (by rewrite keys_of). by rewrite length_fmap. Qed.

Lemma view_fmap f l : (forall p, pi_key (f p) = pi_key p) -> view (f <$> l) = f <$> view l.
Proof.
  intros Hf. induction l as [|p l IH].
  - unfold view. simpl. symmetry. apply (fmap_empty f).
  - rewrite fmap_cons, !view_cons, IH, Hf. symmetry. apply (fmap_insert f).
Qed.

(** ** Entries of the array *)

Lemma peers_lookup s i : (i < registry_count s)%nat -> peers s !! i = registry s !! i.
Proof. intros. unfold peers. by rewrite lookup_take_lt. Qed.

Lemma peers_get s i : reg_inv s -> (i < registry_count s)%nat -> peers s !! i = Some (registry s !!! i).
Proof.
  intros H Hi. rewrite peers_lookup by done. apply list_lookup_lookup_total_lt.
  rewrite (reg_len _ H). pose proof (reg_count _ H). lia.
Qed.

Lemma peers_set s i p : (i < registry_count s)%nat -> peers (set_peer i p s) = <[i := p]> (peers s).
Proof. intros. unfold peers, set_peer. simpl. by rewrite take_insert_lt by lia. Qed.

Lemma peers_length s : reg_inv s -> length (peers s) = registry_count s.
Proof. intros H. unfold peers. rewrite length_take, (reg_len _ H). pose proof (reg_count _ H). lia. Qed.

Lemma endpoint_is_true s ip port i : reg_inv s -> c_string ip -> (i < registry_count s)%nat ->
  endpoint_is ip port s i = true <-> pi_key (registry s !!! i) = (ip, port).
Proof.
  intros H Hip Hi. destruct (Forall_lookup_1 _ _ _ _ (reg_peers _ H) (peers_get _ _ H Hi)) as ((Hc & _) & _).
  unfold endpoint_is, pi_key. rewrite strcmp_eqb by done. rewrite andb_true_iff, bool_decide_eq_true, Z.eqb_eq.
  split; [by intros [-> ->]|by intros [= -> ->]].
Qed.

Lemma not_in_view s ip port : reg_inv s -> c_string ip ->
  (forall i, (i < registry_count s)%nat -> endpoint_is ip port s i = false) -> (ip, port) ∉ pi_key <$> peers s.
Proof.
  intros H Hip Hno. intros Hin. apply list_elem_of_fmap in Hin as (p & Hk & Hp).
  apply list_elem_of_lookup_1 in Hp as (i & Hi).
  assert (Hlt : (i < registry_count s)%nat) by (apply lookup_lt_Some in Hi; by rewrite peers_length in Hi).
  rewrite (peers_get _ _ H Hlt) in Hi. simplify_eq.
  specialize (Hno i Hlt). by rewrite (proj2 (endpoint_is_true s ip port i H Hip Hlt)) in Hno.
Qed.

(** Rewriting an entry in place keeps the invariant, and is an insertion in
    the map. *)
Lemma reg_set_entry s i p : reg_inv s -> (i < registry_count s)%nat ->
  pi_key p = pi_key (registry s !!! i) -> peer_ok p ->
  reg_inv (set_peer i p s) /\ reg_view (set_peer i p s) = <[pi_key p := p]> (reg_view s).
Proof.
  intros H Hi Hk Hp. pose proof (peers_get _ _ H Hi) as Hg. split.
  - split; simpl; [apply H|by rewrite length_insert, (reg_len _ H)|apply H| |]; rewrite peers_set by done.
    + apply Forall_insert; [apply H|done].
    + rewrite (keys_insert _ _ _ _ Hg Hk). apply H.
  - unfold reg_view. rewrite peers_set by done. rewrite (view_insert _ _ _ _ (reg_unique _ H) Hg Hk). by rewrite Hk.
Qed.

Definition with_entry (p : PeerInfo) (s : RegistryState) : RegistryState :=
  set_registry_count (S (registry_count s)) (set_peer (registry_count s) p s).

Lemma reg_add_entry s p : reg_inv s -> (registry_count s < PEER_REGISTRY_MAX_PEERS)%nat ->
  pi_key p ∉ pi_key <$> peers s -> peer_ok p ->
  reg_inv (with_entry p s) /\ reg_view (with_entry p s) = <[pi_key p := p]> (reg_view s).
Proof.
  intros H Hc Hk Hp.
  assert (Hps : peers (with_entry p s) = peers s ++ [p]).
  { unfold peers, with_entry. simpl. rewrite (take_S_r _ _ p).
    - f_equal. by apply take_insert_ge.
    - apply list_lookup_insert_eq. by rewrite (reg_len _ H). }
  split.
  - split; simpl; [apply H|by rewrite length_insert, (reg_len _ H)|done| |]; rewrite Hps.
    + apply Forall_app. split; [apply H|by constructor].
    + rewrite fmap_app. apply NoDup_app. split; [apply H|]. split; [|by apply NoDup_singleton].
      intros x Hx. simpl. rewrite list_elem_of_singleton. intros ->. done.
  - unfold reg_view. rewrite Hps. by apply view_snoc.
Qed.

(** ** The operations *)

Section Operations.
Context `{E : Env}.
Implicit Types (k : nat) (s : RegistryState).

Lemma reg_free s : reg_ready s -> registry_lock s = MFree.
Proof. intros [H Hi]. rewrite (reg_lock_ok _ H). by rewrite Hi. Qed.

(** Releasing after a change made under the lock. *)
Lemma unlock_reg s : registry_lock s = MFree -> set_registry_lock MFree (set_registry_lock MHeld s) = s.
Proof. destruct s; simpl; by intros ->. Qed.
Lemma unlock_peer i p s : registry_lock s = MFree ->
  set_registry_lock MFree (set_peer i p (set_registry_lock MHeld s)) = set_peer i p s.
Proof. destruct s; simpl; by intros ->. Qed.
Lemma unlock_entry p s : registry_lock s = MFree ->
  set_registry_lock MFree (with_entry p (set_registry_lock MHeld s)) = with_entry p s.
Proof. destruct s; simpl; by intros ->. Qed.

Definition reg_post (c : reg_call) k s (r : Z * option PeerInfo) k' s' : Prop :=
  reg_ready s' /\
  ((env_lock k <> 0 /\ r = (-1, None) /\ s' = s) \/
   (env_lock k = 0 /\ exists j, (k <= j <= k')%nat /\ (r, reg_view s') = registry_spec (env_clock j) c (reg_view s))).

Lemma reg_post_failed c k s : reg_ready s -> env_lock k <> 0 -> reg_post c k s (-1, None) (S k) s.
Proof. intros. split; [done|]. by left. Qed.

(** The entry found is the one of the map, and a search that fails leaves
    the endpoint out of the map. *)
Lemma hit_view s ip port i : reg_inv s -> c_string ip -> (i < registry_count s)%nat ->
  endpoint_is ip port s i = true -> reg_view s !! (ip, port) = Some (registry s !!! i) /\ pi_key (registry s !!! i) = (ip, port).
Proof.
  intros H Hip Hi He. apply endpoint_is_true in He; [|done..]. split; [|done]. rewrite <- He.
  eapply view_some; [apply H|]. by apply peers_get.
Qed.

Lemma miss_view s ip port : reg_inv s -> c_string ip ->
  (forall i, (i < registry_count s)%nat -> endpoint_is ip port s i = false) -> reg_view s !! (ip, port) = None.
Proof. intros. apply view_none. by apply not_in_view. Qed.

Lemma take_name_ok name : c_string name -> c_string (take 255 name) /\ (length (take 255 name) <= 255)%nat.
Proof. intros. split; [by apply c_string_take|]. rewrite length_take. lia. Qed.

Lemma wp_add name ip port k s : reg_ready s -> reg_call_ok (RAdd name ip port) ->
  wp (peer_registry_add_or_update (Some name) (Some ip) port)
    (fun r => reg_post (RAdd name ip port) k s (r, None)) k s.
Proof.
  intros Hs [Hn (Hip & Hlen & Hport)]. pose proof (reg_free _ Hs) as Hl. pose proof Hs as [Hinv Hi].
  destruct (take_name_ok name Hn) as [Hn1 Hn2].
  unfold peer_registry_add_or_update. apply wp_bind, wp_get. rewrite Hi. reduce_tests.
  enter Hl; [|apply wp_ret; apply reg_post_failed; [done|congruence]].
  apply wp_bind, wp_get, wp_bind, wp_find; simpl registry_count.
  - intros i Hlt He _. destruct (hit_view s ip port i Hinv Hip Hlt He) as [Hv Hk].
    unfold refresh_peer. apply wp_bind, wp_ask, wp_bind, wp_modify. leave. apply wp_ret. split; [done|]. apply wp_ret.
    cbn [set_mutex registry_mutex registry set_registry_lock]. rewrite unlock_peer by done.
    rewrite copy_string_some. change (256 - 1)%nat with 255%nat.
    change {| pi_name := take 255 name; pi_ip := _; pi_port := _; pi_active := true; pi_paired := _; pi_last_seen := _ |}
      with (refreshed name (env_clock (S k)) (registry s !!! i)).
    destruct (reg_set_entry s i (refreshed name (env_clock (S k)) (registry s !!! i)) Hinv Hlt) as [Hinv' Hview]; [done| |].
    { split; [|done]. injection Hk as <- <-. done. }
    split; [done|]. right. split; [done|]. exists (S k). split; [lia|].
    simpl. rewrite Hv, Hview. do 2 f_equal. exact Hk.
  - intros Hno. apply wp_bind, wp_get. simpl registry_count.
    pose proof (miss_view s ip port Hinv Hip Hno) as Hv. pose proof (view_size _ (reg_unique _ Hinv)) as Hsz.
    rewrite (peers_length _ Hinv) in Hsz. fold (reg_view s) in Hsz. apply wp_if; intros Hc.
    + apply Nat.leb_le in Hc. leave. apply wp_ret. simpl. rewrite unlock_reg by done. split; [done|]. right. split; [done|].
      exists (S k). split; [lia|]. simpl. rewrite Hv, Hsz. destruct (Nat.ltb_spec (registry_count s) PEER_REGISTRY_MAX_PEERS); [lia|done].
    + apply Nat.leb_gt in Hc. apply wp_bind, wp_ask, wp_bind, wp_modify, wp_bind, wp_modify. leave. apply wp_ret.
      rewrite !copy_string_some. change (256 - 1)%nat with 255%nat. rewrite (take_ge ip) by (simpl; lia).
      change {| pi_name := take 255 name; pi_ip := ip; pi_port := port; pi_active := true; pi_paired := false; pi_last_seen := ?t |}
        with (discovered name ip port t).
      set (p := discovered name ip port (env_clock (S k))). change (reg_post (RAdd name ip port) k s (0, None) (S (S k))
        (set_registry_lock MFree (with_entry p (set_registry_lock MHeld s)))).
      rewrite unlock_entry by done.
      destruct (reg_add_entry s p Hinv Hc) as [Hinv' Hview]; [by apply view_none|by split|].
      split; [done|]. right. split; [done|]. exists (S k). split; [lia|].
      simpl. rewrite Hv, Hsz, Hview. destruct (Nat.ltb_spec (registry_count s) PEER_REGISTRY_MAX_PEERS); [done|lia].
Qed.

Lemma wp_paired ip port paired k s : reg_ready s -> reg_call_ok (RPaired ip port paired) ->
  wp (peer_registry_set_paired (Some ip) port paired)
    (fun r => reg_post (RPaired ip port paired) k s (r, None)) k s.
Proof.
  intros Hs (Hip & Hlen & Hport). pose proof (reg_free _ Hs) as Hl. pose proof Hs as [Hinv Hi].
  unfold peer_registry_set_paired. apply wp_bind, wp_get. rewrite Hi. reduce_tests.
  enter Hl; [|apply wp_ret; apply reg_post_failed; [done|congruence]].
  apply wp_bind, wp_get, wp_bind, wp_find; simpl registry_count.
  - intros i Hlt He _. destruct (hit_view s ip port i Hinv Hip Hlt He) as [Hv Hk].
    unfold set_paired_entry. apply wp_bind, wp_modify. leave. apply wp_ret. split; [done|]. apply wp_ret.
    cbn [set_mutex registry_mutex registry set_registry_lock]. rewrite unlock_peer by done.
    set (p := registry s !!! i) in *. change {| pi_name := _; pi_paired := ?b |} with (with_paired b p).
    destruct (reg_set_entry s i (with_paired (negb (paired =? 0)) p) Hinv Hlt) as [Hinv' Hview]; [done| |].
    { exact (Forall_lookup_1 _ _ _ _ (reg_peers _ Hinv) (peers_get _ _ Hinv Hlt)). }
    split; [done|]. right. split; [done|]. exists (S k). split; [lia|].
    simpl. rewrite Hv, Hview. do 2 f_equal. exact Hk.
  - intros Hno. leave. apply wp_ret. simpl. rewrite unlock_reg by done.
    split; [done|]. right. split; [done|]. exists (S k). split; [lia|].
    simpl. by rewrite (miss_view s ip port Hinv Hip Hno).
Qed.

Lemma wp_find_peer ip port k s : reg_ready s -> reg_call_ok (RFind ip port) ->
  wp (peer_registry_find_by_endpoint (Some ip) port true)
    (fun r k' s' => s' = s /\ reg_post (RFind ip port) k s r k' s') k s.
Proof.
  intros Hs (Hip & Hlen & Hport). pose proof (reg_free _ Hs) as Hl. pose proof Hs as [Hinv Hi].
  unfold peer_registry_find_by_endpoint. apply wp_bind, wp_get. rewrite Hi. reduce_tests.
  enter Hl; [|apply wp_ret; split; [done|]; apply reg_post_failed; [done|congruence]].
  apply wp_bind, wp_get, wp_bind.
  apply (wp_find _ (endpoint_is ip port) (fun s i => ret (Some (0, Some (registry s !!! i))))); simpl registry_count.
  - intros i Hlt He _. destruct (hit_view s ip port i Hinv Hip Hlt He) as [Hv Hk].
    apply wp_ret. split; [done|]. leave. apply wp_ret. simpl. rewrite unlock_reg by done. split; [done|].
    split; [done|]. right. split; [done|]. exists (S k). split; [lia|]. simpl. by rewrite Hv.
  - intros Hno. leave. apply wp_ret. simpl. rewrite unlock_reg by done. split; [done|].
    split; [done|]. right. split; [done|]. exists (S k). split; [lia|].
    simpl. by rewrite (miss_view s ip port Hinv Hip Hno).
Qed.

(** *** Deactivation by name *)

Definition upto name i (l : list PeerInfo) : list PeerInfo := (inactivate name <$> take i l) ++ drop i l.
Definition named name (p : PeerInfo) : bool := streq (pi_name p) name.

Lemma upto_at name i l x : l !! i = Some x -> upto name i l !! i = Some x.
Proof.
  intros H. unfold upto. pose proof (lookup_lt_Some _ _ _ H). rewrite lookup_app_r; rewrite length_fmap, length_take; [|lia].
  rewrite Nat.min_l by lia. by rewrite Nat.sub_diag, lookup_drop, Nat.add_0_r.
Qed.

Lemma upto_step name i l x : l !! i = Some x -> upto name (S i) l = <[i := inactivate name x]> (upto name i l).
Proof.
  intros H. unfold upto. pose proof (lookup_lt_Some _ _ _ H). rewrite (take_S_r _ _ _ H), (drop_S _ _ _ H), fmap_app, <- app_assoc.
  rewrite insert_app_r_alt; rewrite length_fmap, length_take; [|lia]. rewrite Nat.min_l by lia. by rewrite Nat.sub_diag.
Qed.

Lemma upto_all name s : reg_inv s -> peers (set_registry (upto name (registry_count s) (registry s)) s) = inactivate name <$> peers s.
Proof.
  intros H. unfold peers, upto. simpl. pose proof (peers_length s H) as Hl. unfold peers in Hl.
  rewrite take_app_le by (rewrite length_fmap; lia). apply take_ge. rewrite length_fmap. lia.
Qed.

Lemma inactivate_key name p : pi_key (inactivate name p) = pi_key p.
Proof. unfold inactivate. by case_cond. Qed.
Lemma inactivate_ok name p : peer_ok p -> peer_ok (inactivate name p).
Proof. unfold inactivate. by case_cond. Qed.

Lemma upto_length name i l : length (upto name i l) = length l.
Proof. unfold upto. rewrite length_app, length_fmap, length_take, length_drop. lia. Qed.

Lemma inactivated_inv name s : reg_inv s -> reg_inv (set_registry (upto name (registry_count s) (registry s)) s).
Proof.
  intros H. split; simpl; [apply H|by rewrite upto_length, (reg_len _ H)|apply H| |]; rewrite upto_all by done.
  - apply Forall_fmap. eapply Forall_impl; [apply H|]. intros p. apply inactivate_ok.
  - rewrite <- list_fmap_compose. rewrite (list_fmap_ext _ pi_key); [apply H|]. intros i p _. apply inactivate_key.
Qed.

Lemma named_exists name s : reg_inv s ->
  existsb (named name) (peers s) = bool_decide (map_Exists (fun _ p => pi_name p = name) (reg_view s)).
Proof.
  intros H. apply eq_true_iff_eq. rewrite bool_decide_eq_true, existsb_exists. split.
  - intros (p & Hp & Hn). apply list_elem_of_In, list_elem_of_lookup_1 in Hp as [i Hi]. exists (pi_key p), p.
    split; [by eapply view_some; [apply H|]|by apply streq_true].
  - intros (key & p & Hv & Hn). apply view_inv in Hv as [_ Hp]. exists p.
    split; [by apply list_elem_of_In|by apply streq_true].
Qed.

Lemma wp_inactive name k s : reg_ready s -> reg_call_ok (RInactive name) ->
  wp (peer_registry_mark_inactive (Some name)) (fun r => reg_post (RInactive name) k s (r, None)) k s.
Proof.
  intros Hs Hn. pose proof (reg_free _ Hs) as Hl. pose proof Hs as [Hinv Hi].
  unfold peer_registry_mark_inactive. apply wp_bind, wp_get. rewrite Hi. reduce_tests.
  enter Hl; [|apply wp_ret; apply reg_post_failed; [done|congruence]].
  apply wp_bind, wp_get, wp_bind. simpl registry_count.
  apply (wp_for_acc (fun i u k1 s1 => k1 = S k /\ u = existsb (named name) (take i (registry s)) /\
     s1 = set_registry (upto name i (registry s)) (set_registry_lock MHeld s))).
  - split; [done|]. split; [done|]. by destruct s.
  - intros i u ? ? Hlt (-> & Hu & ->). unfold mark_inactive_body. apply wp_bind, wp_get. cbv zeta.
    pose proof (peers_get s i Hinv ltac:(lia)) as Hg. pose proof Hg as Hr. rewrite peers_lookup in Hr by lia.
    set (p := registry s !!! i) in *. cbn [registry set_registry]. rewrite (list_lookup_total_correct _ _ _ (upto_at name _ _ _ Hr)).
    destruct (Forall_lookup_1 _ _ _ _ (reg_peers _ Hinv) Hg) as (_ & Hc & _). rewrite strcmp_eqb by done.
    rewrite (take_S_r _ _ _ Hr), existsb_app, (upto_step _ _ _ _ Hr). unfold inactivate, streq. cbn [existsb]. unfold named at 2, streq.
    apply wp_if; intros Hb; rewrite Hb.
    + apply wp_bind, wp_modify, wp_ret. split; [done|]. split; [by rewrite orb_true_r|done].
    + apply wp_ret. split; [done|]. split; [by rewrite !orb_false_r|]. by rewrite list_insert_id by by apply upto_at.
  - intros u ? ? (-> & -> & ->). leave. apply wp_ret. simpl.
    change (set_registry_lock MFree _) with (set_registry_lock MFree (set_registry (upto name (registry_count s) (registry s)) s)).
    assert (Hid : set_registry_lock MFree (set_registry (upto name (registry_count s) (registry s)) s)
      = set_registry (upto name (registry_count s) (registry s)) s) by (destruct s; simpl in *; by rewrite Hl).
    rewrite Hid. split; [split; [by apply inactivated_inv|done]|]. right. split; [done|]. exists (S k). split; [lia|].
    unfold reg_view. rewrite upto_all by done. rewrite (view_fmap _ _ (inactivate_key name)). simpl.
    fold (reg_view s) (peers s). by rewrite <- (named_exists name s Hinv).
Qed.
End Operations.

(** ** The JSON snapshot *)

Definition peer_json (p : PeerInfo) : json := JObj [
  (lit "name", JStr (pi_name p)); (lit "ip", JStr (pi_ip p)); (lit "port", JNum (pi_port p));
  (lit "active", JBool (pi_active p)); (lit "paired", JBool (pi_paired p)); (lit "last_seen", JNum (pi_last_seen p))].

(** The times stored are values of [time_t]. *)
Definition times_ok (s : RegistryState) : Prop := Forall (fun p => LONG_MIN <= pi_last_seen p <= LONG_MAX) (peers s).

Section Snapshot.
Context `{E : Env}.

Definition peer_tail (p : PeerInfo) : list fmt :=
  [Lit (jlit "','port':"); UInt (pi_port p);
   Lit (jlit ",'active':"); Str (if pi_active p then lit "true" else lit "false");
   Lit (jlit ",'paired':"); Str (if pi_paired p then lit "true" else lit "false");
   Lit (jlit ",'last_seen':"); Long (pi_last_seen p); Lit (lit "}")].

Lemma peer_tail_length p : peer_ok p -> LONG_MIN <= pi_last_seen p <= LONG_MAX -> (length (sprintf (peer_tail p)) <= 100)%nat.
Proof.
  intros ((_ & _ & Hp) & _) Ht. pose proof (show_long_length _ Ht). pose proof (show_nat_length (pi_port p) 5 ltac:(lia) ltac:(lia)).
  unfold sprintf, peer_tail. cbn [fmap list_fmap fmt_text mjoin list_join]. rewrite !length_app.
  destruct (pi_active p), (pi_paired p); simpl; lia.
Qed.

Lemma peer_text p : peer_ok p ->
  lit "{" ++ jlit "'name':'" ++ escape (pi_name p) ++ jlit "','ip':'" ++ escape (pi_ip p) ++ sprintf (peer_tail p) ++ [] = print (peer_json p).
Proof.
  intros ((_ & _ & Hp) & _). unfold peer_tail, peer_json. cbn [print map fst snd].
  rewrite (show_long_nat (pi_port p)) by lia.
  destruct (pi_active p), (pi_paired p); json_text.
Qed.

Lemma peer_json_length p : peer_ok p -> LONG_MIN <= pi_last_seen p <= LONG_MAX -> (length (print (peer_json p)) <= 2000)%nat.
Proof.
  intros Hp Ht. rewrite <- peer_text by done. pose proof (peer_tail_length p Hp Ht). destruct Hp as ((_ & Hi & _) & _ & Hn).
  pose proof (escape_length (pi_name p)). pose proof (escape_length (pi_ip p)).
  generalize dependent (sprintf (peer_tail p)). intros t Ht'. rewrite !length_app. simpl. lia.
Qed.

Lemma peer_pieces_adds p : peer_ok p -> LONG_MIN <= pi_last_seen p <= LONG_MAX ->
  Adds (all_ok (peer_pieces p)) (print (peer_json p)).
Proof.
  intros Hp Ht. rewrite <- peer_text by done. change (lit "{" ++ jlit "'name':'" ++ ?x) with (jlit "{'name':'" ++ x).
  unfold peer_pieces. repeat apply all_ok_cons_adds; try apply _. fold (peer_tail p). apply app_fmt_adds.
  pose proof (peer_tail_length p Hp Ht). unfold INT_MAX. lia.
Qed.

Definition element (s : RegistryState) (i : nat) : cstring := print (peer_json (registry s !!! i)).

Lemma elements_of s : reg_inv s -> element s <$> seq 0 (registry_count s) = map print (peer_json <$> peers s).
Proof.
  intros H. apply list_eq. intros i. rewrite list_lookup_fmap.
  change (map print (peer_json <$> peers s)) with (print <$> (peer_json <$> peers s)). rewrite !list_lookup_fmap.
  destruct (decide (i < registry_count s)%nat) as [Hi|Hi].
  - rewrite lookup_seq_lt by done. by rewrite (peers_get s i H Hi).
  - rewrite lookup_seq_ge by lia. rewrite (lookup_ge_None_2 (peers s)); [done|]. rewrite peers_length by done. lia.
Qed.

Lemma elements_length s n : reg_inv s -> times_ok s -> (n <= registry_count s)%nat ->
  (length (sep (element s <$> seq 0 n)) <= n * 2001)%nat.
Proof.
  intros H Ht. induction n as [|n IH]; intros Hn; [simpl; lia|]. rewrite sep_seq, !length_app.
  pose proof (peers_get s n H ltac:(lia)) as Hg.
  pose proof (peer_json_length _ (Forall_lookup_1 _ _ _ _ (reg_peers _ H) Hg) (Forall_lookup_1 _ _ _ _ Ht Hg)).
  unfold element at 2. assert (length (lead n) <= 1)%nat by (unfold lead; destruct (0 <? n)%nat; simpl; lia). lia.
Qed.

Definition snapshot_text (s : RegistryState) : cstring := print (JArr (peer_json <$> peers s)).

Lemma wp_snapshot k s (Q : Z * option cstring -> nat -> RegistryState -> Prop) :
  reg_ready s -> times_ok s ->
  (forall k', Q (0, Some (snapshot_text s)) k' s) ->
  (forall k', (exists j, env_lock j <> 0 \/ env_alloc j = false) -> Q (-1, None) k' s) ->
  wp (peer_registry_snapshot_json true) Q k s.
Proof.
  intros Hs Ht H0 H1. pose proof (reg_free _ Hs) as Hl. pose proof Hs as [Hinv Hi].
  set (n := registry_count s). pose proof (elements_length s n Hinv Ht ltac:(done)) as Hlen.
  assert (Hn : (n <= 50)%nat) by apply Hinv.
  unfold peer_registry_snapshot_json. apply wp_bind, wp_get. rewrite Hi. reduce_tests.
  enter Hl; [|apply wp_ret, H1; exists k; left; congruence].
  assert (Hfail : forall k', (exists j, env_alloc j = false) -> wp (pthread_unlock ;; ret (-1, None)) Q k' (set_registry_lock MHeld s)).
  { intros k' [j Hj]. leave. apply wp_ret. simpl. rewrite unlock_reg by done. apply H1. exists j. by right. }
  apply wp_bind, app_lit_adds; [apply buf_ok_empty|done| |].
  - intros k1 b1 Hg1. cbv beta iota. reduce_tests. apply wp_bind, wp_get, wp_bind. simpl registry_count. fold n.
    apply (wp_elements (element s)); [apply Hg1| | |].
    + unfold roomy. destruct Hg1 as (_ & -> & _). simpl. lia.
    + intros i b Q1 k2 Hin Hb Hr Hok Hbad. unfold snapshot_body. apply wp_bind, wp_get, wp_bind.
      pose proof (peers_get s i Hinv ltac:(lia)) as Hg.
      pose proof (peer_pieces_adds _ (Forall_lookup_1 _ _ _ _ (reg_peers _ Hinv) Hg) (Forall_lookup_1 _ _ _ _ Ht Hg)) as Hpieces.
      assert (Hlead : Adds (fun b => if (0 <? i)%nat then app_lit (lit ",") b else ret (0, b)) (lead i) (S := RegistryState)).
      { unfold lead. destruct (0 <? i)%nat; [apply app_lit_adds|apply all_ok_nil_adds]. }
      assert (Hfail' : forall k', (exists j, env_alloc j = false) ->
        wp (pthread_unlock ;; ret (inr (-1, None))) Q1 k' (set_registry_lock MHeld s)).
      { intros k' Hj. leave. apply wp_ret, Hbad, wp_ret. simpl. rewrite unlock_reg by done. apply H1.
        destruct Hj as [j Hj]. exists j. by right. }
      apply Hlead; [done|eapply roomy_weaken; [|exact Hr]; rewrite length_app; lia| |intros; by apply Hfail'].
      intros k3 b3 Hg3. cbv beta iota. reduce_tests. apply wp_bind, Hpieces; [apply Hg3|by eapply grown_roomy| |intros; by apply Hfail'].
      intros k4 b4 Hg4. apply wp_ret, Hok. by eapply grown_trans.
    + intros k2 b2 Hg2. leave. cbn [set_mutex registry_mutex]. rewrite unlock_reg by done.
      pose proof (grown_trans _ _ _ _ _ Hg1 Hg2) as Hg. apply wp_bind, app_lit_adds; [apply Hg| | |].
      * unfold roomy. destruct Hg as (_ & -> & _). rewrite !length_app. simpl. lia.
      * intros k3 b3 Hg3. cbv beta iota. reduce_tests. apply wp_ret.
        destruct (grown_trans _ _ _ _ _ Hg Hg3) as (Hb & Hc & Hnn).
        assert (Hj : jb_buffer b3 = Some (snapshot_text s)); [|by rewrite Hj].
        unfold contents in Hc. destruct (jb_buffer b3) as [t|]; [|by destruct (Hnn eq_refl)].
        simpl in Hc. subst t. unfold snapshot_text, n. cbn [print]. by rewrite <- elements_of.
      * intros k3 b3 [j Hj] _. apply wp_ret, H1. exists j. by right.
  - intros k1 b1 Hj Hb. by apply Hfail.
Qed.
End Snapshot.

Section RegistryTheorems.
Context (E : Env).

Lemma wp_reg_run c k s : reg_ready s -> reg_call_ok c -> wp (reg_run c) (fun r k' s' => reg_post c k s r k' s') k s.
Proof.
  intros Hs Hc.
  destruct c; simpl reg_run.
  - apply wp_bind. eapply wp_mono; [by apply wp_add|]. intros v k1 s1 H. by apply wp_ret.
  - apply wp_bind. eapply wp_mono; [by apply wp_inactive|]. intros v k1 s1 H. by apply wp_ret.
  - apply wp_bind. eapply wp_mono; [by apply wp_paired|]. intros v k1 s1 H. by apply wp_ret.
  - eapply wp_mono; [by apply wp_find_peer|]. by intros v k1 s1 [_ H].
Qed.

(** C19: the registry is a finite map of at most fifty endpoints.  Every call
    either could not take the lock, reports failure and changes nothing, or
    returns what the map operation returns and leaves the map it leaves.  In
    particular an announced peer keeps the paired flag it had, a new one
    starts unpaired, a peer is never entered twice and a full table refuses
    new peers but still refreshes known ones.  The table stays well formed
    with its lock released. *)
Theorem registry_refines_map c k s r k' s' :
  reg_ready s -> reg_call_ok c -> reg_run c k s = (r, (k', s')) ->
  reg_ready s' /\
  ((env_lock k <> 0 /\ r = (-1, None) /\ s' = s) \/
   (env_lock k = 0 /\ exists j, (k <= j <= k')%nat /\ (r, reg_view s') = registry_spec (env_clock j) c (reg_view s))).
Proof.
  intros Hs Hc He. exact (wp_use (reg_run c) (fun r k' s' => reg_post c k s r k' s') k s r k' s' (wp_reg_run c k s Hs Hc) He).
Qed.

(** C28: the peers endpoint emits well-formed JSON that says what the registry
    holds.  The call succeeds unless the lock or memory is refused; on
    success its text reads back, with a JSON reader, as the array of the
    registered peers in order, whatever bytes their names contain; the
    registry is unchanged and unlocked either way. *)
Theorem snapshot_json_correct k s r out k' s' :
  reg_ready s -> times_ok s -> peer_registry_snapshot_json true k s = ((r, out), (k', s')) ->
  s' = s /\
  (r = 0 -> exists text, out = Some text /\ parse text = Some (JArr (peer_json <$> peers s))) /\
  (r <> 0 -> out = None /\ exists j, env_lock j <> 0 \/ env_alloc j = false).
Proof.
  intros Hs Ht. to_wp. cbn [fst snd]. apply wp_snapshot; [done..| |].
  - intros k1. split; [done|]. split; [|done]. intros _. eexists. split; [done|]. apply parse_print.
  - intros k1 Hj. split; [done|]. split; [done|]. by split.
Qed.
End RegistryTheorems.

(** ** Examples *)

Import Sample.

Definition reg_off (s : RegistryState) : Prop := registry_initialized s = false /\ registry_lock s = MUninit.

Lemma wp_registry_init `{E : Env} k :
  wp peer_registry_init (fun r _ s' => (r = 0 -> reg_ready s' /\ reg_view s' = ∅) /\ (r <> 0 -> reg_off s')) k registry_boot.
Proof.
  unfold peer_registry_init. apply wp_bind, wp_get. simpl registry_initialized. cbv iota.
  do 2 (apply wp_bind, wp_modify). apply wp_bind. unfold pthread_init. apply wp_bind, wp_ask, wp_if; intros Hi.
  - apply wp_bind, wp_modify, wp_ret. rewrite Hi. reduce_tests. apply wp_bind, wp_modify, wp_ret. split; [|done]. intros _.
    split; [|done]. split; [|done]. split; simpl; try done; [lia|constructor].
  - apply wp_ret. rewrite Hi. apply wp_ret. by split.
Qed.

Lemma registry_init_ready `{E : Env} k k' s' :
  peer_registry_init k registry_boot = (0, (k', s')) -> reg_ready s' /\ reg_view s' = ∅.
Proof. intros He. by apply (wp_use _ _ _ _ _ _ _ (wp_registry_init k) He). Qed.

Definition reg0 : RegistryState := final peer_registry_init 0%nat registry_boot.
Definition found : reg_call := RAdd (jlit "the 'desk'") (lit "10.0.0.9") 8080.
Definition reg1 : RegistryState := final (reg_run found) 5%nat reg0.

Lemma found_ok : reg_call_ok found.
Proof. repeat split; try lia; try (vm_compute; lia); apply (bool_decide_eq_true_1 _); vm_compute; reflexivity. Qed.

Lemma reg0_ready : reg_ready reg0.
Proof. apply (registry_init_ready 0%nat (tick peer_registry_init 0%nat registry_boot)). vm_compute. reflexivity. Qed.

Lemma reg1_ready : reg_ready reg1.
Proof.
  unfold reg1, found. refine (proj1 (wp_use (reg_run found) (reg_post found 5%nat reg0) _ _ _ _ _ _ (run_eta _ _ _))).
  apply wp_bind. eapply wp_mono; [apply wp_add; [apply reg0_ready|apply found_ok]|]. intros. by apply wp_ret.
Qed.

Lemma registry_refines_map_witness :
  reg_view reg1 !! (lit "10.0.0.9", 8080) = Some (discovered (jlit "the 'desk'") (lit "10.0.0.9") 8080 (start + 6)) /\
  reg_ready reg1.
Proof.
  split; [vm_compute; reflexivity|].
  apply (registry_refines_map env found 5%nat reg0 _ _ _ reg0_ready found_ok (run_eta _ _ _)).
Defined.

Lemma snapshot_json_witness :
  exists text, snd (result (peer_registry_snapshot_json true) 9%nat reg1) = Some text /\
    parse text = Some (JArr [peer_json (discovered (jlit "the 'desk'") (lit "10.0.0.9") 8080 (start + 6))]).
Proof.
  destruct (snapshot_json_correct env 9%nat reg1 _ _ _ _ reg1_ready
    ltac:(apply Forall_singleton; vm_compute; split; discriminate) (run_eta2 _ _ _)) as (_ & H & _).
  apply H. vm_compute. reflexivity.
Defined.
