(* ===== verification/AuthLife.v ===== *)
(** * AuthLife: start-up, every call together, and round trips

    [auth_init] establishes the invariant of AuthSpec.v, every sequence of
    calls keeps it, and what one call hands out the next ones accept. *)

From stdpp Require Import base numbers list strings gmap.
From Stdlib Require Import ZArith Lia Ascii.
From S2P Require Import Prelude Effects CLib Crypto Auth AuthSpec AuthTokens AuthLimiter.

(** ** The calls of the server *)

Inductive auth_call :=
| ACreateSession (ip code : cstring)
| AValidateSession (ip token : cstring)
| APairingCode (size : nat)
| AAdminCode (size : nat)
| AIssue (ip : cstring) (name : option cstring) (port : Z) (code : cstring)
| AStore (ip : cstring) (port : Z) (name : option cstring) (token : cstring) (expires : Z)
| AGet (ip : cstring) (port : Z)
| AValidate (ip token : cstring)
| ALimit (ip scope : cstring) (limit window : Z) (message : option nat).

Definition ip_ok (ip : cstring) : Prop := c_string ip /\ (length ip <= 45)%nat.

Definition auth_call_ok (c : auth_call) : Prop :=
  match c with
  | ACreateSession ip code => ip_ok ip /\ c_string code
  | AValidateSession ip token | AValidate ip token => ip_ok ip /\ c_string token
  | APairingCode size | AAdminCode size => (7 <= size)%nat
  | AIssue ip _ _ code => ip_ok ip /\ c_string code
  | AStore ip _ _ token _ => ip_ok ip /\ c_string token
  | AGet ip _ => ip_ok ip
  | ALimit ip scope limit window _ =>
      ip_ok ip /\ c_string scope /\ (length scope <= 31)%nat /\ 0 < limit <= 2 ^ 32 - 1 /\ 0 < window
  end.

(** The call; its result is not kept. *)
Definition auth_do `{E : Env} (c : auth_call) : M AuthState unit :=
  match c with
  | ACreateSession ip code => _ <- auth_create_ui_session (Some ip) (Some code) (Some 65%nat) ;; ret tt
  | AValidateSession ip token => _ <- auth_validate_ui_session (Some ip) (Some token) ;; ret tt
  | APairingCode size => _ <- auth_get_pairing_code (Some size) true ;; ret tt
  | AAdminCode size => _ <- auth_get_admin_code (Some size) ;; ret tt
  | AIssue ip name port code => _ <- auth_issue_pair_token (Some ip) name port (Some code) (Some 65%nat) true ;; ret tt
  | AStore ip port name token e => _ <- auth_store_peer_token (Some ip) port name (Some token) e ;; ret tt
  | AGet ip port => _ <- auth_get_peer_token (Some ip) port (Some 65%nat) ;; ret tt
  | AValidate ip token => _ <- auth_validate_peer_token (Some ip) (Some token) ;; ret tt
  | ALimit ip scope limit window message => _ <- auth_rate_limit_allow (Some ip) (Some scope) limit window message ;; ret tt
  end.

(** One call, at any time; the calls are serialised by the mutex. *)
Inductive auth_step `{E : Env} (s s' : AuthState) : Prop :=
| AuthStep c k k' : auth_call_ok c -> auth_do c k s = (tt, (k', s')) -> auth_step s s'.

(** What holds between calls. *)
Definition auth_good (s : AuthState) : Prop := auth_ready s /\ pt_unique s /\ rl_unique s.

(** The parts of the state a call did not touch. *)
Definition keeps_codes (s s' : AuthState) : Prop := admin_code s' = admin_code s.

Section Life.
Context `{E : Env} {R : RandOk E}.
Implicit Types (k : nat) (s : AuthState).

Definition kept s s' : Prop := auth_good s' /\ keeps_codes s s'.

Lemma kept_refl s : auth_good s -> kept s s.
Proof. by split. Qed.

Lemma ui_scan_kept ip tok k s r k' s' : auth_good s -> ui_scan ip tok k s r k' s' -> kept s s'.
Proof.
  intros (Hs & Hp & Hr) Hsc. pose proof (ui_scan_ready _ _ _ _ _ _ _ Hs Hsc). destruct Hsc as (_ & l & -> & _). done.
Qed.

Lemma pt_scan_kept {A} m (f : _ -> A) k s r k' s' : auth_good s -> pt_scan m f k s r k' s' -> kept s s'.
Proof.
  intros (Hs & Hp & Hr) Hsc. pose proof (pt_scan_ready _ _ _ _ _ _ _ Hs Hsc). destruct Hsc as (_ & l & -> & Hf & _).
  split; [|done]. split; [done|]. split; [|done]. simpl in *.
  assert (Hback : forall i a, l !! i = Some a -> pt_active a = true -> peer_tokens s !! i = Some a).
  { intros i a Ha Hact. destruct (Forall2_lookup_r _ _ _ _ _ Hf Ha) as (b & Hb & Hsw).
    destruct Hsw as [->|(_ & -> & _)]; done. }
  intros i j a b Ha Hb Haa Hba. apply (Hp i j a b); auto.
Qed.

Lemma upserted_kept s ip port name tok e s' :
  auth_good s -> ip_ok ip -> c_string tok -> upserted s ip port name tok e s' -> kept s s'.
Proof.
  intros (Hs & Hp & Hr) [Hi Hl] Ht Hu. split; [|by destruct Hu as (? & ? & _ & _ & ->)].
  split; [by eapply (upserted_ready s ip)|]. split; [by eapply upserted_unique|]. by destruct Hu as (? & ? & _ & _ & ->).
Qed.

Lemma refreshed_kept s k s' : auth_good s -> pairing_refreshed s k s' -> kept s s'.
Proof.
  intros (Hs & Hp & Hr) Hpr. pose proof (pairing_refreshed_facts _ _ _ Hpr (proj1 Hs) (proj2 Hs)) as (_ & _ & H1 & _ & H2 & H3 & _).
  split; [|done]. split; [by eapply pairing_refreshed_ready|]. unfold pt_unique, rl_unique. by rewrite H1, H2.
Qed.

(** What [auth_get_pairing_code] returns is the code in force. *)
Lemma wp_pairing_code size (exp : bool) (Q : Z * option cstring * option Z -> nat -> AuthState -> Prop) k s :
  auth_ready s -> (7 <= size)%nat ->
  (forall k', Q (-1, None, None) k' s) ->
  (forall k' s', pairing_refreshed s (S k) s' ->
     Q (0, Some (pairing_code s'), if exp then Some (pairing_code_expires_at s') else None) k' s') ->
  wp (auth_get_pairing_code (Some size) exp) Q k s.
Proof.
  intros Hs Hsz H1 H0. pose proof (ready_lock _ Hs) as Hl. pose proof Hs as [Hinv Hi].
  unfold auth_get_pairing_code. apply wp_bind, wp_get. rewrite Hi. destruct (Nat.eqb_spec size 0); [lia|]. reduce_tests.
  enter Hl; [|apply wp_ret, H1]. apply wp_bind, wp_ensure_pairing.
  2:{ intros k1 Hk1. apply wp_bind, wp_get. leave. simpl. rewrite unlock_id by done. apply wp_ret, H1. }
  intros k1 s1 Hk1 Hp. apply wp_bind, wp_get.
  assert (Hu : pairing_refreshed s (S k) (set_auth_lock MFree s1)).
  { apply (pairing_refreshed_lock _ _ _ MFree) in Hp. simpl in Hp. by rewrite unlock_id in Hp. }
  assert (Hs1 : auth_lock s1 = MHeld) by (destruct Hp as [[-> _]|(c & _ & _ & ->)]; done).
  apply wp_bind, wp_unlock; [done|]. reduce_tests. apply wp_ret.
  pose proof (pairing_refreshed_facts _ _ _ Hu Hinv Hi) as ([Hlen _] & _).
  simpl in Hlen. rewrite copy_string_fits by lia. by apply (H0 _ (set_auth_lock MFree s1)).
Qed.

Lemma wp_admin_code size (Q : Z * option cstring -> nat -> AuthState -> Prop) k s :
  auth_ready s -> (7 <= size)%nat ->
  (env_lock k <> 0 -> Q (-1, None) (S k) s) -> (env_lock k = 0 -> Q (0, Some (admin_code s)) (S k) s) ->
  wp (auth_get_admin_code (Some size)) Q k s.
Proof.
  intros Hs Hsz H1 H0. pose proof (ready_lock _ Hs) as Hl. pose proof Hs as [Hinv Hi].
  unfold auth_get_admin_code. apply wp_bind, wp_get. rewrite Hi. destruct (Nat.eqb_spec size 0); [lia|]. reduce_tests.
  enter Hl; [|apply wp_ret, H1; congruence]. apply wp_bind, wp_get. leave. simpl. rewrite unlock_id by done.
  apply wp_ret. destruct (proj1 (inv_codes _ Hinv Hi)) as [Hlen _]. rewrite copy_string_fits by lia. auto.
Qed.

(** An empty token is refused before anything else. *)
Lemma validate_empty ip k s : auth_initialized s = true ->
  auth_validate_ui_session (Some ip) (Some []) k s = (-1, (k, s)) /\
  auth_validate_peer_token (Some ip) (Some []) k s = (-1, (k, s)).
Proof.
  intros Hi. unfold auth_validate_ui_session, auth_validate_peer_token, bind, get.
  rewrite Hi, bool_decide_true by done. done.
Qed.

(** Every call keeps the invariant and the admin code. *)
Lemma wp_auth_do c k s : auth_good s -> auth_call_ok c -> wp (auth_do c) (fun _ _ s' => kept s s') k s.
Proof.
  intros Hg Hc. pose proof Hg as (Hs & Hpt & Hrl). pose proof (kept_refl s Hg) as Hk.
  destruct c as [ip code|ip tok|size|size|ip name port code|ip port name tok e|ip port|ip tok|ip scope limit w msg]; simpl in *; apply wp_bind.
  - destruct Hc as [[Hi Hl] Hcode]. apply wp_create_ui; [done..|lia|intros; by apply wp_ret|].
    intros k1 tok s1 _ _ Hop. apply wp_ret. pose proof (session_opened_ready _ _ _ _ _ _ Hs Hi Hop).
    by destruct Hop as (? & ? & ? & _ & _ & _ & _ & ->).
  - destruct Hc as [[Hi Hl] Htok]. destruct tok as [|x tok].
    + unfold wp. by rewrite (proj1 (validate_empty ip k s (proj2 Hs))).
    + apply wp_validate_ui; [done..|intros; by apply wp_ret|]. intros r k1 s1 _ Hsc. by eapply wp_ret, ui_scan_kept.
  - apply wp_pairing_code; [done|lia|intros; by apply wp_ret|]. intros k1 s1 Hp. by eapply wp_ret, refreshed_kept.
  - apply wp_admin_code; [done|lia|intros; by apply wp_ret..].
  - destruct Hc as [[Hi Hl] Hcode]. apply wp_issue; [done..|lia| |].
    + intros k1 s1 [->|Hp]; apply wp_ret; [done|by eapply refreshed_kept].
    + intros k1 tok e s1 _ (s0 & j & Hp & _ & Htok & _ & _ & Hup). apply wp_ret.
      destruct (refreshed_kept _ _ _ Hg Hp) as [Hg0 Hk0].
      destruct (upserted_kept _ _ _ _ _ _ _ Hg0 (conj Hi Hl) (hex_c_string _ _ Htok) Hup) as [Hg1 Hk1].
      split; [done|]. unfold keeps_codes in *. congruence.
  - destruct Hc as [[Hi Hl] Htok]. apply wp_store; [done..|intros; by apply wp_ret|].
    intros s1 Hup. by eapply wp_ret, (upserted_kept s ip).
  - destruct Hc as [Hi Hl]. apply wp_get_peer_token; [done|lia|intros; by apply wp_ret|].
    intros r k1 s1 _ Hsc. by eapply wp_ret, pt_scan_kept.
  - destruct Hc as [[Hi Hl] Htok]. destruct tok as [|x tok].
    + unfold wp. by rewrite (proj2 (validate_empty ip k s (proj2 Hs))).
    + apply wp_validate_peer; [done..|intros; by apply wp_ret|]. intros r k1 s1 _ Hsc. by eapply wp_ret, pt_scan_kept.
  - destruct Hc as ([Hi Hl] & Hsc & Hsl & Hlim & Hw). apply wp_limiter; [done..|lia|done|intros; by apply wp_ret|].
    intros v m s1 _ Hv. apply wp_ret.
    split; [split; [eapply limiter_ready; try exact Hv; try done; lia|]|by destruct Hv].
    split; [by destruct Hv|by eapply limiter_unique].
Qed.

Lemma wp_auth_init `{!ClockMono E} k :
  wp auth_init (fun r _ s' =>
    (r = 0 -> auth_good s' /\ env_clock k + PAIRING_CODE_TTL_SECONDS <= pairing_code_expires_at s' /\
       (forall t ip tok, ~ session_valid s' t ip tok) /\ (forall t ip tok, ~ peer_token_valid s' t ip tok) /\
       (forall t w key, rl_none s' t w key) /\
       forall k2, auth_init k2 s' = (0, (k2, s'))) /\
    (r <> 0 -> r = -1 /\ auth_initialized s' = false /\ auth_lock s' = MUninit)) k auth_boot.
Proof.
  unfold auth_init. apply wp_bind, wp_get. simpl auth_initialized. cbv iota.
  apply wp_bind. unfold pthread_init. apply wp_bind, wp_ask, wp_if; intros Hi.
  2:{ apply wp_ret. rewrite Hi. by apply wp_ret. }
  apply wp_bind, wp_modify, wp_ret. rewrite Hi. reduce_tests. do 3 (apply wp_bind, wp_modify).
  apply wp_bind, wp_random_code; [|intros k1 Hk1; reduce_tests; by apply wp_bind, wp_modify, wp_ret].
  intros k1 admin Hk1 Ha _. reduce_tests. apply wp_bind, wp_modify.
  apply wp_bind, wp_random_code; [|intros k2 Hk2; reduce_tests; by apply wp_bind, wp_modify, wp_ret].
  intros k2 pair Hk2 Hp _. reduce_tests.
  apply wp_bind, wp_modify, wp_bind, wp_ask, wp_bind, wp_modify, wp_bind, wp_modify, wp_ret.
  assert (Hempty : forall {T} (x r : T) (n i : nat), replicate n x !! i = Some r -> r = x).
  { intros T x r0 n i. rewrite lookup_replicate. by intros [-> _]. }
  split; [|done]. intros _. split; [|split; [|split; [|split; [|split]]]].
  - split; [split; [|done]|split].
    + destruct auth_boot_inv. by split.
    + intros i j a b Ha' _ Hact. change (replicate MAX_PEER_TOKENS inhabitant !! i = Some a) in Ha'.
      by rewrite (Hempty _ _ _ _ _ Ha') in Hact.
    + intros i j a b Ha' _ Hact. change (replicate MAX_RATE_LIMITS inhabitant !! i = Some a) in Ha'.
      by rewrite (Hempty _ _ _ _ _ Ha') in Hact.
  - simpl. pose proof (clock_mono k k2). lia.
  - intros t ip tok (i & x & Hx & [Hact _] & _). change (replicate MAX_UI_SESSIONS inhabitant !! i = Some x) in Hx.
    by rewrite (Hempty _ _ _ _ _ Hx) in Hact.
  - intros t ip tok (i & x & Hx & [Hact _] & _). change (replicate MAX_PEER_TOKENS inhabitant !! i = Some x) in Hx.
    by rewrite (Hempty _ _ _ _ _ Hx) in Hact.
  - intros t w key c st (i & x & Hx & [Hact _] & _). change (replicate MAX_RATE_LIMITS inhabitant !! i = Some x) in Hx.
    by rewrite (Hempty _ _ _ _ _ Hx) in Hact.
  - done.
Qed.
End Life.

(** ** Theorems *)

Section LifeTheorems.
Context (E : Env) (R : RandOk E) (C : ClockMono E).
Implicit Types (k : nat) (s : AuthState).

(** Start-up.  On success the module runs with two fresh six-digit codes,
    the pairing code in force for five minutes, no session and no peer token
    accepted and no request counted.  On failure it is not running and its
    mutex is not left initialised.  Calling it again changes nothing. *)
Theorem auth_init_correct k r k' s' :
  auth_init k auth_boot = (r, (k', s')) ->
  (r = 0 -> auth_good s' /\ env_clock k + PAIRING_CODE_TTL_SECONDS <= pairing_code_expires_at s' /\
     (forall t ip tok, ~ session_valid s' t ip tok) /\ (forall t ip tok, ~ peer_token_valid s' t ip tok) /\
     (forall t w key, rl_none s' t w key) /\
     forall k2, auth_init k2 s' = (0, (k2, s'))) /\
  (r <> 0 -> r = -1 /\ auth_initialized s' = false /\ auth_lock s' = MUninit).
Proof.
  intros He. by apply (wp_use _ _ _ _ _ _ _ (wp_auth_init k) He).
Qed.

(** C27: the authentication tables never go wrong.  Whatever calls are made in
    whatever order after a successful start, the tables keep their sizes and
    hold NUL-terminated texts, the mutex is free between calls, an endpoint
    has at most one token and a (client, scope) pair at most one counter, both
    codes have six digits, and the admin code is the one of start-up. *)
Theorem auth_reachable_good k k0 s0 s :
  auth_init k auth_boot = (0, (k0, s0)) -> rtc auth_step s0 s ->
  auth_good s /\ admin_code s = admin_code s0.
Proof.
  intros Hinit Hsteps.
  assert (Hg : auth_good s0).
  { by apply (wp_use _ _ _ _ _ _ _ (wp_auth_init k) Hinit). }
  clear Hinit. revert Hg. induction Hsteps as [s|s s1 s2 [c k1 k2 Hc Hdo] Hrest IH]; intros Hg; [by split|].
  destruct (wp_use _ _ _ _ _ _ _ (wp_auth_do c k1 s Hg Hc) Hdo) as [Hg1 Hk1].
  destruct (IH Hg1) as [Hg2 Hk2]. split; [done|]. unfold keeps_codes in Hk1. congruence.
Qed.

(** C34: the pairing code rotates.  A successful call returns the code in
    force and its expiry, which lies in the future and at most five minutes
    after a renewal; a code still in force is returned unchanged, an expired
    one is replaced.  Nothing else of the state changes, and a failing call
    changes nothing. *)
Theorem pairing_code_correct size k s r out exp k' s' :
  auth_ready s -> (7 <= size)%nat ->
  auth_get_pairing_code (Some size) true k s = ((r, out, exp), (k', s')) ->
  auth_ready s' /\
  ui_sessions s' = ui_sessions s /\ peer_tokens s' = peer_tokens s /\ rate_limits s' = rate_limits s /\
  (r <> 0 -> s' = s /\ out = None /\ exp = None) /\
  (r = 0 -> out = Some (pairing_code s') /\ exp = Some (pairing_code_expires_at s') /\
     numeric_code 6 (pairing_code s') /\ env_clock (S k) < pairing_code_expires_at s' /\
     (env_clock (S k) < pairing_code_expires_at s -> s' = s) /\
     (pairing_code_expires_at s <= env_clock (S k) ->
        pairing_code_expires_at s' = env_clock (S k) + 5 * 60)).
Proof.
  intros Hs Hsz. to_wp. cbn [fst snd]. apply wp_pairing_code; [done..| |].
  - intros k1. by split.
  - intros k1 s1 Hp. cbn [fst snd].
    pose proof (pairing_refreshed_facts _ _ _ Hp (proj1 Hs) (proj2 Hs)) as (H1 & H2 & H3 & H4 & H5 & _).
    split; [by eapply pairing_refreshed_ready|]. do 3 (split; [done|]). split; [done|]. intros _. do 4 (split; [done|]).
    destruct Hp as [[-> Hc]|(c & _ & Hexp & ->)].
    + split; [done|lia].
    + split; [|done]. destruct Hexp as [Hexp|Hnil]; [lia|]. intros _. exfalso.
      destruct (inv_codes _ (proj1 Hs) (proj2 Hs)) as [_ [Hlen _]]. by rewrite Hnil in Hlen.
Qed.

(** Pairing, then sending.  The token [auth_issue_pair_token] returned for
    an endpoint is accepted from that address by a later
    [auth_validate_peer_token], as long as less than a week has passed since
    the call and the mutex can be taken. *)
Theorem issued_token_validates ip port name code size k s tok e k1 s1 k2 r k3 s3 :
  auth_ready s -> c_string ip -> (length ip <= 45)%nat -> c_string code -> (65 <= size)%nat ->
  auth_issue_pair_token (Some ip) name port (Some code) (Some size) true k s = ((0, Some tok, Some e), (k1, s1)) ->
  env_lock k2 = 0 -> auth_validate_peer_token (Some ip) (Some tok) k2 s1 = (r, (k3, s3)) ->
  env_clock k3 < env_clock k + 7 * 24 * 60 * 60 -> r = 0.
Proof.
  intros Hs Hip Hlen Hcode Hsz Hissue Hlk Hval Hend.
  assert (H : auth_ready s1 /\ hex_token 64 tok /\ peer_token_valid s1 (env_clock k3) ip tok).
  { refine (wp_use _ (fun x k1 s1 => x = (0, Some tok, Some e) -> auth_ready s1 /\ hex_token 64 tok /\
      peer_token_valid s1 (env_clock k3) ip tok) _ _ _ _ _ _ Hissue eq_refl).
    apply wp_issue; [done..|by intros|]. intros k4 tok' e' s4 _ (s0 & j & Hp & _ & Htok & Hj & He & Hup) [= <- <-].
    split; [eapply (upserted_ready s0 ip); [by eapply pairing_refreshed_ready|done|by eapply hex_c_string|done]|].
    split; [done|]. eapply peer_token_at_valid.
    - pose proof (upserted_at _ _ _ _ _ _ _ Hlen Hup) as Hat. rewrite take_ge in Hat by (destruct Htok as [-> _]; lia). exact Hat.
    - pose proof (clock_mono k j). lia. }
  destruct H as (Hs1 & Htok & Hv). assert (Hne : tok <> []) by (intros ->; by destruct Htok).
  refine (wp_use _ (fun r k3 _ => peer_token_valid s1 (env_clock k3) ip tok -> r = 0) _ _ _ _ _ _ Hval Hv).
  apply wp_validate_peer; [done..| |].
  - done.
  - intros v k4 s4 _ Hsc. by apply (pt_scan_result ip tok (S k2) s1 v k4 s4 (proj1 Hs1) Hip (hex_c_string _ _ Htok) Hsc).
Qed.
End LifeTheorems.
