(* ===== verification/AuthExamples.v ===== *)
(** * AuthExamples: the authentication theorems at concrete inputs

    A start-up in the environment of [Sample], a client that unlocks the
    interface, and a peer that pairs. *)

From stdpp Require Import base numbers list strings gmap.
From Stdlib Require Import ZArith Lia Ascii.
From S2P Require Import Prelude Effects CLib Crypto Auth AuthSpec AuthTokens AuthLimiter AuthLife.

Import Sample.

Definition auth0 : AuthState := final auth_init 0%nat auth_boot.
Definition client : cstring := lit "192.168.0.20".
Definition peer : cstring := lit "192.168.0.31".

Ltac c_text := by apply (bool_decide_eq_true_1 _); vm_compute.

Lemma client_ok : ip_ok client /\ ip_ok peer.
Proof. repeat split; try c_text; vm_compute; lia. Qed.

Lemma auth0_run : auth_init 0%nat auth_boot = (0, (tick auth_init 0%nat auth_boot, auth0)).
Proof. vm_compute. reflexivity. Qed.

Lemma auth0_good : auth_good auth0.
Proof. by apply (wp_use _ _ _ _ _ _ _ (wp_auth_init 0%nat) auth0_run). Qed.

Lemma admin0_c : c_string (admin_code auth0).
Proof. c_text. Qed.
Lemma pairing0_c : c_string (pairing_code auth0).
Proof. c_text. Qed.

Lemma good_after c k s : auth_good s -> auth_call_ok c -> auth_good (final (auth_do c) k s).
Proof. intros Hg Hc. by apply (wp_use _ _ _ _ _ _ _ (wp_auth_do c k s Hg Hc) (run_eta _ _ _)). Qed.

(** The client unlocks the interface; the peer pairs. *)
Definition unlock : auth_call := ACreateSession client (admin_code auth0).
Definition auth1 : AuthState := final (auth_do unlock) 9%nat auth0.
Definition session1 : cstring := us_token (ui_sessions auth1 !!! 0%nat).
Definition pair : auth_call := AIssue peer None 8080 (pairing_code auth0).
Definition auth2 : AuthState := final (auth_do pair) 30%nat auth1.
Definition token2 : cstring := pt_token (peer_tokens auth2 !!! 0%nat).

Definition expires2 : Z := pt_expires_at (peer_tokens auth2 !!! 0%nat).

Lemma auth1_good : auth_good auth1.
Proof. apply good_after; [apply auth0_good|]. split; [apply client_ok|apply admin0_c]. Qed.
Lemma auth2_good : auth_good auth2.
Proof. apply good_after; [apply auth1_good|]. split; [apply client_ok|apply pairing0_c]. Qed.

Lemma client_c : c_string client. Proof. c_text. Qed.
Lemma peer_c : c_string peer. Proof. c_text. Qed.
Lemma session1_c : c_string session1. Proof. c_text. Qed.
Lemma token2_c : c_string token2. Proof. c_text. Qed.

Lemma validate_ui_session_witness :
  result (auth_validate_ui_session (Some client) (Some session1)) 20%nat auth1 = 0 /\
  session_valid auth1 (start + 20) client session1.
Proof.
  assert (H : result (auth_validate_ui_session (Some client) (Some session1)) 20%nat auth1 = 0) by (vm_compute; reflexivity).
  split; [exact H|].
  destruct (validate_ui_session_correct env clock_ok client session1 20%nat auth1 _ _ _
    (proj1 auth1_good) client_c session1_c ltac:(vm_compute; discriminate) (run_eta _ _ _)) as (_ & Hv & _).
  exact (Hv H).
Defined.

Lemma create_ui_session_witness :
  fst (result (auth_create_ui_session (Some client) (Some (admin_code auth0)) (Some 65%nat)) 9%nat auth0) = 0 /\
  exists tok, session_valid (final (auth_create_ui_session (Some client) (Some (admin_code auth0)) (Some 65%nat)) 9%nat auth0)
    (start + 1000) client tok.
Proof.
  assert (H : fst (result (auth_create_ui_session (Some client) (Some (admin_code auth0)) (Some 65%nat)) 9%nat auth0) = 0)
    by (vm_compute; reflexivity).
  split; [exact H|].
  destruct (create_ui_session_correct env rand_ok clock_ok client (admin_code auth0) 65 9%nat auth0 _ _ _ _
    (proj1 auth0_good) client_c admin0_c ltac:(vm_compute; lia) ltac:(lia) (run_eta2 _ _ _)) as (_ & _ & Hv).
  destruct (Hv H) as (_ & tok & _ & _ & Hvalid & _). exists tok. apply Hvalid. vm_compute. reflexivity.
Defined.

Lemma validate_peer_token_witness :
  result (auth_validate_peer_token (Some peer) (Some token2)) 60%nat auth2 = 0 /\
  peer_token_valid auth2 (start + 60) peer token2.
Proof.
  assert (H : result (auth_validate_peer_token (Some peer) (Some token2)) 60%nat auth2 = 0) by (vm_compute; reflexivity).
  split; [exact H|].
  destruct (validate_peer_token_correct env clock_ok peer token2 60%nat auth2 _ _ _
    (proj1 auth2_good) peer_c token2_c ltac:(vm_compute; discriminate) (run_eta _ _ _)) as (_ & Hv & _).
  exact (Hv H).
Defined.

Definition issue := auth_issue_pair_token (Some peer) None 8080 (Some (pairing_code auth0)) (Some 65%nat) true.

Lemma issue_run : issue 30%nat auth1 = ((0, Some token2, Some expires2), (tick issue 30%nat auth1, auth2)).
Proof. vm_compute. reflexivity. Qed.

Lemma issue_pair_token_witness : peer_token_at auth2 peer 8080 token2 expires2.
Proof.
  destruct (issue_pair_token_correct env rand_ok clock_ok peer 8080 None (pairing_code auth0) 65 30%nat auth1 _ _ _ _ _
    (proj1 auth1_good) (proj1 (proj2 auth1_good)) peer_c ltac:(vm_compute; lia) pairing0_c ltac:(lia) issue_run) as (_ & _ & _ & Hv).
  destruct (Hv eq_refl) as (tok & e & [= <-] & [= <-] & _ & _ & _ & Hat & _). exact Hat.
Defined.

Lemma store_peer_token_witness :
  peer_token_at (final (auth_store_peer_token (Some client) 9000 None (Some token2) (start + 500)) 40%nat auth2)
    client 9000 token2 (start + 500).
Proof.
  destruct (store_peer_token_correct env client 9000 None token2 (start + 500) 40%nat auth2 _ _ _
    (proj1 auth2_good) (proj1 (proj2 auth2_good)) client_c ltac:(vm_compute; lia) token2_c ltac:(vm_compute; lia) (run_eta _ _ _))
    as (_ & _ & _ & _ & Hv).
  refine (proj1 (Hv _)). vm_compute. reflexivity.
Defined.

Lemma get_peer_token_witness :
  snd (result (auth_get_peer_token (Some peer) 8080 (Some 65%nat)) 50%nat auth2) = Some token2.
Proof.
  destruct (get_peer_token_correct env clock_ok peer 8080 65 50%nat auth2 _ _ _ _
    (proj1 auth2_good) (proj1 (proj2 auth2_good)) peer_c ltac:(lia) (run_eta2 _ _ _)) as (_ & _ & Hv).
  apply (Hv token2 expires2); [reflexivity| |vm_compute; reflexivity].
  exists 0%nat, (peer_tokens auth2 !!! 0%nat). repeat split; vm_compute; reflexivity.
Defined.

Lemma issued_token_validates_witness :
  result (auth_validate_peer_token (Some peer) (Some token2)) 60%nat auth2 = 0.
Proof.
  apply (issued_token_validates env rand_ok clock_ok peer 8080 None (pairing_code auth0) 65 30%nat auth1 token2 _ _ auth2 60%nat _ _ _
    (proj1 auth1_good) peer_c ltac:(vm_compute; lia) pairing0_c ltac:(lia) issue_run eq_refl (run_eta _ _ _)).
  vm_compute. reflexivity.
Defined.

(** ** Rate limits *)

Definition scope0 : cstring := lit "unlock".
Definition limit0 := auth_rate_limit_allow (Some client) (Some scope0) 2 60 None.

Lemma scope0_c : c_string scope0. Proof. c_text. Qed.

Lemma auth0_no_window t w key : rl_none auth0 t w key.
Proof. apply (wp_use _ _ _ _ _ _ _ (wp_auth_init 0%nat) auth0_run). done. Qed.

Lemma rate_limit_refines_map_witness :
  fst (result limit0 9%nat auth0) = 0 /\
  rl_at (final limit0 9%nat auth0) (start + 9) 60 (client, scope0) 1 (start + 9).
Proof.
  assert (H : fst (result limit0 9%nat auth0) = 0) by (vm_compute; reflexivity). split; [exact H|].
  destruct (rate_limit_refines_map env client scope0 2 60 None 9%nat auth0 _ _ _ _
    (proj1 auth0_good) (proj2 (proj2 auth0_good)) client_c ltac:(vm_compute; lia) scope0_c ltac:(vm_compute; lia)
    ltac:(lia) ltac:(lia) (run_eta2 _ _ _)) as (_ & _ & _ & _ & _ & Hv).
  destruct (Hv eq_refl (auth0_no_window _ _ _)) as [[_ Hat]|[Hr _]]; [exact Hat|].
  unfold limit0 in H. rewrite Hr in H. discriminate H.
Defined.

(** Five requests of one client against a limit of two. *)
Definition burst : list request :=
  replicate 5 {| rq_ip := client; rq_scope := scope0; rq_limit := 2; rq_message := None |}.

Lemma rate_limit_window_bound_witness :
  result (run_requests 60 burst) 9%nat auth0 = [0; 0; -1; -1; -1] /\
  admitted (client, scope0) burst (result (run_requests 60 burst) 9%nat auth0) <= 2.
Proof.
  split; [vm_compute; reflexivity|].
  apply (rate_limit_window_bound env clock_ok 60 burst (client, scope0) 2 9%nat auth0 _ (tick (run_requests 60 burst) 9%nat auth0)
    (final (run_requests 60 burst) 9%nat auth0)); try lia.
  - apply auth0_good.
  - apply auth0_good.
  - apply Forall_replicate. split; [apply client_c|]. split; [vm_compute; lia|]. split; [apply scope0_c|]. split; [vm_compute; lia|simpl; lia].
  - apply Forall_replicate. done.
  - apply auth0_no_window.
  - apply run_eta.
  - vm_compute. reflexivity.
Defined.

(** ** Start-up and reachability *)

Lemma auth_init_witness : auth_good auth0 /\ forall ip tok, ~ session_valid auth0 start ip tok.
Proof.
  destruct (auth_init_correct env rand_ok clock_ok 0%nat _ _ _ auth0_run) as [H _].
  destruct (H eq_refl) as (Hg & _ & Hs & _). split; [exact Hg|]. intros ip tok. apply Hs.
Defined.

Lemma auth_reachable_witness : auth_good auth2 /\ admin_code auth2 = admin_code auth0.
Proof.
  apply (auth_reachable_good env rand_ok clock_ok 0%nat _ auth0 auth2 auth0_run).
  apply rtc_l with auth1; [|apply rtc_once].
  - apply (AuthStep _ _ unlock 9%nat (tick (auth_do unlock) 9%nat auth0)); [|vm_compute; reflexivity].
    split; [apply client_ok|apply admin0_c].
  - apply (AuthStep _ _ pair 30%nat (tick (auth_do pair) 30%nat auth1)); [|vm_compute; reflexivity].
    split; [apply client_ok|apply pairing0_c].
Defined.

Lemma pairing_code_witness :
  pairing_code_expires_at (final (auth_get_pairing_code (Some 7%nat) true) 1000%nat auth2) = start + 1001 + 300.
Proof.
  assert (Hrun : auth_get_pairing_code (Some 7%nat) true 1000%nat auth2 =
    ((0, Some (pairing_code (final (auth_get_pairing_code (Some 7%nat) true) 1000%nat auth2)), Some (start + 1301)),
     (tick (auth_get_pairing_code (Some 7%nat) true) 1000%nat auth2, final (auth_get_pairing_code (Some 7%nat) true) 1000%nat auth2)))
    by (vm_compute; reflexivity).
  destruct (pairing_code_correct env rand_ok 7 1000%nat auth2 _ _ _ _ _ (proj1 auth2_good) ltac:(lia) Hrun) as (_ & _ & _ & _ & _ & Hv).
  destruct (Hv eq_refl) as (_ & _ & _ & _ & _ & Hexp). apply Hexp. vm_compute. discriminate.
Defined.
