(* ===== verification/Storage.v ===== *)
(** * Storage: staged uploads on a file system (src/storage.c)

    The file system maps paths to directories and to inodes; an open stream
    holds its inode and the bytes stdio has accepted but not yet handed to the
    file.  An [UploadStage] is passed by value and returned.  An error buffer
    is [None] for NULL and [Some n] for [n] bytes; the text left in it is
    returned beside the status. *)

From stdpp Require Import base numbers list strings gmap.
From Stdlib Require Import ZArith Lia Ascii.
From S2P Require Import Prelude Effects CLib Crypto.

(** ** The file system *)

Inductive node := Dir | File (inode : nat).

#[export] Instance node_eq_dec : EqDecision node.
Proof. solve_decision. Defined.

Record FileSystem := {
  fs_names : gmap cstring node;
  fs_data : gmap nat cstring;
  fs_mtime : gmap nat Z;
  fs_next : nat }.

Definition set_names v fs := {| fs_names := v; fs_data := fs_data fs; fs_mtime := fs_mtime fs; fs_next := fs_next fs |}.

(** The contents and the modification time of an inode. *)
Definition set_file i data mtime fs := {| fs_names := fs_names fs; fs_data := <[i := data]> (fs_data fs);
  fs_mtime := <[i := mtime]> (fs_mtime fs); fs_next := fs_next fs |}.

Definition file_data (fs : FileSystem) (i : nat) : cstring := default [] (fs_data fs !! i).
Definition file_mtime (fs : FileSystem) (i : nat) : Z := default 0 (fs_mtime fs !! i).

(** A new inode, and its name. *)
Definition create_file path now fs := {| fs_names := <[path := File (fs_next fs)]> (fs_names fs);
  fs_data := <[fs_next fs := []]> (fs_data fs); fs_mtime := <[fs_next fs := now]> (fs_mtime fs);
  fs_next := S (fs_next fs) |}.

(** The part of a path before its last slash; [None] in the working directory. *)
Definition parent (path : cstring) : option cstring :=
  match strrchr path "/"%char with
  | Some suffix => Some (take (length path - length suffix) path)
  | None => None
  end.
Definition parent_ok (fs : FileSystem) (path : cstring) : bool :=
  match parent path with
  | Some d => match fs_names fs !! d with Some Dir => true | _ => false end
  | None => true
  end.

(** A [FILE] open for writing. *)
Record FILE := { f_inode : nat; f_pending : cstring }.

Section Posix.
Context `{E : Env}.

(** [fopen(path, "wb")] *)
Definition fopen_wb (path : cstring) : M FileSystem (option FILE) :=
  ok <- io ;;
  fs <- get ;;
  if negb ok || negb (parent_ok fs path) then ret None
  else
    now <- ask env_clock ;;
    match fs_names fs !! path with
    | Some Dir => ret None
    | Some (File i) => put (set_file i [] now fs) ;; ret (Some {| f_inode := i; f_pending := [] |})
    | None => put (create_file path now fs) ;; ret (Some {| f_inode := fs_next fs; f_pending := [] |})
    end.

(** [fwrite(data, 1, size, fp)]: the count stored and the stream. *)
Definition fwrite (data : cstring) (fp : FILE) : M FileSystem (nat * FILE) :=
  ok <- io ;;
  if ok then ret (length data, {| f_inode := f_inode fp; f_pending := f_pending fp ++ data |})
  else
    n <- short_count ;;
    let n := Nat.min n (length data - 1) in
    ret (n, {| f_inode := f_inode fp; f_pending := f_pending fp ++ take n data |}).

(** [fflush(fp)]: on success everything accepted is in the file; on failure
    some of it may be. *)
Definition fflush (fp : FILE) : M FileSystem (Z * FILE) :=
  ok <- io ;;
  now <- ask env_clock ;;
  n <- (if ok then ret (length (f_pending fp)) else short_count) ;;
  modify (fun fs => set_file (f_inode fp) (file_data fs (f_inode fp) ++ take n (f_pending fp)) now fs) ;;
  ret (if ok then 0 else -1, {| f_inode := f_inode fp; f_pending := drop n (f_pending fp) |}).

(** [fclose(fp)]: flushes, then the stream is gone whatever the result. *)
Definition fclose (fp : FILE) : M FileSystem Z :=
  let* (r, _) := fflush fp in
  ok <- io ;;
  ret (if (r =? 0) && ok then 0 else -1).

Definition rename (from to : cstring) : M FileSystem Z :=
  ok <- io ;;
  fs <- get ;;
  match fs_names fs !! from, fs_names fs !! to with
  | Some (File i), (None | Some (File _)) =>
      if ok && parent_ok fs to
      then put (set_names (<[to := File i]> (delete from (fs_names fs))) fs) ;; ret 0
      else ret (-1)
  | _, _ => ret (-1)
  end.

Definition unlink (path : cstring) : M FileSystem Z :=
  ok <- io ;;
  fs <- get ;;
  match fs_names fs !! path with
  | Some (File _) => if ok then put (set_names (delete path (fs_names fs)) fs) ;; ret 0 else ret (-1)
  | _ => ret (-1)
  end.

Definition mkdir (path : cstring) : M FileSystem Z :=
  ok <- io ;;
  fs <- get ;;
  match fs_names fs !! path with
  | None => if ok && parent_ok fs path then put (set_names (<[path := Dir]> (fs_names fs)) fs) ;; ret 0 else ret (-1)
  | Some _ => ret (-1)
  end.

(** [stat(path, &st)]: the node, when the call succeeds. *)
Definition stat (path : cstring) : M FileSystem (option node) :=
  ok <- io ;;
  fs <- get ;;
  ret (if ok then fs_names fs !! path else None).
End Posix.

(** ** storage.c *)

Definition DOWNLOADS_DIR : cstring := lit "downloads".
Definition STAGING_DIR : cstring := lit "staging".

Record UploadStage := {
  st_fp : option FILE; st_original_name : cstring; st_staging_path : cstring;
  st_bytes_received : Z; st_sealed : bool }.

(** [memset(stage, 0, sizeof( *stage))] *)
Definition stage_zero : UploadStage :=
  {| st_fp := None; st_original_name := []; st_staging_path := []; st_bytes_received := 0; st_sealed := false |}.

Definition set_st_fp v st := {| st_fp := v; st_original_name := st_original_name st;
  st_staging_path := st_staging_path st; st_bytes_received := st_bytes_received st; st_sealed := st_sealed st |}.
Definition set_st_path v st := {| st_fp := st_fp st; st_original_name := st_original_name st;
  st_staging_path := v; st_bytes_received := st_bytes_received st; st_sealed := st_sealed st |}.

Definition set_error (error_message : option nat) (message : cstring) : option cstring :=
  match error_message with
  | Some size => if (size =? 0)%nat then None else Some (snprintf size [Str message])
  | None => None
  end.

Definition safe_char (value : ascii) : bool :=
  ((code "a" <=? code value) && (code value <=? code "z")) ||
  ((code "A" <=? code value) && (code value <=? code "Z")) ||
  ((code "0" <=? code value) && (code value <=? code "9")) ||
  bool_decide (value = "."%char) || bool_decide (value = "_"%char) || bool_decide (value = "-"%char).

Fixpoint sanitize_loop (base : cstring) (write_index dest_size : nat) : cstring :=
  match base with
  | [] => []
  | value :: rest =>
      if (write_index + 1 <? dest_size)%nat
      then (if safe_char value then value else "_"%char) :: sanitize_loop rest (S write_index) dest_size
      else []
  end.

(** With a destination of [dest_size > 0] bytes. *)
Definition sanitize_filename (filename : option cstring) (dest_size : nat) : cstring :=
  match filename with
  | None | Some [] => copy_string dest_size (Some (lit "upload.bin"))
  | Some filename =>
      let slash := match strrchr filename "/"%char with Some p => Some p | None => strrchr filename "\"%char end in
      let base := match slash with Some p => tail p | None => filename end in
      let dest := sanitize_loop base 0 dest_size in
      if bool_decide (dest = []) then copy_string dest_size (Some (lit "upload.bin")) else dest
  end.

Section Storage.
Context `{E : Env}.

Definition ensure_directory (path : cstring) : M FileSystem Z :=
  st <- stat path ;;
  match st with
  | Some Dir => ret 0
  | Some (File _) => ret (-1)
  | None =>
      r <- mkdir path ;;
      if negb (r =? 0) then ret (-1) else ret 0
  end.

Definition storage_init : M FileSystem Z :=
  r <- ensure_directory DOWNLOADS_DIR ;;
  if negb (r =? 0) then ret (-1)
  else
    r <- ensure_directory STAGING_DIR ;;
    if negb (r =? 0) then ret (-1) else ret 0.

Definition storage_cleanup : M FileSystem unit := ret tt.

(** The stage after the call, beside the status and the error text. *)
Definition upload_stage_open (stage : bool) (filename : option cstring) (error_message : option nat)
    : M FileSystem (Z * UploadStage * option cstring) :=
  if negb stage then ret (-1, stage_zero, set_error error_message (lit "Contexto de upload invalido"))
  else
    let safe_filename := sanitize_filename filename 256 in
    let original_name := copy_string 256 (Some safe_filename) in
    let* (r, random_token) := crypto_random_token (Some 17%nat) 8 in
    if negb (r =? 0)
    then ret (-1, {| st_fp := None; st_original_name := original_name; st_staging_path := [];
                     st_bytes_received := 0; st_sealed := false |},
              set_error error_message (lit "Falha ao gerar identificador do arquivo"))
    else
      now <- time_NULL ;;
      let staging_path := snprintf 512 [Str STAGING_DIR; Lit (lit "/"); Long now; Lit (lit "_");
                                        Str (default [] random_token); Lit (lit "_"); Str safe_filename] in
      fp <- fopen_wb staging_path ;;
      match fp with
      | None => ret (-1, {| st_fp := None; st_original_name := original_name; st_staging_path := [];
                            st_bytes_received := 0; st_sealed := false |},
                     set_error error_message (lit "Nao foi possivel criar o arquivo temporario"))
      | Some fp => ret (0, {| st_fp := Some fp; st_original_name := original_name; st_staging_path := staging_path;
                              st_bytes_received := 0; st_sealed := false |}, None)
      end.

(** [data] is an array of [size] bytes, any bytes. *)
Definition upload_stage_write (stage : UploadStage) (data : cstring) (max_file_size : Z) (error_message : option nat)
    : M FileSystem (Z * UploadStage * option cstring) :=
  let size := Z.of_nat (length data) in
  match st_fp stage with
  | None => ret (-1, stage, set_error error_message (lit "Upload temporario nao foi inicializado"))
  | Some fp =>
      if max_file_size <? size_t_wrap (st_bytes_received stage + size)
      then ret (-1, stage, set_error error_message (lit "Arquivo excede o limite permitido"))
      else
        let* (n, fp') := fwrite data fp in
        if negb (Z.of_nat n =? size)
        then ret (-1, set_st_fp (Some fp') stage, set_error error_message (lit "Falha ao gravar o arquivo temporario"))
        else ret (0, {| st_fp := Some fp'; st_original_name := st_original_name stage;
                        st_staging_path := st_staging_path stage;
                        st_bytes_received := size_t_wrap (st_bytes_received stage + size);
                        st_sealed := st_sealed stage |}, None)
  end.

Definition upload_stage_seal (stage : UploadStage) (error_message : option nat)
    : M FileSystem (Z * UploadStage * option cstring) :=
  if st_sealed stage then ret (0, stage, None)
  else
    match st_fp stage with
    | None => ret (-1, stage, set_error error_message (lit "Arquivo temporario ausente"))
    | Some fp =>
        let* (r, fp) := fflush fp in
        if negb (r =? 0)
        then ret (-1, set_st_fp (Some fp) stage, set_error error_message (lit "Falha ao persistir o arquivo temporario"))
        else
          r <- fclose fp ;;
          if negb (r =? 0)
          then ret (-1, set_st_fp None stage, set_error error_message (lit "Falha ao fechar o arquivo temporario"))
          else ret (0, {| st_fp := None; st_original_name := st_original_name stage;
                          st_staging_path := st_staging_path stage;
                          st_bytes_received := st_bytes_received stage; st_sealed := true |}, None)
    end.

(** [final_path] is the size of the caller's buffer; its text is returned last. *)
Definition upload_stage_commit (stage : UploadStage) (final_path : option nat) (error_message : option nat)
    : M FileSystem (Z * UploadStage * option cstring * option cstring) :=
  let* (r, stage, error) := upload_stage_seal stage error_message in
  if negb (r =? 0) then ret (-1, stage, error, None)
  else
    now <- time_NULL ;;
    let committed_path := snprintf 512 [Str DOWNLOADS_DIR; Lit (lit "/"); Long now; Lit (lit "_");
      Str (if negb (bool_decide (st_original_name stage = [])) then st_original_name stage else lit "upload.bin")] in
    r <- rename (st_staging_path stage) committed_path ;;
    if negb (r =? 0)
    then ret (-1, stage, set_error error_message (lit "Falha ao mover o arquivo para downloads"), None)
    else
      ret (0, set_st_path [] stage, None,
           match final_path with
           | Some size => if (0 <? size)%nat then Some (copy_string size (Some committed_path)) else None
           | None => None
           end).

Definition upload_stage_abort (stage : UploadStage) : M FileSystem UploadStage :=
  (match st_fp stage with
   | Some fp => _ <- fclose fp ;; ret tt
   | None => ret tt
   end) ;;
  (if negb (bool_decide (st_staging_path stage = []))
   then _ <- unlink (st_staging_path stage) ;; ret tt
   else ret tt) ;;
  ret stage_zero.

Definition storage_delete_file (path : option cstring) : M FileSystem Z :=
  match path with
  | None | Some [] => ret (-1)
  | Some path => unlink path
  end.

(** The entries of a directory, in some order. *)
Definition readdir (fs : FileSystem) (dir : cstring) : list cstring :=
  [lit "."; lit ".."] ++
  omap (fun path => match strrchr path "/"%char with
                    | Some suffix => if bool_decide (parent path = Some dir) then Some (tail suffix) else None
                    | None => None
                    end) (fst <$> map_to_list (fs_names fs)).

Definition cleanup_entry (max_age_seconds now : Z) (d_name : cstring) : M FileSystem unit :=
  if (strcmp d_name (lit ".") =? 0) || (strcmp d_name (lit "..") =? 0) then ret tt
  else
    let path := snprintf 512 [Str STAGING_DIR; Lit (lit "/"); Str d_name] in
    st <- stat path ;;
    match st with
    | Some (File i) =>
        fs <- get ;;
        if file_mtime fs i + max_age_seconds <=? now then _ <- unlink path ;; ret tt else ret tt
    | _ => ret tt
    end.

Fixpoint cleanup_entries (max_age_seconds now : Z) (entries : list cstring) : M FileSystem unit :=
  match entries with
  | [] => ret tt
  | d_name :: entries' => cleanup_entry max_age_seconds now d_name ;; cleanup_entries max_age_seconds now entries'
  end.

Definition cleanup_expired_staging_files (max_age_seconds : Z) : M FileSystem unit :=
  now <- time_NULL ;;
  if max_age_seconds <=? 0 then ret tt
  else
    ok <- io ;;
    fs <- get ;;
    match ok, fs_names fs !! STAGING_DIR with
    | true, Some Dir => cleanup_entries max_age_seconds now (readdir fs STAGING_DIR)
    | _, _ => ret tt
    end.
End Storage.
