(* ===== verification/StorageSpec.v ===== *)
(** * StorageSpec: what staging and committing an upload do

    File names are made harmless, a staged upload lives in one file of the
    staging directory, a commit moves exactly the bytes received into the
    downloads directory, and nothing else of the file system is touched. *)

From stdpp Require Import base numbers list strings gmap.
From Stdlib Require Import ZArith Lia Ascii.
From S2P Require Import Prelude Effects CLib Crypto Storage.

(** ** Names *)

(** A name made of the characters the sanitiser lets through. *)
Definition clean (s : cstring) : Prop := Forall (fun c => safe_char c = true) s.

(** [path] names an entry of directory [dir] itself. *)
Definition inside (dir path : cstring) : Prop :=
  exists name, path = dir ++ lit "/" ++ name /\ name <> [] /\ "/"%char ∉ name.

Lemma sanitize_loop_spec base i n :
  sanitize_loop base i n = (fun c => if safe_char c then c else "_"%char) <$> take (n - 1 - i) base.
Proof.
revert i. induction base as [|c base IH]; intros i; simpl; [by rewrite take_nil|].
destruct (Nat.ltb_spec (i + 1) n) as [H|H].
- replace (n - 1 - i)%nat with (S (n - 1 - S i)) by lia. simpl. by rewrite IH.
- by replace (n - 1 - i)%nat with 0%nat by lia.
Qed.

Lemma safe_underscore c : safe_char (if safe_char c then c else "_"%char) = true.
Proof. by destruct (safe_char c) eqn:H. Qed.

Lemma clean_loop base i n : clean (sanitize_loop base i n).
Proof. rewrite sanitize_loop_spec. apply Forall_fmap, Forall_true. intros c. apply safe_underscore. Qed.

Lemma safe_char_code c : safe_char c = true -> 45 <= code c /\ c <> "/"%char.
Proof. destruct c as [[] [] [] [] [] [] [] []]; vm_compute; intros H; try discriminate H; split; congruence. Qed.

Lemma clean_no_slash s : clean s -> "/"%char ∉ s.
Proof. intros H Hin. unfold clean in H. rewrite Forall_forall in H. by apply H, safe_char_code in Hin as [_ ?]. Qed.

Lemma clean_c_string s : clean s -> c_string s.
Proof. intros H. eapply Forall_impl; [exact H|]. intros c Hc. apply safe_char_code in Hc. lia. Qed.

Lemma clean_default : clean (lit "upload.bin").
Proof. apply (bool_decide_eq_true_1 _). vm_compute. reflexivity. Qed.

Lemma sanitized filename n : (11 <= n)%nat ->
  clean (sanitize_filename filename n) /\ (0 < length (sanitize_filename filename n) < n)%nat.
Proof.
intros Hn.
assert (Hd : clean (copy_string n (Some (lit "upload.bin"))) /\ (0 < length (copy_string n (Some (lit "upload.bin"))) < n)%nat).
{ rewrite copy_string_fits by (vm_compute; lia). split; [apply clean_default|vm_compute; lia]. }
unfold sanitize_filename. destruct filename as [[|c f]|]; [exact Hd| |exact Hd]. cbv zeta.
case_bool_decide as He; [exact Hd|]. split; [apply clean_loop|].
set (d := sanitize_loop _ _ _) in *. split; [destruct d; [done|simpl; lia]|].
unfold d. rewrite sanitize_loop_spec, length_fmap, length_take. lia.
Qed.

(** Text made of clean parts stays free of slashes. *)
Lemma show_nat_no_slash n : 0 <= n -> "/"%char ∉ show_nat n.
Proof.
intros Hn Hin. destruct (show_nat_spec n Hn) as (_ & Hd & _). unfold all_digits in Hd. rewrite Forall_forall in Hd.
by apply Hd in Hin.
Qed.

Lemma show_long_no_slash n : "/"%char ∉ show_long n.
Proof.
unfold show_long. case_cond; [|by apply show_nat_no_slash].
intros Hin. apply elem_of_cons in Hin as [?|Hin]; [done|]. revert Hin. apply show_nat_no_slash. lia.
Qed.

Lemma hex_no_slash n s : hex_token n s -> "/"%char ∉ s.
Proof. intros [_ H] Hin. rewrite Forall_forall in H. by apply H in Hin. Qed.

Section Paths.
Context `{E : Env} {C : ClockRange E}.

Definition staged_name (now : Z) (tok name : cstring) : cstring := show_long now ++ lit "_" ++ tok ++ lit "_" ++ name.
Definition committed_name (now : Z) (name : cstring) : cstring := show_long now ++ lit "_" ++ name.

(** No path is cut short by its buffer. *)
Lemma staging_path_text k tok name : hex_token 16 tok -> (length name <= 255)%nat ->
  snprintf 512 [Str STAGING_DIR; Lit (lit "/"); Long (env_clock k); Lit (lit "_"); Str tok; Lit (lit "_"); Str name]
  = STAGING_DIR ++ lit "/" ++ staged_name (env_clock k) tok name.
Proof.
intros [Ht _] Hn. pose proof (show_long_length _ (clock_range k)). unfold staged_name.
rewrite snprintf_fits; unfold sprintf; cbn [fmap list_fmap fmt_text mjoin list_join]; rewrite app_nil_r; [done|].
rewrite !length_app. generalize dependent (show_long (env_clock k)). intros t H. rewrite Ht. simpl. lia.
Qed.

Lemma committed_path_text k name : (length name <= 255)%nat ->
  snprintf 512 [Str DOWNLOADS_DIR; Lit (lit "/"); Long (env_clock k); Lit (lit "_"); Str name]
  = DOWNLOADS_DIR ++ lit "/" ++ committed_name (env_clock k) name.
Proof.
intros Hn. pose proof (show_long_length _ (clock_range k)). unfold committed_name.
rewrite snprintf_fits; unfold sprintf; cbn [fmap list_fmap fmt_text mjoin list_join]; rewrite app_nil_r; [done|].
rewrite !length_app. generalize dependent (show_long (env_clock k)). intros t H. simpl. lia.
Qed.
Lemma committed_path_length k name : (0 < length name <= 255)%nat ->
  (length (DOWNLOADS_DIR ++ lit "/" ++ committed_name (env_clock k) name) < 512)%nat.
Proof.
intros Hn. pose proof (show_long_length _ (clock_range k)). unfold committed_name. rewrite !length_app.
generalize dependent (show_long (env_clock k)). intros t H. simpl. lia.
Qed.
End Paths.

Lemma inside_staging now tok name : hex_token 16 tok -> clean name -> inside STAGING_DIR (STAGING_DIR ++ lit "/" ++ staged_name now tok name).
Proof.
intros Ht Hn. eexists. split; [done|]. unfold staged_name. split.
- destruct (show_long now); [done|done].
- pose proof (show_long_no_slash now). pose proof (hex_no_slash _ _ Ht). pose proof (clean_no_slash _ Hn).
  rewrite !elem_of_app. intros [?|[Hu|[?|[Hu|?]]]]; try done; revert Hu; by apply (bool_decide_eq_true_1 (_ ∉ _)); vm_compute.
Qed.

Lemma inside_downloads now name : clean name -> inside DOWNLOADS_DIR (DOWNLOADS_DIR ++ lit "/" ++ committed_name now name).
Proof.
intros Hn. eexists. split; [done|]. unfold committed_name. split.
- destruct (show_long now); [done|done].
- pose proof (show_long_no_slash now). pose proof (clean_no_slash _ Hn).
  rewrite !elem_of_app. intros [?|[Hu|?]]; try done; revert Hu; by apply (bool_decide_eq_true_1 (_ ∉ _)); vm_compute.
Qed.

(** A staging path and a downloads path are never the same. *)
Lemma inside_disjoint p : inside STAGING_DIR p -> inside DOWNLOADS_DIR p -> False.
Proof. intros (n & -> & _) (m & H & _). discriminate H. Qed.

Lemma inside_nonempty d p : inside d p -> p <> [].
Proof. intros (n & -> & _) H. apply app_eq_nil in H as [_ H]. discriminate H. Qed.

Lemma parent_inside d n : "/"%char ∉ n -> parent (d ++ lit "/" ++ n) = Some d.
Proof.
intros Hn. unfold parent. change (d ++ lit "/" ++ n) with (d ++ "/"%char :: n). rewrite strrchr_app by done.
f_equal. rewrite length_app. rewrite Nat.add_sub. apply take_app_length.
Qed.

Lemma parent_ok_inside d p fs : inside d p -> parent_ok fs p = match fs_names fs !! d with Some Dir => true | _ => false end.
Proof. intros (n & -> & _ & Hn). unfold parent_ok. by rewrite parent_inside. Qed.

(** ** The file system between calls *)

(** Inodes in use have been allocated, and every file has one name. *)
Record fs_inv (fs : FileSystem) : Prop := {
  fs_alloc p i : fs_names fs !! p = Some (File i) -> (i < fs_next fs)%nat;
  fs_one_name p q i : fs_names fs !! p = Some (File i) -> fs_names fs !! q = Some (File i) -> p = q }.

(** What a reader of [path] sees. *)
Definition read_file (fs : FileSystem) (path : cstring) : option cstring :=
  match fs_names fs !! path with Some (File i) => Some (file_data fs i) | _ => None end.

(** Stage [st] owns inode [i], named by its staging path on top of [fs0];
    every other name and file is as in [fs0]. *)
Record owns (fs0 : FileSystem) (st : UploadStage) (i : nat) (fs : FileSystem) : Prop := {
  own_names : fs_names fs = <[st_staging_path st := File i]> (fs_names fs0);
  own_only p : fs_names fs0 !! p = Some (File i) -> p = st_staging_path st;
  own_inv : fs_inv fs;
  own_others j : j <> i -> file_data fs j = file_data fs0 j;
  own_path : inside STAGING_DIR (st_staging_path st);
  own_name : clean (st_original_name st) /\ (0 < length (st_original_name st) <= 255)%nat;
  own_fp fp : st_fp st = Some fp -> f_inode fp = i }.

(** The file and the stream together hold [content]. *)
Definition holds (st : UploadStage) (i : nat) (content : cstring) (fs : FileSystem) : Prop :=
  st_bytes_received st = Z.of_nat (length content) /\
  match st_fp st with
  | Some fp => st_sealed st = false /\ file_data fs i ++ f_pending fp = content
  | None => st_sealed st = true /\ file_data fs i = content
  end.

Definition held fs0 st i content fs : Prop := owns fs0 st i fs /\ holds st i content fs.

Lemma file_data_set fs i d t j : file_data (set_file i d t fs) j = if decide (j = i) then d else file_data fs j.
Proof.
unfold file_data. simpl. destruct (decide (j = i)) as [->|Hne]; [by rewrite lookup_insert_eq|by rewrite lookup_insert_ne].
Qed.

Lemma fs_inv_set_file i d t fs : fs_inv fs -> fs_inv (set_file i d t fs).
Proof. by intros []. Qed.

Lemma create_file_inv path t fs : fs_inv fs -> fs_inv (create_file path t fs).
Proof.
intros Hfs. split; simpl.
- intros p i Hp. apply lookup_insert_Some in Hp as [[_ [= <-]]|[_ Hp]]; [lia|]. apply Hfs in Hp. lia.
- intros p q i Hp Hq. apply lookup_insert_Some in Hp as [[<- Hi]|[_ Hp]];
    apply lookup_insert_Some in Hq as [[<- Hj]|[_ Hq]]; [done|..].
  + injection Hi as <-. apply Hfs in Hq. lia.
  + injection Hj as <-. apply Hfs in Hp. lia.
  + by apply (fs_one_name _ Hfs p q i).
Qed.

(** Writing to the owned file keeps the ownership. *)
Lemma owns_set_file fs0 st i fs d t : owns fs0 st i fs -> owns fs0 st i (set_file i d t fs).
Proof.
intros []. split; try done; [by apply fs_inv_set_file|].
intros j Hj. rewrite file_data_set, decide_False by done. auto.
Qed.

(** The stage may change, if its names and its inode do not. *)
Lemma owns_stage fs0 st st' i fs : owns fs0 st i fs ->
  st_staging_path st' = st_staging_path st -> st_original_name st' = st_original_name st ->
  (forall fp, st_fp st' = Some fp -> f_inode fp = i) -> owns fs0 st' i fs.
Proof. intros [] Hp Hn Hf. split; rewrite ?Hp, ?Hn; done. Qed.

Section Stages.
Context `{E : Env} {R : RandOk E} {C : ClockRange E}.
Implicit Types (k : nat) (fs : FileSystem) (st : UploadStage).

(** Opening either fails and leaves the names and contents alone, or makes a
    new empty file of the staging directory. *)
Lemma wp_open filename err (Q : Z * UploadStage * option cstring -> nat -> FileSystem -> Prop) k fs :
  fs_inv fs ->
  (forall k' st e, st_fp st = None -> st_staging_path st = [] ->
     (exists j, env_rand j 8 = None \/ env_io j = false \/ fs_names fs !! STAGING_DIR <> Some Dir \/
        exists p, inside STAGING_DIR p /\ fs_names fs !! p = Some Dir) -> Q (-1, st, e) k' fs) ->
  (forall k' st i fs', held fs st i [] fs' -> st_sealed st = false ->
     st_original_name st = sanitize_filename filename 256 -> Q (0, st, None) k' fs') ->
  wp (upload_stage_open true filename err) Q k fs.
Proof.
intros Hfs H1 H0. unfold upload_stage_open. reduce_tests. cbv zeta.
destruct (sanitized filename 256 ltac:(lia)) as [Hclean Hlen]. set (name := sanitize_filename filename 256) in *.
rewrite copy_string_fits by lia. unfold crypto_random_token. reduce_tests.
apply wp_bind, wp_bind. unfold crypto_random_bytes. reduce_tests. apply wp_bind, wp_ask.
destruct (env_rand k 8) as [bs|] eqn:Er; apply wp_ret; reduce_tests; apply wp_ret; cbv beta iota; reduce_tests.
2: { apply wp_ret, H1; [done|done|]. exists k. by left. }
cbn [default from_option id]. set (tok := mjoin (hex_pair <$> bs)).
assert (Htok : hex_token 16 tok).
{ destruct (hex_text bs (rand_byte _ _ _ Er)) as [Ht _]. rewrite (rand_length _ _ _ Er) in Ht. exact Ht. }
apply wp_bind, wp_ask. rewrite staging_path_text by (done || lia).
set (path := STAGING_DIR ++ lit "/" ++ staged_name _ tok name).
assert (Hin : inside STAGING_DIR path) by by apply inside_staging.
unfold fopen_wb. apply wp_bind, wp_bind, wp_ask, wp_bind, wp_get. rewrite (parent_ok_inside _ _ _ Hin).
apply wp_if; intros Hg.
{ apply wp_ret, wp_ret, H1; [done|done|]. eexists. apply orb_true_iff in Hg as [Hg|Hg]; bool_prop; [by right; left; exact Hg|].
  right. right. left. destruct (fs_names fs !! STAGING_DIR) as [[]|]; congruence. }
apply wp_bind, wp_ask. destruct (fs_names fs !! path) as [[|i]|] eqn:Ep.
- apply wp_ret, wp_ret, H1; [done|done|]. exists k. right. right. right. by exists path.
- apply wp_bind, wp_put, wp_ret, wp_ret. eapply H0; [|done|done]. split.
  + split; simpl; try done.
    * symmetry. by apply insert_id.
    * intros p Hp. by apply (fs_one_name _ Hfs p path i).
    * by apply fs_inv_set_file.
    * intros j Hj. by rewrite file_data_set, decide_False by done.
    * split; [done|lia].
    * by intros fp [= <-].
  + split; [done|]. simpl. split; [done|]. by rewrite file_data_set, decide_True by done.
- apply wp_bind, wp_put, wp_ret, wp_ret. eapply H0; [|done|done]. split.
  + split; simpl; try done.
    * intros p Hp. apply Hfs in Hp. lia.
    * by apply create_file_inv.
    * intros j Hj. unfold file_data. simpl. by rewrite lookup_insert_ne.
    * split; [done|lia].
    * by intros fp [= <-].
  + split; [done|]. simpl. split; [done|]. unfold file_data. simpl. by rewrite lookup_insert_eq.
Qed.

(** The limit that applies: [max] below 2^63 and chunks of memory, so that the
    sum does not wrap. *)
Lemma limit_test c max (data : cstring) :
  0 <= max < 2 ^ 63 -> Z.of_nat (length c) <= max -> Z.of_nat (length data) < 2 ^ 63 ->
  size_t_wrap (Z.of_nat (length c) + Z.of_nat (length data)) = Z.of_nat (length (c ++ data)).
Proof. intros. unfold size_t_wrap. rewrite wrap_small by lia. rewrite length_app. lia. Qed.

Lemma wp_write fs0 st i c data max err (Q : Z * UploadStage * option cstring -> nat -> FileSystem -> Prop) k fs :
  held fs0 st i c fs -> st_sealed st = false ->
  0 <= max < 2 ^ 63 -> Z.of_nat (length c) <= max -> Z.of_nat (length data) < 2 ^ 63 ->
  (max < Z.of_nat (length (c ++ data)) -> Q (-1, st, set_error err (lit "Arquivo excede o limite permitido")) k fs) ->
  (forall k' st' e, (exists j, env_io j = false) -> owns fs0 st' i fs -> Q (-1, st', e) k' fs) ->
  (forall k' st', Z.of_nat (length (c ++ data)) <= max -> held fs0 st' i (c ++ data) fs -> st_sealed st' = false ->
     st_staging_path st' = st_staging_path st -> st_original_name st' = st_original_name st -> Q (0, st', None) k' fs) ->
  wp (upload_stage_write st data max err) Q k fs.
Proof.
intros [Hown [Hb Hst]] Hseal Hmax Hc Hd Hbig Hfail Hok. unfold upload_stage_write. cbv zeta.
destruct (st_fp st) as [fp|] eqn:Efp; [|by destruct Hst as [? _]; congruence]. destruct Hst as [_ Hcont].
pose proof (own_fp _ _ _ _ Hown fp Efp) as Hi.
rewrite Hb, (limit_test c max data) by done. apply wp_if; intros Hlim; bool_prop; [apply wp_ret; auto|].
assert (Hown' : forall p, owns fs0 (set_st_fp (Some {| f_inode := f_inode fp; f_pending := p |}) st) i fs).
{ intros p. eapply owns_stage; [exact Hown|done|done|]. by intros fp' [= <-]. }
unfold fwrite. apply wp_bind, wp_bind, wp_ask. destruct (env_io k) eqn:Eio.
- apply wp_ret. cbv beta iota. rewrite Z.eqb_refl. reduce_tests. apply wp_ret, Hok; try done. split.
  + eapply owns_stage; [exact Hown|done|done|]. by intros fp' [= <-].
  + split; [done|]. simpl. split; [done|]. by rewrite app_assoc, Hcont.
- apply wp_bind, wp_ask. cbv zeta. apply wp_ret. cbv beta iota.
  set (n := Nat.min (env_short (S k)) (length data - 1)).
  destruct (Z.eqb_spec (Z.of_nat n) (Z.of_nat (length data))) as [Heq|Hne]; reduce_tests.
  + assert (data = []) as -> by (destruct data; [done|simpl in *; lia]). apply wp_ret, Hok; try done. split.
    * eapply owns_stage; [exact Hown|done|done|]. by intros fp' [= <-].
    * split; [done|]. simpl. split; [done|]. by rewrite take_nil, !app_nil_r.
  + apply wp_ret, Hfail; [by exists k|apply Hown'].
Qed.

Lemma wp_flush fp (Q : Z * FILE -> nat -> FileSystem -> Prop) k fs :
  (forall k' t, Q (0, {| f_inode := f_inode fp; f_pending := [] |}) k'
     (set_file (f_inode fp) (file_data fs (f_inode fp) ++ f_pending fp) t fs)) ->
  (forall k' t n, env_io k = false -> Q (-1, {| f_inode := f_inode fp; f_pending := drop n (f_pending fp) |}) k'
     (set_file (f_inode fp) (file_data fs (f_inode fp) ++ take n (f_pending fp)) t fs)) ->
  wp (fflush fp) Q k fs.
Proof.
intros H0 H1. unfold fflush. apply wp_bind, wp_ask, wp_bind, wp_ask, wp_bind. destruct (env_io k) eqn:Eio.
- apply wp_ret, wp_bind, wp_modify, wp_ret. rewrite firstn_all, drop_all. apply H0.
- apply wp_ask, wp_bind, wp_modify, wp_ret. by apply H1.
Qed.

Lemma wp_seal fs0 st i c err (Q : Z * UploadStage * option cstring -> nat -> FileSystem -> Prop) k fs :
  held fs0 st i c fs ->
  (forall k' st' fs', held fs0 st' i c fs' -> st_fp st' = None -> st_staging_path st' = st_staging_path st ->
     st_original_name st' = st_original_name st -> Q (0, st', None) k' fs') ->
  (forall k' st' e fs', (exists j, env_io j = false) -> owns fs0 st' i fs' -> Q (-1, st', e) k' fs') ->
  wp (upload_stage_seal st err) Q k fs.
Proof.
intros [Hown [Hb Hst]] H0 H1. unfold upload_stage_seal. destruct (st_fp st) as [fp|] eqn:Efp.
2: { destruct Hst as [Hs Hc]. rewrite Hs. apply wp_ret, H0; try done. split; [done|]. split; [done|]. by rewrite Efp. }
destruct Hst as [Hs Hc]. rewrite Hs. pose proof (own_fp _ _ _ _ Hown fp Efp) as Hi.
assert (Hown' : forall st' d t, st_staging_path st' = st_staging_path st -> st_original_name st' = st_original_name st ->
  (forall fp, st_fp st' = Some fp -> f_inode fp = i) -> owns fs0 st' i (set_file i d t fs)).
{ intros st' d t H2 H3 H4. by apply owns_set_file, (owns_stage fs0 st). }
apply wp_bind, wp_flush; intros k1 t1; cbv beta iota; reduce_tests; rewrite Hi.
2: { intros n Hio. apply wp_ret, H1; [by exists k|]. apply Hown'; [done|done|]. by intros fp' [= <-]. }
apply wp_bind. unfold fclose. apply wp_bind, wp_flush; intros k2 t2; cbn [f_inode f_pending].
2: { intros n Hio. cbv beta iota. apply wp_bind, wp_ask, wp_ret. reduce_tests. apply wp_ret, H1; [by exists k1|].
     apply owns_set_file, Hown'; done. }
cbv beta iota. rewrite file_data_set, decide_True, !app_nil_r by done. apply wp_bind, wp_ask, wp_ret. reduce_tests.
destruct (env_io k2) eqn:Eio; reduce_tests; apply wp_ret.
- apply H0; try done. split; [apply owns_set_file, Hown'; done|]. split; [done|]. simpl. split; [done|].
  by rewrite file_data_set, decide_True.
- apply H1; [by exists k2|]. apply owns_set_file, Hown'; done.
Qed.

(** The file [i] of stage [st] was moved to [path] with contents [c]. *)
Record committed (fs0 : FileSystem) (st : UploadStage) (i : nat) (c path : cstring) (fs : FileSystem) : Prop := {
  com_names : fs_names fs = <[path := File i]> (delete (st_staging_path st) (fs_names fs0));
  com_data : file_data fs i = c;
  com_only p : fs_names fs0 !! p = Some (File i) -> p = st_staging_path st;
  com_others j : j <> i -> file_data fs j = file_data fs0 j;
  com_path : inside DOWNLOADS_DIR path }.

Lemma wp_rename from to i (Q : Z -> nat -> FileSystem -> Prop) k fs :
  fs_names fs !! from = Some (File i) ->
  (env_io k = false \/ parent_ok fs to = false \/ fs_names fs !! to = Some Dir -> Q (-1) (S k) fs) ->
  Q 0 (S k) (set_names (<[to := File i]> (delete from (fs_names fs))) fs) ->
  wp (rename from to) Q k fs.
Proof.
intros Hf H1 H0. unfold rename. apply wp_bind, wp_ask, wp_bind, wp_get. rewrite Hf.
assert (Hmove : wp (if env_io k && parent_ok fs to
  then put (set_names (<[to := File i]> (delete from (fs_names fs))) fs) ;; ret 0 else ret (-1)) Q (S k) fs).
{ apply wp_if; intros Hg; bool_prop; [by apply wp_bind, wp_put, wp_ret|]. apply wp_ret, H1. tauto. }
destruct (fs_names fs !! to) as [[|j]|]; [apply wp_ret, H1; auto|exact Hmove..].
Qed.

Lemma wp_commit fs0 st i c err (Q : Z * UploadStage * option cstring * option cstring -> nat -> FileSystem -> Prop) k fs :
  held fs0 st i c fs ->
  (forall k' st' e fs',
     (exists j, env_io j = false \/ fs_names fs0 !! DOWNLOADS_DIR <> Some Dir \/
        exists p, inside DOWNLOADS_DIR p /\ fs_names fs0 !! p = Some Dir) ->
     owns fs0 st' i fs' -> Q (-1, st', e, None) k' fs') ->
  (forall k' st' j fs', let path := DOWNLOADS_DIR ++ lit "/" ++ committed_name (env_clock j) (st_original_name st) in
     committed fs0 st i c path fs' -> st_fp st' = None -> st_staging_path st' = [] -> Q (0, st', None, Some path) k' fs') ->
  wp (upload_stage_commit st (Some 512%nat) err) Q k fs.
Proof.
intros Hheld H1 H0. unfold upload_stage_commit. apply wp_bind, (wp_seal fs0 st i c); [done| |].
2: { intros k' st' e fs' [j Hj] Hown'. cbv beta iota. reduce_tests. apply wp_ret, H1; [|done]. exists j. by left. }
intros k1 st1 fs1 [Hown [Hb Hst]] Hfp Hsp Hname. cbv beta iota. reduce_tests. rewrite Hfp in Hst. destruct Hst as [_ Hdata].
pose proof (own_name _ _ _ _ Hown) as [Hclean Hlen]. apply wp_bind, wp_ask.
rewrite bool_decide_false by (intros Hnil; rewrite Hnil in Hlen; simpl in Hlen; lia). reduce_tests. cbv zeta.
rewrite committed_path_text by lia. set (path := DOWNLOADS_DIR ++ lit "/" ++ committed_name _ _).
assert (Hin : inside DOWNLOADS_DIR path) by by apply inside_downloads.
assert (Hne : path <> st_staging_path st1).
{ intros Heq. apply (inside_disjoint path); [rewrite Heq; apply Hown|done]. }
assert (Hdir : STAGING_DIR <> DOWNLOADS_DIR) by done.
assert (HdirD : <[st_staging_path st1 := File i]> (fs_names fs0) !! DOWNLOADS_DIR = fs_names fs0 !! DOWNLOADS_DIR).
{ apply lookup_insert_ne. intros Heq. destruct (own_path _ _ _ _ Hown) as (n & Hn & _). rewrite Hn in Heq. discriminate Heq. }
apply wp_bind, (wp_rename _ _ i); rewrite ?(parent_ok_inside _ _ _ Hin), ?(own_names _ _ _ _ Hown), ?HdirD.
- apply lookup_insert_eq.
- rewrite lookup_insert_ne by done. intros Hg. reduce_tests. apply wp_ret, H1; [|done]. eexists.
  destruct Hg as [Hg|[Hg|Hg]]; [left; exact Hg| |right; right; by exists path].
  right. left. destruct (fs_names fs0 !! DOWNLOADS_DIR) as [[]|]; congruence.
- reduce_tests. apply wp_ret. cbn [Nat.ltb Nat.leb]. rewrite copy_string_fits by apply committed_path_length, Hlen.
  unfold path. rewrite Hname. apply H0; [|done|done]. rewrite <- Hname. fold path. split; simpl.
  + by rewrite delete_insert_eq, Hsp.
  + exact Hdata.
  + intros p Hp. rewrite <- Hsp. by apply (own_only _ _ _ _ Hown).
  + apply Hown.
  + exact Hin.
Qed.

(** Aborting removes the staging file, and nothing else. *)
Lemma wp_abort fs0 st i (Q : UploadStage -> nat -> FileSystem -> Prop) k fs :
  owns fs0 st i fs ->
  (forall k' fs', (fs_names fs' = delete (st_staging_path st) (fs_names fs0) \/
      fs_names fs' = <[st_staging_path st := File i]> (fs_names fs0) /\ exists j, env_io j = false) ->
     (forall j, j <> i -> file_data fs' j = file_data fs0 j) -> Q stage_zero k' fs') ->
  wp (upload_stage_abort st) Q k fs.
Proof.
intros Hown HQ. unfold upload_stage_abort. apply wp_bind.
assert (Hrest : forall k1 fs1, owns fs0 st i fs1 ->
  wp ((if negb (bool_decide (st_staging_path st = [])) then _ <- unlink (st_staging_path st) ;; ret tt else ret tt) ;;
      ret stage_zero) Q k1 fs1).
{ intros k1 fs1 Hown1. rewrite bool_decide_false by (by eapply inside_nonempty, Hown1). reduce_tests.
  apply wp_bind, wp_bind. unfold unlink. apply wp_bind, wp_ask, wp_bind, wp_get.
  rewrite (own_names _ _ _ _ Hown1), lookup_insert_eq. apply wp_if; intros Hio.
  - apply wp_bind, wp_put, wp_ret, wp_ret, wp_ret, HQ; [|apply Hown1]. left. simpl. by rewrite delete_insert_eq.
  - apply wp_ret, wp_ret, wp_ret, HQ; [|apply Hown1]. right. split; [apply Hown1|by exists k1]. }
destruct (st_fp st) as [fp|] eqn:Efp; [|by apply wp_ret, Hrest].
pose proof (own_fp _ _ _ _ Hown fp Efp) as Hi. apply wp_bind. unfold fclose. apply wp_bind, wp_flush; intros k1 t.
- cbv beta iota. apply wp_bind, wp_ask, wp_ret, wp_ret, Hrest. rewrite Hi. by apply owns_set_file.
- intros n _. cbv beta iota. apply wp_bind, wp_ask, wp_ret, wp_ret, Hrest. rewrite Hi. by apply owns_set_file.
Qed.
End Stages.

(** ** A whole upload *)

Section Upload.
Context `{E : Env}.

(** The chunks of a body, in order, up to the first failure. *)
Fixpoint write_all (stage : UploadStage) (chunks : list cstring) (max : Z) (err : option nat)
    : M FileSystem (Z * UploadStage) :=
  match chunks with
  | [] => ret (0, stage)
  | data :: chunks' =>
      let* (r, stage', _) := upload_stage_write stage data max err in
      if negb (r =? 0) then ret (-1, stage') else write_all stage' chunks' max err
  end.

(** Open, write every chunk and commit; abort on the first failure. *)
Definition receive (filename : option cstring) (chunks : list cstring) (max : Z) (err : option nat)
    : M FileSystem (option cstring) :=
  let* (r, stage, _) := upload_stage_open true filename err in
  if negb (r =? 0) then ret None
  else
    let* (r, stage) := write_all stage chunks max err in
    if negb (r =? 0) then upload_stage_abort stage ;; ret None
    else
      let* (r, stage, _, path) := upload_stage_commit stage (Some 512%nat) err in
      if negb (r =? 0) then upload_stage_abort stage ;; ret None
      else ret path.
End Upload.

Definition small (data : cstring) : Prop := Z.of_nat (length data) < 2 ^ 63.

(** Why an upload can fail. *)
Definition refused `{E : Env} (fs : FileSystem) (chunks : list cstring) (max : Z) : Prop :=
  max < Z.of_nat (length (mjoin chunks)) \/
  (exists j, env_rand j 8 = None \/ env_io j = false) \/
  fs_names fs !! STAGING_DIR <> Some Dir \/ fs_names fs !! DOWNLOADS_DIR <> Some Dir \/
  exists d p, (d = STAGING_DIR \/ d = DOWNLOADS_DIR) /\ inside d p /\ fs_names fs !! p = Some Dir.

(** After a commit: [path] has the contents, the staging file is gone and no
    other file changed. *)
Definition delivered (fs : FileSystem) (content path : cstring) (fs' : FileSystem) : Prop :=
  inside DOWNLOADS_DIR path /\ read_file fs' path = Some content /\
  exists sp, inside STAGING_DIR sp /\ read_file fs' sp = None /\
    forall q, q <> path -> q <> sp -> fs_names fs' !! q = fs_names fs !! q /\ read_file fs' q = read_file fs q.

(** After a failure: at most one staging file is left, and only when the
    system refused an operation. *)
Definition undone `{E : Env} (fs fs' : FileSystem) : Prop :=
  fs' = fs \/
  exists sp, inside STAGING_DIR sp /\ (read_file fs' sp = None \/ exists j, env_io j = false) /\
    forall q, q <> sp -> fs_names fs' !! q = fs_names fs !! q /\ read_file fs' q = read_file fs q.

(** A file other than the owned one reads the same. *)
Lemma read_other fs0 fs i q sp :
  (forall p, fs_names fs0 !! p = Some (File i) -> p = sp) -> (forall j, j <> i -> file_data fs j = file_data fs0 j) ->
  q <> sp -> fs_names fs !! q = fs_names fs0 !! q -> read_file fs q = read_file fs0 q.
Proof.
intros Ho Hd Hq Hn. unfold read_file. rewrite Hn. destruct (fs_names fs0 !! q) as [[|j]|] eqn:E; [done| |done].
rewrite Hd; [done|]. intros ->. by apply Hq, Ho.
Qed.

Section Receive.
Context `{E : Env} {R : RandOk E} {C : ClockRange E}.
Implicit Types (k : nat) (fs : FileSystem) (st : UploadStage).

Lemma committed_delivered fs0 st i c path fs :
  inside STAGING_DIR (st_staging_path st) -> committed fs0 st i c path fs -> delivered fs0 c path fs.
Proof.
intros Hsp [Hn Hd Ho Hoth Hp]. split; [done|].
assert (Hne : path <> st_staging_path st) by (intros Heq; apply (inside_disjoint path); [by rewrite Heq|done]).
split; [unfold read_file; by rewrite Hn, lookup_insert_eq, Hd|]. exists (st_staging_path st). split; [done|]. split.
- unfold read_file. by rewrite Hn, lookup_insert_ne, lookup_delete_eq.
- intros q Hq1 Hq2. assert (Hqn : fs_names fs !! q = fs_names fs0 !! q) by (by rewrite Hn, lookup_insert_ne, lookup_delete_ne).
  split; [done|]. by eapply read_other.
Qed.

(** A stage whose call failed: it owns its file, or has none. *)
Definition abandoned fs0 st fs : Prop :=
  (exists i, owns fs0 st i fs) \/ (st_fp st = None /\ st_staging_path st = [] /\ fs = fs0).

Lemma wp_abandon_stage fs0 st (Q : UploadStage -> nat -> FileSystem -> Prop) k fs :
  abandoned fs0 st fs -> (forall k' fs', undone fs0 fs' -> Q stage_zero k' fs') -> wp (upload_stage_abort st) Q k fs.
Proof.
intros [[i Hown]|(Hf & Hp & ->)] HQ.
2: { unfold upload_stage_abort. rewrite Hf, Hp. apply wp_bind, wp_ret, wp_bind, wp_ret, wp_ret, HQ. by left. }
apply (wp_abort fs0 st i); [done|]. intros k' fs' Hn Hd. apply HQ. right.
exists (st_staging_path st). split; [apply Hown|]. split.
- destruct Hn as [Hn|[_ Hj]]; [left|by right]. unfold read_file. by rewrite Hn, lookup_delete_eq.
- intros q Hq. assert (Hqn : fs_names fs' !! q = fs_names fs0 !! q).
  { destruct Hn as [Hn|[Hn _]]; rewrite Hn; [by rewrite lookup_delete_ne|by rewrite lookup_insert_ne]. }
  split; [done|]. by eapply read_other; [apply Hown|..].
Qed.

Lemma wp_aborted fs0 st i (Q : option cstring -> nat -> FileSystem -> Prop) k fs :
  owns fs0 st i fs -> (forall k' fs', undone fs0 fs' -> Q None k' fs') ->
  wp (upload_stage_abort st ;; ret None) Q k fs.
Proof. intros Hown HQ. apply wp_bind, (wp_abandon_stage fs0); [left; by exists i|]. intros k' fs' Hu. by apply wp_ret, HQ. Qed.

Lemma wp_write_all fs0 chunks max err (Q : Z * UploadStage -> nat -> FileSystem -> Prop) st i c k fs :
  held fs0 st i c fs -> st_sealed st = false -> 0 <= max < 2 ^ 63 -> Z.of_nat (length c) <= max -> Forall small chunks ->
  (forall k' st', owns fs0 st' i fs ->
     max < Z.of_nat (length (c ++ mjoin chunks)) \/ (exists j, env_io j = false) -> Q (-1, st') k' fs) ->
  (forall k' st', held fs0 st' i (c ++ mjoin chunks) fs -> Z.of_nat (length (c ++ mjoin chunks)) <= max ->
     st_staging_path st' = st_staging_path st -> st_original_name st' = st_original_name st -> Q (0, st') k' fs) ->
  wp (write_all st chunks max err) Q k fs.
Proof.
intros Hheld Hseal Hmax Hc Hsmall. revert st c k Hheld Hseal Hc.
induction Hsmall as [|data chunks Hd Hsmall IH]; intros st c k Hheld Hseal Hc H1 H0; simpl.
- apply wp_ret, H0; try done; by rewrite app_nil_r.
- change (mjoin (data :: chunks)) with (data ++ mjoin chunks) in *.
  apply wp_bind, (wp_write fs0 st i c); try done.
  + intros Hbig. cbv beta iota. reduce_tests. apply wp_ret, H1; [apply Hheld|]. left. rewrite app_assoc, length_app. lia.
  + intros k1 st1 e Hj Hown. cbv beta iota. reduce_tests. apply wp_ret, H1; [done|by right].
  + intros k1 st1 Hle Hheld1 Hs1 Hp1 Hn1. cbv beta iota. reduce_tests.
    apply (IH st1 (c ++ data)); try done; rewrite <- app_assoc; [done|].
    intros k2 st2 Hheld2 Hle2 Hp2 Hn2. apply H0; congruence.
Qed.

Lemma wp_receive filename chunks max err (Q : option cstring -> nat -> FileSystem -> Prop) k fs :
  fs_inv fs -> 0 <= max < 2 ^ 63 -> Forall small chunks ->
  (forall k' fs', refused fs chunks max -> undone fs fs' -> Q None k' fs') ->
  (forall k' path fs', Z.of_nat (length (mjoin chunks)) <= max -> delivered fs (mjoin chunks) path fs' -> Q (Some path) k' fs') ->
  wp (receive filename chunks max err) Q k fs.
Proof.
intros Hfs Hmax Hsmall H1 H0. unfold receive. apply wp_bind, wp_open; [done| |].
- intros k1 st e _ _ Hwhy. cbv beta iota. reduce_tests. apply wp_ret, H1; [|by left].
  destruct Hwhy as (j & [Hj|[Hj|[Hj|(p & Hp)]]]); unfold refused; [right; left; exists j; by left|right; left; exists j; by right|tauto|].
  do 4 right. exists STAGING_DIR, p. tauto.
- intros k1 st i fs1 Hheld Hseal Hname. cbv beta iota. reduce_tests. pose proof (own_path _ _ _ _ (proj1 Hheld)) as Hpath.
  apply wp_bind, (wp_write_all fs chunks max err _ st i []); try done; [simpl; lia| |].
  + intros k2 st2 Hown Hwhy. cbv beta iota. reduce_tests. apply (wp_aborted fs st2 i); [done|]. intros k3 fs3 Hu.
    apply H1; [|done]. destruct Hwhy as [Hbig|[j Hj]]; [by left|right; left; exists j; by right].
  + intros k2 st2 Hheld2 Hle Hp2 Hn2. cbv beta iota. reduce_tests. apply wp_bind, (wp_commit fs st2 i (mjoin chunks)); [done| |].
    * intros k3 st3 e fs3 Hwhy Hown. cbv beta iota. reduce_tests. apply (wp_aborted fs st3 i); [done|]. intros k4 fs4 Hu.
      apply H1; [|done]. destruct Hwhy as (j & [Hj|[Hj|(p & Hp)]]); unfold refused; [right; left; exists j; by right|tauto|].
      do 4 right. exists DOWNLOADS_DIR, p. tauto.
    * intros k3 st3 j fs3 path Hcom _ _. cbv beta iota. reduce_tests. apply wp_ret, H0; [done|].
      eapply committed_delivered; [|exact Hcom]. by rewrite Hp2.
Qed.
End Receive.

(** ** Sweeping the staging directory *)

Definition expired (fs : FileSystem) (age now : Z) (q : cstring) : Prop :=
  exists i name, fs_names fs !! q = Some (File i) /\ file_mtime fs i + age <= now /\
    q = STAGING_DIR ++ lit "/" ++ name /\ "/"%char ∉ name.

(** Only expired files of the staging directory are gone. *)
Definition swept_staging (age now : Z) (fs fs' : FileSystem) : Prop :=
  fs_data fs' = fs_data fs /\ fs_mtime fs' = fs_mtime fs /\
  forall q, fs_names fs' !! q = fs_names fs !! q \/ (fs_names fs' !! q = None /\ expired fs age now q).

Lemma swept_refl age now fs : swept_staging age now fs fs.
Proof. split; [done|]. split; [done|]. by left. Qed.

Lemma swept_trans age now fs1 fs2 fs3 :
  swept_staging age now fs1 fs2 -> swept_staging age now fs2 fs3 -> swept_staging age now fs1 fs3.
Proof.
intros (D1 & M1 & H1) (D2 & M2 & H2). split; [congruence|]. split; [congruence|]. intros q.
destruct (H2 q) as [E2|[E2 X2]].
- rewrite E2. apply H1.
- right. split; [done|]. destruct X2 as (i & n & Hi & Hm & Hq). exists i, n.
  destruct (H1 q) as [E1|[E1 _]]; [|congruence]. rewrite <- E1. split; [done|]. split; [|done].
  unfold file_mtime in *. by rewrite <- M1.
Qed.

Lemma no_slash_take n (s : cstring) : "/"%char ∉ s -> "/"%char ∉ take n s.
Proof. intros H Hin. apply H. rewrite <- (take_drop n s), elem_of_app. by left. Qed.

Section Cleanup.
Context `{E : Env}.
Implicit Types (k : nat) (fs : FileSystem).

(** An entry's path; long names would be cut, still inside the directory. *)
Lemma entry_path d : exists n,
  snprintf 512 [Str STAGING_DIR; Lit (lit "/"); Str d] = STAGING_DIR ++ lit "/" ++ take n d /\ ((length d <= 503)%nat -> take n d = d).
Proof.
exists 503%nat. split; [|intros; by apply take_ge]. unfold snprintf, sprintf. cbn [fmap list_fmap fmt_text mjoin list_join].
rewrite app_nil_r. reflexivity.
Qed.

Definition gone age now d fs fs' : Prop :=
  d <> lit "." -> d <> lit ".." -> (length d <= 503)%nat -> expired fs age now (STAGING_DIR ++ lit "/" ++ d) ->
  (forall j, env_io j = true) -> fs_names fs' !! (STAGING_DIR ++ lit "/" ++ d) = None.

Lemma wp_cleanup_entry age now d (Q : unit -> nat -> FileSystem -> Prop) k fs :
  c_string d -> "/"%char ∉ d ->
  (forall k' fs', swept_staging age now fs fs' -> gone age now d fs fs' -> Q tt k' fs') ->
  wp (cleanup_entry age now d) Q k fs.
Proof.
intros Hc Hd HQ. unfold cleanup_entry.
rewrite !strcmp_eqb by (done || by apply (bool_decide_eq_true_1 (c_string _)); vm_compute).
apply wp_if; intros Hdot.
{ apply wp_ret, HQ; [apply swept_refl|]. intros H1 H2. apply orb_true_iff in Hdot as [Hdot|Hdot]; bool_prop; done. }
destruct (entry_path d) as (n & Hp & Hn). cbv zeta. rewrite Hp. set (path := STAGING_DIR ++ lit "/" ++ take n d) in *.
assert (Hpath : (length d <= 503)%nat -> path = STAGING_DIR ++ lit "/" ++ d) by (intros; unfold path; by rewrite Hn).
unfold stat. apply wp_bind, wp_bind, wp_ask, wp_bind, wp_get, wp_ret.
destruct (env_io k) eqn:Eio.
2: { apply wp_ret, HQ; [apply swept_refl|]. intros _ _ _ _ Hio. by rewrite Hio in Eio. }
assert (Hkeep : (forall i, fs_names fs !! path = Some (File i) -> now < file_mtime fs i + age) -> Q tt (S k) fs).
{ intros Hno. apply HQ; [apply swept_refl|]. intros _ _ Hlen (i & m & Hi & Hm & _) _. exfalso.
  rewrite <- (Hpath Hlen) in Hi. apply Hno in Hi. lia. }
destruct (fs_names fs !! path) as [[|i]|] eqn:Ep; [by apply wp_ret, Hkeep| |by apply wp_ret, Hkeep].
apply wp_bind, wp_get, wp_if; intros Hage; bool_prop.
2: { apply wp_ret, Hkeep. intros i' [= <-]. lia. }
apply wp_bind. unfold unlink. apply wp_bind, wp_ask, wp_bind, wp_get. rewrite Ep. apply wp_if; intros Hio.
- apply wp_bind, wp_put, wp_ret, wp_ret, HQ.
  + split; [done|]. split; [done|]. intros q. simpl. destruct (decide (q = path)) as [->|Hne]; [|left; by apply lookup_delete_ne].
    right. split; [apply lookup_delete_eq|]. exists i, (take n d). split; [done|]. split; [done|]. split; [done|]. by apply no_slash_take.
  + intros _ _ Hlen _ _. rewrite <- (Hpath Hlen). apply lookup_delete_eq.
- apply wp_ret, wp_ret, HQ; [apply swept_refl|]. intros _ _ _ _ Hall. by rewrite Hall in Hio.
Qed.

Lemma wp_cleanup_entries age now l (Q : unit -> nat -> FileSystem -> Prop) k fs :
  Forall (fun d => c_string d /\ "/"%char ∉ d) l ->
  (forall k' fs', swept_staging age now fs fs' -> (forall d, d ∈ l -> gone age now d fs fs') -> Q tt k' fs') ->
  wp (cleanup_entries age now l) Q k fs.
Proof.
intros Hl. revert k fs. induction Hl as [|d l [Hc Hd] Hl IH]; intros k fs HQ; simpl.
- apply wp_ret, HQ; [apply swept_refl|]. intros d Hd. by apply elem_of_nil in Hd.
- apply wp_bind, wp_cleanup_entry; [done..|]. intros k1 fs1 Hs1 Hg1. apply IH. intros k2 fs2 Hs2 Hg2.
  apply HQ; [by eapply swept_trans|]. intros e He H1 H2 H3 H4 H5. destruct Hs2 as (_ & _ & Hn2).
  assert (Hstill : fs_names fs1 !! (STAGING_DIR ++ lit "/" ++ e) = None -> fs_names fs2 !! (STAGING_DIR ++ lit "/" ++ e) = None).
  { intros Hnone. destruct (Hn2 (STAGING_DIR ++ lit "/" ++ e)) as [Heq|[Heq _]]; congruence. }
  apply elem_of_cons in He as [->|He]; [by apply Hstill, Hg1|].
  destruct Hs1 as (_ & Hm1 & Hn1). destruct (Hn1 (STAGING_DIR ++ lit "/" ++ e)) as [Heq|[Heq _]]; [|auto].
  apply Hg2; [done..| |done]. destruct H4 as (i & m & Hi & Hm & Hq). exists i, m. rewrite Heq. split; [done|].
  split; [|done]. unfold file_mtime in *. by rewrite Hm1.
Qed.
End Cleanup.

(** Names of the file system are C strings. *)
Definition names_ok (fs : FileSystem) : Prop := forall p n, fs_names fs !! p = Some n -> c_string p.

Lemma readdir_ok fs d : names_ok fs -> Forall (fun e => c_string e /\ "/"%char ∉ e) (readdir fs d).
Proof.
intros Hn. unfold readdir. apply Forall_app. split.
- repeat constructor; try (by apply (bool_decide_eq_true_1 (c_string _)); vm_compute); by apply (bool_decide_eq_true_1 (_ ∉ _)); vm_compute.
- apply Forall_forall. intros e He. apply list_elem_of_omap in He as (p & Hp & He).
  destruct (strrchr p "/"%char) as [suf|] eqn:Es; [|done]. case_bool_decide; [|done]. injection He as <-.
  apply strrchr_some in Es as (x & y & -> & -> & Hy). split; [|done]. simpl.
  apply list_elem_of_fmap in Hp as ([p' n] & Hpe & Hp). simpl in Hpe. subst p'. apply elem_of_map_to_list, Hn in Hp.
  unfold c_string in Hp. apply Forall_app in Hp as [_ Hp]. by inversion Hp.
Qed.

Lemma readdir_complete fs name n : fs_names fs !! (STAGING_DIR ++ lit "/" ++ name) = Some n -> "/"%char ∉ name ->
  name ∈ readdir fs STAGING_DIR.
Proof.
intros Hp Hn. unfold readdir. apply elem_of_app. right. apply list_elem_of_omap.
exists (STAGING_DIR ++ lit "/" ++ name). split.
- apply list_elem_of_fmap. exists (STAGING_DIR ++ lit "/" ++ name, n). split; [done|]. by apply elem_of_map_to_list.
- change (STAGING_DIR ++ lit "/" ++ name) with (STAGING_DIR ++ "/"%char :: name) at 1. rewrite strrchr_app by done.
  by rewrite parent_inside, bool_decide_true by done.
Qed.

Lemma wp_ensure_directory `{E : Env} d (Q : Z -> nat -> FileSystem -> Prop) k fs : parent d = None ->
  (forall k1 fs1, (forall q n, fs_names fs !! q = Some n -> fs_names fs1 !! q = Some n) -> fs_data fs1 = fs_data fs ->
     (forall q, q <> d -> fs_names fs1 !! q = fs_names fs !! q) -> fs_names fs1 !! d = Some Dir -> Q 0 k1 fs1) ->
  (forall k1, (exists j, env_io j = false) \/ (exists i, fs_names fs !! d = Some (File i)) -> Q (-1) k1 fs) ->
  wp (ensure_directory d) Q k fs.
Proof.
intros Hpar H0 H1. unfold ensure_directory, stat, mkdir.
apply wp_bind, wp_bind, wp_ask, wp_bind, wp_get, wp_ret. destruct (env_io k) eqn:Eio.
- destruct (fs_names fs !! d) as [[|i]|] eqn:Ed; [by apply wp_ret, H0|apply wp_ret, H1; right; by exists i|].
  apply wp_bind, wp_bind, wp_ask, wp_bind, wp_get. rewrite Ed. unfold parent_ok. rewrite Hpar, andb_true_r.
  apply wp_if; intros Hio; [|apply wp_ret; reduce_tests; apply wp_ret, H1; left; by eexists].
  apply wp_bind, wp_put, wp_ret. reduce_tests. apply wp_ret, H0; simpl; try done; [|intros; by apply lookup_insert_ne|apply lookup_insert_eq].
  intros q n Hq. rewrite lookup_insert_ne; [done|]. intros ->. congruence.
- apply wp_bind, wp_bind, wp_ask, wp_bind, wp_get. assert (Hj : exists j, env_io j = false) by by exists k.
  unfold parent_ok. rewrite Hpar, andb_true_r. destruct (fs_names fs !! d) as [n|] eqn:Ed.
  + apply wp_ret. reduce_tests. apply wp_ret, H1. by left.
  + apply wp_if; intros Hio; [|apply wp_ret; reduce_tests; apply wp_ret, H1; by left].
    apply wp_bind, wp_put, wp_ret. reduce_tests. apply wp_ret, H0; simpl; try done; [|intros; by apply lookup_insert_ne|apply lookup_insert_eq].
    intros q n Hq. rewrite lookup_insert_ne; [done|]. intros ->. congruence.
Qed.

(** ** Theorems *)

(** C35: file names are made harmless.  Whatever the client sends, or when it
    sends nothing, the name used is not empty, has at most 255 characters and
    only letters, digits, dots, underscores and hyphens, so no directory
    separator.  A name that already is of that form is kept as it is. *)
Theorem sanitize_filename_safe filename :
  let name := sanitize_filename filename 256 in
  clean name /\ (0 < length name <= 255)%nat /\ ("/"%char ∉ name) /\
  (forall s, filename = Some s -> clean s -> (0 < length s <= 255)%nat -> name = s).
Proof.
cbv zeta. destruct (sanitized filename 256 ltac:(lia)) as [Hc Hl]. split; [done|]. split; [lia|].
split; [by apply clean_no_slash|]. intros s -> Hs Hlen. unfold sanitize_filename. destruct s as [|c s]; [simpl in Hlen; lia|].
rewrite (proj2 (strrchr_none _ _) (clean_no_slash _ Hs)).
assert (Hb : "\"%char ∉ c :: s).
{ intros Hin. unfold clean in Hs. rewrite Forall_forall in Hs. by apply Hs in Hin. }
rewrite (proj2 (strrchr_none _ _) Hb). cbv zeta. rewrite sanitize_loop_spec, take_ge by lia.
assert (Hid : forall t, clean t -> (fun c => if safe_char c then c else "_"%char) <$> t = t).
{ intros t Ht. induction Ht as [|x t Hx Ht IH]; [done|]. rewrite fmap_cons, IH. by rewrite Hx. }
rewrite Hid by done. by rewrite bool_decide_false.
Qed.

Section StorageTheorems.
Context (E : Env) (R : RandOk E) (C : ClockRange E).
Implicit Types (k : nat) (fs : FileSystem).

(** C8: an upload arrives whole or not at all.  Opening a stage, writing the
    chunks of a body in order and committing it, with an abort on the first
    failure, either puts a file into the downloads directory whose contents are
    exactly the concatenation of the chunks, within the size limit, and leaves
    no staging file; or it fails, for a stated reason, and leaves at most one
    staging file, and that only when the system refused an operation.  No other
    name or file changes in either case. *)
Theorem upload_all_or_nothing filename chunks max err k fs out k' fs' :
  fs_inv fs -> 0 <= max < 2 ^ 63 -> Forall small chunks ->
  receive filename chunks max err k fs = (out, (k', fs')) ->
  match out with
  | Some path => Z.of_nat (length (mjoin chunks)) <= max /\ delivered fs (mjoin chunks) path fs'
  | None => refused fs chunks max /\ undone fs fs'
  end.
Proof. intros Hfs Hmax Hs. to_wp. apply wp_receive; done. Qed.

(** C29: with the disk and the random generator working, every upload within
    the limit is accepted. *)
Theorem upload_succeeds (I : IoOk E) (T : RandTotal E) filename chunks max err k fs :
  fs_inv fs -> 0 <= max < 2 ^ 63 -> Forall small chunks -> Z.of_nat (length (mjoin chunks)) <= max ->
  fs_names fs !! STAGING_DIR = Some Dir -> fs_names fs !! DOWNLOADS_DIR = Some Dir ->
  (forall d p, d = STAGING_DIR \/ d = DOWNLOADS_DIR -> inside d p -> fs_names fs !! p <> Some Dir) ->
  exists path k' fs', receive filename chunks max err k fs = (Some path, (k', fs')) /\ delivered fs (mjoin chunks) path fs'.
Proof.
intros Hfs Hmax Hs Hle Hst Hdn Hnodir.
assert (H : wp (receive filename chunks max err) (fun out k' fs' => exists path, out = Some path /\ delivered fs (mjoin chunks) path fs') k fs).
{ apply wp_receive; [done..| |by intros k1 path fs1 _ Hd; exists path].
  intros k1 fs1 [Hbig|[(j & [Hj|Hj])|[Hj|[Hj|(d & p & Hd & Hp & Hn)]]]] _; exfalso.
  - lia.
  - by apply (rand_total j 8).
  - by rewrite io_ok in Hj.
  - done.
  - done.
  - by apply (Hnodir d p). }
unfold wp in H. destruct (receive filename chunks max err k fs) as [out [k1 fs1]]. destruct H as (path & -> & Hd). eauto.
Qed.

(** C36: the sweep of the staging directory removes what is old and nothing
    else.  After it every name still there is unchanged, every name gone was a
    regular file of the staging directory older than the limit, and file
    contents are untouched; when no operation is refused every such file is
    gone. *)
Theorem cleanup_correct age k fs k' fs' :
  names_ok fs -> cleanup_expired_staging_files age k fs = (tt, (k', fs')) ->
  swept_staging age (env_clock k) fs fs' /\
  (0 < age -> fs_names fs !! STAGING_DIR = Some Dir -> (forall j, env_io j = true) ->
   forall name, name <> lit "." -> name <> lit ".." -> (length name <= 503)%nat ->
     expired fs age (env_clock k) (STAGING_DIR ++ lit "/" ++ name) -> fs_names fs' !! (STAGING_DIR ++ lit "/" ++ name) = None).
Proof.
intros Hn. to_wp. unfold cleanup_expired_staging_files. apply wp_bind, wp_ask, wp_if; intros Hage; bool_prop.
{ apply wp_ret. split; [apply swept_refl|lia]. }
apply wp_bind, wp_ask, wp_bind, wp_get. destruct (env_io (S k)) eqn:Eio.
2: { apply wp_ret. split; [apply swept_refl|]. intros _ _ Hio. by rewrite Hio in Eio. }
destruct (fs_names fs !! STAGING_DIR) as [[|i]|] eqn:Ed; [|apply wp_ret; by split; [apply swept_refl|]..].
apply wp_cleanup_entries; [by apply readdir_ok|]. intros k1 fs1 Hs Hg. split; [done|].
intros _ _ Hio name H1 H2 H3 H4. apply Hg; try done. destruct H4 as (i & m & Hi & _ & Hq & Hm).
apply app_inj_1 in Hq as [_ Hq]; [|done]. apply app_inj_1 in Hq as [_ ->]; [|done]. by eapply readdir_complete.
Qed.

(** After a successful start both directories exist; names already there
    are kept, and with a working disk the start fails only when one of the two
    names is a regular file. *)
Theorem storage_init_correct k fs r k' fs' :
  storage_init k fs = (r, (k', fs')) ->
  (forall q n, fs_names fs !! q = Some n -> fs_names fs' !! q = Some n) /\ fs_data fs' = fs_data fs /\
  (r = 0 -> fs_names fs' !! DOWNLOADS_DIR = Some Dir /\ fs_names fs' !! STAGING_DIR = Some Dir) /\
  (r <> 0 -> r = -1 /\ ((exists j, env_io j = false) \/ exists d i, (d = DOWNLOADS_DIR \/ d = STAGING_DIR) /\ fs_names fs !! d = Some (File i))).
Proof.
to_wp. unfold storage_init. apply wp_bind, wp_ensure_directory; [done| |].
2: { intros k1 Hwhy. reduce_tests. apply wp_ret. split; [done|]. split; [done|]. split; [done|]. intros _. split; [done|].
     destruct Hwhy as [?|[i Hi]]; [by left|]. right. exists DOWNLOADS_DIR, i. tauto. }
intros k1 fs1 Hk1 Hd1 Ho1 He1. reduce_tests. apply wp_bind, wp_ensure_directory; [done| |].
- intros k2 fs2 Hk2 Hd2 Ho2 He2. reduce_tests. apply wp_ret. split; [auto|]. split; [congruence|]. split; [|done]. intros _.
  split; [|done]. by apply Hk2.
- intros k2 Hwhy. reduce_tests. apply wp_ret. split; [done|]. split; [done|]. split; [done|]. intros _. split; [done|].
  destruct Hwhy as [?|[i Hi]]; [by left|]. right. exists STAGING_DIR, i. split; [by right|]. by rewrite <- Ho1.
Qed.
End StorageTheorems.

(** ** Examples *)

Import Sample.

Definition fs0 : FileSystem := {| fs_names := ∅; fs_data := ∅; fs_mtime := ∅; fs_next := 0 |}.
Definition fs1 : FileSystem := final storage_init 0%nat fs0.

Lemma fs1_names : fs_names fs1 = <[STAGING_DIR := Dir]> {[DOWNLOADS_DIR := Dir]}.
Proof. apply (bool_decide_eq_true_1 _). vm_compute. reflexivity. Qed.

Lemma fs1_dirs p n : fs_names fs1 !! p = Some n -> n = Dir /\ (p = STAGING_DIR \/ p = DOWNLOADS_DIR).
Proof.
rewrite fs1_names. intros H. apply lookup_insert_Some in H as [[<- <-]|[_ H]]; [auto|].
apply lookup_singleton_Some in H as [<- <-]. auto.
Qed.

Lemma fs1_inv : fs_inv fs1.
Proof. split; intros; by repeat match goal with H : fs_names fs1 !! _ = Some _ |- _ => apply fs1_dirs in H as [? _] end. Qed.

Definition chunks1 : list cstring := [lit "hello "; lit "world"].

Lemma chunks1_small : Forall small chunks1.
Proof. repeat constructor; vm_compute; reflexivity. Qed.

Lemma upload_all_or_nothing_witness :
  exists path, result (receive (Some (lit "../../etc/pass wd")) chunks1 100 None) 5%nat fs1 = Some path /\
    read_file (final (receive (Some (lit "../../etc/pass wd")) chunks1 100 None) 5%nat fs1) path = Some (lit "hello world").
Proof.
pose proof (upload_all_or_nothing env rand_ok range_ok (Some (lit "../../etc/pass wd")) chunks1 100 None 5%nat fs1 _ _ _
  fs1_inv ltac:(lia) chunks1_small (run_eta _ _ _)) as H.
assert (Hr : result (receive (Some (lit "../../etc/pass wd")) chunks1 100 None) 5%nat fs1
  = Some (lit "downloads/1700000016_pass_wd")) by (vm_compute; reflexivity).
rewrite Hr in H. destruct H as (_ & _ & H & _). exists (lit "downloads/1700000016_pass_wd"). split; [exact Hr|exact H].
Defined.

Lemma upload_succeeds_witness :
  exists path k' fs', receive None chunks1 11 None 5%nat fs1 = (Some path, (k', fs')) /\ delivered fs1 (lit "hello world") path fs'.
Proof.
apply (upload_succeeds env rand_ok range_ok ios_ok rands_ok None chunks1 11 None 5%nat fs1 fs1_inv ltac:(lia) chunks1_small).
- vm_compute. discriminate.
- vm_compute. reflexivity.
- vm_compute. reflexivity.
- intros d p Hd (n & -> & Hne & Hn) Hp. apply fs1_dirs in Hp as [_ [Hp|Hp]]; destruct Hd; subst; discriminate Hp.
Defined.

(** A staging file left an hour and a second ago. *)
Definition fs2 : FileSystem := create_file (lit "staging/old") (start - 3601) fs1.

Lemma fs2_names_ok : names_ok fs2.
Proof.
intros p n Hp. change (fs_names fs2) with (<[lit "staging/old" := File (fs_next fs1)]> (fs_names fs1)) in Hp.
apply (bool_decide_eq_true_1 _). apply lookup_insert_Some in Hp as [[<- _]|[_ Hp]]; [by vm_compute|].
apply fs1_dirs in Hp as [_ [-> | ->]]; by vm_compute.
Qed.

Lemma cleanup_witness : fs_names (final (cleanup_expired_staging_files 3600) 0%nat fs2) !! lit "staging/old" = None.
Proof.
destruct (cleanup_correct env 3600 0%nat fs2 (tick (cleanup_expired_staging_files 3600) 0%nat fs2)
  (final (cleanup_expired_staging_files 3600) 0%nat fs2) fs2_names_ok
  ltac:(rewrite (run_eta (cleanup_expired_staging_files 3600)) at 1; by destruct (result _ _ _))) as [_ H].
apply (H ltac:(lia) ltac:(vm_compute; reflexivity) (fun _ => eq_refl) (lit "old")).
- discriminate.
- discriminate.
- vm_compute. lia.
- exists 0%nat, (lit "old"). split; [vm_compute; reflexivity|]. split; [vm_compute; discriminate|]. split; [reflexivity|].
  apply (bool_decide_eq_true_1 (_ ∉ _)). vm_compute. reflexivity.
Defined.

Lemma storage_init_witness : fs_names fs1 !! DOWNLOADS_DIR = Some Dir.
Proof.
destruct (storage_init_correct env 0%nat fs0 _ _ _ (run_eta _ _ _)) as (_ & _ & H & _).
apply H. vm_compute. reflexivity.
Defined.
