(* ===== verification/TransferQueue.v ===== *)
(** * TransferQueue: the queue of outgoing files and its worker
    (src/transfer_queue.c)

    The static variables are the fields of [QueueState], which also carries the
    file system the storage calls act on.  The worker thread is cut at its
    critical sections: [worker_take] up to the first unlock, the send outside
    the lock with its progress callbacks, [worker_finish] after it. *)

From stdpp Require Import base numbers list strings gmap.
From Stdlib Require Import ZArith Lia Ascii.
From S2P Require Import Prelude Effects CLib Crypto JsonUtils Storage.

Definition MAX_TRANSFER_JOBS : nat := 128.
Definition STAGING_RETENTION_SECONDS : Z := 86400.
Definition JOB_RETENTION_SECONDS : Z := 3600.

Inductive TransferJobStatus :=
| TRANSFER_JOB_UNUSED | TRANSFER_JOB_QUEUED | TRANSFER_JOB_IN_PROGRESS | TRANSFER_JOB_COMPLETED | TRANSFER_JOB_FAILED.

#[export] Instance status_eq_dec : EqDecision TransferJobStatus.
Proof. solve_decision. Defined.

Record TransferJob := {
  tj_in_use : bool; tj_job_id : cstring; tj_filepath : cstring; tj_target_ip : cstring; tj_target_port : Z;
  tj_pair_token : cstring; tj_status : TransferJobStatus; tj_error_message : cstring;
  tj_bytes_sent : Z; tj_total_bytes : Z; tj_created_at : Z; tj_updated_at : Z }.

#[export] Instance job_zero : Inhabited TransferJob := populate
  {| tj_in_use := false; tj_job_id := []; tj_filepath := []; tj_target_ip := []; tj_target_port := 0;
     tj_pair_token := []; tj_status := TRANSFER_JOB_UNUSED; tj_error_message := [];
     tj_bytes_sent := 0; tj_total_bytes := 0; tj_created_at := 0; tj_updated_at := 0 |}.

Record QueueState := {
  queue_lock : mutex; queue_initialized : bool; queue_running : bool;
  jobs : list TransferJob; pending_queue : list nat;
  queue_head : nat; queue_tail : nat; queue_count : nat;
  queue_fs : FileSystem }.

Definition set_queue_lock v s := {| queue_lock := v; queue_initialized := queue_initialized s; queue_running := queue_running s;
  jobs := jobs s; pending_queue := pending_queue s; queue_head := queue_head s; queue_tail := queue_tail s;
  queue_count := queue_count s; queue_fs := queue_fs s |}.
Definition set_queue_initialized v s := {| queue_lock := queue_lock s; queue_initialized := v; queue_running := queue_running s;
  jobs := jobs s; pending_queue := pending_queue s; queue_head := queue_head s; queue_tail := queue_tail s;
  queue_count := queue_count s; queue_fs := queue_fs s |}.
Definition set_queue_running v s := {| queue_lock := queue_lock s; queue_initialized := queue_initialized s; queue_running := v;
  jobs := jobs s; pending_queue := pending_queue s; queue_head := queue_head s; queue_tail := queue_tail s;
  queue_count := queue_count s; queue_fs := queue_fs s |}.
Definition set_jobs v s := {| queue_lock := queue_lock s; queue_initialized := queue_initialized s; queue_running := queue_running s;
  jobs := v; pending_queue := pending_queue s; queue_head := queue_head s; queue_tail := queue_tail s;
  queue_count := queue_count s; queue_fs := queue_fs s |}.
Definition set_ring p h t c s := {| queue_lock := queue_lock s; queue_initialized := queue_initialized s; queue_running := queue_running s;
  jobs := jobs s; pending_queue := p; queue_head := h; queue_tail := t; queue_count := c; queue_fs := queue_fs s |}.
Definition set_queue_fs v s := {| queue_lock := queue_lock s; queue_initialized := queue_initialized s; queue_running := queue_running s;
  jobs := jobs s; pending_queue := pending_queue s; queue_head := queue_head s; queue_tail := queue_tail s;
  queue_count := queue_count s; queue_fs := v |}.

#[export] Instance queue_mutex : HasMutex QueueState := {
  get_mutex := queue_lock; set_mutex := set_queue_lock; get_set_mutex m s := eq_refl }.

(** [jobs[index] = job] *)
Definition set_job index job s := set_jobs (<[index := job]> (jobs s)) s.

(** The static variables before [transfer_queue_init]. *)
Definition queue_boot (fs : FileSystem) : QueueState := {|
  queue_lock := MUninit; queue_initialized := false; queue_running := false;
  jobs := replicate MAX_TRANSFER_JOBS inhabitant; pending_queue := replicate MAX_TRANSFER_JOBS 0%nat;
  queue_head := 0; queue_tail := 0; queue_count := 0; queue_fs := fs |}.

Definition transfer_status_name (status : TransferJobStatus) : cstring :=
  match status with
  | TRANSFER_JOB_QUEUED => lit "queued"
  | TRANSFER_JOB_IN_PROGRESS => lit "in_progress"
  | TRANSFER_JOB_COMPLETED => lit "completed"
  | TRANSFER_JOB_FAILED => lit "failed"
  | TRANSFER_JOB_UNUSED => lit "unused"
  end.

(** Assignments to fields of a job. *)
Definition job_with_status st now (j : TransferJob) : TransferJob :=
  {| tj_in_use := tj_in_use j; tj_job_id := tj_job_id j; tj_filepath := tj_filepath j; tj_target_ip := tj_target_ip j;
     tj_target_port := tj_target_port j; tj_pair_token := tj_pair_token j; tj_status := st; tj_error_message := tj_error_message j;
     tj_bytes_sent := tj_bytes_sent j; tj_total_bytes := tj_total_bytes j; tj_created_at := tj_created_at j; tj_updated_at := now |}.
Definition job_with_progress sent total now (j : TransferJob) : TransferJob :=
  {| tj_in_use := tj_in_use j; tj_job_id := tj_job_id j; tj_filepath := tj_filepath j; tj_target_ip := tj_target_ip j;
     tj_target_port := tj_target_port j; tj_pair_token := tj_pair_token j; tj_status := TRANSFER_JOB_IN_PROGRESS;
     tj_error_message := tj_error_message j;
     tj_bytes_sent := sent; tj_total_bytes := total; tj_created_at := tj_created_at j; tj_updated_at := now |}.
Definition job_finished st path err now (j : TransferJob) : TransferJob :=
  {| tj_in_use := tj_in_use j; tj_job_id := tj_job_id j; tj_filepath := path; tj_target_ip := tj_target_ip j;
     tj_target_port := tj_target_port j; tj_pair_token := tj_pair_token j; tj_status := st; tj_error_message := err;
     tj_bytes_sent := tj_bytes_sent j; tj_total_bytes := tj_total_bytes j; tj_created_at := tj_created_at j; tj_updated_at := now |}.

Section Queue.
Context `{E : Env}.

(** A call of storage.c on the file system of the process. *)
Definition storage {A} (m : M FileSystem A) : M QueueState A := zoom queue_fs set_queue_fs m.

Definition transfer_job_cleanup (index : nat) : M QueueState unit :=
  s <- get ;;
  let job := jobs s !!! index in
  if negb (tj_in_use job) then ret tt
  else
    (if negb (bool_decide (tj_filepath job = []))
     then _ <- storage (storage_delete_file (Some (tj_filepath job))) ;; ret tt
     else ret tt) ;;
    modify (set_job index inhabitant).

Definition prune_body (now : Z) (index : nat) : M QueueState (option unit) :=
  s <- get ;;
  let job := jobs s !!! index in
  if negb (tj_in_use job) then ret None
  else
    if (bool_decide (tj_status job = TRANSFER_JOB_COMPLETED) || bool_decide (tj_status job = TRANSFER_JOB_FAILED)) &&
       (tj_updated_at job + JOB_RETENTION_SECONDS <=? now)
    then transfer_job_cleanup index ;; ret None
    else ret None.

Definition prune_terminal_jobs_locked : M QueueState unit :=
  now <- time_NULL ;;
  _ <- for_range MAX_TRANSFER_JOBS 0 (prune_body now) ;;
  ret tt.

(** The index of the new job and the text left in [job_id_out]. *)
Definition transfer_job_create (filepath target_ip : cstring) (target_port : Z) (pair_token : cstring)
    (job_id_out : option nat) : M QueueState (Z * nat * option cstring) :=
  prune_terminal_jobs_locked ;;
  index <- for_range MAX_TRANSFER_JOBS 0 (fun index =>
             s <- get ;; if negb (tj_in_use (jobs s !!! index)) then ret (Some index) else ret None) ;;
  match index with
  | None => ret (-1, 0%nat, None)
  | Some index =>
      let* (r, token) := crypto_random_token (Some 17%nat) 8 in
      if negb (r =? 0) then ret (-1, 0%nat, None)
      else
        now <- time_NULL ;;
        created <- time_NULL ;;
        let job := {| tj_in_use := true;
                      tj_job_id := snprintf 65 [Long now; Lit (lit "-"); Str (default [] token)];
                      tj_filepath := snprintf 512 [Str filepath]; tj_target_ip := snprintf 46 [Str target_ip];
                      tj_target_port := target_port; tj_pair_token := snprintf 65 [Str pair_token];
                      tj_status := TRANSFER_JOB_QUEUED; tj_error_message := [];
                      tj_bytes_sent := 0; tj_total_bytes := 0; tj_created_at := created; tj_updated_at := created |} in
        modify (set_job index job) ;;
        ret (0, index, match job_id_out with
                       | Some size => if (0 <? size)%nat then Some (snprintf size [Str (tj_job_id job)]) else None
                       | None => None
                       end)
  end.

Definition transfer_job_progress (bytes_sent total_bytes : Z) (job : option nat) : M QueueState unit :=
  match job with
  | None => ret tt
  | Some index =>
      r <- pthread_lock ;;
      if negb (r =? 0) then ret tt
      else
        s <- get ;;
        let job := jobs s !!! index in
        (if tj_in_use job
         then now <- time_NULL ;; modify (set_job index (job_with_progress bytes_sent total_bytes now job))
         else ret tt) ;;
        pthread_unlock
  end.

(** Appends whose results are ignored. *)
Fixpoint run_all (ops : list (JsonBuf -> M QueueState (Z * JsonBuf))) (b : JsonBuf) : M QueueState JsonBuf :=
  match ops with
  | [] => ret b
  | op :: ops' => let* (_, b') := op b in run_all ops' b'
  end.

Definition job_pieces (job : TransferJob) : list (JsonBuf -> M QueueState (Z * JsonBuf)) :=
  [ app_lit (jlit "{'job_id':'");
    app_esc (tj_job_id job);
    app_lit (jlit "','status':'");
    app_esc (transfer_status_name (tj_status job));
    app_lit (jlit "','target_ip':'");
    app_esc (tj_target_ip job);
    app_fmt [Lit (jlit "','target_port':"); UInt (tj_target_port job);
             Lit (jlit ",'bytes_sent':"); Size (tj_bytes_sent job);
             Lit (jlit ",'total_bytes':"); Size (tj_total_bytes job);
             Lit (jlit ",'created_at':"); Long (tj_created_at job);
             Lit (jlit ",'updated_at':"); Long (tj_updated_at job);
             Lit (jlit ",'error_message':'")];
    app_esc (tj_error_message job);
    app_lit (jlit "'}") ].

Definition append_job_json (job : TransferJob) (b : JsonBuf) : M QueueState JsonBuf := run_all (job_pieces job) b.

(** *** The worker thread *)

(** What the worker does next. *)
Inductive taken := TakeWait | TakeStop | TakeSkip | TakeJob (index : nat).

(** From the top of the loop to the first unlock.  [TakeWait] stands for
    [pthread_cond_wait], which gives the lock back until the next signal. *)
Definition worker_take : M QueueState taken :=
  _ <- pthread_lock ;;
  s <- get ;;
  if queue_running s && (queue_count s =? 0)%nat then pthread_unlock ;; ret TakeWait
  else if negb (queue_running s) && (queue_count s =? 0)%nat then pthread_unlock ;; ret TakeStop
  else
    let job_index := pending_queue s !!! queue_head s in
    modify (set_ring (pending_queue s) ((queue_head s + 1) mod MAX_TRANSFER_JOBS)%nat (queue_tail s) (queue_count s - 1)) ;;
    s <- get ;;
    let job := jobs s !!! job_index in
    if negb (tj_in_use job) then pthread_unlock ;; ret TakeSkip
    else
      now <- time_NULL ;;
      modify (set_job job_index (job_with_status TRANSFER_JOB_IN_PROGRESS now job)) ;;
      pthread_unlock ;;
      ret (TakeJob job_index).

(** After [transfer_send_file] returned [send_result]. *)
Definition worker_finish (job_index : nat) (send_result : Z) : M QueueState unit :=
  _ <- pthread_lock ;;
  s <- get ;;
  let job := jobs s !!! job_index in
  if negb (tj_in_use job) then pthread_unlock
  else
    now <- time_NULL ;;
    (if send_result =? 0 then
       (if negb (bool_decide (tj_filepath job = []))
        then _ <- storage (storage_delete_file (Some (tj_filepath job))) ;; ret tt
        else ret tt) ;;
       modify (set_job job_index (job_finished TRANSFER_JOB_COMPLETED [] [] now job))
     else
       modify (set_job job_index (job_finished TRANSFER_JOB_FAILED (tj_filepath job)
         (snprintf 256 [Str (lit "Falha ao enviar o arquivo para o peer remoto")]) now job))) ;;
    pthread_unlock.

(** *** The interface *)

Definition transfer_queue_init : M QueueState Z :=
  s <- get ;;
  if queue_initialized s then ret 0
  else
    r <- pthread_init ;;
    if negb (r =? 0) then ret (-1)
    else
      cond <- ask env_init ;;
      if negb (cond =? 0) then pthread_destroy ;; ret (-1)
      else
        modify (set_jobs (replicate MAX_TRANSFER_JOBS inhabitant)) ;;
        modify (fun s => set_ring (pending_queue s) 0 0 0 s) ;;
        modify (set_queue_running true) ;;
        storage (cleanup_expired_staging_files STAGING_RETENTION_SECONDS) ;;
        thread <- ask env_init ;;
        if negb (thread =? 0)
        then pthread_destroy ;; modify (set_queue_running false) ;; ret (-1)
        else modify (set_queue_initialized true) ;; ret 0.

(** The request part of [transfer_queue_shutdown]; the call then waits for the
    worker to leave its loop and destroys the lock. *)
Definition shutdown_request : M QueueState unit :=
  _ <- pthread_lock ;;
  modify (set_queue_running false) ;;
  pthread_unlock.

Definition transfer_enqueue (filepath target_ip : option cstring) (target_port : Z) (pair_token : option cstring)
    (job_id_out : option nat) : M QueueState (Z * option cstring) :=
  s <- get ;;
  match filepath, target_ip, pair_token with
  | Some filepath, Some target_ip, Some pair_token =>
      if negb (queue_initialized s) then ret (-1, None)
      else
        storage (cleanup_expired_staging_files STAGING_RETENTION_SECONDS) ;;
        r <- pthread_lock ;;
        if negb (r =? 0) then ret (-1, None)
        else
          s <- get ;;
          if (MAX_TRANSFER_JOBS <=? queue_count s)%nat then pthread_unlock ;; ret (-1, None)
          else
            let* (r, job_index, job_id) := transfer_job_create filepath target_ip target_port pair_token job_id_out in
            if negb (r =? 0) then pthread_unlock ;; ret (-1, job_id)
            else
              modify (fun s => set_ring (<[queue_tail s := job_index]> (pending_queue s)) (queue_head s)
                                        ((queue_tail s + 1) mod MAX_TRANSFER_JOBS)%nat (queue_count s + 1) s) ;;
              pthread_unlock ;;
              ret (0, job_id)
  | _, _, _ => ret (-1, None)
  end.

Definition transfer_status_get (job_id : option cstring) (json_out : bool) : M QueueState (Z * option cstring) :=
  s <- get ;;
  match job_id with
  | None => ret (-1, None)
  | Some job_id =>
      if negb (queue_initialized s) || negb json_out then ret (-1, None)
      else
        r <- pthread_lock ;;
        if negb (r =? 0) then ret (-1, None)
        else
          x <- for_range MAX_TRANSFER_JOBS 0 (fun index =>
                 s <- get ;;
                 if tj_in_use (jobs s !!! index) && (strcmp (tj_job_id (jobs s !!! index)) job_id =? 0)
                 then payload <- append_job_json (jobs s !!! index) empty_buf ;; ret (Some payload)
                 else ret None) ;;
          pthread_unlock ;;
          match x with
          | Some payload => ret (0, jb_buffer payload)
          | None => ret (-1, None)
          end
  end.

(** One round of the list; [None] is a read through a NULL pointer. *)
Definition list_body (index : nat) (payload : JsonBuf) : M QueueState (JsonBuf + unit) :=
  s <- get ;;
  let job := jobs s !!! index in
  if negb (tj_in_use job) then ret (inl payload)
  else
    match jb_buffer payload with
    | None => ret (inr tt)
    | Some text =>
        payload <- (if negb (bool_decide (text !!! (Z.to_nat (jb_length payload) - 1)%nat = "["%char))
                    then run_all [app_lit (lit ",")] payload else ret payload) ;;
        payload <- append_job_json job payload ;;
        ret (inl payload)
    end.

(** [None] when the call reads through a NULL pointer. *)
Definition transfer_status_list_json (json_out : bool) : M QueueState (option (Z * option cstring)) :=
  s <- get ;;
  if negb (queue_initialized s) || negb json_out then ret (Some (-1, None))
  else
    r <- pthread_lock ;;
    if negb (r =? 0) then ret (Some (-1, None))
    else
      payload <- run_all [app_lit (lit "[")] empty_buf ;;
      x <- for_acc MAX_TRANSFER_JOBS 0 list_body payload ;;
      match x with
      | inr _ => ret None
      | inl payload =>
          payload <- run_all [app_lit (lit "]")] payload ;;
          pthread_unlock ;;
          ret (Some (0, jb_buffer payload))
      end.
End Queue.

(** *** The worker's loop, once shutdown was requested

    [send filepath target_ip target_port pair_token] is the result of
    [transfer_send_file] with the progress it reports; [false] when the fuel runs out. *)
Section Worker.
Context `{E : Env} (send : cstring -> cstring -> Z -> cstring -> list (Z * Z) * Z).

Fixpoint report_progress (index : nat) (calls : list (Z * Z)) : M QueueState unit :=
  match calls with
  | [] => ret tt
  | (sent, total) :: calls' => transfer_job_progress sent total (Some index) ;; report_progress index calls'
  end.

Fixpoint transfer_worker_run (fuel : nat) : M QueueState bool :=
  match fuel with
  | O => ret false
  | S fuel' =>
      t <- worker_take ;;
      match t with
      | TakeStop => ret true
      | TakeWait | TakeSkip => transfer_worker_run fuel'
      | TakeJob index =>
          s <- get ;;
          let job := jobs s !!! index in
          let '(calls, send_result) := send (tj_filepath job) (tj_target_ip job) (tj_target_port job) (tj_pair_token job) in
          report_progress index calls ;;
          worker_finish index send_result ;;
          transfer_worker_run fuel'
      end
  end.

(** The call, with the worker draining the queue while it is joined. *)
Definition transfer_queue_shutdown (fuel : nat) : M QueueState bool :=
  s <- get ;;
  if negb (queue_initialized s) then ret true
  else
    shutdown_request ;;
    joined <- transfer_worker_run fuel ;;
    pthread_destroy ;;
    modify (set_queue_initialized false) ;;
    ret joined.
End Worker.
