(* ===== verification/TransferQueueSpec.v ===== *)
(** * TransferQueueSpec: the queue is a FIFO and its worker is safe

    An invariant ties the ring buffer to the queued jobs; a step relation
    interleaves the callers and the worker at the critical sections of the
    code; the abstract queue is the list of accepted requests not yet
    started. *)

From stdpp Require Import base numbers list strings gmap.
From Stdlib Require Import ZArith Lia Ascii.
From S2P Require Import Prelude Effects CLib Crypto JsonUtils JsonValue Storage TransferQueue.

(** ** The invariant *)

(** What a job asks for; it is fixed when the job is accepted. *)
Record request := { rq_id : cstring; rq_path : cstring; rq_ip : cstring; rq_port : Z; rq_token : cstring }.
Definition request_of (j : TransferJob) : request :=
  {| rq_id := tj_job_id j; rq_path := tj_filepath j; rq_ip := tj_target_ip j; rq_port := tj_target_port j; rq_token := tj_pair_token j |}.

Definition queued (j : TransferJob) : Prop := tj_in_use j = true /\ tj_status j = TRANSFER_JOB_QUEUED.
Definition in_flight (j : TransferJob) : Prop := tj_in_use j = true /\ tj_status j = TRANSFER_JOB_IN_PROGRESS.
Definition terminal (j : TransferJob) : Prop :=
  tj_in_use j = true /\ (tj_status j = TRANSFER_JOB_COMPLETED \/ tj_status j = TRANSFER_JOB_FAILED).

Definition job_at (s : QueueState) (i : nat) : TransferJob := jobs s !!! i.

(** The indices waiting in the ring, oldest first. *)
Definition slot (s : QueueState) (n : nat) : nat := pending_queue s !!! ((queue_head s + n) mod MAX_TRANSFER_JOBS)%nat.
Definition ring (s : QueueState) : list nat := slot s <$> seq 0 (queue_count s).
(** The abstract queue. *)
Definition waiting (s : QueueState) : list request := (fun i => request_of (job_at s i)) <$> ring s.

Record queue_inv (s : QueueState) : Prop := {
  q_jobs_len : length (jobs s) = MAX_TRANSFER_JOBS;
  q_ring_len : length (pending_queue s) = MAX_TRANSFER_JOBS;
  q_head : (queue_head s < MAX_TRANSFER_JOBS)%nat;
  q_count : (queue_count s <= MAX_TRANSFER_JOBS)%nat;
  q_tail : queue_tail s = ((queue_head s + queue_count s) mod MAX_TRANSFER_JOBS)%nat;
  q_nodup : NoDup (ring s);
  q_ring i : i ∈ ring s -> (i < MAX_TRANSFER_JOBS)%nat /\ queued (job_at s i);
  q_queued i : (i < MAX_TRANSFER_JOBS)%nat -> queued (job_at s i) -> i ∈ ring s }.

(** ** Ring arithmetic *)

Lemma ring_lookup s n : (n < queue_count s)%nat -> ring s !! n = Some (slot s n).
Proof. intros. unfold ring. rewrite list_lookup_fmap, lookup_seq_lt by done. done. Qed.

Lemma ring_length s : length (ring s) = queue_count s.
Proof. unfold ring. by rewrite length_fmap, length_seq. Qed.

Lemma mod_wrap h n : (h < MAX_TRANSFER_JOBS)%nat -> (n <= MAX_TRANSFER_JOBS)%nat ->
  ((h + n) mod MAX_TRANSFER_JOBS = if (h + n <? MAX_TRANSFER_JOBS)%nat then h + n else h + n - MAX_TRANSFER_JOBS)%nat.
Proof.
intros Hh Hn. unfold MAX_TRANSFER_JOBS in *. destruct (Nat.ltb_spec (h + n) 128).
- by apply Nat.mod_small.
- symmetry. apply (Nat.mod_unique _ _ 1); lia.
Qed.

(** [pending_queue[queue_tail] = i] and the new tail and count; the new head
    and count of a take. *)
Definition push (i : nat) (s : QueueState) : QueueState :=
  set_ring (<[queue_tail s := i]> (pending_queue s)) (queue_head s)
    ((queue_tail s + 1) mod MAX_TRANSFER_JOBS)%nat (queue_count s + 1) s.
Definition pop (s : QueueState) : QueueState :=
  set_ring (pending_queue s) ((queue_head s + 1) mod MAX_TRANSFER_JOBS)%nat (queue_tail s) (queue_count s - 1) s.

Lemma ring_push s i : queue_inv s -> (queue_count s < MAX_TRANSFER_JOBS)%nat -> ring (push i s) = ring s ++ [i].
Proof.
intros H Hc. pose proof (q_head _ H) as Hh. pose proof (q_tail _ H) as Ht. pose proof (q_ring_len _ H) as Hl.
unfold ring, slot, push. cbn [pending_queue queue_head queue_count set_ring]. rewrite Nat.add_1_r, seq_S, fmap_app. cbn [fmap list_fmap]. f_equal.
- apply list_fmap_ext. intros j x Hx. apply lookup_seq in Hx as [-> Hj]. rewrite Ht.
  apply list_lookup_total_insert_ne. rewrite !mod_wrap by (done || lia).
  destruct (Nat.ltb_spec (queue_head s + queue_count s) MAX_TRANSFER_JOBS), (Nat.ltb_spec (queue_head s + (0 + j)) MAX_TRANSFER_JOBS); lia.
- f_equal. rewrite Nat.add_0_l, <- Ht. apply list_lookup_total_insert_eq. rewrite Hl, Ht. apply Nat.mod_upper_bound. done.
Qed.

Lemma ring_pop s : queue_inv s -> (0 < queue_count s)%nat ->
  ring s = (pending_queue s !!! queue_head s) :: ring (pop s).
Proof.
intros H Hc. pose proof (q_head _ H) as Hh. pose proof (q_count _ H) as Hm. unfold ring, slot, pop.
cbn [pending_queue queue_head queue_count set_ring]. destruct (queue_count s) as [|c] eqn:Ec; [lia|]. replace (S c - 1)%nat with c by lia.
cbn [seq fmap list_fmap]. f_equal.
- rewrite mod_wrap by lia. rewrite Nat.add_0_r. by destruct (Nat.ltb_spec (queue_head s) MAX_TRANSFER_JOBS); [|lia].
- rewrite <- seq_shift, <- list_fmap_compose. apply list_fmap_ext. intros j x Hx. apply lookup_seq in Hx as [-> Hj]. unfold compose.
  f_equal. rewrite Nat.Div0.add_mod_idemp_l. f_equal. lia.
Qed.

(** ** Changes that keep the ring *)

(** Everything but the jobs and the file system is the same. *)
Record same_queue (s s' : QueueState) : Prop := {
  same_lock : queue_lock s' = queue_lock s;
  same_init : queue_initialized s' = queue_initialized s;
  same_running : queue_running s' = queue_running s;
  same_pending : pending_queue s' = pending_queue s;
  same_head : queue_head s' = queue_head s;
  same_tail : queue_tail s' = queue_tail s;
  same_count : queue_count s' = queue_count s;
  same_len : length (jobs s') = length (jobs s) }.

Lemma same_queue_refl s : same_queue s s.
Proof. by split. Qed.
Lemma same_queue_trans s1 s2 s3 : same_queue s1 s2 -> same_queue s2 s3 -> same_queue s1 s3.
Proof. intros [] []. split; congruence. Qed.
Lemma same_queue_fs fs s : same_queue s (set_queue_fs fs s).
Proof. by split. Qed.
Lemma same_queue_job i j s : same_queue s (set_job i j s).
Proof. split; try done. simpl. apply length_insert. Qed.

Lemma same_ring s s' : same_queue s s' -> ring s' = ring s.
Proof. intros []. unfold ring, slot. by rewrite same_pending0, same_head0, same_count0. Qed.

(** The queued jobs, and what they ask for, are the same. *)
Lemma queue_inv_same s s' : queue_inv s -> same_queue s s' ->
  (forall i, (i < MAX_TRANSFER_JOBS)%nat -> queued (job_at s' i) <-> queued (job_at s i)) -> queue_inv s'.
Proof.
intros H Hs Hq. pose proof (same_ring _ _ Hs) as Hr. destruct Hs.
split; rewrite ?same_pending0, ?same_head0, ?same_tail0, ?same_count0, ?same_len0, ?Hr; try apply H.
- intros i Hi. destruct (q_ring _ H i Hi) as [Hl Hj]. split; [done|]. by apply Hq.
- intros i Hi Hj. apply H; [done|]. by apply Hq.
Qed.

Lemma waiting_same s s' : queue_inv s -> same_queue s s' ->
  (forall i, i ∈ ring s -> request_of (job_at s' i) = request_of (job_at s i)) -> waiting s' = waiting s.
Proof.
intros H Hs Hq. unfold waiting. rewrite (same_ring _ _ Hs). apply list_fmap_ext. intros n i Hi.
apply Hq. by eapply list_elem_of_lookup_2.
Qed.

Lemma job_at_set s i j n : (i < length (jobs s))%nat -> job_at (set_job i j s) n = if decide (n = i) then j else job_at s n.
Proof.
intros Hi. unfold job_at. simpl. destruct (decide (n = i)) as [->|Hne]; [by apply list_lookup_total_insert_eq|by apply list_lookup_total_insert_ne].
Qed.

(** ** Pruning and creating jobs *)

Definition pruned (now : Z) (s s' : QueueState) : Prop :=
  same_queue s s' /\
  forall i, job_at s' i = job_at s i \/
    (terminal (job_at s i) /\ tj_updated_at (job_at s i) + JOB_RETENTION_SECONDS <= now /\ job_at s' i = inhabitant).

Lemma pruned_refl now s : pruned now s s.
Proof. split; [apply same_queue_refl|]. by left. Qed.

Lemma terminal_not_queued j : terminal j -> ~ queued j.
Proof. intros [_ [H|H]] [_ Hq]; congruence. Qed.
Lemma terminal_not_in_flight j : terminal j -> ~ in_flight j.
Proof. intros [_ [H|H]] [_ Hq]; congruence. Qed.

(** Queued and in-flight jobs survive. *)
Lemma pruned_keeps now s s' i : pruned now s s' -> ~ terminal (job_at s i) -> job_at s' i = job_at s i.
Proof. intros [_ Hp] Hn. destruct (Hp i) as [?|(Ht & _)]; done. Qed.

Lemma pruned_queued now s s' i : pruned now s s' -> queued (job_at s' i) <-> queued (job_at s i).
Proof.
intros [_ Hp]. destruct (Hp i) as [->|(Ht & _ & ->)]; [done|].
split; [by intros [? _]|]. intros Hq. by apply terminal_not_queued in Ht.
Qed.

Lemma pruned_inv now s s' : queue_inv s -> pruned now s s' -> queue_inv s' /\ waiting s' = waiting s.
Proof.
intros H Hp. split.
- eapply queue_inv_same; [done|apply Hp|]. intros i _. by eapply pruned_queued.
- apply waiting_same; [done|apply Hp|]. intros i Hi. erewrite pruned_keeps; [done|exact Hp|].
  intros Ht. apply terminal_not_queued in Ht. apply Ht, (q_ring _ H i Hi).
Qed.

Section Ops.
Context `{E : Env}.
Implicit Types (k : nat) (s : QueueState).

(** A storage call only touches the file system. *)
Lemma wp_storage {A} (m : M FileSystem A) (Q : A -> nat -> QueueState -> Prop) k s :
  (forall a k' fs, Q a k' (set_queue_fs fs s)) -> wp (storage m) Q k s.
Proof. intros H. unfold storage. apply wp_zoom, wp_intro. intros a k' fs _. apply H. Qed.

Lemma wp_delete_if (b : bool) path (Q : unit -> nat -> QueueState -> Prop) k s :
  (forall k' fs, Q tt k' (set_queue_fs fs s)) -> Q tt k s ->
  wp (if b then _ <- storage (storage_delete_file (Some path)) ;; ret tt else ret tt) Q k s.
Proof. intros H1 H0. destruct b; [|by apply wp_ret]. apply wp_bind, wp_storage. intros a k' fs. by apply wp_ret. Qed.

Lemma wp_prune (Q : unit -> nat -> QueueState -> Prop) k s :
  length (jobs s) = MAX_TRANSFER_JOBS -> (forall k' s', pruned (env_clock k) s s' -> Q tt k' s') ->
  wp prune_terminal_jobs_locked Q k s.
Proof.
intros Hlen HQ. unfold prune_terminal_jobs_locked. apply wp_bind, wp_ask, wp_bind.
apply (wp_for_inv (fun _ s1 => pruned (env_clock k) s s1)); [apply pruned_refl| |intros; by apply wp_ret, HQ].
intros i k1 s1 Hi Hp. unfold prune_body. apply wp_bind, wp_get. cbv zeta. fold (job_at s1 i).
apply wp_if; intros Huse; [by apply wp_ret|]. apply wp_if; intros Hold; [|by apply wp_ret]. bool_prop.
assert (Hterm : terminal (job_at s1 i)).
{ split; [done|]. match goal with H : _ \/ _ |- _ => destruct H; bool_prop; auto end. }
assert (Hsame : job_at s1 i = job_at s i).
{ destruct Hp as [_ Hp]. destruct (Hp i) as [?|(_ & _ & Hz)]; [done|]. rewrite Hz in Huse. discriminate Huse. }
assert (Hdone : forall fs, pruned (env_clock k) s (set_job i inhabitant (set_queue_fs fs s1))).
{ intros fs. destruct Hp as [Hs Hp]. split; [eapply same_queue_trans; [exact Hs|]; eapply same_queue_trans; [apply same_queue_fs|apply same_queue_job]|].
  intros n. rewrite job_at_set by (simpl; rewrite (same_len _ _ Hs), Hlen; lia). destruct (decide (n = i)) as [->|]; [|apply Hp].
  right. rewrite <- Hsame. done. }
apply wp_bind. unfold transfer_job_cleanup. apply wp_bind, wp_get. cbv zeta. fold (job_at s1 i). rewrite Huse. reduce_tests.
apply wp_bind, wp_delete_if.
- intros k2 fs. apply wp_modify, wp_ret. apply Hdone.
- apply wp_modify, wp_ret. specialize (Hdone (queue_fs s1)). by destruct s1.
Qed.

(** The request a call makes. *)
Definition accepted_request (id path ip : cstring) (port : Z) (token : cstring) : request :=
  {| rq_id := id; rq_path := take 511 path; rq_ip := take 45 ip; rq_port := port; rq_token := take 64 token |}.

Lemma snprintf_str n (t : cstring) : snprintf n [Str t] = take (n - 1) t.
Proof. unfold snprintf. by rewrite sprintf_str. Qed.

Lemma wp_create `{!RandOk E} path ip port token (Q : Z * nat * option cstring -> nat -> QueueState -> Prop) k s :
  length (jobs s) = MAX_TRANSFER_JOBS ->
  (forall k' s', pruned (env_clock k) s s' ->
     (forall i, (i < MAX_TRANSFER_JOBS)%nat -> tj_in_use (job_at s' i) = true) \/ (exists j, env_rand j 8 = None) ->
     Q (-1, 0%nat, None) k' s') ->
  (forall k' s1 i j, pruned (env_clock k) s s1 -> (i < MAX_TRANSFER_JOBS)%nat -> tj_in_use (job_at s1 i) = false -> queued j ->
     request_of j = accepted_request (tj_job_id j) path ip port token -> (length (tj_job_id j) <= 64)%nat ->
     Q (0, i, Some (tj_job_id j)) k' (set_job i j s1)) ->
  wp (transfer_job_create path ip port token (Some 65%nat)) Q k s.
Proof.
intros Hlen H1 H0. unfold transfer_job_create. apply wp_bind, wp_prune; [done|]. intros k1 s1 Hp.
apply wp_bind, (wp_find _ (fun s i => negb (tj_in_use (jobs s !!! i))) (fun _ i => ret (Some i))).
2: { intros Hall. apply wp_ret, H1; [done|]. left. intros i Hi. specialize (Hall i Hi). by bool_prop. }
intros i Hi Hfree _. apply wp_ret. split; [done|]. bool_prop.
apply wp_bind, wp_random_token_why.
2: { intros k2 Hj. reduce_tests. apply wp_ret, H1; [done|by right]. }
intros k2 tok Htok. reduce_tests. apply wp_bind, wp_ask, wp_bind, wp_ask, wp_bind, wp_modify, wp_ret. cbv zeta.
cbn [Nat.ltb Nat.leb tj_job_id default from_option id].
set (jid := snprintf 65 [Long (env_clock k2); Lit (lit "-"); Str tok]).
assert (Hid : snprintf 65 [Str jid] = jid).
{ rewrite snprintf_str. apply take_ge. pose proof (snprintf_length 65 [Long (env_clock k2); Lit (lit "-"); Str tok]). unfold jid. lia. }
rewrite Hid. match goal with |- Q _ _ (set_job _ ?j _) => apply (H0 _ s1 i j Hp Hi Hfree) end; [done| |].
2: { cbn [tj_job_id]. pose proof (snprintf_length 65 [Long (env_clock k2); Lit (lit "-"); Str tok]). unfold jid. lia. }
unfold request_of, accepted_request.
cbn [tj_job_id tj_filepath tj_target_ip tj_target_port tj_pair_token]. by rewrite !snprintf_str.
Qed.
End Ops.

(** ** What each call does to the queue *)

Definition enqueued (now : Z) (s : QueueState) (r : request) (s' : QueueState) : Prop :=
  exists s1 i j, pruned now s s1 /\ (i < MAX_TRANSFER_JOBS)%nat /\ tj_in_use (job_at s1 i) = false /\ queued j /\
    request_of j = r /\ s' = push i (set_job i j s1).

Definition started (s : QueueState) (i : nat) (s' : QueueState) : Prop :=
  (i < MAX_TRANSFER_JOBS)%nat /\ queued (job_at s i) /\ exists now r, ring s = i :: r /\
    s' = set_job i (job_with_status TRANSFER_JOB_IN_PROGRESS now (job_at s i)) (pop s).

(** Another job than [i] is as it was. *)
Definition others_kept (i : nat) (s s' : QueueState) : Prop := forall n, n <> i -> job_at s' n = job_at s n.

Lemma job_at_push i s n : job_at (push i s) n = job_at s n.
Proof. done. Qed.

(** A job that is gone was pruned. *)
Definition kept_or_old (now : Z) (s s' : QueueState) : Prop :=
  forall n, tj_in_use (job_at s n) = true -> job_at s' n = job_at s n \/
    (terminal (job_at s n) /\ tj_updated_at (job_at s n) + JOB_RETENTION_SECONDS <= now).

Lemma pruned_kept_or_old now s s' : pruned now s s' -> kept_or_old now s s'.
Proof. intros [_ Hp] n _. destruct (Hp n) as [?|(? & ? & _)]; [by left|by right]. Qed.

Lemma enqueued_kept_or_old now s r s' : queue_inv s -> enqueued now s r s' -> kept_or_old now s s'.
Proof.
intros H (s1 & i & j & Hp & Hi & Hfree & _ & _ & ->) n Hu.
destruct (pruned_kept_or_old _ _ _ Hp n Hu) as [Hk|?]; [|by right]. left.
rewrite job_at_push, job_at_set by (rewrite (q_jobs_len _ (proj1 (pruned_inv _ _ _ H Hp))); done).
destruct (decide (n = i)) as [->|]; congruence.
Qed.

Lemma enqueued_inv now s r s' : queue_inv s -> (queue_count s < MAX_TRANSFER_JOBS)%nat -> enqueued now s r s' ->
  queue_inv s' /\ waiting s' = waiting s ++ [r] /\
  (forall n, in_flight (job_at s n) -> job_at s' n = job_at s n) /\ (forall n, in_flight (job_at s' n) -> job_at s' n = job_at s n).
Proof.
intros H Hc (s1 & i & j & Hp & Hi & Hfree & Hq & <- & ->).
destruct (pruned_inv _ _ _ H Hp) as [H1 Hw]. pose proof (q_jobs_len _ H1) as Hlen.
assert (Hc1 : (queue_count s1 < MAX_TRANSFER_JOBS)%nat) by (rewrite (same_count _ _ (proj1 Hp)); done).
assert (Hnot : i ∉ ring s1). { intros Hin. destruct (q_ring _ H1 i Hin) as [_ [Hu _]]. congruence. }
assert (Hring : ring (push i (set_job i j s1)) = ring s1 ++ [i]) by by apply (ring_push s1 i).
assert (Hjob : forall n, job_at (push i (set_job i j s1)) n = if decide (n = i) then j else job_at s1 n).
{ intros n. rewrite job_at_push. apply job_at_set. lia. }
split; [|split; [|split]].
- split; rewrite ?Hring; try apply H1.
  + cbn. by rewrite length_insert.
  + cbn [pending_queue push set_ring]. rewrite length_insert. apply H1.
  + cbn [queue_count push set_ring set_job set_jobs]. lia.
  + cbn [queue_tail queue_head queue_count push set_ring set_job set_jobs]. rewrite (q_tail _ H1), Nat.Div0.add_mod_idemp_l. f_equal. lia.
  + apply NoDup_app. split; [apply H1|]. split; [|apply NoDup_singleton]. intros x Hx. rewrite list_elem_of_singleton. by intros ->.
  + intros n Hn. rewrite Hjob. apply elem_of_app in Hn as [Hn|Hn]; [|apply list_elem_of_singleton in Hn as ->; by rewrite decide_True].
    rewrite decide_False by congruence. by apply H1.
  + intros n Hn Hqn. rewrite Hjob in Hqn. apply elem_of_app. destruct (decide (n = i)) as [->|]; [right; by apply list_elem_of_singleton|].
    left. by apply H1.
- rewrite <- Hw. unfold waiting. rewrite Hring, fmap_app. cbn [fmap list_fmap]. f_equal.
  + apply list_fmap_ext. intros n x Hx. rewrite Hjob, decide_False; [done|]. intros ->. apply Hnot. by eapply list_elem_of_lookup_2.
  + by rewrite Hjob, decide_True.
- intros n Hf. assert (Hn : job_at s1 n = job_at s n).
  { eapply pruned_keeps; [exact Hp|]. intros Ht. by apply terminal_not_in_flight in Ht. }
  rewrite Hjob, decide_False; [done|]. intros ->. rewrite Hn in Hfree. destruct Hf. congruence.
- intros n Hf. rewrite Hjob in *. destruct (decide (n = i)) as [->|]; [destruct Hf as [_ Hf], Hq as [_ Hq]; congruence|].
  destruct Hp as [_ Hp]. destruct (Hp n) as [?|(_ & _ & Hz)]; [done|]. rewrite Hz in Hf. by destruct Hf.
Qed.

Lemma started_inv s i s' : queue_inv s -> started s i s' ->
  queue_inv s' /\ waiting s = request_of (job_at s i) :: waiting s' /\ in_flight (job_at s' i) /\
  request_of (job_at s' i) = request_of (job_at s i) /\ others_kept i s s'.
Proof.
intros H (Hi & [Hu Hst] & now & r & Hr & ->). pose proof (q_jobs_len _ H) as Hlen.
assert (Hc : (0 < queue_count s)%nat) by (rewrite <- ring_length, Hr; simpl; lia).
pose proof (ring_pop s H Hc) as Hpop. rewrite Hr in Hpop. injection Hpop as Hhead Hrest.
set (j := job_with_status TRANSFER_JOB_IN_PROGRESS now (job_at s i)).
assert (Hjob : forall n, job_at (set_job i j (pop s)) n = if decide (n = i) then j else job_at s n).
{ intros n. apply (job_at_set (pop s)). cbn. lia. }
assert (Hring : ring (set_job i j (pop s)) = r) by (by rewrite Hrest).
pose proof (q_nodup _ H) as Hnd. rewrite Hr in Hnd. apply NoDup_cons in Hnd as [Hnot Hnd].
split; [|split; [|split; [|split]]].
- split; rewrite ?Hring; try (by apply H); try done.
  + cbn. by rewrite length_insert.
  + cbn [queue_head pop set_ring set_job set_jobs]. apply Nat.mod_upper_bound. done.
  + cbn [queue_count pop set_ring set_job set_jobs]. pose proof (q_count _ H). lia.
  + cbn [queue_tail queue_head queue_count pop set_ring set_job set_jobs]. rewrite (q_tail _ H), Nat.Div0.add_mod_idemp_l. f_equal. lia.
  + intros n Hn. rewrite Hjob, decide_False by congruence. apply H. rewrite Hr. by apply elem_of_cons; right.
  + intros n Hn Hqn. rewrite Hjob in Hqn. destruct (decide (n = i)) as [->|Hne]; [destruct Hqn; discriminate|].
    apply H in Hqn; [|done]. rewrite Hr in Hqn. by apply elem_of_cons in Hqn as [?|?].
- unfold waiting. rewrite Hring, Hr. cbn [fmap list_fmap]. f_equal. apply list_fmap_ext. intros n x Hx.
  rewrite Hjob, decide_False; [done|]. intros ->. apply Hnot. by eapply list_elem_of_lookup_2.
- rewrite Hjob, decide_True by done. by split.
- by rewrite Hjob, decide_True.
- intros n Hn. by rewrite Hjob, decide_False.
Qed.

(** Rewriting a job that is not queued into one that is not queued. *)
Lemma rewrite_job_inv s i j fs : queue_inv s -> (i < MAX_TRANSFER_JOBS)%nat -> ~ queued (job_at s i) -> ~ queued j ->
  queue_inv (set_job i j (set_queue_fs fs s)) /\ waiting (set_job i j (set_queue_fs fs s)) = waiting s /\
  job_at (set_job i j (set_queue_fs fs s)) i = j /\ others_kept i s (set_job i j (set_queue_fs fs s)).
Proof.
intros H Hi Hn Hj. pose proof (q_jobs_len _ H) as Hlen.
assert (Hjob : forall n, job_at (set_job i j (set_queue_fs fs s)) n = if decide (n = i) then j else job_at s n).
{ intros n. apply (job_at_set (set_queue_fs fs s)). cbn. lia. }
assert (Hsame : same_queue s (set_job i j (set_queue_fs fs s))).
{ eapply same_queue_trans; [apply same_queue_fs|apply same_queue_job]. }
split; [|split; [|split]].
- eapply queue_inv_same; [done..|]. intros n _. rewrite Hjob. destruct (decide (n = i)) as [->|]; [|done]. split; done.
- apply waiting_same; [done..|]. intros n Hin. rewrite Hjob, decide_False; [done|]. intros ->. by apply Hn, (q_ring _ H).
- by rewrite Hjob, decide_True.
- intros n Hne. by rewrite Hjob, decide_False.
Qed.

(** ** The operations *)

(** Between calls: initialised, the lock free. *)
Definition queue_ready (s : QueueState) : Prop := queue_inv s /\ queue_lock s = MFree.

Lemma queue_ready_fs fs s : queue_ready s -> queue_ready (set_queue_fs fs s).
Proof. intros [[] Hl]. by split. Qed.
Lemma inv_set_lock m s : queue_inv s -> queue_inv (set_queue_lock m s).
Proof. by intros []. Qed.
Lemma unlock_queue s : queue_lock s = MFree -> set_queue_lock MFree (set_queue_lock MHeld s) = s.
Proof. destruct s; simpl; by intros ->. Qed.
Lemma pruned_unlock now s s1 : queue_lock s = MFree -> pruned now (set_queue_lock MHeld s) s1 -> pruned now s (set_queue_lock MFree s1).
Proof. intros Hl [[] Hp]. split; [by split|exact Hp]. Qed.
Lemma pruned_fs now fs s s1 : pruned now (set_queue_fs fs s) s1 -> pruned now s s1.
Proof. intros [[] Hp]. split; [by split|exact Hp]. Qed.

Section Locked.
Context `{E : Env} {R : RandOk E}.
Implicit Types (k : nat) (s : QueueState).

Lemma wp_enqueue path ip port token (Q : Z * option cstring -> nat -> QueueState -> Prop) k s :
  queue_ready s -> queue_initialized s = true ->
  (forall k' j s', pruned (env_clock j) s s' -> Q (-1, None) k' s') ->
  (forall k' j id s', (queue_count s < MAX_TRANSFER_JOBS)%nat ->
     enqueued (env_clock j) s (accepted_request id path ip port token) s' -> queue_lock s' = MFree -> (length id <= 64)%nat -> Q (0, Some id) k' s') ->
  wp (transfer_enqueue (Some path) (Some ip) port (Some token) (Some 65%nat)) Q k s.
Proof.
intros [Hinv Hl] Hi H1 H0. unfold transfer_enqueue. apply wp_bind, wp_get. rewrite Hi. reduce_tests.
apply wp_bind, wp_storage. intros _ k1 fs. set (s0 := set_queue_fs fs s).
assert (Hp0 : forall now s', pruned now s0 s' -> pruned now s s') by (intros now s'; apply pruned_fs).
assert (Hl0 : queue_lock s0 = MFree) by exact Hl.
enter Hl0; [|apply wp_ret, (H1 _ 0%nat), Hp0, pruned_refl].
apply wp_bind, wp_get. apply wp_if; intros Hc.
{ leave. apply wp_ret. cbn [set_mutex queue_mutex]. rewrite unlock_queue by done. apply (H1 _ 0%nat), Hp0, pruned_refl. }
apply Nat.leb_gt in Hc. apply wp_bind, wp_create; [by apply Hinv| |].
- intros k2 s2 Hp _. cbv beta iota. reduce_tests. apply wp_bind, wp_unlock; [exact (same_lock _ _ (proj1 Hp))|].
  apply wp_ret. eapply H1, Hp0, pruned_unlock; [done|exact Hp].
- intros k2 s1 i j Hp Hlt Hfree Hq Hr Hid. cbv beta iota. reduce_tests. apply wp_bind, wp_modify, wp_bind, wp_unlock.
  { cbn [get_mutex queue_mutex]. exact (same_lock _ _ (proj1 Hp)). }
  apply wp_ret. eapply H0; [done| |done|done]. eexists (set_queue_lock MFree s1), i, j.
  split; [eapply Hp0, pruned_unlock; [done|exact Hp]|]. done.
Qed.

Lemma wp_take `{!LocksOk E} (Q : taken -> nat -> QueueState -> Prop) k s :
  queue_ready s ->
  (queue_count s = 0%nat -> queue_running s = true -> forall k', Q TakeWait k' s) ->
  (queue_count s = 0%nat -> queue_running s = false -> forall k', Q TakeStop k' s) ->
  (forall k' i s', started s i s' -> queue_lock s' = MFree -> Q (TakeJob i) k' s') ->
  wp worker_take Q k s.
Proof.
intros [Hinv Hl] Hw Hs Hj. unfold worker_take. apply wp_bind, wp_lock; [done| |intros r Hr Hk; by rewrite lock_ok in Hk].
intros _. apply wp_bind, wp_get. cbn [queue_running queue_count set_mutex queue_mutex set_queue_lock].
destruct (Nat.eqb_spec (queue_count s) 0) as [Hc|Hc].
- destruct (queue_running s) eqn:Hr; reduce_tests; leave; apply wp_ret; cbn [set_mutex queue_mutex]; rewrite unlock_queue by done; auto.
- rewrite !andb_false_r. apply wp_bind, wp_modify, wp_bind, wp_get.
  cbn [pending_queue queue_head queue_tail queue_count set_queue_lock].
  pose proof (ring_pop s Hinv ltac:(lia)) as Hring. set (i := pending_queue s !!! queue_head s) in *.
  destruct (q_ring _ Hinv i) as [Hi Hq]; [rewrite Hring; by apply elem_of_cons; left|]. pose proof Hq as [Hu _].
  cbv zeta. cbn [jobs set_ring set_queue_lock]. fold (job_at s i). rewrite Hu. reduce_tests.
  apply wp_bind, wp_ask, wp_bind, wp_modify. leave. apply wp_ret. apply Hj; [|done].
  split; [done|]. split; [done|]. eexists _, _. split; [exact Hring|]. by destruct s; simpl in Hl; subst.
Qed.

Lemma delete_is_unlink path : path <> [] -> storage_delete_file (Some path) = unlink path.
Proof. by destruct path. Qed.

(** The worker's job while it is sent. *)
Definition sending (s : QueueState) (i : nat) : Prop := (i < MAX_TRANSFER_JOBS)%nat /\ in_flight (job_at s i).

(** The job was rewritten into a job that is not queued and asks for the same. *)
Definition rewritten (s : QueueState) (i : nat) (j : TransferJob) (s' : QueueState) : Prop :=
  exists fs, s' = set_job i j (set_queue_fs fs s).

Lemma wp_progress sent total i (Q : unit -> nat -> QueueState -> Prop) k s :
  queue_ready s -> sending s i -> Q tt (S k) s ->
  (forall k' now, Q tt k' (set_job i (job_with_progress sent total now (job_at s i)) s)) ->
  wp (transfer_job_progress sent total (Some i)) Q k s.
Proof.
intros [Hinv Hl] [Hi [Hu _]] H1 H0. unfold transfer_job_progress. enter Hl; [|by apply wp_ret].
apply wp_bind, wp_get. cbv zeta. cbn [jobs set_mutex queue_mutex set_queue_lock]. fold (job_at s i). rewrite Hu.
apply wp_bind, wp_bind, wp_ask, wp_modify. cbv beta. apply wp_unlock; [done|].
specialize (H0 (S (S k)) (env_clock (S k))). destruct s; simpl in *; by subst.
Qed.

Definition failure_text : cstring := lit "Falha ao enviar o arquivo para o peer remoto".

(** Completion deletes the staged file; failure keeps it and records why. *)
Lemma wp_finish `{!LocksOk E} i res (Q : unit -> nat -> QueueState -> Prop) k s :
  queue_ready s -> sending s i ->
  (res <> 0 -> forall k' now, Q tt k' (set_job i (job_finished TRANSFER_JOB_FAILED (tj_filepath (job_at s i)) failure_text now (job_at s i)) s)) ->
  (res = 0 -> forall k' now fs, (tj_filepath (job_at s i) <> [] -> fs_names fs !! tj_filepath (job_at s i) = None \/ (exists j, env_io j = false) \/
       fs_names (queue_fs s) !! tj_filepath (job_at s i) = Some Dir) ->
     Q tt k' (set_job i (job_finished TRANSFER_JOB_COMPLETED [] [] now (job_at s i)) (set_queue_fs fs s))) ->
  wp (worker_finish i res) Q k s.
Proof.
intros [Hinv Hl] [Hi [Hu _]] H1 H0. unfold worker_finish. apply wp_bind, wp_lock; [done| |intros r Hr Hk; by rewrite lock_ok in Hk].
intros _. apply wp_bind, wp_get. cbv zeta. cbn [jobs set_mutex queue_mutex set_queue_lock]. fold (job_at s i). rewrite Hu. reduce_tests.
apply wp_bind, wp_ask, wp_bind. destruct (Z.eqb_spec res 0) as [Hr|Hr].
- apply wp_bind. case_bool_decide as Hnil; reduce_tests.
  + apply wp_ret, wp_modify. cbv beta. apply wp_unlock; [done|]. specialize (H0 Hr (S (S k)) (env_clock (S k)) (queue_fs s) ltac:(done)).
    destruct s; simpl in *; by subst.
  + apply wp_bind. unfold storage. apply wp_zoom. cbn [queue_fs set_queue_lock].
    rewrite delete_is_unlink by done. unfold unlink. apply wp_bind, wp_ask, wp_bind, wp_get.
    assert (Hdone : forall k' fs, (fs_names fs !! tj_filepath (job_at s i) = None \/ (exists j, env_io j = false) \/
       fs_names (queue_fs s) !! tj_filepath (job_at s i) = Some Dir) ->
      wp (ret tt) (fun _ k'' s'' => wp (modify (set_job i (job_finished TRANSFER_JOB_COMPLETED [] [] (env_clock (S k)) (job_at s i))))
        (fun _ k3 s3 => wp pthread_unlock Q k3 s3) k'' s'') k' (set_queue_fs fs (set_queue_lock MHeld s))).
    { intros k' fs Hwhy. apply wp_ret, wp_modify. cbv beta. apply wp_unlock; [done|].
      specialize (H0 Hr k' (env_clock (S k)) fs ltac:(done)). destruct s; simpl in *; by subst. }
    destruct (fs_names (queue_fs s) !! tj_filepath (job_at s i)) as [[|n]|] eqn:En.
    * apply wp_ret, Hdone. tauto.
    * apply wp_if; intros Hio.
      -- apply wp_bind, wp_put, wp_ret, Hdone. left. apply lookup_delete_eq.
      -- apply wp_ret, Hdone. right. left. by eexists.
    * apply wp_ret, Hdone. by left.
- apply wp_modify. cbv beta. apply wp_unlock; [done|]. specialize (H1 Hr (S (S k)) (env_clock (S k))). destruct s; simpl in *; by subst.
Qed.
End Locked.
