(* ===== verification/TransferQueueSystem.v ===== *)
(** * TransferQueueSystem: callers and worker together

    The step relation interleaves the calls of the server threads with the
    worker thread; the theorems hold in every interleaving. *)

From stdpp Require Import base numbers list strings gmap.
From Stdlib Require Import ZArith Lia Ascii.
From S2P Require Import Prelude Effects CLib Crypto JsonUtils JsonValue Storage TransferQueue TransferQueueSpec.

(** Where the worker is: at the top of its loop, inside [transfer_send_file]
    with the request it read, or out of its loop. *)
Inductive worker := Idle | Sending (i : nat) (r : request) | Stopped.
Record system := { sys_queue : QueueState; sys_worker : worker }.

Inductive event := EAccept (r : request) | EStart (r : request) | EFinish (r : request) (send_result : Z).

Definition after_take (t : taken) (q : QueueState) : worker :=
  match t with
  | TakeJob i => Sending i (request_of (job_at q i))
  | TakeStop => Stopped
  | TakeWait | TakeSkip => Idle
  end.
Definition take_event (t : taken) (q : QueueState) : list event :=
  match t with TakeJob i => [EStart (request_of (job_at q i))] | _ => [] end.

Section Steps.
Context `{E : Env}.

Inductive sys_step : system -> list event -> system -> Prop :=
| StepEnqueue q w path ip port token k r id k' q' :
    transfer_enqueue (Some path) (Some ip) port (Some token) (Some 65%nat) k q = ((r, id), (k', q')) ->
    sys_step {| sys_queue := q; sys_worker := w |}
      (if r =? 0 then [EAccept (accepted_request (default [] id) path ip port token)] else [])
      {| sys_queue := q'; sys_worker := w |}
| StepTake q k t k' q' :
    worker_take k q = (t, (k', q')) ->
    sys_step {| sys_queue := q; sys_worker := Idle |} (take_event t q') {| sys_queue := q'; sys_worker := after_take t q' |}
| StepProgress q i r sent total k k' q' :
    transfer_job_progress sent total (Some i) k q = (tt, (k', q')) ->
    sys_step {| sys_queue := q; sys_worker := Sending i r |} [] {| sys_queue := q'; sys_worker := Sending i r |}
| StepFinish q i r res k k' q' :
    worker_finish i res k q = (tt, (k', q')) ->
    sys_step {| sys_queue := q; sys_worker := Sending i r |} [EFinish r res] {| sys_queue := q'; sys_worker := Idle |}
| StepShutdown q w k k' q' :
    shutdown_request k q = (tt, (k', q')) ->
    sys_step {| sys_queue := q; sys_worker := w |} [] {| sys_queue := q'; sys_worker := w |}
| StepStatus q w id k x k' q' :
    transfer_status_get (Some id) true k q = (x, (k', q')) ->
    sys_step {| sys_queue := q; sys_worker := w |} [] {| sys_queue := q'; sys_worker := w |}
| StepList q w k x k' q' : (* a crash of the call ends the process *)
    transfer_status_list_json true k q = (Some x, (k', q')) ->
    sys_step {| sys_queue := q; sys_worker := w |} [] {| sys_queue := q'; sys_worker := w |}
| StepFiles q w fs : (* uploads of other threads *)
    sys_step {| sys_queue := q; sys_worker := w |} [] {| sys_queue := set_queue_fs fs q; sys_worker := w |}.

Inductive trace (s0 : system) : list event -> system -> Prop :=
| TraceNil : trace s0 [] s0
| TraceStep evs s e s' : trace s0 evs s -> sys_step s e s' -> trace s0 (evs ++ e) s'.
End Steps.

Definition accepted (evs : list event) : list request := omap (fun e => match e with EAccept r => Some r | _ => None end) evs.
Definition begun (evs : list event) : list request := omap (fun e => match e with EStart r => Some r | _ => None end) evs.
Definition finished (evs : list event) : list request := omap (fun e => match e with EFinish r _ => Some r | _ => None end) evs.
Definition sending_now (w : worker) : list request := match w with Sending _ r => [r] | _ => [] end.

(** ** The queue stays open

    Only [transfer_queue_shutdown] closes it, and the worker leaves its loop
    only once it is closed. *)
Section Open.
Context `{E : Env} {R : RandOk E}.
Implicit Types (k : nat) (q : QueueState).

Lemma pruned_running now q q' : pruned now q q' -> queue_running q' = queue_running q.
Proof. intros [Hs _]. apply Hs. Qed.

Lemma enqueue_running path ip port token k q : queue_ready q -> queue_initialized q = true ->
  wp (transfer_enqueue (Some path) (Some ip) port (Some token) (Some 65%nat)) (fun _ _ q' => queue_running q' = queue_running q) k q.
Proof.
intros Hq Hi. apply wp_enqueue; [done|done| |].
- intros k1 j q1 Hp. by eapply pruned_running.
- intros k1 j id q1 _ (q2 & i & jb & Hp & _ & _ & _ & _ & ->) _ _. exact (pruned_running _ _ _ Hp).
Qed.

Lemma take_running {L : LocksOk E} k q : queue_ready q ->
  wp worker_take (fun t _ q' => queue_running q' = queue_running q /\ (t = TakeStop -> queue_running q = false)) k q.
Proof.
intros Hq. apply wp_take; [done|done|done|]. intros k1 i q1 (_ & _ & now & r & _ & ->) _. by split.
Qed.

Lemma progress_running sent total i k q : queue_ready q -> sending q i ->
  wp (transfer_job_progress sent total (Some i)) (fun _ _ q' => queue_running q' = queue_running q) k q.
Proof. intros Hq Hs. by apply wp_progress. Qed.

Lemma finish_running {L : LocksOk E} i res k q : queue_ready q -> sending q i ->
  wp (worker_finish i res) (fun _ _ q' => queue_running q' = queue_running q) k q.
Proof. intros Hq Hs. by apply wp_finish. Qed.
End Open.

(** The invariant of the whole: the job being sent is in use, marked in
    progress and unchanged, and no other job is in progress. *)
Record sys_inv (s : system) : Prop := {
  si_ready : queue_ready (sys_queue s);
  si_init : queue_initialized (sys_queue s) = true;
  si_sending i r : sys_worker s = Sending i r -> sending (sys_queue s) i /\ request_of (job_at (sys_queue s) i) = r;
  si_only i : (i < MAX_TRANSFER_JOBS)%nat -> in_flight (job_at (sys_queue s) i) -> exists r, sys_worker s = Sending i r }.

Section StepInv.
Context `{E : Env} {R : RandOk E} {L : LocksOk E}.

(** What a step does to the abstract queue. *)
Definition step_ok (s : system) (e : list event) (s' : system) : Prop :=
  sys_inv s' /\
  waiting (sys_queue s) ++ accepted e = begun e ++ waiting (sys_queue s') /\
  sending_now (sys_worker s) ++ begun e = finished e ++ sending_now (sys_worker s').

(** A call that keeps the jobs in progress as they are. *)
Lemma kept_inv q w q' : sys_inv {| sys_queue := q; sys_worker := w |} -> queue_ready q' -> queue_initialized q' = true ->
  (forall n, in_flight (job_at q n) -> job_at q' n = job_at q n) -> (forall n, in_flight (job_at q' n) -> job_at q' n = job_at q n) ->
  sys_inv {| sys_queue := q'; sys_worker := w |}.
Proof.
intros [Hr Hi Hs Ho] Hr' Hi' Hk Hb. split; simpl in *; try done.
- intros i r Hw. destruct (Hs i r Hw) as [[Hlt Hf] Hreq]. rewrite (Hk i Hf). split; [split; [done|by rewrite (Hk i Hf)]|done].
- intros i Hlt Hf. apply (Ho i Hlt). by rewrite <- (Hb i Hf).
Qed.

Lemma pruned_kept now q w q' : sys_inv {| sys_queue := q; sys_worker := w |} -> pruned now q q' ->
  sys_inv {| sys_queue := q'; sys_worker := w |} /\ waiting q' = waiting q.
Proof.
intros Hs Hp. destruct (si_ready _ Hs) as [Hinv Hl]. simpl in *. destruct (pruned_inv _ _ _ Hinv Hp) as [Hinv' Hw]. split; [|done].
eapply kept_inv; [exact Hs|split; [done|by rewrite (same_lock _ _ (proj1 Hp))]|rewrite (same_init _ _ (proj1 Hp)); apply Hs| |].
- intros n Hf. eapply pruned_keeps; [exact Hp|]. intros Ht. by apply terminal_not_in_flight in Ht.
- intros n Hf. destruct Hp as [_ Hp]. destruct (Hp n) as [?|(_ & _ & Hz)]; [done|]. rewrite Hz in Hf. by destruct Hf.
Qed.

Lemma run_all_silent ops b k q : Forall Silent ops -> wp (run_all ops b) (fun _ _ q' => q' = q) k q.
Proof.
intros Ho. revert b k. induction Ho as [|op ops Hop Ho IH]; intros b k; simpl; [done|].
apply (silent_bind op); [done|]. intros [r b'] k' _. apply IH.
Qed.

Lemma job_pieces_silent j : Forall Silent (job_pieces j).
Proof. repeat constructor; apply _. Qed.

Lemma wp_status id out k q (Q : Z * option cstring -> nat -> QueueState -> Prop) :
  queue_ready q -> (forall x k', Q x k' q) -> wp (transfer_status_get (Some id) out) Q k q.
Proof.
intros [Hinv Hl] HQ. unfold transfer_status_get. apply wp_bind, wp_get, wp_if; intros Hg; [by apply wp_ret|].
enter Hl; [|by apply wp_ret]. apply wp_bind.
apply (wp_find _ (fun s i => tj_in_use (jobs s !!! i) && (strcmp (tj_job_id (jobs s !!! i)) id =? 0))
  (fun s i => payload <- append_job_json (jobs s !!! i) empty_buf ;; ret (Some payload))).
- intros i _ _ _. apply wp_bind. eapply wp_mono; [apply run_all_silent, job_pieces_silent|]. intros b k' q' ->.
  apply wp_ret. split; [done|]. leave. apply wp_ret. cbn [set_mutex queue_mutex]. by rewrite unlock_queue.
- intros _. leave. apply wp_ret. cbn [set_mutex queue_mutex]. by rewrite unlock_queue.
Qed.

Lemma list_body_silent i b k q (Q : JsonBuf + unit -> nat -> QueueState -> Prop) :
  (forall r k', Q r k' q) -> wp (list_body i b) Q k q.
Proof.
intros HQ. unfold list_body. apply wp_bind, wp_get, wp_if; intros _; [by apply wp_ret|].
destruct (jb_buffer b) as [text|]; [|by apply wp_ret]. apply wp_bind.
apply wp_mono with (fun _ _ q' => q' = q).
{ apply wp_if; intros _; [|by apply wp_ret]. apply run_all_silent. repeat constructor. apply _. }
intros b1 k1 ? ->. apply wp_bind. eapply wp_mono; [apply run_all_silent, job_pieces_silent|]. intros b2 k2 ? ->. by apply wp_ret.
Qed.

Lemma wp_list_silent k q (Q : option (Z * option cstring) -> nat -> QueueState -> Prop) :
  queue_ready q -> (forall x k', Q (Some x) k' q) -> (forall k' q', Q None k' q') -> wp (transfer_status_list_json true) Q k q.
Proof.
intros [Hinv Hl] HQ HN. unfold transfer_status_list_json. apply wp_bind, wp_get, wp_if; intros Hg; [by apply wp_ret|].
enter Hl; [|by apply wp_ret]. apply wp_bind.
eapply wp_mono; [apply run_all_silent; repeat constructor; apply _|]. intros b k1 ? ->.
apply wp_bind, (wp_for_acc (fun _ _ _ q' => q' = set_mutex MHeld q)); [done| |].
- intros n b1 k2 ? _ ->. apply list_body_silent. intros [b2|[]] k3; [done|by apply wp_ret].
- intros b1 k2 ? ->. apply wp_bind. eapply wp_mono; [apply run_all_silent; repeat constructor; apply _|]. intros b2 k3 ? ->.
  leave. apply wp_ret. cbn [set_mutex queue_mutex]. by rewrite unlock_queue.
Qed.

Lemma step_enqueue_ok q w path ip port token k r id k' q' :
  sys_inv {| sys_queue := q; sys_worker := w |} ->
  transfer_enqueue (Some path) (Some ip) port (Some token) (Some 65%nat) k q = ((r, id), (k', q')) ->
  step_ok {| sys_queue := q; sys_worker := w |}
    (if r =? 0 then [EAccept (accepted_request (default [] id) path ip port token)] else [])
    {| sys_queue := q'; sys_worker := w |}.
Proof.
intros Hs. pose proof (si_ready _ Hs) as Hq. pose proof (si_init _ Hs) as Hi. simpl in Hq, Hi. to_wp. cbn [fst snd].
apply wp_enqueue; [done..| |].
- intros k1 now q1 Hp. cbn [fst snd]. reduce_tests. destruct (pruned_kept _ _ _ _ Hs Hp) as [Hs1 Hw]. split; [done|].
  simpl. rewrite Hw. by rewrite !app_nil_r.
- intros k1 j1 id1 q1 Hc Henq Hl _. cbn [fst snd default from_option]. reduce_tests.
  destruct (enqueued_inv _ _ _ _ (proj1 Hq) Hc Henq) as (Hinv & Hw & Hk & Hb). split; [|simpl; rewrite Hw; by rewrite app_nil_r].
  eapply kept_inv; [exact Hs|by split| |done..]. destruct Henq as (s1 & ? & ? & Hp & _ & _ & _ & _ & ->).
  cbn. by rewrite (same_init _ _ (proj1 Hp)).
Qed.

Lemma step_take_ok q k t k' q' :
  sys_inv {| sys_queue := q; sys_worker := Idle |} -> worker_take k q = (t, (k', q')) ->
  step_ok {| sys_queue := q; sys_worker := Idle |} (take_event t q') {| sys_queue := q'; sys_worker := after_take t q' |}.
Proof.
intros Hs. pose proof (si_ready _ Hs) as Hq. simpl in Hq. to_wp. apply wp_take; [done|..].
- intros _ _ k1. split; [done|]. simpl. by rewrite app_nil_r.
- intros _ _ k1. split; [|simpl; by rewrite app_nil_r]. destruct Hs as [H1 H2 H3 H4]. split; simpl in *; try done.
  intros i Hi Hf. by destruct (H4 i Hi Hf).
- intros k1 i q1 Hst Hl. destruct (started_inv _ _ _ (proj1 Hq) Hst) as (Hinv & Hw & Hf & Hreq & Ho).
  assert (Hi : (i < MAX_TRANSFER_JOBS)%nat) by apply Hst. split; simpl.
  + split; simpl; [by split| | |].
    * destruct Hst as (_ & _ & ? & ? & _ & ->). apply Hs.
    * intros i' r [= <- <-]. done.
    * intros n Hn Hfn. destruct (decide (n = i)) as [->|Hne]; [eauto|]. rewrite (Ho n Hne) in Hfn.
      by destruct (si_only _ Hs n Hn Hfn).
  + rewrite Hw, Hreq. by rewrite app_nil_r.
Qed.

(** Rewriting the job being sent. *)
Lemma step_rewrite q i r fs j : sys_inv {| sys_queue := q; sys_worker := Sending i r |} -> ~ queued j ->
  queue_ready (set_job i j (set_queue_fs fs q)) /\ waiting (set_job i j (set_queue_fs fs q)) = waiting q /\
  job_at (set_job i j (set_queue_fs fs q)) i = j /\
  (forall n, (n < MAX_TRANSFER_JOBS)%nat -> in_flight (job_at (set_job i j (set_queue_fs fs q)) n) -> n = i).
Proof.
intros Hs Hj. destruct (si_ready _ Hs) as [Hinv Hl]. destruct (si_sending _ Hs i r eq_refl) as [[Hi Hf] _]. simpl in *.
destruct (rewrite_job_inv q i j fs Hinv Hi) as (H1 & H2 & H3 & H4); [intros [_ Hq]; destruct Hf; congruence|done|].
split; [by split|]. split; [done|]. split; [done|]. intros n Hn Hfn. destruct (decide (n = i)) as [|Hne]; [done|].
rewrite (H4 n Hne) in Hfn. destruct (si_only _ Hs n Hn Hfn) as (r' & [= -> _]). done.
Qed.

Lemma step_progress_ok q i r sent total k k' q' :
  sys_inv {| sys_queue := q; sys_worker := Sending i r |} -> transfer_job_progress sent total (Some i) k q = (tt, (k', q')) ->
  step_ok {| sys_queue := q; sys_worker := Sending i r |} [] {| sys_queue := q'; sys_worker := Sending i r |}.
Proof.
intros Hs He. pose proof (si_ready _ Hs) as Hq. destruct (si_sending _ Hs i r eq_refl) as [Hsend Hreq]. simpl in *.
refine (wp_use _ (fun _ _ q' => step_ok _ [] {| sys_queue := q'; sys_worker := Sending i r |}) _ _ _ _ _ _ He). clear He.
apply wp_progress; [done..| |].
- split; [done|]. simpl. by rewrite app_nil_r.
- intros k1 now. set (j := job_with_progress sent total now (job_at q i)).
  destruct (step_rewrite q i r (queue_fs q) j Hs) as (H1 & H2 & H3 & H4); [by intros [_ ?]|].
  replace (set_queue_fs (queue_fs q) q) with q in * by (by destruct q). split; [|simpl; by rewrite H2, app_nil_r].
  split; simpl; [done|apply Hs| |].
  + intros i' r' [= <- <-]. rewrite H3. split; [|exact Hreq]. destruct Hsend as [Hi [Hu _]]. split; [done|]. rewrite H3. by split.
  + intros n Hn Hf. rewrite (H4 n Hn Hf). eauto.
Qed.

Lemma step_finish_ok q i r res k k' q' :
  sys_inv {| sys_queue := q; sys_worker := Sending i r |} -> worker_finish i res k q = (tt, (k', q')) ->
  step_ok {| sys_queue := q; sys_worker := Sending i r |} [EFinish r res] {| sys_queue := q'; sys_worker := Idle |}.
Proof.
intros Hs He. pose proof (si_ready _ Hs) as Hq. destruct (si_sending _ Hs i r eq_refl) as [Hsend Hreq]. simpl in *.
refine (wp_use _ (fun _ _ q' => step_ok _ [EFinish r res] {| sys_queue := q'; sys_worker := Idle |}) _ _ _ _ _ _ He). clear He.
assert (Hdone : forall fs j, tj_status j = TRANSFER_JOB_COMPLETED \/ tj_status j = TRANSFER_JOB_FAILED ->
  step_ok {| sys_queue := q; sys_worker := Sending i r |} [EFinish r res]
    {| sys_queue := set_job i j (set_queue_fs fs q); sys_worker := Idle |}).
{ intros fs j Hj. destruct (step_rewrite q i r fs j Hs) as (H1 & H2 & H3 & H4); [intros [_ ?]; destruct Hj; congruence|].
  split; [|simpl; by rewrite H2, app_nil_r]. split; simpl; [done|apply Hs|done|].
  intros n Hn Hf. rewrite (H4 n Hn Hf), H3 in Hf. destruct Hf, Hj; congruence. }
apply wp_finish; [done..| |].
- intros _ k1 now. specialize (Hdone (queue_fs q)). replace (set_queue_fs (queue_fs q) q) with q in Hdone by (by destruct q).
  apply Hdone. by right.
- intros _ k1 now fs _. apply Hdone. by left.
Qed.

Lemma step_preserves s e s' : sys_inv s -> sys_step s e s' -> step_ok s e s'.
Proof.
intros Hs Hstep. destruct Hstep as [q w path ip port token k r id k' q' He|q k t k' q' He|q i r sent total k k' q' He
  |q i r res k k' q' He|q w k k' q' He|q w id k x k' q' He|q w k x k' q' He|q w fs].
- by eapply step_enqueue_ok.
- by eapply step_take_ok.
- by eapply step_progress_ok.
- by eapply step_finish_ok.
- refine (wp_use _ (fun _ _ q' => step_ok _ [] {| sys_queue := q'; sys_worker := w |}) _ _ _ _ _ _ He). destruct (si_ready _ Hs) as [Hinv Hl].
  unfold shutdown_request. apply wp_bind, wp_lock; [done| |intros r Hr Hk; by rewrite lock_ok in Hk].
  intros _. apply wp_bind, wp_modify, wp_unlock; [done|]. split; [|simpl; by rewrite !app_nil_r].
  eapply kept_inv; [exact Hs|split; [by destruct Hinv|done]|apply Hs|done..].
- refine (wp_use _ (fun _ _ q' => step_ok _ [] {| sys_queue := q'; sys_worker := w |}) _ _ _ _ _ _ He).
  apply wp_status; [apply Hs|]. intros _ _. split; [done|]. simpl. by rewrite !app_nil_r.
- refine (wp_use _ (fun x _ q' => x <> None -> step_ok _ [] {| sys_queue := q'; sys_worker := w |}) _ _ _ _ _ _ He _); [|done].
  apply wp_list_silent; [apply Hs| |done]. intros _ _ _. split; [done|]. simpl. by rewrite !app_nil_r.
- split; [|simpl; by rewrite !app_nil_r]. destruct (si_ready _ Hs) as [Hinv Hl].
  eapply kept_inv; [exact Hs|split; [by destruct Hinv|done]|apply Hs|done..].
Qed.
End StepInv.

(** ** Start-up *)

Lemma zero_jobs q n : jobs q = replicate MAX_TRANSFER_JOBS inhabitant -> job_at q n = inhabitant.
Proof.
intros Hq. unfold job_at. rewrite Hq, list_lookup_total_alt. destruct (decide (n < MAX_TRANSFER_JOBS)%nat).
- by rewrite lookup_replicate_2.
- rewrite lookup_ge_None_2; [done|]. rewrite length_replicate. lia.
Qed.

(** A queue with no job and an empty ring. *)
Lemma fresh_inv q : jobs q = replicate MAX_TRANSFER_JOBS inhabitant -> length (pending_queue q) = MAX_TRANSFER_JOBS ->
  queue_head q = 0%nat -> queue_tail q = 0%nat -> queue_count q = 0%nat -> queue_lock q = MFree -> queue_initialized q = true ->
  sys_inv {| sys_queue := q; sys_worker := Idle |} /\ waiting q = [].
Proof.
intros Hj Hp Hh Ht Hc Hl Hi. assert (Hr : ring q = []) by (unfold ring; by rewrite Hc).
split; [|unfold waiting; by rewrite Hr]. split; simpl; try done.
- split; [|done]. split; rewrite ?Hr, ?Hh, ?Ht, ?Hc, ?Hj, ?length_replicate; try done.
  + unfold MAX_TRANSFER_JOBS. lia.
  + lia.
  + constructor.
  + intros i Hin. by apply elem_of_nil in Hin.
  + intros i _ [Hu _]. by rewrite (zero_jobs _ _ Hj) in Hu.
- intros i _ [Hu _]. by rewrite (zero_jobs _ _ Hj) in Hu.
Qed.

Lemma wp_queue_init `{E : Env} fs k :
  wp transfer_queue_init (fun r _ q =>
    (r = 0 -> sys_inv {| sys_queue := q; sys_worker := Idle |} /\ waiting q = [] /\ queue_running q = true) /\
    (r <> 0 -> r = -1 /\ queue_initialized q = false /\ queue_running q = false /\ queue_lock q = MUninit)) k (queue_boot fs).
Proof.
unfold transfer_queue_init. apply wp_bind, wp_get. cbn [queue_initialized queue_boot]. apply wp_bind.
unfold pthread_init. apply wp_bind, wp_ask, wp_if; intros Hi; [|apply wp_ret; rewrite Hi; by apply wp_ret].
apply wp_bind, wp_modify, wp_ret. rewrite Hi. reduce_tests. apply wp_bind, wp_ask, wp_if; intros Hc; [by apply wp_bind, wp_modify, wp_ret|].
do 3 (apply wp_bind, wp_modify). apply wp_bind, wp_storage. intros _ k1 fs1.
apply wp_bind, wp_ask, wp_if; intros Ht; [by apply wp_bind, wp_modify, wp_bind, wp_modify, wp_ret|].
apply wp_bind, wp_modify, wp_ret. split; [|done]. intros _.
match goal with |- sys_inv {| sys_queue := ?q |} /\ _ => destruct (fresh_inv q) as [H1 H2]; try done end.
Qed.

(** ** Draining *)

Section Drain.
Context `{E : Env} {R : RandOk E} {L : LocksOk E} (send : cstring -> cstring -> Z -> cstring -> list (Z * Z) * Z).
Implicit Types (k : nat) (q : QueueState).

(** The result of sending what a job asks for. *)
Definition send_result (r : request) : Z := snd (send (rq_path r) (rq_ip r) (rq_port r) (rq_token r)).
Definition outcome (r : request) : TransferJobStatus :=
  if send_result r =? 0 then TRANSFER_JOB_COMPLETED else TRANSFER_JOB_FAILED.

(** The worker is between jobs. *)
Definition at_rest q : Prop := queue_ready q /\ forall i, (i < MAX_TRANSFER_JOBS)%nat -> ~ in_flight (job_at q i).

(** While job [i] is sent nothing else moves. *)
Definition sending_only q0 i q : Prop :=
  queue_ready q /\ sending q i /\ request_of (job_at q i) = request_of (job_at q0 i) /\ others_kept i q0 q /\
  ring q = ring q0 /\ queue_running q = queue_running q0.

Lemma wp_report q0 i calls (Q : unit -> nat -> QueueState -> Prop) k q :
  sending_only q0 i q -> (forall k' q', sending_only q0 i q' -> Q tt k' q') -> wp (report_progress i calls) Q k q.
Proof.
revert k q. induction calls as [|[sent total] calls IH]; intros k q Hs HQ; simpl; [by apply wp_ret, HQ|].
pose proof Hs as (Hr & Hsend & Hreq & Ho & Hring & Hrun). apply wp_bind, wp_progress; [done..|by apply IH|].
intros k1 now. apply IH; [|done]. set (j := job_with_progress sent total now (job_at q i)).
destruct Hr as [Hinv Hl]. pose proof Hsend as [Hi [Hu Hst]].
destruct (rewrite_job_inv q i j (queue_fs q) Hinv Hi) as (H1 & H2 & H3 & H4); [intros [_ ?]; congruence|by intros [_ ?]|].
replace (set_queue_fs (queue_fs q) q) with q in * by (by destruct q).
split; [by split|]. split; [split; [done|]; rewrite H3; by split|]. split; [by rewrite H3|].
split; [intros n Hn; rewrite (H4 n Hn); auto|]. done.
Qed.

(** One round: the oldest job is sent and becomes terminal. *)
Definition round_done q i q' : Prop :=
  at_rest q' /\ ring q = i :: ring q' /\ queue_running q' = queue_running q /\
  terminal (job_at q' i) /\ tj_status (job_at q' i) = outcome (request_of (job_at q i)) /\ others_kept i q q'.

Lemma wp_round (Q : bool -> nat -> QueueState -> Prop) fuel k q :
  at_rest q -> queue_running q = false ->
  (queue_count q = 0%nat -> forall k', Q true k' q) ->
  (forall k' i q', round_done q i q' -> wp (transfer_worker_run send fuel) Q k' q') ->
  wp (transfer_worker_run send (S fuel)) Q k q.
Proof.
intros [Hready Hrest] Hrun Hstop Hround. cbn [transfer_worker_run]. apply wp_bind, wp_take; [done|congruence|intros; by apply wp_ret, Hstop|].
intros k1 i q1 Hst Hl. destruct (started_inv _ _ _ (proj1 Hready) Hst) as (Hinv1 & _ & Hf & Hreq & Ho).
pose proof Hst as (Hi & _ & now & rest & Hring & Hq1).
assert (Hring1 : ring q = i :: ring q1).
{ rewrite Hring. f_equal. assert (Hc : (0 < queue_count q)%nat) by (rewrite <- ring_length, Hring; simpl; lia).
  pose proof (ring_pop q (proj1 Hready) Hc) as Hp. rewrite Hring in Hp. injection Hp as _ ->. by rewrite Hq1. }
apply wp_bind, wp_get. cbv zeta. fold (job_at q1 i).
change (send (tj_filepath (job_at q1 i)) (tj_target_ip (job_at q1 i)) (tj_target_port (job_at q1 i)) (tj_pair_token (job_at q1 i)))
  with (let r := request_of (job_at q1 i) in send (rq_path r) (rq_ip r) (rq_port r) (rq_token r)). cbv zeta. rewrite Hreq.
set (req := request_of (job_at q i)) in *.
destruct (send (rq_path req) (rq_ip req) (rq_port req) (rq_token req)) as [calls res] eqn:Esend.
assert (Hres : send_result req = res) by (unfold send_result; by rewrite Esend).
apply wp_bind, (wp_report q1); [do 2 (split; [by split|]); by split|]. intros k2 q2 (Hr2 & Hs2 & Hreq2 & Ho2 & Hring2 & Hrun2).
assert (Hfin : forall k' fs j, terminal j -> tj_status j = outcome req ->
  wp (transfer_worker_run send fuel) Q k' (set_job i j (set_queue_fs fs q2))).
{ intros k' fs j Hterm Hstat. pose proof Hs2 as [_ [Hu2 Hst2]].
  destruct (rewrite_job_inv q2 i j fs (proj1 Hr2) Hi) as (H1 & H2 & H3 & H4); [intros [_ ?]; congruence|by apply terminal_not_queued|].
  apply (Hround _ i). split; [split; [split; [done|apply Hr2]|]|].
  - intros n Hn Hfn. destruct (decide (n = i)) as [->|Hne]; [rewrite H3 in Hfn; by apply terminal_not_in_flight in Hterm|].
    rewrite (H4 n Hne), (Ho2 n Hne), (Ho n Hne) in Hfn. by apply (Hrest n).
  - split; [rewrite Hring1, <- Hring2; done|]. split; [cbn; rewrite Hrun2, Hq1; done|]. rewrite H3. split; [done|]. split; [done|].
    intros n Hne. by rewrite (H4 n Hne), (Ho2 n Hne), (Ho n Hne). }
apply wp_bind, wp_finish; [done..| |].
- intros Hne k3 now3. specialize (Hfin k3 (queue_fs q2)). replace (set_queue_fs (queue_fs q2) q2) with q2 in Hfin by (by destruct q2).
  apply Hfin; [split; [apply Hs2|by right]|]. unfold outcome. rewrite Hres. by rewrite (proj2 (Z.eqb_neq res 0) Hne).
- intros Heq k3 now3 fs3 _. apply Hfin; [split; [apply Hs2|by left]|]. unfold outcome. by rewrite Hres, Heq.
Qed.

Lemma wp_drain fuel k q (Q : bool -> nat -> QueueState -> Prop) :
  at_rest q -> queue_running q = false -> (queue_count q < fuel)%nat ->
  (forall k' q', at_rest q' -> queue_count q' = 0%nat ->
     (forall i, i ∈ ring q -> terminal (job_at q' i) /\ tj_status (job_at q' i) = outcome (request_of (job_at q i))) ->
     (forall i, i ∉ ring q -> job_at q' i = job_at q i) -> Q true k' q') ->
  wp (transfer_worker_run send fuel) Q k q.
Proof.
revert k q. induction fuel as [|fuel IH]; intros k q Hrest Hrun Hf HQ; [lia|].
apply wp_round; [done..| |].
- intros Hc k1. apply HQ; [done..| |done]. intros i Hi. assert (Hr : ring q = []) by (unfold ring; by rewrite Hc).
  rewrite Hr in Hi. by apply elem_of_nil in Hi.
- intros k1 i q1 (Hrest1 & Hring & Hrun1 & Hterm & Hstat & Ho).
  assert (Hc1 : (queue_count q1 < fuel)%nat).
  { pose proof (f_equal length Hring) as Hlen. simpl in Hlen. rewrite !ring_length in Hlen. lia. }
  pose proof (q_nodup _ (proj1 (proj1 Hrest))) as Hnd. rewrite Hring in Hnd. apply NoDup_cons in Hnd as [Hnot _].
  apply IH; [done|congruence|done|]. intros k2 q2 Hrest2 Hc2 Hin Hout. apply HQ; [done..| |].
  + intros n Hn. rewrite Hring in Hn. apply elem_of_cons in Hn as [->|Hn]; [rewrite (Hout i Hnot); done|].
    destruct (Hin n Hn) as [Ht Hs]. rewrite (Ho n) in Hs by congruence. done.
  + intros n Hn. rewrite Hring in Hn. apply not_elem_of_cons in Hn as [Hne Hn]. by rewrite (Hout n Hn), (Ho n Hne).
Qed.

(** The whole call, with the worker between jobs. *)
Definition drained q q' : Prop :=
  queue_initialized q' = false /\ queue_count q' = 0%nat /\
  (forall i, (i < MAX_TRANSFER_JOBS)%nat -> ~ queued (job_at q' i) /\ ~ in_flight (job_at q' i)) /\
  (forall i, i ∈ ring q -> tj_status (job_at q' i) = outcome (request_of (job_at q i))) /\
  (forall i, i ∉ ring q -> job_at q' i = job_at q i).

Lemma wp_shutdown fuel k q : at_rest q -> queue_initialized q = true -> (queue_count q < fuel)%nat ->
  wp (transfer_queue_shutdown send fuel) (fun r _ q' => r = true /\ queue_lock q' = MUninit /\ drained q q') k q.
Proof.
intros Hrest Hi Hf. unfold transfer_queue_shutdown. apply wp_bind, wp_get. rewrite Hi. reduce_tests.
pose proof Hrest as [[Hinv Hl] Hno]. apply wp_bind. unfold shutdown_request.
apply wp_bind, wp_lock; [done| |intros r Hr Hk; by rewrite lock_ok in Hk]. intros _. apply wp_bind, wp_modify, wp_unlock; [done|].
apply wp_bind, wp_drain; [split; [split; [by destruct Hinv|done]|exact Hno]|done|exact Hf|].
intros k' q' [[Hinv' Hl'] Hno'] Hc' Hin Hout. apply wp_bind. unfold pthread_destroy. apply wp_modify, wp_bind, wp_modify, wp_ret.
split; [done|]. split; [cbn; by rewrite Hl'|]. split; [done|]. split; [done|]. split; [|split].
- intros i Hlt. split; [|by apply Hno']. intros Hq. apply (q_queued _ Hinv' i Hlt) in Hq. unfold ring in Hq. rewrite Hc' in Hq.
  by apply elem_of_nil in Hq.
- intros i Hr. by apply Hin.
- exact Hout.
Qed.
End Drain.
