(* ===== verification/TransferQueueJson.v ===== *)
(** * TransferQueueJson: the status reports of the queue

    With memory available the two report functions of TransferQueue.v emit
    well-formed JSON that says what the jobs are. *)

From stdpp Require Import base numbers list strings gmap.
From Stdlib Require Import ZArith Lia Ascii.
From S2P Require Import Prelude Effects CLib Crypto JsonUtils JsonValue Storage TransferQueue TransferQueueSpec TransferQueueSystem.

Definition job_json (j : TransferJob) : json := JObj [
  (lit "job_id", JStr (tj_job_id j)); (lit "status", JStr (transfer_status_name (tj_status j)));
  (lit "target_ip", JStr (tj_target_ip j)); (lit "target_port", JNum (tj_target_port j));
  (lit "bytes_sent", JNum (tj_bytes_sent j)); (lit "total_bytes", JNum (tj_total_bytes j));
  (lit "created_at", JNum (tj_created_at j)); (lit "updated_at", JNum (tj_updated_at j));
  (lit "error_message", JStr (tj_error_message j))].

(** The fields hold values of their C types. *)
Definition job_typed (j : TransferJob) : Prop :=
  c_string (tj_job_id j) /\ (length (tj_job_id j) <= 64)%nat /\ (length (tj_target_ip j) <= 45)%nat /\ (length (tj_error_message j) <= 255)%nat /\
  0 <= tj_target_port j < 2 ^ 16 /\ 0 <= tj_bytes_sent j < 2 ^ 64 /\ 0 <= tj_total_bytes j < 2 ^ 64 /\
  LONG_MIN <= tj_created_at j <= LONG_MAX /\ LONG_MIN <= tj_updated_at j <= LONG_MAX.

Definition jobs_typed (q : QueueState) : Prop := Forall job_typed (jobs q).

Definition job_numbers (j : TransferJob) : list fmt :=
  [Lit (jlit "','target_port':"); UInt (tj_target_port j); Lit (jlit ",'bytes_sent':"); Size (tj_bytes_sent j);
   Lit (jlit ",'total_bytes':"); Size (tj_total_bytes j); Lit (jlit ",'created_at':"); Long (tj_created_at j);
   Lit (jlit ",'updated_at':"); Long (tj_updated_at j); Lit (jlit ",'error_message':'")].

Definition job_texts (j : TransferJob) : list cstring :=
  [jlit "{'job_id':'"; escape (tj_job_id j); jlit "','status':'"; escape (transfer_status_name (tj_status j));
   jlit "','target_ip':'"; escape (tj_target_ip j); sprintf (job_numbers j); escape (tj_error_message j); jlit "'}"].

Lemma job_numbers_length j : job_typed j -> (length (sprintf (job_numbers j)) <= 300)%nat.
Proof.
intros (_ & _ & _ & _ & Hp & Hb & Ht & Hc & Hu).
pose proof (show_nat_length (tj_target_port j) 5 ltac:(lia) ltac:(lia)).
pose proof (show_nat_length (tj_bytes_sent j) 20 ltac:(lia) ltac:(lia)).
pose proof (show_nat_length (tj_total_bytes j) 20 ltac:(lia) ltac:(lia)).
pose proof (show_long_length _ Hc). pose proof (show_long_length _ Hu).
unfold sprintf, job_numbers. cbn [fmap list_fmap fmt_text mjoin list_join]. rewrite !length_app. simpl. lia.
Qed.

Lemma job_text j : job_typed j -> mjoin (job_texts j) = print (job_json j).
Proof.
intros (_ & _ & _ & _ & Hp & Hb & Ht & _). unfold job_json, job_texts, job_numbers. cbn [print map fst snd mjoin list_join].
rewrite (show_long_nat (tj_target_port j)), (show_long_nat (tj_bytes_sent j)), (show_long_nat (tj_total_bytes j)) by lia. json_text.
Qed.

Lemma status_name_length s : (length (transfer_status_name s) <= 11)%nat.
Proof. destruct s; vm_compute; lia. Qed.

Lemma job_text_length j : job_typed j -> (length (print (job_json j)) <= 3000)%nat.
Proof.
intros Hj. rewrite <- job_text by done. pose proof (job_numbers_length j Hj). destruct Hj as (_ & H1 & H2 & H3 & _).
pose proof (escape_length_le _ _ H1). pose proof (escape_length_le _ _ H2). pose proof (escape_length_le _ _ H3).
pose proof (escape_length_le _ _ (status_name_length (tj_status j))).
unfold job_texts. cbn [mjoin list_join]. generalize dependent (sprintf (job_numbers j)). intros t Ht. rewrite !length_app. simpl. lia.
Qed.

(** Every printed job ends with its brace. *)
Lemma job_text_last j : last (print (job_json j)) = Some "}"%char.
Proof. cbn [print job_json]. unfold lit at 1. rewrite !last_app. done. Qed.

Section Reports.
Context `{E : Env} {A : AllocOk E}.

Lemma wp_run_all ops ts b k q (Q : JsonBuf -> nat -> QueueState -> Prop) :
  Forall2 Adds ops ts -> buf_ok b -> roomy b (length (mjoin ts)) ->
  (forall k' b', grown b (mjoin ts) b' -> Q b' k' q) -> wp (run_all ops b) Q k q.
Proof.
intros Ho. revert b k. induction Ho as [|op t ops ts Hop Ho IH]; intros b k Hb Hr HQ; simpl.
- apply wp_ret, HQ. split; [done|]. split; [by rewrite app_nil_r|done].
- change (mjoin (t :: ts)) with (t ++ mjoin ts) in *. apply wp_bind, Hop; [done|eapply roomy_weaken; [|exact Hr]; rewrite length_app; lia| |].
  + intros k1 b1 Hg. apply IH; [apply Hg|by eapply grown_roomy|]. intros k2 b2 Hg2. by eapply HQ, grown_trans.
  + intros k1 b1 [j Hj]. by rewrite alloc_ok in Hj.
Qed.

Lemma job_pieces_adds j : job_typed j -> Forall2 Adds (job_pieces j) (job_texts j).
Proof.
intros Hj. unfold job_pieces, job_texts. repeat constructor; try apply _. fold (job_numbers j). apply app_fmt_adds.
pose proof (job_numbers_length j Hj). unfold INT_MAX. lia.
Qed.

Lemma wp_append_job j b k q (Q : JsonBuf -> nat -> QueueState -> Prop) :
  job_typed j -> buf_ok b -> roomy b 3000 -> (forall k' b', grown b (print (job_json j)) b' -> Q b' k' q) ->
  wp (append_job_json j b) Q k q.
Proof.
intros Hj Hb Hr HQ. unfold append_job_json. apply (wp_run_all _ (job_texts j)); [by apply job_pieces_adds|done| |].
- rewrite job_text by done. eapply roomy_weaken; [by apply job_text_length|done].
- by rewrite job_text.
Qed.

Lemma jobs_typed_at q i : queue_inv q -> jobs_typed q -> (i < MAX_TRANSFER_JOBS)%nat -> job_typed (job_at q i).
Proof.
intros H Ht Hi. eapply Forall_lookup_1; [exact Ht|]. apply list_lookup_lookup_total_lt. by rewrite (q_jobs_len _ H).
Qed.

Lemma grown_some t b : grown empty_buf t b -> t <> [] -> jb_buffer b = Some t.
Proof.
intros (_ & Hc & Hn) Ht. unfold contents in Hc. destruct (jb_buffer b) as [u|]; [simpl in Hc; by subst|]. by destruct (Hn eq_refl).
Qed.

Lemma print_not_nil v : print v <> [].
Proof. destruct (print_head v) as (c & t & -> & _). done. Qed.

Lemma wp_status_text id k q (Q : Z * option cstring -> nat -> QueueState -> Prop) :
  queue_ready q -> queue_initialized q = true -> jobs_typed q -> c_string id ->
  (env_lock k <> 0 -> Q (-1, None) (S k) q) ->
  (forall k', (forall i, (i < MAX_TRANSFER_JOBS)%nat -> tj_in_use (job_at q i) = true -> tj_job_id (job_at q i) <> id) -> Q (-1, None) k' q) ->
  (forall k' i, (i < MAX_TRANSFER_JOBS)%nat -> tj_in_use (job_at q i) = true -> tj_job_id (job_at q i) = id ->
     Q (0, Some (print (job_json (job_at q i)))) k' q) ->
  wp (transfer_status_get (Some id) true) Q k q.
Proof.
intros [Hinv Hl] Hi Ht Hid H1 H2 H0. unfold transfer_status_get. apply wp_bind, wp_get. rewrite Hi. reduce_tests.
enter Hl; [|apply wp_ret, H1; congruence]. apply wp_bind.
assert (Hmatch : forall i, (i < MAX_TRANSFER_JOBS)%nat ->
  (strcmp (tj_job_id (job_at q i)) id =? 0) = bool_decide (tj_job_id (job_at q i) = id)).
{ intros i Hlt. apply strcmp_eqb; [by apply (jobs_typed_at q i)|done]. }
apply (wp_find _ (fun s i => tj_in_use (jobs s !!! i) && (strcmp (tj_job_id (jobs s !!! i)) id =? 0))
  (fun s i => payload <- append_job_json (jobs s !!! i) empty_buf ;; ret (Some payload))).
- intros i Hlt Hm _. change (jobs (set_mutex MHeld q) !!! i) with (job_at q i) in *. rewrite Hmatch in Hm by done. bool_prop.
  apply wp_bind, wp_append_job; [by apply jobs_typed_at|apply buf_ok_empty|done|]. intros k1 b Hg.
  apply wp_ret. split; [done|]. leave. apply wp_ret. cbn [set_mutex queue_mutex]. rewrite unlock_queue by done.
  rewrite (grown_some _ _ Hg) by apply print_not_nil. by apply H0.
- intros Hno. leave. apply wp_ret. cbn [set_mutex queue_mutex]. rewrite unlock_queue by done. apply H2.
  intros i Hlt Hu Heq. specialize (Hno i Hlt). change (jobs (set_mutex MHeld q) !!! i) with (job_at q i) in *.
  rewrite Hu, Hmatch, bool_decide_true in Hno by done. discriminate Hno.
Qed.

(** *** The list of all jobs *)

Definition live_jobs (l : list TransferJob) : list TransferJob := filter (fun j => tj_in_use j = true) l.
Definition list_text (l : list TransferJob) : cstring := lit "[" ++ sep (map print (job_json <$> live_jobs l)).

Lemma live_snoc l j : live_jobs (l ++ [j]) = live_jobs l ++ (if tj_in_use j then [j] else []).
Proof. unfold live_jobs. rewrite filter_app. f_equal. simpl. rewrite filter_cons. destruct (tj_in_use j); simpl; done. Qed.

Lemma list_text_snoc l j : tj_in_use j = true ->
  list_text (l ++ [j]) = list_text l ++ (if bool_decide (live_jobs l = []) then [] else lit ",") ++ print (job_json j).
Proof.
intros Hu. unfold list_text. rewrite live_snoc, Hu, fmap_app, map_app. cbn [fmap list_fmap map]. rewrite sep_snoc, <- app_assoc.
do 2 f_equal. destruct (live_jobs l); [done|]. by rewrite bool_decide_false.
Qed.

(** The last character of the text so far. *)
Lemma list_text_last l : last (list_text l) = Some (if bool_decide (live_jobs l = []) then "["%char else "}"%char).
Proof.
unfold list_text. induction l as [|j l IH] using rev_ind; [done|].
destruct (tj_in_use j) eqn:Hu.
- fold (list_text (l ++ [j])). rewrite list_text_snoc by done. rewrite !last_app, job_text_last.
  rewrite live_snoc, Hu, bool_decide_false; [done|]. by destruct (live_jobs l).
- by rewrite live_snoc, Hu, app_nil_r.
Qed.

Lemma list_text_length l : Forall job_typed l -> (length (list_text l) <= 1 + 3001 * length l)%nat.
Proof.
induction l as [|j l IH] using rev_ind; intros Hf; [vm_compute; lia|]. apply Forall_app in Hf as [Hl Hj]. inversion Hj; subst.
specialize (IH Hl). rewrite (length_app l [j]). change (length [j]) with 1%nat. destruct (tj_in_use j) eqn:Hu.
- rewrite list_text_snoc by done. pose proof (job_text_length j ltac:(done)).
  assert (length (if bool_decide (live_jobs l = []) then [] else lit ",") <= 1)%nat by (destruct (bool_decide _); simpl; lia).
  rewrite (length_app (list_text l)), length_app. lia.
- unfold list_text in *. rewrite live_snoc, Hu, app_nil_r. lia.
Qed.

Lemma wp_list_body q0 q i b k (Q : JsonBuf + unit -> nat -> QueueState -> Prop) :
  queue_inv q0 -> jobs_typed q0 -> jobs q = jobs q0 -> (i < MAX_TRANSFER_JOBS)%nat ->
  grown empty_buf (list_text (take i (jobs q0))) b ->
  (forall k' b', grown empty_buf (list_text (take (S i) (jobs q0))) b' -> Q (inl b') k' q) ->
  wp (list_body i b) Q k q.
Proof.
intros Hinv Ht Hq Hi Hg HQ. pose proof (jobs_typed_at q0 i Hinv Ht Hi) as Hj.
assert (Hlook : jobs q0 !! i = Some (job_at q0 i)) by (apply list_lookup_lookup_total_lt; by rewrite (q_jobs_len _ Hinv)).
rewrite (take_S_r _ _ _ Hlook) in HQ. set (l := take i (jobs q0)) in *.
assert (Hl : Forall job_typed l) by (by apply Forall_take).
assert (Hlen : (length l <= 128)%nat) by (unfold l; rewrite length_take, (q_jobs_len _ Hinv); unfold MAX_TRANSFER_JOBS; lia).
pose proof (list_text_length l Hl) as Htl. unfold list_body. apply wp_bind, wp_get. cbv zeta. rewrite Hq. fold (job_at q0 i).
destruct (tj_in_use (job_at q0 i)) eqn:Hu; reduce_tests.
2: { apply wp_ret, HQ. unfold list_text. rewrite live_snoc, Hu, app_nil_r. exact Hg. }
pose proof (grown_some _ _ Hg ltac:(unfold list_text; done)) as Hbuf. rewrite Hbuf.
assert (Hblen : jb_length b = Z.of_nat (length (list_text l))).
{ destruct Hg as (Hb & _). unfold buf_ok in Hb. rewrite Hbuf in Hb. apply Hb. }
assert (Hlast : list_text l !!! (Z.to_nat (jb_length b) - 1)%nat = if bool_decide (live_jobs l = []) then "["%char else "}"%char).
{ rewrite Hblen, Nat2Z.id. apply list_lookup_total_correct. rewrite <- list_text_last, last_lookup. f_equal. lia. }
rewrite Hlast.
assert (Hjob : forall k1 b1, grown empty_buf (list_text l ++ if bool_decide (live_jobs l = []) then [] else lit ",") b1 ->
  wp (payload <- append_job_json (job_at q0 i) b1 ;; ret (inl payload)) Q k1 q).
{ intros k1 b1 Hg1. apply wp_bind, wp_append_job; [done|apply Hg1| |].
  - unfold roomy. destruct Hg1 as (_ & -> & _). cbn [contents empty_buf jb_buffer default from_option app].
    assert (length (if bool_decide (live_jobs l = []) then [] else lit ",") <= 1)%nat by (destruct (bool_decide _); simpl; lia).
    rewrite (length_app (list_text l)). lia.
  - intros k2 b2 Hg2. apply wp_ret, HQ. rewrite list_text_snoc by done. rewrite app_assoc. by eapply grown_trans. }
apply wp_bind. destruct (bool_decide (live_jobs l = [])) eqn:Hd.
- rewrite bool_decide_true by done. reduce_tests. apply wp_ret, Hjob. by rewrite app_nil_r.
- rewrite bool_decide_false by done. reduce_tests. apply (wp_run_all _ [lit ","]); [repeat constructor; apply _|apply Hg| |].
  + unfold roomy. destruct Hg as (_ & -> & _). cbn [contents empty_buf jb_buffer default from_option app].
    change (length (mjoin [lit ","])) with 1%nat. lia.
  + intros k1 b1 Hg1. apply Hjob. by eapply grown_trans.
Qed.

Lemma wp_list_cases k q (Q : option (Z * option cstring) -> nat -> QueueState -> Prop) :
  queue_ready q -> queue_initialized q = true -> jobs_typed q ->
  (env_lock k <> 0 -> Q (Some (-1, None)) (S k) q) ->
  (env_lock k = 0 -> forall k', Q (Some (0, Some (print (JArr (job_json <$> live_jobs (jobs q)))))) k' q) ->
  wp (transfer_status_list_json true) Q k q.
Proof.
intros [Hinv Hl] Hi Ht H1 H0. unfold transfer_status_list_json. apply wp_bind, wp_get. rewrite Hi. reduce_tests.
enter Hl; [|apply wp_ret, H1; congruence].
apply wp_bind, (wp_run_all _ [lit "["]); [repeat constructor; apply _|apply buf_ok_empty|done|]. intros k1 b1 Hg1.
apply wp_bind, (wp_for_acc (fun i b _ q' => q' = set_queue_lock MHeld q /\ grown empty_buf (list_text (take i (jobs q))) b)).
- split; [done|]. by rewrite take_0.
- intros i b k2 ? Hlt [-> Hg]. apply (wp_list_body q); [done..|lia|done|]. intros k3 b3 Hg3. by split.
- intros b k2 ? [-> Hg]. rewrite take_ge in Hg by (rewrite (q_jobs_len _ Hinv); lia).
  pose proof (list_text_length _ Ht) as Htl. rewrite (q_jobs_len _ Hinv) in Htl. unfold MAX_TRANSFER_JOBS in Htl.
  apply wp_bind, (wp_run_all _ [lit "]"]); [repeat constructor; apply _|apply Hg| |].
  + unfold roomy. destruct Hg as (_ & -> & _). cbn [contents empty_buf jb_buffer default from_option app].
    change (length (mjoin [lit "]"])) with 1%nat. lia.
  + intros k3 b3 Hg3. leave. apply wp_ret. cbn [set_mutex queue_mutex]. rewrite unlock_queue by done.
    pose proof (grown_trans _ _ _ _ _ Hg Hg3) as Hg4. rewrite (grown_some _ _ Hg4 ltac:(done)). by apply H0.
Qed.
End Reports.
