(* ===== verification/TransferQueueTheorems.v ===== *)
(** * TransferQueueTheorems: what the transfer queue guarantees *)

From stdpp Require Import base numbers list strings gmap.
From Stdlib Require Import ZArith Lia Ascii.
From S2P Require Import Prelude Effects CLib Crypto JsonUtils JsonValue Storage TransferQueue TransferQueueSpec TransferQueueSystem TransferQueueJson.

Section Traces.
Context `{E : Env} {R : RandOk E} {L : LocksOk E}.

Lemma trace_inv s0 evs s : sys_inv s0 -> trace s0 evs s -> sys_inv s.
Proof. intros Hs Ht. induction Ht as [|evs s e s' Ht IH Hstep]; [done|]. by apply (step_preserves s e). Qed.

Lemma trace_queue s0 evs s : sys_inv s0 -> trace s0 evs s ->
  waiting (sys_queue s0) ++ accepted evs = begun evs ++ waiting (sys_queue s) /\
  sending_now (sys_worker s0) ++ begun evs = finished evs ++ sending_now (sys_worker s).
Proof.
intros Hs Ht. induction Ht as [|evs s e s' Ht [IH1 IH2] Hstep]; [by rewrite !app_nil_r|].
destruct (step_preserves s e s' (trace_inv _ _ _ Hs Ht) Hstep) as (_ & Hw & Hn).
unfold accepted, begun, finished in *. rewrite !omap_app. split.
- rewrite app_assoc, IH1, <- app_assoc, Hw. by rewrite app_assoc.
- rewrite app_assoc, IH2, <- app_assoc, Hn. by rewrite app_assoc.
Qed.

(** Only the end of the send takes the worker off its job. *)
Lemma step_sending s e s' i r : sys_worker s = Sending i r -> sys_step s e s' -> finished e = [] -> sys_worker s' = Sending i r.
Proof. intros Hw Hstep Hf. destruct Hstep; simpl in *; try done; by simplify_eq. Qed.
End Traces.

Section QueueTheorems.
Context (E : Env) (R : RandOk E) (L : LocksOk E).

(** C7: the queue is a FIFO that loses and repeats nothing.  In every
    interleaving of callers and worker after start-up, the requests accepted so
    far are, in order, those the worker has begun followed by those waiting in
    the ring; and those begun are those finished followed by the one being sent,
    if any.  So requests are sent one at a time, in the order they were
    accepted, each at most once. *)
Theorem queue_fifo fs k k0 q0 evs s :
  transfer_queue_init k (queue_boot fs) = (0, (k0, q0)) ->
  trace {| sys_queue := q0; sys_worker := Idle |} evs s ->
  accepted evs = begun evs ++ waiting (sys_queue s) /\ begun evs = finished evs ++ sending_now (sys_worker s).
Proof.
intros Hinit Ht. destruct (wp_use _ _ _ _ _ _ _ (wp_queue_init fs k) Hinit) as [H _].
destruct (H eq_refl) as (Hs & Hw & _). destruct (trace_queue _ _ _ Hs Ht) as [H1 H2]. simpl in *. by rewrite Hw in H1.
Qed.

(** C23: the tables of the queue never go wrong.  In every reachable state the
    ring holds, without repetition, exactly the slots whose job is queued; at
    most one job is in progress and it is the one the worker is sending; the
    lock is free between critical sections. *)
Theorem queue_reachable_inv fs k k0 q0 evs s :
  transfer_queue_init k (queue_boot fs) = (0, (k0, q0)) ->
  trace {| sys_queue := q0; sys_worker := Idle |} evs s ->
  let q := sys_queue s in
  queue_lock q = MFree /\ NoDup (ring q) /\ (length (ring q) <= MAX_TRANSFER_JOBS)%nat /\
  (forall i, i ∈ ring q <-> (i < MAX_TRANSFER_JOBS)%nat /\ queued (job_at q i)) /\
  (forall i, (i < MAX_TRANSFER_JOBS)%nat -> in_flight (job_at q i) <-> sys_worker s = Sending i (request_of (job_at q i))).
Proof.
intros Hinit Ht. destruct (wp_use _ _ _ _ _ _ _ (wp_queue_init fs k) Hinit) as [H _]. destruct (H eq_refl) as (Hs & _).
pose proof (trace_inv _ _ _ Hs Ht) as [[Hinv Hl] Hi Hsend Honly]. cbv zeta.
split; [done|]. split; [apply Hinv|]. split; [rewrite ring_length; apply Hinv|]. split.
- intros i. split; [apply Hinv|]. intros [? ?]. by apply Hinv.
- intros i Hlt. split.
  + intros Hf. destruct (Honly i Hlt Hf) as (r & Hw). destruct (Hsend i r Hw) as [_ <-]. done.
  + intros Hw. by destruct (Hsend i _ Hw) as [[_ ?] _].
Qed.

(** C24: the worker's job is never pulled from under it.  The worker reads the
    path, address and token of its job without holding the lock.  While it
    sends, whatever the other threads do, the job stays in use, in progress and
    with the same path, address and token; pruning and new jobs do not touch
    it. *)
Theorem in_flight_stable s i r evs s' :
  sys_inv s -> sys_worker s = Sending i r -> trace s evs s' -> finished evs = [] ->
  sys_worker s' = Sending i r /\ in_flight (job_at (sys_queue s') i) /\ request_of (job_at (sys_queue s') i) = r.
Proof.
intros Hs Hw Ht Hf.
assert (Hw' : sys_worker s' = Sending i r).
{ induction Ht as [|evs s1 e s2 Ht IH Hstep]; [done|]. unfold finished in Hf. rewrite omap_app in Hf. apply app_eq_nil in Hf as [H1 H2].
  by apply (step_sending s1 e s2 i r (IH H1) Hstep). }
split; [done|]. destruct (si_sending _ (trace_inv _ _ _ Hs Ht) i r Hw') as [[_ Hfl] Hreq]. done.
Qed.

(** C25: shutdown terminates and drains the queue.  Whatever the sends return
    and report, with the worker between jobs, the loop of the worker runs one
    round more than there are queued jobs and stops; every job that was queued
    has been sent and is completed or failed according to the result, every
    other job is as it was, and the module is no longer initialised. *)
Theorem shutdown_drains send fuel k q :
  at_rest q -> queue_initialized q = true -> (queue_count q < fuel)%nat ->
  exists k' q', transfer_queue_shutdown send fuel k q = (true, (k', q')) /\
    queue_initialized q' = false /\ queue_count q' = 0%nat /\
    (forall i, (i < MAX_TRANSFER_JOBS)%nat -> ~ queued (job_at q' i) /\ ~ in_flight (job_at q' i)) /\
    (forall i, i ∈ ring q -> tj_status (job_at q' i) = outcome send (request_of (job_at q i))) /\
    (forall i, i ∉ ring q -> job_at q' i = job_at q i).
Proof.
intros Hrest Hi Hf. pose proof (wp_shutdown send fuel k q Hrest Hi Hf) as H. unfold wp in H.
destruct (transfer_queue_shutdown send fuel k q) as [r [k' q']]. destruct H as (-> & _ & H). by exists k', q'.
Qed.

(** C30: enqueueing.  A successful call adds exactly its request at the end of
    the waiting list and returns its identifier; a failing call leaves the
    waiting list as it is.  Either way a job disappears or changes only when it
    was completed or failed at least an hour before the clock reading of the
    call. *)
Theorem enqueue_correct path ip port token k q r id k' q' :
  queue_ready q -> queue_initialized q = true ->
  transfer_enqueue (Some path) (Some ip) port (Some token) (Some 65%nat) k q = ((r, id), (k', q')) ->
  queue_ready q' /\
  (r = 0 -> exists i, id = Some i /\ waiting q' = waiting q ++ [accepted_request i path ip port token]) /\
  (r <> 0 -> r = -1 /\ id = None /\ waiting q' = waiting q) /\
  (forall n, tj_in_use (job_at q n) = true -> job_at q' n = job_at q n \/
     (terminal (job_at q n) /\ exists j, tj_updated_at (job_at q n) + JOB_RETENTION_SECONDS <= env_clock j)).
Proof.
intros Hq Hi. to_wp. cbn [fst snd]. apply wp_enqueue; [done..| |].
- intros k1 j1 q1 Hp. cbn [fst snd]. destruct (pruned_inv _ _ _ (proj1 Hq) Hp) as [Hinv Hw].
  split; [split; [done|rewrite (same_lock _ _ (proj1 Hp)); apply Hq]|]. split; [done|]. split; [done|].
  intros n Hu. destruct (pruned_kept_or_old _ _ _ Hp n Hu) as [?|[? ?]]; [by left|right]. split; [done|by exists j1].
- intros k1 j1 id1 q1 Hc He Hl _. cbn [fst snd]. destruct (enqueued_inv _ _ _ _ (proj1 Hq) Hc He) as (Hinv & Hw & _).
  split; [by split|]. split; [intros _; by exists id1|]. split; [done|].
  intros n Hu. destruct (enqueued_kept_or_old _ _ _ _ (proj1 Hq) He n Hu) as [?|[? ?]]; [by left|right]. split; [done|by exists j1].
Qed.

(** The end of a send.  A completed job's staged file is deleted, unless
    the system refuses or the path is a directory, and its path is cleared; a
    failed job keeps its path and records the error.  No other job changes. *)
Theorem worker_finish_correct i res k q k' q' :
  queue_ready q -> sending q i -> worker_finish i res k q = (tt, (k', q')) ->
  queue_ready q' /\ waiting q' = waiting q /\ others_kept i q q' /\
  (res = 0 -> tj_status (job_at q' i) = TRANSFER_JOB_COMPLETED /\ tj_filepath (job_at q' i) = [] /\ tj_error_message (job_at q' i) = [] /\
     (tj_filepath (job_at q i) <> [] -> fs_names (queue_fs q') !! tj_filepath (job_at q i) = None \/ (exists j, env_io j = false) \/
        fs_names (queue_fs q) !! tj_filepath (job_at q i) = Some Dir)) /\
  (res <> 0 -> tj_status (job_at q' i) = TRANSFER_JOB_FAILED /\ tj_filepath (job_at q' i) = tj_filepath (job_at q i) /\
     tj_error_message (job_at q' i) = failure_text).
Proof.
intros Hq Hs He. pose proof Hq as [Hinv Hl]. pose proof Hs as [Hi [Hu Hst]].
assert (Hrw : forall fs j, tj_status j <> TRANSFER_JOB_QUEUED ->
  queue_ready (set_job i j (set_queue_fs fs q)) /\ waiting (set_job i j (set_queue_fs fs q)) = waiting q /\
  job_at (set_job i j (set_queue_fs fs q)) i = j /\ others_kept i q (set_job i j (set_queue_fs fs q))).
{ intros fs j Hj. destruct (rewrite_job_inv q i j fs Hinv Hi) as (H1 & H2 & H3 & H4); [intros [_ ?]; congruence|by intros [_ ?]|]. done. }
refine (wp_use _ (fun _ _ q' => queue_ready q' /\ waiting q' = waiting q /\ others_kept i q q' /\ (_ -> _) /\ (_ -> _)) _ _ _ _ _ _ He).
clear He. apply wp_finish; [done..| |].
- intros Hne k1 now. specialize (Hrw (queue_fs q)). replace (set_queue_fs (queue_fs q) q) with q in Hrw by (by destruct q).
  edestruct Hrw as (H1 & H2 & H3 & H4); [|split; [exact H1|]; split; [exact H2|]; split; [exact H4|]; rewrite H3]; done.
- intros Heq k1 now fs Hfile. edestruct (Hrw fs) as (H1 & H2 & H3 & H4); [|split; [exact H1|]; split; [exact H2|]; split; [exact H4|]; rewrite H3]; done.
Qed.
End QueueTheorems.

Section ReportTheorems.
Context (E : Env) (A : AllocOk E).

(** C37: the status of a job.  With memory available, asking for a job that
    exists returns JSON text that reads back as that job, and asking for an
    identifier that no job has fails; nothing changes. *)
Theorem status_get_correct id k q r out k' q' :
  queue_ready q -> queue_initialized q = true -> jobs_typed q -> c_string id ->
  transfer_status_get (Some id) true k q = ((r, out), (k', q')) ->
  q' = q /\
  (r = 0 -> exists i text, (i < MAX_TRANSFER_JOBS)%nat /\ tj_in_use (job_at q i) = true /\ tj_job_id (job_at q i) = id /\
     out = Some text /\ parse text = Some (job_json (job_at q i))) /\
  (r <> 0 -> out = None /\ (env_lock k <> 0 \/
     forall i, (i < MAX_TRANSFER_JOBS)%nat -> tj_in_use (job_at q i) = true -> tj_job_id (job_at q i) <> id)).
Proof.
intros Hq Hi Ht Hid. to_wp. cbn [fst snd]. apply wp_status_text; [done..| | |].
- intros Hlk. split; [done|]. split; [done|]. intros _. split; [done|by left].
- intros k1 Hno. split; [done|]. split; [done|]. intros _. split; [done|by right].
- intros k1 i Hlt Hu Hji. split; [done|]. split; [|done]. intros _. eexists i, _. do 4 (split; [done|]). apply parse_print.
Qed.

(** The list of all jobs.  With memory available the text reads back as
    the array of the jobs in use, in slot order, commas included. *)
Theorem status_list_correct k q out k' q' :
  queue_ready q -> queue_initialized q = true -> jobs_typed q ->
  transfer_status_list_json true k q = (out, (k', q')) ->
  q' = q /\
  (env_lock k = 0 -> exists text, out = Some (0, Some text) /\ parse text = Some (JArr (job_json <$> live_jobs (jobs q)))) /\
  (env_lock k <> 0 -> out = Some (-1, None)).
Proof.
intros Hq Hi Ht. to_wp. apply wp_list_cases; [done..| |].
- intros Hlk. split; [done|]. by split.
- intros Hlk k1. split; [done|]. split; [|done]. intros _. eexists. split; [done|]. apply parse_print.
Qed.
End ReportTheorems.

(** C38: the list of jobs reads through a NULL pointer when memory runs out.
    The appends' results are ignored: when the very first allocation fails and
    a job is in use, the test of the last character dereferences NULL. *)
Theorem status_list_null_deref (E : Env) k q i :
  queue_ready q -> queue_initialized q = true -> (forall j, env_lock j = 0) -> (forall j, env_alloc j = false) ->
  (i < MAX_TRANSFER_JOBS)%nat -> tj_in_use (job_at q i) = true ->
  fst (transfer_status_list_json true k q) = None.
Proof.
intros [Hinv Hl] Hi Hlk Hal Hlt Hu.
enough (H : wp (transfer_status_list_json true) (fun out _ _ => out = None) k q).
{ unfold wp in H. by destruct (transfer_status_list_json true k q) as [out [k' q']]. }
unfold transfer_status_list_json. apply wp_bind, wp_get. rewrite Hi. reduce_tests.
apply wp_bind, wp_lock; [done| |intros r Hr Hk; by rewrite Hlk in Hk]. intros _. reduce_tests.
cbn [run_all]. apply wp_bind, wp_bind. unfold app_lit, json_buffer_append. apply wp_bind. unfold ensure_capacity. cbn [jb_buffer empty_buf jb_capacity].
replace (grow grow_fuel (if 0 <? 0 then 0 else 256) (size_t_wrap (jb_length empty_buf + Z.of_nat (length (lit "[")) + 1))) with (Some 256) by (vm_compute; reflexivity).
apply wp_bind, wp_ask. rewrite Hal. reduce_tests. apply wp_ret, wp_ret, wp_ret.
apply wp_bind, (wp_for_acc (fun n b _ q' => q' = set_queue_lock MHeld q /\ b = empty_buf /\ (n <= i)%nat)).
- split; [done|]. split; [done|lia].
- intros n b k1 ? Hn (-> & -> & Hle). unfold list_body. apply wp_bind, wp_get. cbv zeta. cbn [jobs set_queue_lock]. fold (job_at q n).
  apply wp_if; intros Hnu; [|by apply wp_ret, wp_ret]. apply wp_ret. split; [done|]. split; [done|].
  destruct (decide (n = i)) as [->|]; [by rewrite Hu in Hnu|lia].
- intros b k1 q1 (_ & _ & Hle). lia.
Qed.
