(* ===== verification/TransferQueueExamples.v ===== *)
(** * TransferQueueExamples: the theorems of the queue at concrete inputs

    A queue that starts in the environment of [Sample], two requests, and a
    worker that begins the first of them. *)

From stdpp Require Import base numbers list strings gmap.
From Stdlib Require Import ZArith Lia Ascii.
From S2P Require Import Prelude Effects CLib Crypto JsonUtils JsonValue Storage TransferQueue TransferQueueSpec TransferQueueSystem TransferQueueJson TransferQueueTheorems.

Import Sample.

Definition staged : cstring := lit "staging/a.bin".
(** A file staged under that name at the start. *)
Definition staged_file : FileSystem := create_file staged start {| fs_names := ∅; fs_data := ∅; fs_mtime := ∅; fs_next := 0 |}.
Definition target : cstring := lit "192.168.0.31".
Definition pair_token : cstring := lit "00ff".
Definition ask_send (path : cstring) := transfer_enqueue (Some path) (Some target) 8080 (Some pair_token) (Some 65%nat).

Definition queue0 : QueueState := final transfer_queue_init 0%nat (queue_boot staged_file).
Definition queue1 : QueueState := final (ask_send staged) 10%nat queue0.
Definition queue2 : QueueState := final (ask_send (lit "staging/b.bin")) 20%nat queue1.
Definition queue3 : QueueState := final worker_take 30%nat queue2.

Lemma queue0_run : transfer_queue_init 0%nat (queue_boot staged_file) = (0, (tick transfer_queue_init 0%nat (queue_boot staged_file), queue0)).
Proof. vm_compute. reflexivity. Qed.

Definition system_of q w : system := {| sys_queue := q; sys_worker := w |}.
Definition asked (q : QueueState) (path : cstring) (k : nat) : request :=
  accepted_request (default [] (snd (result (ask_send path) k q))) path target 8080 pair_token.

Lemma ask_step q w path k : fst (result (ask_send path) k q) = 0 ->
  sys_step (system_of q w) [EAccept (asked q path k)] (system_of (final (ask_send path) k q) w).
Proof. intros Hr. pose proof (StepEnqueue q w path target 8080 pair_token k _ _ _ _ (run_eta2 (ask_send path) k q)) as H. by rewrite Hr in H. Qed.

Definition first : request := asked queue0 staged 10.
Definition second : request := asked queue1 (lit "staging/b.bin") 20.

(** Both requests are accepted, the worker begins the first. *)
Definition story : list event := [EAccept first] ++ [EAccept second] ++ [EStart first].

Lemma story_trace : trace (system_of queue0 Idle) story (system_of queue3 (Sending 0 first)).
Proof.
unfold story. rewrite app_assoc. eapply TraceStep; [eapply TraceStep; [apply (TraceStep _ [] (system_of queue0 Idle)); [constructor|]|]|].
- apply ask_step. vm_compute. reflexivity.
- apply ask_step. vm_compute. reflexivity.
- pose proof (StepTake queue2 30%nat _ _ _ (run_eta worker_take 30%nat queue2)) as H.
  replace (result worker_take 30%nat queue2) with (TakeJob 0) in H by (vm_compute; reflexivity).
  replace first with (request_of (job_at queue3 0)) by (vm_compute; reflexivity). exact H.
Qed.

Lemma queue3_inv : sys_inv (system_of queue3 (Sending 0 first)).
Proof.
apply (trace_inv (system_of queue0 Idle) story); [|apply story_trace].
destruct (wp_use _ _ _ _ _ _ _ (wp_queue_init staged_file 0%nat) queue0_run) as [H _]. by apply H.
Qed.

Lemma queue3_ready : queue_ready queue3 /\ queue_initialized queue3 = true.
Proof. pose proof queue3_inv as [H1 H2 _ _]. by split. Qed.

Lemma story_rest a b w : let evs := [EAccept a] ++ [EAccept b] ++ [EStart a] in accepted evs = begun evs ++ w -> w = [b].
Proof. intros evs H. by injection H as <-. Qed.

Lemma queue_fifo_witness : waiting queue3 = [second].
Proof.
destruct (queue_fifo env rand_ok locks_ok staged_file 0%nat _ queue0 story _ queue0_run story_trace) as [H _].
exact (story_rest first second (waiting queue3) H).
Defined.

Lemma queue_reachable_witness : in_flight (job_at queue3 0) /\ ring queue3 = [1%nat].
Proof.
destruct (queue_reachable_inv env rand_ok locks_ok staged_file 0%nat _ queue0 story _ queue0_run story_trace) as (_ & _ & _ & _ & H).
split; [|vm_compute; reflexivity]. apply (H 0%nat); [unfold MAX_TRANSFER_JOBS; lia|]. vm_compute. reflexivity.
Defined.

(** While the first file is sent, a third request arrives. *)
Definition late : cstring := lit "staging/c.bin".
Definition queue4 : QueueState := final (ask_send late) 40%nat queue3.
Definition third : list event := [] ++ [EAccept (asked queue3 late 40)].

Lemma third_trace : trace (system_of queue3 (Sending 0 first)) third (system_of queue4 (Sending 0 first)).
Proof. eapply TraceStep; [constructor|]. apply ask_step. vm_compute. reflexivity. Qed.

Lemma accept_only r : finished ([] ++ [EAccept r]) = [].
Proof. done. Qed.

Lemma in_flight_stable_witness : request_of (job_at queue4 0) = first.
Proof.
destruct (in_flight_stable env rand_ok locks_ok (system_of queue3 (Sending 0 first)) 0%nat first third
  (system_of queue4 (Sending 0 first)) queue3_inv (eq_refl (Sending 0 first)) third_trace (accept_only _)) as (_ & _ & H).
exact H.
Defined.

Lemma enqueue_witness : waiting queue4 =
  waiting queue3 ++ [asked queue3 late 40].
Proof.
destruct (enqueue_correct env rand_ok late target 8080 pair_token 40%nat queue3 _ _ _ _
  (proj1 queue3_ready) (proj2 queue3_ready) (run_eta2 _ _ _)) as (_ & H & _).
destruct H as (i & Hi & Hw); [vm_compute; reflexivity|]. unfold asked, ask_send. rewrite Hi. exact Hw.
Defined.

Lemma sending3 : sending queue3 0.
Proof. pose proof queue3_inv as [_ _ H _]. by destruct (H 0%nat first eq_refl). Qed.

Lemma worker_finish_witness : fs_names (queue_fs (final (worker_finish 0 0) 50%nat queue3)) !! staged = None.
Proof.
destruct (worker_finish_correct env locks_ok 0%nat 0 50%nat queue3 _ _ (proj1 queue3_ready) sending3
  ltac:(rewrite (run_eta (worker_finish 0 0)); by destruct (result (worker_finish 0 0) 50%nat queue3))) as (_ & _ & _ & H & _).
destruct (H eq_refl) as (_ & _ & _ & Hf). destruct Hf as [Hf|[[j Hj]|Hd]]; [vm_compute; discriminate| |discriminate Hj|].
- replace staged with (tj_filepath (job_at queue3 0)) by (vm_compute; reflexivity). exact Hf.
- exfalso. revert Hd. vm_compute. discriminate.
Defined.

(** The first send reports its progress and succeeds, the second fails. *)
Definition flaky (path ip : cstring) (port : Z) (token : cstring) : list (Z * Z) * Z :=
  if bool_decide (path = staged) then ([(5, 10); (10, 10)], 0) else ([], -1).

Lemma queue2_at_rest : at_rest queue2 /\ queue_initialized queue2 = true.
Proof.
assert (H : sys_inv (system_of queue2 Idle)).
{ apply (trace_inv (system_of queue0 Idle) (([] ++ [EAccept first]) ++ [EAccept second])).
  - destruct (wp_use _ _ _ _ _ _ _ (wp_queue_init staged_file 0%nat) queue0_run) as [H _]. by apply H.
  - eapply TraceStep; [eapply TraceStep; [constructor|]|]; apply ask_step; vm_compute; reflexivity. }
destruct H as [Hr Hi _ Ho]. split; [split; [done|]|done]. intros i Hlt Hf. by destruct (Ho i Hlt Hf).
Qed.

Lemma shutdown_drains_witness : exists k' q', transfer_queue_shutdown flaky 3 60%nat queue2 = (true, (k', q')) /\
  tj_status (job_at q' 0) = TRANSFER_JOB_COMPLETED /\ tj_status (job_at q' 1) = TRANSFER_JOB_FAILED.
Proof.
destruct (shutdown_drains env locks_ok flaky 3%nat 60%nat queue2 (proj1 queue2_at_rest) (proj2 queue2_at_rest)
  ltac:(vm_compute; lia)) as (k' & q' & Hrun & _ & _ & _ & Hin & _).
exists k', q'. split; [exact Hrun|].
assert (Hr : ring queue2 = [0%nat; 1%nat]) by (vm_compute; reflexivity).
assert (H0 : 0%nat ∈ ring queue2) by (rewrite Hr; left).
assert (H1 : 1%nat ∈ ring queue2) by (rewrite Hr; right; left).
split; [refine (eq_trans (Hin 0%nat H0) _)|refine (eq_trans (Hin 1%nat H1) _)]; vm_compute; reflexivity.
Defined.

#[local] Instance job_typed_dec j : Decision (job_typed j).
Proof. unfold job_typed. apply _. Defined.

Lemma queue3_typed : jobs_typed queue3.
Proof. by apply (bool_decide_eq_true_1 _); vm_compute. Qed.

Lemma status_get_witness : exists text,
  snd (result (transfer_status_get (Some (rq_id first)) true) 40%nat queue3) = Some text /\
  parse text = Some (job_json (job_at queue3 0)).
Proof.
destruct (status_get_correct env allocs_ok (rq_id first) 40%nat queue3 _ _ _ _ (proj1 queue3_ready) (proj2 queue3_ready) queue3_typed
  ltac:(by apply (bool_decide_eq_true_1 _); vm_compute) (run_eta2 _ _ _)) as (_ & H & _).
destruct H as (i & text & Hi & Hu & Hid & Ho & Hp); [vm_compute; reflexivity|]. exists text. split; [exact Ho|].
assert (Hi0 : i = 0%nat).
{ assert (Hall : Forall (fun n => n = 0%nat \/ tj_job_id (job_at queue3 n) <> rq_id first) (seq 0 MAX_TRANSFER_JOBS))
    by (by apply (bool_decide_eq_true_1 _); vm_compute).
  rewrite Forall_forall in Hall. destruct (Hall i) as [?|?]; [apply elem_of_seq; lia|done|contradiction]. }
rewrite <- Hi0. exact Hp.
Defined.

Lemma status_list_witness : exists text,
  result (transfer_status_list_json true) 40%nat queue3 = Some (0, Some text) /\
  parse text = Some (JArr (job_json <$> [job_at queue3 0; job_at queue3 1])).
Proof.
destruct (status_list_correct env allocs_ok 40%nat queue3 _ _ _ (proj1 queue3_ready) (proj2 queue3_ready) queue3_typed (run_eta _ _ _))
  as (_ & H & _).
destruct (H eq_refl) as (text & Ho & Hp). exists text. split; [exact Ho|]. rewrite Hp. vm_compute. reflexivity.
Defined.

(** The environment of [Sample] when memory has run out. *)
Definition no_memory : Env := {| env_clock := @env_clock env; env_rand := @env_rand env; env_lock := @env_lock env;
  env_init := @env_init env; env_alloc _ := false; env_io := @env_io env; env_short := @env_short env |}.

Lemma status_list_null_deref_witness : fst (@transfer_status_list_json no_memory true 40%nat queue3) = None.
Proof.
apply (status_list_null_deref no_memory 40%nat queue3 0%nat (proj1 queue3_ready) (proj2 queue3_ready)).
- reflexivity.
- reflexivity.
- unfold MAX_TRANSFER_JOBS. lia.
- vm_compute. reflexivity.
Defined.
