(* ===== verification/Transfer.v ===== *)
(** * Transfer: the HTTP client (src/transfer.c)

    libcurl is a parameter: which of its calls fail, and what the peer answers
    to a request.  [TransferState] holds the static flag, the file system
    [fopen] looks at, and the requests performed so far. *)

From stdpp Require Import base numbers list strings gmap.
From Stdlib Require Import ZArith Lia Ascii.
From S2P Require Import Prelude Effects CLib Storage.

(** ** [inet_pton] *)

Class Inet := {
  inet_pton4 : cstring -> bool; (* inet_pton(AF_INET, ...) == 1 *)
  inet_pton6 : cstring -> bool  (* inet_pton(AF_INET6, ...) == 1 *)
}.

Definition ip4_char (c : ascii) : Prop := isdigit c = true \/ c = "."%char.
Definition ip6_char (c : ascii) : Prop := c ∈ lit "0123456789abcdefABCDEF:.".

(** The documented text forms: dotted decimal of at most fifteen characters;
    hexadecimal groups separated by colons, at most 45 characters. *)
Class InetOk (I : Inet) : Prop := {
  inet4_text s : inet_pton4 s = true -> (length s <= 15)%nat /\ Forall ip4_char s;
  inet6_text s : inet_pton6 s = true -> (length s <= 45)%nat /\ Forall ip6_char s /\ ":"%char ∈ s
}.

(** ** libcurl *)

Inductive part_body := PartFile (path : cstring) | PartData (data : cstring).
Record Part := { part_name : option cstring; part_data : option part_body }.

(** What the options of a handle ask for. *)
Record HttpRequest := {
  http_url : cstring; http_parts : list Part; http_headers : list cstring;
  http_connect_timeout : Z; http_timeout : Z }.

(** What happens to it: the code of [curl_easy_perform], the HTTP status, the
    blocks of the body and the progress reports
    (download total, downloaded, upload total, uploaded). *)
Record HttpAnswer := {
  an_code : Z; an_status : Z; an_body : list cstring; an_progress : list (Z * Z * Z * Z) }.

Class Curl := {
  curl_ok : nat -> bool;                       (* a call that sets something up succeeds *)
  curl_answer : nat -> HttpRequest -> HttpAnswer;
  curl_easy_strerror : Z -> cstring
}.

Definition CURLE_OK : Z := 0.
Definition CURLE_WRITE_ERROR : Z := 23.
Definition CURLE_ABORTED_BY_CALLBACK : Z := 42.

Record TransferState := { curl_ready : bool; tf_fs : FileSystem; tf_sent : list HttpRequest }.
Definition set_curl_ready v s := {| curl_ready := v; tf_fs := tf_fs s; tf_sent := tf_sent s |}.
Definition set_tf_sent v s := {| curl_ready := curl_ready s; tf_fs := tf_fs s; tf_sent := v |}.

Section Libcurl.
Context `{E : Env} `{C : Curl}.

Definition curl_setup : M TransferState bool := ask curl_ok.

(** The blocks of the body go to the write function until it accepts fewer
    bytes than it was given. *)
Fixpoint deliver {B} (writefunction : cstring -> B -> M TransferState (Z * B)) (blocks : list cstring) (b : B)
    : M TransferState (bool * B) :=
  match blocks with
  | [] => ret (true, b)
  | x :: blocks' =>
      let* (n, b') := writefunction x b in
      if n =? Z.of_nat (length x) then deliver writefunction blocks' b' else ret (false, b')
  end.

(** The progress function is called until it returns non-zero. *)
Fixpoint report {P} (xferinfo : Z * Z * Z * Z -> P -> Z * P) (calls : list (Z * Z * Z * Z)) (p : P) : bool * P :=
  match calls with
  | [] => (true, p)
  | x :: calls' => let '(r, p') := xferinfo x p in if r =? 0 then report xferinfo calls' p' else (false, p')
  end.

(** The code, the HTTP status, and what the two callbacks were given to keep. *)
Definition curl_easy_perform {B P} (writefunction : cstring -> B -> M TransferState (Z * B))
    (xferinfo : Z * Z * Z * Z -> P -> Z * P) (req : HttpRequest) (b : B) (p : P) : M TransferState (Z * Z * B * P) :=
  answer <- ask (fun k => curl_answer k req) ;;
  modify (fun s => set_tf_sent (tf_sent s ++ [req]) s) ;;
  let* (written, b') := deliver writefunction (an_body answer) b in
  let '(going, p') := report xferinfo (an_progress answer) p in
  let res := if negb written then CURLE_WRITE_ERROR
             else if negb going then CURLE_ABORTED_BY_CALLBACK else an_code answer in
  ret (res, an_status answer, b', p').
End Libcurl.

(** ** The module *)

(** [callback] and [user_data] are given or not; what the callback is called
    with is recorded by the caller. *)
Record upload_status := { up_total_bytes : Z; up_uploaded_bytes : Z; up_callback : bool }.

(** The bytes received, [None] for a NULL pointer. *)
Record response_buffer := { rb_data : option (list ascii); rb_length : Z }.

Definition progress_func (ptr : upload_status) (total_to_download downloaded total_to_upload uploaded : Z)
    : Z * upload_status * list (Z * Z) :=
  if up_callback ptr && (0 <? total_to_upload) && (0 <=? uploaded)
  then (0, {| up_total_bytes := up_total_bytes ptr; up_uploaded_bytes := size_t_wrap uploaded; up_callback := up_callback ptr |},
        [(size_t_wrap uploaded, size_t_wrap total_to_upload)])
  else (0, ptr, []).

Section Module.
Context `{E : Env} `{C : Curl} `{I : Inet}.

Definition transfer_global_init : M TransferState Z :=
  s <- get ;;
  if curl_ready s then ret 0
  else
    ok <- curl_setup ;;
    if negb ok then ret (-1) else modify (set_curl_ready true) ;; ret 0.

Definition transfer_global_cleanup : M TransferState unit :=
  s <- get ;;
  if negb (curl_ready s) then ret tt else modify (set_curl_ready false).

Definition validate_destination_ip (dest_ip : option cstring) : Z :=
  match dest_ip with
  | None | Some [] => -1
  | Some ip => if inet_pton4 ip then 0 else if inet_pton6 ip then 0 else -1
  end.

(** [contents] is the block of [size * nmemb] bytes. *)
Definition write_response (contents : cstring) (buffer : response_buffer) : M TransferState (Z * response_buffer) :=
  let total := Z.of_nat (length contents) in
  if total =? 0 then ret (0, buffer)
  else
    resized <- alloc ;;
    if negb resized then ret (0, buffer)
    else
      ret (total, {| rb_data := Some (take (Z.to_nat (rb_length buffer)) (default [] (rb_data buffer)) ++ contents);
                     rb_length := size_t_wrap (rb_length buffer + total) |}).

Definition discard_response (contents : cstring) (userdata : unit) : M TransferState (Z * unit) :=
  ret (Z.of_nat (length contents), tt).

(** The result and what is left in [dest] ([None]: untouched). *)
Definition extract_json_string_field (json field : option cstring) (dest : option nat) : Z * option cstring :=
  match json, field, dest with
  | Some json, Some field, Some dest_size =>
      if (dest_size =? 0)%nat then (-1, None)
      else
        let pattern := snprintf 64 [Lit [dquote]; Str field; Lit (jlit "':'")] in
        match strstr json pattern with
        | None => (-1, Some [])
        | Some start =>
            let start := drop (length pattern) start in
            match strchr start dquote with
            | None => (-1, Some [])
            | Some endp =>
                let n := (length start - length endp)%nat in
                let n := if (dest_size <=? n)%nat then (dest_size - 1)%nat else n in
                (0, Some (take n start))
            end
        end
  | _, _, _ => (-1, None)
  end.

(** The result and the value stored, if any. *)
Definition extract_json_long_field (json field : option cstring) (value : bool) : Z * option Z :=
  match json, field, value with
  | Some json, Some field, true =>
      let pattern := snprintf 64 [Lit [dquote]; Str field; Lit (jlit "':")] in
      match strstr json pattern with
      | None => (-1, None)
      | Some start => (0, Some (fst (strtol (drop (length pattern) start))))
      end
  | _, _, _ => (-1, None)
  end.

(** The URL, with an IPv6 address in brackets; the port is a [uint16_t], which
    [%d] and [%u] print alike. *)
Definition peer_url (dest_ip : cstring) (dest_port : Z) (path : cstring) : cstring :=
  match strchr dest_ip ":"%char with
  | Some _ => snprintf 512 [Lit (lit "http://["); Str dest_ip; Lit (lit "]:"); Long dest_port; Lit path]
  | None => snprintf 512 [Lit (lit "http://"); Str dest_ip; Lit (lit ":"); Long dest_port; Lit path]
  end.

(** The result and the calls of the progress callback, in order. *)
Definition transfer_send_file (filepath : cstring) (dest_ip : option cstring) (dest_port : Z) (pair_token : option cstring)
    (callback : bool) : M TransferState (Z * list (Z * Z)) :=
  s <- get ;;
  match dest_ip with
  | None => ret (-1, [])
  | Some ip =>
      if negb (curl_ready s) || negb (validate_destination_ip dest_ip =? 0) then ret (-1, [])
      else
        ok <- io ;;
        match fs_names (tf_fs s) !! filepath with
        | None => ret (-1, [])
        | Some node =>
            if negb ok then ret (-1, [])
            else
              let size := match node with File i => Z.of_nat (length (file_data (tf_fs s) i)) | Dir => 0 end in
              let status := {| up_total_bytes := size; up_uploaded_bytes := 0; up_callback := callback |} in
              curl <- curl_setup ;;
              if negb curl then ret (-1, [])
              else
                mime <- curl_setup ;;
                if negb mime then ret (-1, [])
                else
                  part <- curl_setup ;;
                  if negb part then ret (-1, [])
                  else
                    name <- curl_setup ;;
                    if negb name then ret (-1, [])
                    else
                      filedata <- curl_setup ;;
                      if negb filedata then ret (-1, [])
                      else
                        headers <- (match pair_token with
                                    | None | Some [] => ret []
                                    | Some token =>
                                        appended <- curl_setup ;;
                                        ret (if appended
                                             then [snprintf 128 [Lit (lit "X-LocalDrop-Pair-Token: "); Str token]] else [])
                                    end) ;;
                        let req := {| http_url := peer_url ip dest_port (lit "/upload");
                                      http_parts := [{| part_name := Some (lit "file"); part_data := Some (PartFile filepath) |}];
                                      http_headers := headers; http_connect_timeout := 10; http_timeout := 300 |} in
                        let* (res, response_code, _, (_, calls)) :=
                          curl_easy_perform discard_response
                            (fun '(dt, dn, ut, un) '(st, calls) =>
                               let '(r, st', new) := progress_func st dt dn ut un in (r, (st', calls ++ new)))
                            req tt (status, []) in
                        if negb (res =? CURLE_OK) then ret (-1, calls)
                        else if (response_code <? 200) || (300 <=? response_code) then ret (-1, calls)
                        else ret (0, calls)
        end
  end.

(** [part = curl_mime_addpart(mime); curl_mime_name(part, ...); curl_mime_data(part, ...);]
    with the results ignored: a NULL part is refused by the two other calls. *)
Definition add_field (name data : cstring) : M TransferState (list Part) :=
  part <- curl_setup ;;
  if negb part then ret []
  else
    named <- curl_setup ;;
    filled <- curl_setup ;;
    ret [{| part_name := if named then Some name else None; part_data := if filled then Some (PartData data) else None |}].

(** What a call leaves behind: the result, [token_out], [*expires_at] and
    [message_out] ([None]: untouched). *)
Record pair_result := { pr_code : Z; pr_token : option cstring; pr_expires_at : option Z; pr_message : option cstring }.
Definition pair_failed (token message : option cstring) : pair_result :=
  {| pr_code := -1; pr_token := token; pr_expires_at := None; pr_message := message |}.

(** [extract_json_string_field(response, "message", message_out, message_size)]
    with the text used when there is no such field. *)
Definition extract_message (json : option cstring) (message_out : option nat) (fallback : cstring) : option cstring :=
  match message_out with
  | Some size =>
      if (size =? 0)%nat then None
      else
        let '(r, text) := extract_json_string_field json (Some (lit "message")) message_out in
        if negb (r =? 0) then Some (snprintf size [Lit fallback]) else text
  | None => None
  end.

Definition transfer_pair_peer (dest_ip : option cstring) (dest_port : Z) (peer_name : option cstring) (peer_port : Z)
    (pair_code : option cstring) (token_out : option nat) (expires_at : bool) (message_out : option nat) : M TransferState pair_result :=
  s <- get ;;
  match dest_ip, pair_code, token_out with
  | Some ip, Some code, Some token_size =>
      if negb (curl_ready s) || negb (validate_destination_ip dest_ip =? 0) || (token_size =? 0)%nat
      then ret (pair_failed None None)
      else
        curl <- curl_setup ;;
        if negb curl then ret (pair_failed None None)
        else
          mime <- curl_setup ;;
          if negb mime then ret (pair_failed None None)
          else
            p1 <- add_field (lit "pair_code") code ;;
            p2 <- add_field (lit "peer_name") (default (lit "localdrop-peer") peer_name) ;;
            p3 <- add_field (lit "peer_port") (snprintf 512 [UInt peer_port]) ;;
            let req := {| http_url := peer_url ip dest_port (lit "/api/pair/exchange"); http_parts := p1 ++ p2 ++ p3;
                          http_headers := []; http_connect_timeout := 10; http_timeout := 30 |} in
            let* (res, response_code, response, _) :=
              curl_easy_perform write_response (fun _ u => (0, u)) req {| rb_data := None; rb_length := 0 |} tt in
            if negb (res =? CURLE_OK)
            then ret (pair_failed None (match message_out with
                                        | Some size => if (size =? 0)%nat then None
                                                       else Some (snprintf size [Str (curl_easy_strerror res)])
                                        | None => None
                                        end))
            else
              let json := cstr <$> rb_data response in
              if (response_code <? 200) || (300 <=? response_code)
              then ret (pair_failed None (extract_message json message_out (lit "Pareamento recusado pelo peer remoto")))
              else
                let '(r, token) := extract_json_string_field json (Some (lit "token")) token_out in
                if negb (r =? 0) then ret (pair_failed token None)
                else
                  ret {| pr_code := 0; pr_token := token;
                         pr_expires_at := if expires_at
                           then let '(r, v) := extract_json_long_field json (Some (lit "expires_at")) true in
                                if r =? 0 then v else Some 0
                           else None;
                         pr_message := extract_message json message_out (lit "Pareamento realizado com sucesso") |}
  | _, _, _ => ret (pair_failed None None)
  end.
End Module.
