(* ===== verification/TransferSpec.v ===== *)
(** * TransferSpec: what the HTTP client sends and what it makes of the answer *)

From stdpp Require Import base numbers list strings gmap.
From Stdlib Require Import ZArith Lia Ascii.
From S2P Require Import Prelude Effects CLib Crypto JsonUtils Storage Transfer.

(** ** Searching JSON text *)

(** Text without the first character of the pattern is skipped. *)
Lemma strstr_skip s t c p : c ∉ s -> strstr (s ++ t) (c :: p) = strstr t (c :: p).
Proof.
induction s as [|x s IH]; intros Hn; [done|]. simpl app. rewrite strstr_step, IH; [done|set_solver|].
simpl. rewrite bool_decide_false; [done|set_solver].
Qed.

Lemma strchr_some s c r : strchr s c = Some r -> exists p, s = p ++ r /\ (c ∉ p) /\ exists q, r = c :: q.
Proof.
induction s as [|x s IH]; simpl; [done|]. case_bool_decide as Hx.
- intros [= <-]. exists []. split; [done|]. split; [set_solver|]. subst. by exists s.
- intros H. destruct (IH H) as (p & -> & Hp & Hq). exists (x :: p). split; [done|]. split; [set_solver|done].
Qed.

Lemma strchr_none s c : strchr s c = None <-> c ∉ s.
Proof.
induction s as [|x s IH]; simpl; [set_solver|]. case_bool_decide as Hx.
- split; [done|]. subst. set_solver.
- rewrite IH. set_solver.
Qed.

Lemma strstr_some s p r : strstr s p = Some r -> exists q t, s = q ++ r /\ r = p ++ t.
Proof.
induction s as [|x s IH]; intros H.
- destruct (is_prefix p []) eqn:Hp; simpl in H; rewrite Hp in H; [|done]. injection H as <-.
  apply is_prefix_spec in Hp as [t Ht]. by exists [], t.
- destruct (is_prefix p (x :: s)) eqn:Hp.
  + simpl in H. simpl in Hp. rewrite Hp in H. injection H as <-. change (is_prefix p (x :: s) = true) in Hp.
    apply is_prefix_spec in Hp as [t Ht]. by exists [], t.
  + rewrite strstr_step in H by done. destruct (IH H) as (q & t & -> & ->). by exists (x :: q), t.
Qed.

Lemma prefix_length (a b : cstring) : (length (a ++ b) - length b)%nat = length a.
Proof. rewrite length_app. lia. Qed.

(** The text [extract_json_string_field] finds. *)
Lemma extract_found json field n r text :
  extract_json_string_field (Some json) (Some field) (Some n) = (r, text) -> (0 < n)%nat ->
  (r = 0 -> exists t before after, text = Some t /\ (length t < n)%nat /\ (dquote ∉ t) /\
     json = before ++ snprintf 64 [Lit [dquote]; Str field; Lit (jlit "':'")] ++ t ++ after) /\
  (r <> 0 -> r = -1 /\ text = Some []).
Proof.
intros H Hn. unfold extract_json_string_field in H. destruct (Nat.eqb_spec n 0) as [|_]; [lia|].
set (pat := snprintf 64 _) in *. destruct (strstr json pat) as [r0|] eqn:Hs; [|by injection H as <- <-].
destruct (strstr_some _ _ _ Hs) as (q & t & -> & ->). rewrite drop_app_length in H.
destruct (strchr t dquote) as [e|] eqn:Hc; [|by injection H as <- <-].
destruct (strchr_some _ _ _ Hc) as (p & -> & Hp & e' & ->). injection H as <- <-. split; [|done]. intros _.
rewrite length_app. replace (length p + length (dquote :: e') - S (length e'))%nat with (length p) by (simpl; lia).
set (m := if (n <=? length p)%nat then (n - 1)%nat else length p).
assert (Hm : (m <= length p)%nat /\ (m < n)%nat) by (unfold m; destruct (Nat.leb_spec n (length p)); lia).
assert (Ht : take m (p ++ dquote :: e') = take m p) by (rewrite take_app_le; [done|lia]).
exists (take m p), q, (drop m p ++ dquote :: e'). rewrite Ht. split; [done|]. split; [rewrite length_take; lia|]. split.
- intros Hin. apply Hp. rewrite <- (take_drop m p). set_solver.
- rewrite (app_assoc (take m p)), take_drop. by rewrite app_assoc.
Qed.

(** The reply of the pairing exchange. *)
Definition pair_reply (message token : cstring) (expires_at : Z) : cstring :=
  jlit "{'status':'ok','message':'" ++ escape message ++ jlit "','token':'" ++ token ++ jlit "','expires_at':" ++ show_long expires_at ++ lit "}".

Definition paired_text : cstring := lit "Peer pareado com sucesso".

Lemma hex_no_quote n t : hex_token n t -> dquote ∉ t.
Proof.
intros [_ Hh] Hin. rewrite Forall_forall in Hh. apply Hh in Hin. vm_compute in Hin. done.
Qed.

Lemma show_long_no_quote n : dquote ∉ show_long n.
Proof.
intros Hin. unfold show_long in Hin. assert (Hd : forall m, 0 <= m -> dquote ∉ show_nat m).
{ intros m Hm Hc. destruct (show_nat_spec m Hm) as (_ & Ha & _). unfold all_digits in Ha. rewrite Forall_forall in Ha.
  by apply Ha in Hc. }
destruct (Z.ltb_spec n 0); [|by apply (Hd n)]. apply elem_of_cons in Hin as [Hin|Hin]; [done|]. apply (Hd (- n)); [lia|done].
Qed.

(** The fields of the reply are found. *)
Lemma reply_token tok e : hex_token 64 tok ->
  extract_json_string_field (Some (pair_reply paired_text tok e)) (Some (lit "token")) (Some 65%nat) = (0, Some tok).
Proof.
intros Ht. unfold extract_json_string_field. cbn [Nat.eqb].
change (snprintf 64 [Lit [dquote]; Str (lit "token"); Lit (jlit "':'")]) with (jlit "'token':'").
set (rest := jlit "','expires_at':" ++ show_long e ++ lit "}").
assert (Hs : strstr (pair_reply paired_text tok e) (jlit "'token':'") = Some (jlit "'token':'" ++ tok ++ rest)) by reflexivity.
rewrite Hs. rewrite drop_app_length. unfold rest. change (jlit "','expires_at':") with (dquote :: jlit ",'expires_at':").
rewrite <- app_comm_cons, strchr_app_notin by (by apply (hex_no_quote 64)).
rewrite prefix_length. destruct Ht as [Hl _]. rewrite Hl. cbn [Nat.leb]. rewrite <- Hl, take_app_length. done.
Qed.

Lemma reply_message tok e n : (length paired_text < n)%nat ->
  extract_message (Some (pair_reply paired_text tok e)) (Some n) (lit "Pareamento realizado com sucesso") = Some paired_text.
Proof.
intros Hn. unfold extract_message, extract_json_string_field. destruct (Nat.eqb_spec n 0) as [|_]; [lia|].
change (snprintf 64 [Lit [dquote]; Str (lit "message"); Lit (jlit "':'")]) with (jlit "'message':'").
set (rest := jlit ",'token':'" ++ tok ++ jlit "','expires_at':" ++ show_long e ++ lit "}").
assert (Hs : strstr (pair_reply paired_text tok e) (jlit "'message':'") = Some (jlit "'message':'" ++ paired_text ++ dquote :: rest))
  by reflexivity.
rewrite Hs, drop_app_length, strchr_app_notin by (by apply (bool_decide_eq_true_1 (_ ∉ _)); vm_compute).
rewrite prefix_length. destruct (Nat.leb_spec n (length paired_text)) as [|_]; [lia|]. by rewrite take_app_length.
Qed.

(** No token continues the quote before it to the name of another field. *)
Lemma hex_not_expires tok t : hex_token 64 tok -> is_prefix (jlit "'expires_at':") (dquote :: tok ++ t) = false.
Proof.
intros [Hl Hh]. destruct tok as [|a [|b tok]]; [done..|]. apply Forall_cons_1 in Hh as [_ Hh]. apply Forall_cons_1 in Hh as [Hb _].
simpl. assert (Hx : b <> "x"%char) by (intros ->; vm_compute in Hb; done).
rewrite (bool_decide_false ("x"%char = b)) by congruence. simpl. by rewrite andb_false_r.
Qed.

Lemma reply_expires tok e : hex_token 64 tok -> LONG_MIN <= e <= LONG_MAX ->
  extract_json_long_field (Some (pair_reply paired_text tok e)) (Some (lit "expires_at")) true = (0, Some e).
Proof.
intros Ht He. unfold extract_json_long_field.
change (snprintf 64 [Lit [dquote]; Str (lit "expires_at"); Lit (jlit "':")]) with (jlit "'expires_at':").
assert (Hs : strstr (pair_reply paired_text tok e) (jlit "'expires_at':") =
  strstr (dquote :: tok ++ jlit "','expires_at':" ++ show_long e ++ lit "}") (jlit "'expires_at':")) by reflexivity.
assert (Hf : strstr (tok ++ jlit "','expires_at':" ++ show_long e ++ lit "}") (dquote :: jlit "expires_at':") =
  Some (jlit "'expires_at':" ++ show_long e ++ lit "}")) by (rewrite strstr_skip by (by apply (hex_no_quote 64)); reflexivity).
rewrite Hs, strstr_step by (by apply hex_not_expires). change (jlit "'expires_at':") with (dquote :: jlit "expires_at':") at 1.
cbv iota beta. rewrite Hf. rewrite drop_app_length, strtol_show_long; done.
Qed.

(** ** The transport *)

Section Spec.
Context `{E : Env} `{C : Curl}.
Implicit Types (k : nat) (s : TransferState).

Lemma wp_deliver_discard blocks k s (Q : bool * unit -> nat -> TransferState -> Prop) :
  Q (true, tt) k s -> wp (deliver discard_response blocks tt) Q k s.
Proof.
intros HQ. induction blocks as [|x blocks IH]; simpl; [by apply wp_ret|].
apply wp_bind, wp_ret. rewrite Z.eqb_refl. apply IH.
Qed.

(** With memory the buffer holds the blocks one after the other. *)
Lemma wp_deliver_write `{!AllocOk E} blocks b k s (Q : bool * response_buffer -> nat -> TransferState -> Prop) :
  rb_length b = Z.of_nat (length (default [] (rb_data b))) ->
  rb_length b + Z.of_nat (length (mjoin blocks)) < 2 ^ 64 ->
  (forall k' b', rb_data b' = (if decide (mjoin blocks = []) then rb_data b else Some (default [] (rb_data b) ++ mjoin blocks)) ->
     Q (true, b') k' s) ->
  wp (deliver write_response blocks b) Q k s.
Proof.
revert b k. induction blocks as [|x blocks IH]; intros b k Hl Hs HQ; cbn [deliver].
{ by apply wp_ret, HQ. }
change (mjoin (x :: blocks)) with (x ++ mjoin blocks) in *. rewrite length_app in Hs. apply wp_bind. unfold write_response. apply wp_if; intros Hx; bool_prop.
- apply wp_ret. assert (x = []) as -> by (destruct x; [done|simpl in Hx; lia]). simpl. apply IH; done.
- apply wp_bind, wp_ask. rewrite alloc_ok. reduce_tests. apply wp_ret. rewrite Z.eqb_refl. apply IH; cbn [rb_length rb_data default from_option id].
  + unfold size_t_wrap. rewrite length_app, length_take, wrap_small by lia. lia.
  + unfold size_t_wrap. rewrite wrap_small by lia. lia.
  + intros k' b' Hd. apply HQ. rewrite decide_False by (destruct x; [done|discriminate]). rewrite Hd.
    rewrite Hl, Nat2Z.id, take_ge by lia. destruct (decide (mjoin blocks = [])) as [->|_]; [by rewrite app_nil_r|by rewrite app_assoc].
Qed.

(** What the progress callback is told. *)
Definition reported (calls : list (Z * Z * Z * Z)) : list (Z * Z) :=
  omap (fun '(_, _, total, sent) => if (0 <? total) && (0 <=? sent) then Some (sent, total) else None) calls.

Definition follow : Z * Z * Z * Z -> upload_status * list (Z * Z) -> Z * (upload_status * list (Z * Z)) :=
  fun '(dt, dn, ut, un) '(st, calls) => let '(r, st', new) := progress_func st dt dn ut un in (r, (st', calls ++ new)).

Lemma report_follow calls st acc :
  Forall (fun '(_, _, total, sent) => total <= LONG_MAX /\ sent <= LONG_MAX) calls ->
  exists st', report follow calls (st, acc) = (true, (st', acc ++ (if up_callback st then reported calls else []))).
Proof.
intros Hf. revert st acc. induction Hf as [|[[[dt dn] ut] un] calls [Hu Hn] Hf IH]; intros st acc; simpl.
{ exists st. destruct (up_callback st); by rewrite app_nil_r. }
unfold progress_func. destruct (up_callback st) eqn:Hc; simpl.
2: { rewrite app_nil_r. destruct (IH st acc) as [st' ->]. exists st'. by rewrite Hc, app_nil_r. }
destruct (Z.ltb_spec 0 ut) as [Hut|Hut]; simpl; [destruct (Z.leb_spec 0 un) as [Hun|Hun]; simpl|].
- unfold size_t_wrap. unfold LONG_MAX in *. rewrite !wrap_small by lia.
  destruct (IH {| up_total_bytes := up_total_bytes st; up_uploaded_bytes := un; up_callback := true |} (acc ++ [(un, ut)])) as [st' ->].
  exists st'. simpl. by rewrite <- app_assoc.
- rewrite app_nil_r. destruct (IH st acc) as [st' ->]. exists st'. by rewrite Hc.
- rewrite app_nil_r. destruct (IH st acc) as [st' ->]. exists st'. by rewrite Hc.
Qed.
End Spec.

(** [curl_off_t] is a 64-bit integer, and a body is shorter than 2^63 bytes. *)
Class CurlOk (C : Curl) : Prop := {
  curl_off_t j req : Forall (fun '(_, _, total, sent) => total <= LONG_MAX /\ sent <= LONG_MAX) (an_progress (curl_answer j req));
  curl_body j req : Z.of_nat (length (mjoin (an_body (curl_answer j req)))) < 2 ^ 63
}.

(** ** Addresses *)

Section Addresses.
Context `{I : Inet} {IO : InetOk I}.

Definition url_text (ip : cstring) (port : Z) (path : cstring) : cstring :=
  lit "http://" ++ (if bool_decide (":"%char ∈ ip) then lit "[" ++ ip ++ lit "]" else ip) ++ lit ":" ++ show_nat port ++ path.

Lemma validate_ip ip : validate_destination_ip (Some ip) = 0 ->
  ip <> [] /\ (length ip <= 45)%nat /\ (inet_pton4 ip = true \/ inet_pton6 ip = true).
Proof.
destruct ip as [|c ip]; [done|]. simpl. destruct (inet_pton4 (c :: ip)) eqn:H4.
- intros _. split; [done|]. destruct (inet4_text _ H4) as [? _]. split; [simpl in *; lia|by left].
- destruct (inet_pton6 (c :: ip)) eqn:H6; [|done]. intros _. destruct (inet6_text _ H6) as [? _]. split; [done|]. split; [simpl in *; lia|by right].
Qed.

Lemma port_length port : 0 <= port < 2 ^ 16 -> (length (show_nat port) <= 5)%nat.
Proof. intros Hp. apply show_nat_length; [simpl; lia|lia]. Qed.

(** The URL is never cut, and has brackets exactly around an IPv6 address. *)
Lemma peer_url_text ip port path : validate_destination_ip (Some ip) = 0 -> 0 <= port < 2 ^ 16 -> (length path <= 100)%nat ->
  peer_url ip port path = url_text ip port path.
Proof.
intros Hv Hp Hl. destruct (validate_ip ip Hv) as (_ & Hlen & _). pose proof (port_length port Hp). unfold peer_url, url_text.
destruct (strchr ip ":"%char) as [r|] eqn:Hc.
- rewrite bool_decide_true by (destruct (decide (":"%char ∈ ip)) as [|Hn]; [done|]; apply strchr_none in Hn; congruence).
  rewrite snprintf_fits; unfold sprintf; cbn [fmap list_fmap mjoin list_join fmt_text]; rewrite show_long_nat, app_nil_r by lia.
  + by rewrite <- !app_assoc.
  + rewrite !length_app. simpl. lia.
- rewrite bool_decide_false by (by apply strchr_none).
  rewrite snprintf_fits; unfold sprintf; cbn [fmap list_fmap mjoin list_join fmt_text]; rewrite show_long_nat, app_nil_r by lia.
  + done.
  + rewrite !length_app. simpl. lia.
Qed.
End Addresses.

(** ** Sending a file *)

Definition token_header (token : cstring) : cstring := lit "X-LocalDrop-Pair-Token: " ++ token.

(** The request for a file: its URL, its one part and its header, unless
    libcurl could not allocate the header. *)
Definition upload_request `{C : Curl} (path ip : cstring) (port : Z) (token : cstring) (req : HttpRequest) : Prop :=
  http_url req = url_text ip port (lit "/upload") /\
  http_parts req = [{| part_name := Some (lit "file"); part_data := Some (PartFile path) |}] /\
  (http_headers req = [token_header token] \/ (http_headers req = [] /\ exists j, curl_ok j = false)).

Definition accepted_answer (a : HttpAnswer) : Prop := an_code a = CURLE_OK /\ 200 <= an_status a < 300.

Lemma accepted_answer_dec a : {accepted_answer a} + {~ accepted_answer a}.
Proof. unfold accepted_answer. apply (decide (_ /\ _)). Defined.

Section Send.
Context `{E : Env} `{C : Curl} {CO : CurlOk C} `{I : Inet} {IO : InetOk I}.
Implicit Types (k : nat) (s : TransferState).

Definition send_value (a : HttpAnswer) : Z := if accepted_answer_dec a then 0 else -1.

Lemma wp_headers token k s (Q : list cstring -> nat -> TransferState -> Prop) : (0 < length token <= 64)%nat ->
  (forall k' hs, hs = [token_header token] \/ (hs = [] /\ exists j, curl_ok j = false) -> Q hs k' s) ->
  wp (match token with
      | [] => ret []
      | _ => appended <- curl_setup ;;
             ret (if appended : bool then [snprintf 128 [Lit (lit "X-LocalDrop-Pair-Token: "); Str token]] else [])
      end) Q k s.
Proof.
intros Hl HQ. destruct token as [|c token]; [simpl in Hl; lia|]. apply wp_bind, wp_ask, wp_ret, HQ.
destruct (curl_ok k) eqn:Hk; [left|right; split; [done|by exists k]]. rewrite snprintf_fits.
- unfold sprintf, token_header. cbn [fmap list_fmap mjoin list_join fmt_text]. by rewrite app_nil_r.
- unfold sprintf. cbn [fmap list_fmap mjoin list_join fmt_text]. rewrite app_nil_r, length_app. simpl in *. lia.
Qed.

(** Why no request is made. *)
Definition no_contact (ip : cstring) s : Prop :=
  curl_ready s = false \/ validate_destination_ip (Some ip) <> 0 \/ (exists j, curl_ok j = false).
Definition not_sent (path ip : cstring) s : Prop :=
  no_contact ip s \/ fs_names (tf_fs s) !! path = None \/ (exists j, env_io j = false).

Lemma wp_send_file path ip port token (cb : bool) k s (Q : Z * list (Z * Z) -> nat -> TransferState -> Prop) :
  (0 < length token <= 64)%nat -> 0 <= port < 2 ^ 16 ->
  (forall k', not_sent path ip s -> Q (-1, []) k' s) ->
  (forall k' req j, curl_ready s = true -> validate_destination_ip (Some ip) = 0 -> is_Some (fs_names (tf_fs s) !! path) ->
     upload_request path ip port token req ->
     Q (send_value (curl_answer j req), if cb then reported (an_progress (curl_answer j req)) else [])
       k' (set_tf_sent (tf_sent s ++ [req]) s)) ->
  wp (transfer_send_file path (Some ip) port (Some token) cb) Q k s.
Proof.
intros Ht Hp Hno Hyes. unfold transfer_send_file. apply wp_bind, wp_get, wp_if; intros Hg.
{ apply wp_ret, Hno. left. apply orb_true_iff in Hg as [Hg|Hg]; bool_prop; [by left|right; by left]. }
apply orb_false_iff in Hg as [Hr Hv]. bool_prop. apply wp_bind, wp_ask.
destruct (fs_names (tf_fs s) !! path) as [node|] eqn:Hn; [|apply wp_ret, Hno; right; by left].
apply wp_if; intros Hio; bool_prop; [apply wp_ret, Hno; right; right; by eexists|]. cbv zeta.
do 5 (apply wp_bind, wp_ask, wp_if; intros Hcu; bool_prop; [apply wp_ret, Hno; left; right; right; by eexists|clear Hcu]).
apply wp_bind, wp_headers; [done|]. intros k1 hs Hhs. apply wp_bind. unfold curl_easy_perform.
apply wp_bind, wp_ask, wp_bind, wp_modify, wp_bind, wp_deliver_discard. fold follow.
match goal with |- context [curl_answer ?x ?r] => set (req := r); set (j := x) end.
match goal with |- context [report follow _ (?st, [])] => destruct (report_follow (an_progress (curl_answer j req)) st [] (curl_off_t j req)) as [st' ->] end.
apply wp_ret. reduce_tests. cbn [up_callback app].
assert (Hreq : upload_request path ip port token req).
{ split; [|by split]. cbn [http_url req]. apply peer_url_text; [done..|]. simpl. lia. }
specialize (Hyes (S k1) req j Hr Hv ltac:(by eexists) Hreq). unfold send_value, accepted_answer in *.
set (a := curl_answer j req) in *. destruct (accepted_answer_dec a) as [[Hc Hs]|Hbad]; unfold CURLE_OK in *.
- rewrite Hc. reduce_tests. destruct (Z.ltb_spec (an_status a) 200); [lia|]. destruct (Z.leb_spec 300 (an_status a)); [lia|]. by apply wp_ret.
- apply wp_if; intros Hc; [by apply wp_ret|]. bool_prop. apply wp_if; intros Hs; [by apply wp_ret|].
  exfalso. apply Hbad. unfold accepted_answer, CURLE_OK. apply orb_false_iff in Hs as [H1 H2]. bool_prop. lia.
Qed.

(** C17: sending a file.  Either no request is made, which happens only for one
    of the reasons of [not_sent], and the call fails; or exactly one request is
    made, to the upload page of that address and port, with the file and the
    token of the pairing, and the call succeeds exactly when the peer answered
    with a 2xx status.  The callback is told the reports of libcurl that have a
    known size, in order. *)
Theorem send_file_correct path ip port token (cb : bool) k s r calls k' s' :
  (0 < length token <= 64)%nat -> 0 <= port < 2 ^ 16 ->
  transfer_send_file path (Some ip) port (Some token) cb k s = ((r, calls), (k', s')) ->
  (r = -1 /\ calls = [] /\ s' = s /\ not_sent path ip s) \/
  (exists req j, s' = set_tf_sent (tf_sent s ++ [req]) s /\ curl_ready s = true /\ (inet_pton4 ip = true \/ inet_pton6 ip = true) /\
     upload_request path ip port token req /\ (r = 0 \/ r = -1) /\ (r = 0 <-> accepted_answer (curl_answer j req)) /\
     calls = (if cb then reported (an_progress (curl_answer j req)) else [])).
Proof.
intros Ht Hp. to_wp. cbn [fst snd]. apply wp_send_file; [done..|by left|].
intros k1 req j Hr Hv _ Hreq. right. exists req, j. cbn [fst snd]. split; [done|]. split; [done|]. split; [by apply validate_ip|]. split; [done|].
unfold send_value. destruct (accepted_answer_dec _); split; auto; split; done.
Qed.
End Send.

(** ** Pairing *)

(** What the answer says, read in one piece. *)
Definition pair_outcome `{C : Curl} (a : HttpAnswer) : pair_result :=
  let body := mjoin (an_body a) in
  let json := if bool_decide (body = []) then None else Some (cstr body) in
  if negb (an_code a =? CURLE_OK) then pair_failed None (Some (snprintf 256 [Str (curl_easy_strerror (an_code a))]))
  else if (an_status a <? 200) || (300 <=? an_status a)
  then pair_failed None (extract_message json (Some 256%nat) (lit "Pareamento recusado pelo peer remoto"))
  else
    let '(r, token) := extract_json_string_field json (Some (lit "token")) (Some 65%nat) in
    if negb (r =? 0) then pair_failed token None
    else {| pr_code := 0; pr_token := token;
            pr_expires_at := (let '(r, v) := extract_json_long_field json (Some (lit "expires_at")) true in if r =? 0 then v else Some 0);
            pr_message := extract_message json (Some 256%nat) (lit "Pareamento realizado com sucesso") |}.

(** The form of the exchange; a field may be missing when libcurl could not
    allocate it. *)
Definition exchange_fields (code name : cstring) (port : Z) : list Part :=
  (fun '(n, v) => {| part_name := Some n; part_data := Some (PartData v) |}) <$>
  [(lit "pair_code", code); (lit "peer_name", name); (lit "peer_port", show_nat port)].
Definition exchange_request `{C : Curl} (ip : cstring) (port : Z) (code name : cstring) (peer_port : Z) (req : HttpRequest) : Prop :=
  http_url req = url_text ip port (lit "/api/pair/exchange") /\ http_headers req = [] /\
  (http_parts req = exchange_fields code name peer_port \/ exists j, curl_ok j = false).

Section Pair.
Context `{E : Env} {A : AllocOk E} `{C : Curl} {CO : CurlOk C} `{I : Inet} {IO : InetOk I}.
Implicit Types (k : nat) (s : TransferState).

Lemma wp_add_field name data k s (Q : list Part -> nat -> TransferState -> Prop) :
  (forall k' ps, ps = [{| part_name := Some name; part_data := Some (PartData data) |}] \/ (exists j, curl_ok j = false) -> Q ps k' s) ->
  wp (add_field name data) Q k s.
Proof.
intros HQ. unfold add_field. apply wp_bind, wp_ask, wp_if; intros H1; bool_prop; [apply wp_ret, HQ; right; by eexists|].
apply wp_bind, wp_ask, wp_bind, wp_ask, wp_ret, HQ.
destruct (curl_ok (S k)) eqn:H2; [|right; by eexists]. destruct (curl_ok (S (S k))) eqn:H3; [by left|right; by eexists].
Qed.

Lemma show_nat_c n : 0 <= n -> c_string (show_nat n).
Proof.
intros Hn. destruct (show_nat_spec n Hn) as (_ & Hd & _). unfold c_string. eapply Forall_impl; [exact Hd|].
intros c Hc. simpl in Hc. unfold isdigit in Hc. bool_prop. lia.
Qed.

Lemma wp_pair_peer ip port name peer_port code k s (Q : pair_result -> nat -> TransferState -> Prop) :
  0 <= port < 2 ^ 16 -> 0 <= peer_port < 2 ^ 16 ->
  (forall k', no_contact ip s -> Q (pair_failed None None) k' s) ->
  (forall k' req j, curl_ready s = true -> validate_destination_ip (Some ip) = 0 ->
     exchange_request ip port code name peer_port req ->
     Q (pair_outcome (curl_answer j req)) k' (set_tf_sent (tf_sent s ++ [req]) s)) ->
  wp (transfer_pair_peer (Some ip) port (Some name) peer_port (Some code) (Some 65%nat) true (Some 256%nat)) Q k s.
Proof.
intros Hp Hpp Hno Hyes. assert (Hport : snprintf 512 [UInt peer_port] = show_nat peer_port).
{ assert (Hs : sprintf [UInt peer_port] = show_nat peer_port) by (unfold sprintf; simpl; by rewrite app_nil_r).
  rewrite snprintf_fits; rewrite Hs; [done|]. pose proof (port_length peer_port Hpp). lia. }
unfold transfer_pair_peer. rewrite Hport. apply wp_bind, wp_get. cbn [Nat.eqb]. rewrite orb_false_r. apply wp_if; intros Hg.
{ apply wp_ret, Hno. apply orb_true_iff in Hg as [Hg|Hg]; bool_prop; [by left|right; by left]. }
apply orb_false_iff in Hg as [Hr Hv]. bool_prop.
do 2 (apply wp_bind, wp_ask, wp_if; intros Hcu; bool_prop; [apply wp_ret, Hno; right; right; by eexists|clear Hcu]).
apply wp_bind, wp_add_field. intros k1 p1 H1. apply wp_bind, wp_add_field. intros k2 p2 H2. apply wp_bind, wp_add_field. intros k3 p3 H3.
cbv zeta. apply wp_bind. unfold curl_easy_perform. apply wp_bind, wp_ask, wp_bind, wp_modify, wp_bind.
match goal with |- context [curl_answer ?x ?r] => set (req := r); set (j := x) end.
apply wp_deliver_write; [done|cbn [rb_length]; pose proof (curl_body j req); lia|]. intros k4 b Hb.
assert (Hrep : forall calls, report (fun _ u => (0, u)) calls tt = (true, tt)) by (intros calls; by induction calls).
rewrite Hrep. apply wp_ret. cbn [default from_option id rb_data app] in Hb. cbn [negb].
assert (Hreq : exchange_request ip port code name peer_port req).
{ split; [|split; [done|]]; cbn [http_url http_parts req]; [apply peer_url_text; [done..|]; simpl; lia|].
  destruct H1 as [->|?]; [|by right]. destruct H2 as [->|?]; [|by right]. destruct H3 as [->|?]; [|by right]. left.
  reflexivity. }
specialize (Hyes k4 req j Hr Hv Hreq). set (a := curl_answer j req) in *. unfold pair_outcome in Hyes.
assert (Hjson : cstr <$> rb_data b = if bool_decide (mjoin (an_body a) = []) then None else Some (cstr (mjoin (an_body a)))).
{ rewrite Hb. case_bool_decide as He; [by rewrite decide_True by done|by rewrite decide_False by done]. }
rewrite Hjson. cbn [default from_option id] in Hyes.
destruct (negb (an_code a =? CURLE_OK)); [by apply wp_ret|]. destruct ((an_status a <? 200) || (300 <=? an_status a)); [by apply wp_ret|].
destruct (extract_json_string_field _ _ _) as [r tok]. destruct (negb (r =? 0)); by apply wp_ret.
Qed.

Lemma reply_c_string tok e : hex_token 64 tok -> LONG_MIN <= e <= LONG_MAX -> c_string (pair_reply paired_text tok e).
Proof.
intros Ht He. unfold pair_reply. apply Forall_app. split; [by apply (bool_decide_eq_true_1 _); vm_compute|].
apply Forall_app. split; [by apply (bool_decide_eq_true_1 _); vm_compute|]. apply Forall_app. split; [by apply (bool_decide_eq_true_1 _); vm_compute|].
apply Forall_app. split; [by apply (hex_c_string 64)|]. apply Forall_app. split; [by apply (bool_decide_eq_true_1 _); vm_compute|].
apply Forall_app. split; [|by apply (bool_decide_eq_true_1 _); vm_compute]. unfold show_long.
destruct (Z.ltb_spec e 0); [constructor; [by vm_compute|]|]; apply show_nat_c; lia.
Qed.

(** An accepting reply is understood, however it is cut into blocks. *)
Lemma outcome_of_reply a tok e : accepted_answer a -> mjoin (an_body a) = pair_reply paired_text tok e -> hex_token 64 tok ->
  LONG_MIN <= e <= LONG_MAX ->
  pair_outcome a = {| pr_code := 0; pr_token := Some tok; pr_expires_at := Some e; pr_message := Some paired_text |}.
Proof.
intros [Hc Hs] Hb Ht He. unfold pair_outcome. rewrite Hb, Hc. cbv zeta. cbn [CURLE_OK Z.eqb negb].
destruct (Z.ltb_spec (an_status a) 200); [lia|]. destruct (Z.leb_spec 300 (an_status a)); [lia|]. cbn [orb].
rewrite bool_decide_false by done. rewrite cstr_id by by apply reply_c_string.
rewrite reply_token, reply_expires by done. reduce_tests. rewrite reply_message; [done|]. vm_compute. lia.
Qed.

(** A success always carries a token that fits, from a 2xx answer. *)
Lemma outcome_success a : pr_code (pair_outcome a) = 0 ->
  accepted_answer a /\ exists tok, pr_token (pair_outcome a) = Some tok /\ (length tok < 65)%nat /\ (dquote ∉ tok).
Proof.
unfold pair_outcome, accepted_answer. cbv zeta. destruct (Z.eqb_spec (an_code a) CURLE_OK) as [Hc|Hc]; cbn [negb]; [|done].
destruct ((an_status a <? 200) || (300 <=? an_status a)) eqn:Hs; [done|]. apply orb_false_iff in Hs as [H1 H2]. bool_prop.
destruct (bool_decide (mjoin (an_body a) = [])); [done|].
destruct (extract_json_string_field _ _ _) as [r text] eqn:Hx. apply extract_found in Hx as [Hok _]; [|lia].
destruct (Z.eqb_spec r 0) as [->|]; cbn [negb]; [|done]. intros _. split; [split; [done|lia]|].
destruct (Hok eq_refl) as (t & _ & _ & -> & Hl & Hq & _). by exists t.
Qed.

(** C18: pairing with a peer.  Either no request is made, for one of the reasons
    of [no_contact], and the call fails; or exactly one request is made, to the
    exchange page of that address with the code, and the result is what the
    answer says whatever the blocks it arrives in.  A success means a 2xx
    answer and a token that fits its buffer; and the reply the server sends on
    success is read back: the same token and the same expiry. *)
Theorem pair_peer_correct ip port name peer_port code k s res k' s' :
  0 <= port < 2 ^ 16 -> 0 <= peer_port < 2 ^ 16 ->
  transfer_pair_peer (Some ip) port (Some name) peer_port (Some code) (Some 65%nat) true (Some 256%nat) k s = (res, (k', s')) ->
  (res = pair_failed None None /\ s' = s /\ no_contact ip s) \/
  (exists req j, let a := curl_answer j req in s' = set_tf_sent (tf_sent s ++ [req]) s /\ curl_ready s = true /\
     (inet_pton4 ip = true \/ inet_pton6 ip = true) /\ exchange_request ip port code name peer_port req /\ res = pair_outcome a /\
     (pr_code res = 0 -> accepted_answer a /\ exists tok, pr_token res = Some tok /\ (length tok < 65)%nat /\ (dquote ∉ tok)) /\
     (forall tok e, accepted_answer a -> mjoin (an_body a) = pair_reply paired_text tok e -> hex_token 64 tok -> LONG_MIN <= e <= LONG_MAX ->
        pr_code res = 0 /\ pr_token res = Some tok /\ pr_expires_at res = Some e)).
Proof.
intros Hp Hpp. to_wp. apply wp_pair_peer; [done..|by left|]. intros k1 req j Hr Hv Hreq. right. exists req, j. cbv zeta.
split; [done|]. split; [done|]. split; [by apply validate_ip|]. split; [done|]. split; [done|]. split; [apply outcome_success|].
intros tok e Ha Hb Ht He. by rewrite (outcome_of_reply _ tok e).
Qed.
End Pair.
