(* ===== verification/Ui.v ===== *)
(** * Ui: the page of the interface (src/ui.c)

    The page is a table of lines with a hole for the session token, which is
    written as a quoted, escaped string.  In the table below [^] stands for a
    double quote. *)

From stdpp Require Import base numbers list strings gmap.
From Stdlib Require Import ZArith Lia Ascii.
From S2P Require Import Prelude Effects CLib JsonUtils JsonValue.

Definition tx (s : string) : option cstring :=
  Some (map (fun c => if bool_decide (c = "^"%char) then dquote else c) (lit s)).
Definition nl (s : string) : option cstring := option_map (fun t => t ++ [ascii_of_nat 10]) (tx s).

(** The table, in the order of the code and cut at its parts; [NULL] is the
    place of the token. *)
Definition HTML_HEAD : list (option cstring) := [
  nl "<!DOCTYPE html>";
  nl "<html lang=^pt-BR^>";
  nl "<head>";
  nl "  <meta charset=^UTF-8^>";
  nl "  <meta name=^viewport^ content=^width=device-width, initial-scale=1.0^>";
  nl "  <title>LocalDrop</title>";
  nl "  <style>";
  nl "    :root {";
  nl "      color-scheme: light;";
  nl "      font-family: ^Segoe UI^, sans-serif;";
  nl "      --bg: #eef3f8;";
  nl "      --surface: #ffffff;";
  nl "      --surface-alt: #f8fbff;";
  nl "      --text: #1e293b;";
  nl "      --muted: #64748b;";
  nl "      --primary: #0f62fe;";
  nl "      --primary-dark: #0043ce;";
  nl "      --success: #198754;";
  nl "      --error: #b42318;";
  nl "      --warning: #b54708;";
  nl "      --border: #d7e0ea;";
  nl "    }";
  nl "    * { box-sizing: border-box; }";
  nl "    body { margin: 0; background: radial-gradient(circle at top, #ffffff 0%, var(--bg) 68%); color: var(--text); }";
  nl "    main { max-width: 1100px; margin: 0 auto; padding: 36px 18px 56px; }";
  nl "    h1, h2, h3, p { margin-top: 0; }";
  nl "    .hero { margin-bottom: 18px; }";
  nl "    .hero p { max-width: 60ch; color: var(--muted); }";
  nl "    .grid { display: grid; grid-template-columns: 1.05fr 1.4fr; gap: 18px; align-items: start; }";
  nl "    .section { background: var(--surface); border: 1px solid var(--border); border-radius: 18px; padding: 22px; box-shadow: 0 16px 32px rgba(15, 23, 42, 0.08); }";
  nl "    .section-header { display: flex; align-items: center; justify-content: space-between; gap: 12px; flex-wrap: wrap; margin-bottom: 16px; }";
  nl "    .muted { color: var(--muted); }";
  nl "    .device-list { display: grid; gap: 12px; }";
  nl "    .device { border: 1px solid var(--border); border-radius: 14px; padding: 16px; background: var(--surface-alt); }";
  nl "    .device p { margin: 4px 0; color: var(--muted); }";
  nl "    .status-pill { display: inline-flex; align-items: center; gap: 6px; border-radius: 999px; padding: 4px 10px; font-size: 0.85rem; background: #e2e8f0; color: var(--text); }";
  nl "    .status-pill.online { background: #dcfce7; color: #166534; }";
  nl "    .status-pill.offline { background: #fee2e2; color: #991b1b; }";
  nl "    .status-pill.paired { background: #dbeafe; color: #1d4ed8; }";
  nl "    .actions { display: flex; gap: 10px; flex-wrap: wrap; margin-top: 12px; }";
  nl "    button { border: none; border-radius: 999px; padding: 10px 18px; font-size: 0.95rem; font-weight: 600; cursor: pointer; background: var(--primary); color: white; }";
  nl "    button:hover { background: var(--primary-dark); }";
  nl "    button.secondary { background: #dce9ff; color: #12316b; }";
  nl "    button.secondary:hover { background: #c5dbff; }";
  nl "    button.warning { background: #fef0c7; color: var(--warning); }";
  nl "    button.warning:hover { background: #fde68a; }";
  nl "    button:disabled { opacity: 0.55; cursor: not-allowed; }";
  nl "    input[type=^file^], input[type=^text^] { width: 100%; max-width: 100%; padding: 12px 14px; border: 1px solid var(--border); border-radius: 12px; font-size: 1rem; }";
  nl "    .input-row { display: grid; gap: 10px; }";
  nl "    .upload-area { border: 2px dashed #bfd2e7; border-radius: 20px; padding: 24px; background: linear-gradient(180deg, #fbfdff 0%, #f5f9ff 100%); }";
  nl "    .progress { background: #dbe7f3; border-radius: 999px; height: 28px; margin-top: 18px; overflow: hidden; }";
  nl "    .progress-bar { background: linear-gradient(90deg, #0f62fe 0%, #42a5f5 100%); height: 100%; width: 0%; color: white; line-height: 28px; text-align: center; font-size: 0.85rem; transition: width 0.25s ease; }";
  nl "    .hidden { display: none; }";
  nl "    .card-list { display: grid; gap: 14px; }";
  nl "    .auth-lock { border: 1px solid #fed7aa; background: #fff7ed; }";
  nl "    .auth-lock strong { display: block; margin-bottom: 8px; }";
  nl "    .status { min-height: 24px; margin-top: 14px; font-weight: 600; }";
  nl "    .status.success { color: var(--success); }";
  nl "    .status.error { color: var(--error); }";
  nl "    .code-box { display: flex; align-items: baseline; justify-content: space-between; gap: 12px; padding: 16px; border: 1px solid var(--border); border-radius: 16px; background: var(--surface-alt); }";
  nl "    .code-value { font-size: 2rem; font-weight: 700; letter-spacing: 0.2em; }";
  nl "    .locked-note { color: var(--warning); font-weight: 600; }";
  nl "    @media (max-width: 860px) {";
  nl "      .grid { grid-template-columns: 1fr; }";
  nl "      button { width: 100%; }";
  nl "      .actions { flex-direction: column; }";
  nl "      .code-box { flex-direction: column; align-items: flex-start; }";
  nl "    }";
  nl "  </style>";
  nl "</head>" ].
Definition HTML_BODY : list (option cstring) := [
  nl "<body>";
  nl "  <main>";
  nl "    <section class=^hero^>";
  nl "      <h1>LocalDrop</h1>";
  nl "      <p>Compartilhamento local com descoberta automatica, destravamento administrativo local e pareamento entre peers antes do envio.</p>";
  nl "    </section>";
  nl "    <div class=^grid^>";
  nl "      <div class=^card-list^>";
  nl "        <section class=^section auth-lock^ id=^unlockPanel^>";
  nl "          <strong>Destravar interface</strong>";
  nl "          <p class=^muted^>Use o codigo administrativo mostrado no terminal para autorizar uploads, pareamentos e envios.</p>";
  nl "          <form id=^unlockForm^ class=^input-row^>";
  nl "            <input type=^text^ id=^adminCodeInput^ name=^admin_code^ maxlength=^6^ inputmode=^numeric^ placeholder=^Codigo administrativo^>";
  nl "            <button type=^submit^>Destravar sessao</button>";
  nl "          </form>";
  nl "          <div id=^unlockStatus^ class=^status^ aria-live=^polite^></div>";
  nl "        </section>";
  nl "        <section class=^section^ id=^pairingPanel^>";
  nl "          <div class=^section-header^>";
  nl "            <div>";
  nl "              <h2>Codigo de pareamento</h2>";
  nl "              <p class=^muted^>Abra esta secao no dispositivo que vai receber o arquivo e informe o codigo no dispositivo de origem.</p>";
  nl "            </div>";
  nl "            <button id=^refreshPairingCode^ class=^secondary^ type=^button^>Atualizar codigo</button>";
  nl "          </div>";
  nl "          <div class=^code-box^>";
  nl "            <div>";
  nl "              <div class=^code-value^ id=^pairingCodeValue^>------</div>";
  nl "              <div class=^muted^ id=^pairingCodeExpiry^>Destrave a interface para gerar um codigo.</div>";
  nl "            </div>";
  nl "            <div class=^locked-note^ id=^pairingLockState^>Bloqueado ate a autenticacao local.</div>";
  nl "          </div>";
  nl "        </section>";
  nl "        <section class=^section^>";
  nl "          <div class=^section-header^>";
  nl "            <div>";
  nl "              <h2>Receber arquivo neste dispositivo</h2>";
  nl "              <p class=^muted^>Uploads locais exigem uma sessao administrativa destravada.</p>";
  nl "            </div>";
  nl "          </div>";
  nl "          <div class=^upload-area^>";
  nl "            <form id=^uploadForm^ class=^input-row^ enctype=^multipart/form-data^>";
  nl "              <input type=^file^ name=^file^ id=^fileInput^ required>";
  nl "              <button type=^submit^>Enviar para este dispositivo</button>";
  nl "            </form>";
  nl "            <div id=^progress-container^ class=^hidden^>";
  nl "              <div class=^progress^><div id=^progress-bar^ class=^progress-bar^>0%</div></div>";
  nl "            </div>";
  nl "            <div id=^uploadStatus^ class=^status^ aria-live=^polite^></div>";
  nl "          </div>";
  nl "        </section>";
  nl "        <section class=^section^>";
  nl "          <div class=^section-header^>";
  nl "            <div>";
  nl "              <h2>Transferencias</h2>";
  nl "              <p class=^muted^>Envios remotos entram em fila e sao processados em segundo plano.</p>";
  nl "            </div>";
  nl "            <button id=^refreshTransfers^ class=^secondary^ type=^button^>Atualizar fila</button>";
  nl "          </div>";
  nl "          <div id=^transfers^ class=^device-list^ aria-live=^polite^></div>";
  nl "        </section>";
  nl "      </div>";
  nl "      <section class=^section^>";
  nl "        <div class=^section-header^>";
  nl "          <div>";
  nl "            <h2>Dispositivos descobertos</h2>";
  nl "            <p class=^muted^>Somente peers pareados ficam liberados para envio.</p>";
  nl "          </div>";
  nl "          <button id=^refreshDevices^ class=^secondary^ type=^button^>Atualizar lista</button>";
  nl "        </div>";
  nl "        <div id=^devices^ class=^device-list^ aria-live=^polite^></div>";
  nl "        <input type=^file^ id=^sendFileInput^ class=^hidden^>";
  nl "      </section>";
  nl "    </div>";
  nl "  </main>";
  nl "  <script>" ].
Definition HTML_SCRIPT : list (option cstring) := [
  tx "    const initialUiToken = ";
  None;
  nl ";";
  nl "    let uiToken = window.localStorage.getItem('localdropUiToken') || initialUiToken || '';";
  nl "    let selectedDevice = null;";
  nl "    const devicesContainer = document.getElementById('devices');";
  nl "    const sendFileInput = document.getElementById('sendFileInput');";
  nl "    const progressContainer = document.getElementById('progress-container');";
  nl "    const progressBar = document.getElementById('progress-bar');";
  nl "    const uploadStatus = document.getElementById('uploadStatus');";
  nl "    const transfersContainer = document.getElementById('transfers');";
  nl "    const unlockStatus = document.getElementById('unlockStatus');";
  nl "    const pairingCodeValue = document.getElementById('pairingCodeValue');";
  nl "    const pairingCodeExpiry = document.getElementById('pairingCodeExpiry');";
  nl "    const pairingLockState = document.getElementById('pairingLockState');";
  nl "    function isUnlocked() {";
  nl "      return Boolean(uiToken);";
  nl "    }";
  nl "    function setUiToken(token) {";
  nl "      uiToken = token || '';";
  nl "      if (uiToken) {";
  nl "        window.localStorage.setItem('localdropUiToken', uiToken);";
  nl "      } else {";
  nl "        window.localStorage.removeItem('localdropUiToken');";
  nl "      }";
  nl "      updateAuthState();";
  nl "    }";
  nl "    function setStatus(node, message, type) {";
  nl "      node.className = 'status ' + (type || '');";
  nl "      node.textContent = message || '';";
  nl "    }";
  nl "    function clearElement(node) {";
  nl "      while (node.firstChild) {";
  nl "        node.removeChild(node.firstChild);";
  nl "      }";
  nl "    }";
  nl "    function renderEmptyState(message) {";
  nl "      clearElement(devicesContainer);";
  nl "      const text = document.createElement('p');";
  nl "      text.textContent = message;";
  nl "      devicesContainer.appendChild(text);";
  nl "    }";
  nl "    async function apiFetch(path, options = {}) {";
  nl "      const headers = new Headers(options.headers || {});";
  nl "      if (uiToken) {";
  nl "        headers.set('X-LocalDrop-UI-Token', uiToken);";
  nl "      }";
  nl "      const response = await fetch(path, { ...options, headers });";
  nl "      if ((response.status === 401 || response.status === 403) && uiToken) {";
  nl "        setUiToken('');";
  nl "        setStatus(unlockStatus, 'Sessao expirada. Destrave novamente.', 'error');";
  nl "      }";
  nl "      return response;";
  nl "    }";
  nl "    function updateAuthState() {";
  nl "      const unlocked = isUnlocked();";
  nl "      document.getElementById('unlockPanel').classList.toggle('hidden', unlocked);";
  nl "      pairingLockState.textContent = unlocked ? 'Sessao autenticada. Codigo pronto para uso.' : 'Bloqueado ate a autenticacao local.';";
  nl "      if (!unlocked) {";
  nl "        pairingCodeValue.textContent = '------';";
  nl "        pairingCodeExpiry.textContent = 'Destrave a interface para gerar um codigo.';";
  nl "        clearElement(transfersContainer);";
  nl "        const lockedTransfer = document.createElement('p');";
  nl "        lockedTransfer.textContent = 'Destrave a interface para consultar a fila de transferencias.';";
  nl "        transfersContainer.appendChild(lockedTransfer);";
  nl "      }";
  nl "    }";
  nl "    function createBadge(text, className) {";
  nl "      const badge = document.createElement('span');";
  nl "      badge.className = 'status-pill ' + className;";
  nl "      badge.textContent = text;";
  nl "      return badge;";
  nl "    }";
  nl "    async function refreshPairingCode(forceRefresh) {";
  nl "      if (!isUnlocked()) {";
  nl "        return;";
  nl "      }";
  nl "      if (!forceRefresh && pairingCodeValue.textContent !== '------') {";
  nl "        return;";
  nl "      }";
  nl "      const response = await apiFetch('/api/pair/local-code');";
  nl "      const result = await response.json().catch(() => ({}));";
  nl "      if (!response.ok || result.status !== 'ok') {";
  nl "        setStatus(unlockStatus, result.message || 'Falha ao obter codigo de pareamento.', 'error');";
  nl "        return;";
  nl "      }";
  nl "      pairingCodeValue.textContent = result.code || '------';";
  nl "      pairingCodeExpiry.textContent = result.expires_at ? ('Valido ate ' + new Date(result.expires_at * 1000).toLocaleTimeString('pt-BR')) : 'Codigo sem expiracao informada';";
  nl "    }";
  nl "    async function unlockSession(event) {";
  nl "      event.preventDefault();";
  nl "      const adminCode = document.getElementById('adminCodeInput').value.trim();";
  nl "      if (!adminCode) {";
  nl "        setStatus(unlockStatus, 'Informe o codigo administrativo.', 'error');";
  nl "        return;";
  nl "      }";
  nl "      const formData = new FormData();";
  nl "      formData.append('admin_code', adminCode);";
  nl "      const response = await apiFetch('/api/session/unlock', { method: 'POST', body: formData });";
  nl "      const result = await response.json().catch(() => ({}));";
  nl "      if (!response.ok || result.status !== 'ok' || !result.token) {";
  nl "        setStatus(unlockStatus, result.message || 'Nao foi possivel destravar a sessao.', 'error');";
  nl "        return;";
  nl "      }";
  nl "      setUiToken(result.token);";
  nl "      document.getElementById('adminCodeInput').value = '';";
  nl "      setStatus(unlockStatus, 'Sessao destravada com sucesso.', 'success');";
  nl "      await refreshPairingCode(true);";
  nl "      await refreshDevices();";
  nl "      await refreshTransfers();";
  nl "    }";
  nl "    async function pairDevice(device) {";
  nl "      if (!isUnlocked()) {";
  nl "        setStatus(unlockStatus, 'Destrave a interface antes de parear peers.', 'error');";
  nl "        return;";
  nl "      }";
  nl "      const pairCode = window.prompt('Digite o codigo de pareamento exibido no dispositivo ' + device.name + ':');";
  nl "      if (!pairCode) {";
  nl "        return;";
  nl "      }";
  nl "      const formData = new FormData();";
  nl "      formData.append('target_ip', device.ip);";
  nl "      formData.append('target_port', String(device.port));";
  nl "      formData.append('target_name', device.name);";
  nl "      formData.append('pair_code', pairCode.trim());";
  nl "      const response = await apiFetch('/api/pair', { method: 'POST', body: formData });";
  nl "      const result = await response.json().catch(() => ({}));";
  nl "      if (!response.ok || result.status !== 'ok') {";
  nl "        window.alert(result.message || 'Falha ao parear com o peer remoto.');";
  nl "        return;";
  nl "      }";
  nl "      window.alert(result.message || ('Peer ' + device.name + ' pareado com sucesso.'));";
  nl "      await refreshDevices();";
  nl "    }";
  nl "    function renderTransfer(job) {";
  nl "      const card = document.createElement('article');";
  nl "      card.className = 'device';";
  nl "      const title = document.createElement('h3');";
  nl "      title.textContent = 'Job ' + job.job_id;";
  nl "      card.appendChild(title);";
  nl "      const statusLine = document.createElement('p');";
  nl "      statusLine.textContent = 'Status: ' + String(job.status || '').replaceAll('_', ' ');";
  nl "      card.appendChild(statusLine);";
  nl "      const targetLine = document.createElement('p');" ].
Definition HTML_SCRIPT_ACTIONS : list (option cstring) := [
  nl "      targetLine.textContent = 'Destino: ' + job.target_ip + ':' + job.target_port;";
  nl "      card.appendChild(targetLine);";
  nl "      const progressLine = document.createElement('p');";
  nl "      progressLine.textContent = 'Progresso: ' + job.bytes_sent + ' / ' + job.total_bytes + ' bytes';";
  nl "      card.appendChild(progressLine);";
  nl "      if (job.error_message) {";
  nl "        const errorLine = document.createElement('p');";
  nl "        errorLine.textContent = 'Erro: ' + job.error_message;";
  nl "        card.appendChild(errorLine);";
  nl "      }";
  nl "      return card;";
  nl "    }";
  nl "    async function refreshTransfers() {";
  nl "      if (!isUnlocked()) {";
  nl "        return;";
  nl "      }";
  nl "      const response = await apiFetch('/api/transfers');";
  nl "      const transfers = await response.json().catch(() => []);";
  nl "      clearElement(transfersContainer);";
  nl "      if (!response.ok || !Array.isArray(transfers)) {";
  nl "        const errorText = document.createElement('p');";
  nl "        errorText.textContent = 'Falha ao consultar a fila de transferencias.';";
  nl "        transfersContainer.appendChild(errorText);";
  nl "        return;";
  nl "      }";
  nl "      if (transfers.length === 0) {";
  nl "        const emptyText = document.createElement('p');";
  nl "        emptyText.textContent = 'Nenhuma transferencia registrada nesta sessao.';";
  nl "        transfersContainer.appendChild(emptyText);";
  nl "        return;";
  nl "      }";
  nl "      transfers.sort((left, right) => right.created_at - left.created_at);";
  nl "      transfers.forEach((job) => transfersContainer.appendChild(renderTransfer(job)));";
  nl "    }";
  nl "    function renderDevice(device) {";
  nl "      const card = document.createElement('article');";
  nl "      card.className = 'device';";
  nl "      const titleRow = document.createElement('div');";
  nl "      titleRow.className = 'section-header';";
  nl "      const title = document.createElement('h3');";
  nl "      title.textContent = device.name;";
  nl "      titleRow.appendChild(title);";
  nl "      const badges = document.createElement('div');";
  nl "      badges.className = 'actions';";
  nl "      badges.appendChild(createBadge(device.active ? 'Online' : 'Offline', device.active ? 'online' : 'offline'));";
  nl "      if (device.paired) {";
  nl "        badges.appendChild(createBadge('Pareado', 'paired'));";
  nl "      }";
  nl "      titleRow.appendChild(badges);";
  nl "      card.appendChild(titleRow);";
  nl "      const address = document.createElement('p');";
  nl "      address.textContent = 'Endereco: ' + device.ip + ':' + device.port;";
  nl "      card.appendChild(address);";
  nl "      const actions = document.createElement('div');";
  nl "      actions.className = 'actions';";
  nl "      const pairButton = document.createElement('button');";
  nl "      pairButton.type = 'button';";
  nl "      pairButton.className = 'secondary';";
  nl "      pairButton.textContent = device.paired ? 'Pareado' : 'Parear';";
  nl "      pairButton.disabled = !isUnlocked() || !device.active || device.paired;";
  nl "      pairButton.addEventListener('click', () => pairDevice(device));";
  nl "      actions.appendChild(pairButton);";
  nl "      const sendButton = document.createElement('button');";
  nl "      sendButton.type = 'button';";
  nl "      sendButton.textContent = 'Enviar arquivo';";
  nl "      sendButton.disabled = !isUnlocked() || !device.active || !device.paired;";
  nl "      sendButton.addEventListener('click', () => {";
  nl "        selectedDevice = device;";
  nl "        sendFileInput.click();";
  nl "      });";
  nl "      actions.appendChild(sendButton);";
  nl "      card.appendChild(actions);";
  nl "      return card;";
  nl "    }";
  nl "    async function refreshDevices() {";
  nl "      try {";
  nl "        const response = await apiFetch('/api/devices');";
  nl "        if (!response.ok) {";
  nl "          throw new Error('Falha ao listar dispositivos');";
  nl "        }";
  nl "        const devices = await response.json();";
  nl "        if (!Array.isArray(devices) || devices.length === 0) {";
  nl "          renderEmptyState('Nenhum dispositivo encontrado no momento.');";
  nl "          return;";
  nl "        }";
  nl "        clearElement(devicesContainer);";
  nl "        devices.forEach((device) => devicesContainer.appendChild(renderDevice(device)));";
  nl "      } catch (error) {";
  nl "        renderEmptyState('Erro ao carregar dispositivos: ' + error.message);";
  nl "      }";
  nl "    }";
  nl "    sendFileInput.addEventListener('change', async (event) => {";
  nl "      const file = event.target.files[0];";
  nl "      if (!file || !selectedDevice) {";
  nl "        return;";
  nl "      }";
  nl "      const formData = new FormData();";
  nl "      formData.append('file', file);";
  nl "      formData.append('target_ip', selectedDevice.ip);";
  nl "      formData.append('target_port', String(selectedDevice.port));";
  nl "      const response = await apiFetch('/api/send', { method: 'POST', body: formData });";
  nl "      const result = await response.json().catch(() => ({}));";
  nl "      if (!response.ok || result.status !== 'ok') {";
  nl "        window.alert(result.message || 'Falha ao iniciar o envio remoto.');";
  nl "      } else {";
  nl "        window.alert((result.message || ('Arquivo enfileirado para ' + selectedDevice.name)) + (result.job_id ? ('\nJob: ' + result.job_id) : ''));";
  nl "        refreshTransfers();";
  nl "      }";
  nl "      event.target.value = '';";
  nl "      selectedDevice = null;";
  nl "    });";
  nl "    document.getElementById('uploadForm').addEventListener('submit', (event) => {";
  nl "      event.preventDefault();";
  nl "      if (!isUnlocked()) {";
  nl "        setStatus(uploadStatus, 'Destrave a interface antes de enviar arquivos.', 'error');";
  nl "        return;";
  nl "      }";
  nl "      const file = document.getElementById('fileInput').files[0];";
  nl "      if (!file) {";
  nl "        setStatus(uploadStatus, 'Escolha um arquivo para continuar.', 'error');";
  nl "        return;";
  nl "      }";
  nl "      const formData = new FormData();";
  nl "      formData.append('file', file);";
  nl "      progressContainer.classList.remove('hidden');";
  nl "      progressBar.style.width = '0%';";
  nl "      progressBar.textContent = '0%';";
  nl "      setStatus(uploadStatus, '', '');";
  nl "      const request = new XMLHttpRequest();";
  nl "      request.upload.addEventListener('progress', (uploadEvent) => {";
  nl "        if (!uploadEvent.lengthComputable) {";
  nl "          return;";
  nl "        }";
  nl "        const percent = Math.round((uploadEvent.loaded / uploadEvent.total) * 100);";
  nl "        progressBar.style.width = percent + '%';";
  nl "        progressBar.textContent = percent + '%';";
  nl "      });";
  nl "      request.addEventListener('load', () => {";
  nl "        const result = JSON.parse(request.responseText || '{}');";
  nl "        if (request.status === 200) {" ].
Definition HTML_SCRIPT_END : list (option cstring) := [
  nl "          setStatus(uploadStatus, result.message || 'Arquivo recebido com sucesso.', 'success');";
  nl "          document.getElementById('fileInput').value = '';";
  nl "        } else {";
  nl "          setStatus(uploadStatus, result.message || 'Falha ao receber arquivo.', 'error');";
  nl "        }";
  nl "        window.setTimeout(() => progressContainer.classList.add('hidden'), 1600);";
  nl "      });";
  nl "      request.addEventListener('error', () => {";
  nl "        setStatus(uploadStatus, 'Falha de conexao com o servidor.', 'error');";
  nl "      });";
  nl "      request.open('POST', '/upload');";
  nl "      if (uiToken) {";
  nl "        request.setRequestHeader('X-LocalDrop-UI-Token', uiToken);";
  nl "      }";
  nl "      request.send(formData);";
  nl "    });";
  nl "    document.getElementById('unlockForm').addEventListener('submit', unlockSession);";
  nl "    document.getElementById('refreshDevices').addEventListener('click', refreshDevices);";
  nl "    document.getElementById('refreshPairingCode').addEventListener('click', () => refreshPairingCode(true));";
  nl "    document.getElementById('refreshTransfers').addEventListener('click', refreshTransfers);";
  nl "    updateAuthState();";
  nl "    if (isUnlocked()) {";
  nl "      refreshPairingCode(true);";
  nl "      refreshTransfers();";
  nl "    }";
  nl "    refreshDevices();";
  nl "    window.setInterval(() => {";
  nl "      refreshDevices();";
  nl "      if (isUnlocked()) {";
  nl "        refreshTransfers();";
  nl "      }";
  nl "    }, 3000);";
  nl "  </script>";
  nl "</body>";
  nl "</html>" ].
Definition HTML_LINES : list (option cstring) := HTML_HEAD ++ HTML_BODY ++ HTML_SCRIPT ++ HTML_SCRIPT_ACTIONS ++ HTML_SCRIPT_END.

Section Page.
Context `{E : Env} {S : Type}.

Fixpoint render_lines (lines : list (option cstring)) (ui_token : option cstring) (page : JsonBuf) : M S (option JsonBuf) :=
  match lines with
  | [] => ret (Some page)
  | Some line :: lines' =>
      let* (r, page') := json_buffer_append page (Some line) in
      if negb (r =? 0) then ret None else render_lines lines' ui_token page'
  | None :: lines' =>
      let* (r, page') := all_ok [app_lit [dquote]; app_esc (default [] ui_token); app_lit [dquote]] page in
      if negb (r =? 0) then ret None else render_lines lines' ui_token page'
  end.

(** The page, [None] when memory runs out. *)
Definition ui_render_index_page (ui_token : option cstring) : M S (option cstring) :=
  page <- render_lines HTML_LINES ui_token empty_buf ;;
  ret (match page with Some b => jb_buffer b | None => None end).
End Page.

(** ** What the page is *)

Definition line_text (ui_token : option cstring) (line : option cstring) : cstring :=
  match line with Some t => t | None => quoted (default [] ui_token) end.
Definition page_text (ui_token : option cstring) : cstring := mjoin (line_text ui_token <$> HTML_LINES).

Section Spec.
Context `{E : Env} {S : Type}.

#[local] Instance quoted_adds tok : Adds (S:=S) (all_ok [app_lit [dquote]; app_esc tok; app_lit [dquote]]) (quoted tok).
Proof.
replace (quoted tok) with ([dquote] ++ escape tok ++ [dquote] ++ []) by done. apply _.
Qed.

Lemma wp_render lines tok b k s (Q : option JsonBuf -> nat -> S -> Prop) :
  buf_ok b -> roomy b (length (mjoin (line_text tok <$> lines))) ->
  (forall k' b', grown b (mjoin (line_text tok <$> lines)) b' -> Q (Some b') k' s) ->
  (forall k', (exists j, env_alloc j = false) -> Q None k' s) ->
  wp (render_lines lines tok b) Q k s.
Proof.
revert b k. induction lines as [|line lines IH]; intros b k Hb Hr H1 H0; cbn [render_lines].
{ apply wp_ret, H1. split; [done|]. split; [by rewrite app_nil_r|done]. }
change (mjoin (line_text tok <$> line :: lines)) with (line_text tok line ++ mjoin (line_text tok <$> lines)) in *.
assert (Hstep : forall op t, line_text tok line = t -> Adds op t ->
  wp (let* (r, page') := op b in if negb (r =? 0) then ret None else render_lines lines tok page') Q k s).
{ intros op t Ht Hop. rewrite Ht in *. apply wp_bind, Hop; [done| | |].
  - eapply roomy_weaken; [|exact Hr]. rewrite length_app. lia.
  - intros k1 b1 Hg. cbn [Z.eqb negb]. apply IH; [apply Hg|by eapply grown_roomy| |done].
    intros k2 b2 Hg2. eapply H1, grown_trans; [exact Hg|exact Hg2].
  - intros k1 b1 Ha _. cbn [Z.eqb negb]. apply wp_ret. by apply H0. }
destruct line as [t|]; [by apply (Hstep (app_lit t) t); [|apply _]|by apply (Hstep _ (quoted (default [] tok))); [|apply _]].
Qed.

Definition fixed_length (lines : list (option cstring)) : Z :=
  foldr (fun x n => n + match x with Some t => Z.of_nat (length t) | None => 0 end) 0 lines.
Definition holes (lines : list (option cstring)) : Z := Z.of_nat (length (filter (fun x => x = None) lines)).

Lemma lines_length tok lines : Z.of_nat (length (mjoin (line_text tok <$> lines))) <=
  fixed_length lines + holes lines * (2 + 6 * Z.of_nat (length (default [] tok))).
Proof.
induction lines as [|x l IH]; [done|]. change (mjoin (line_text tok <$> x :: l)) with (line_text tok x ++ mjoin (line_text tok <$> l)).
rewrite length_app. unfold holes, fixed_length in *. destruct x as [t|]; cbn [line_text foldr]; [rewrite filter_cons_False by done; lia|].
rewrite filter_cons_True by done. unfold quoted. cbn [length]. rewrite length_app. pose proof (escape_length (default [] tok)). cbn [length]. lia.
Qed.

Lemma page_length tok : Z.of_nat (length (page_text tok)) <= 40000 + 6 * Z.of_nat (length (default [] tok)).
Proof.
pose proof (lines_length tok HTML_LINES) as H. fold (page_text tok) in H. assert (Hf : fixed_length HTML_LINES <= 39000) by (vm_compute; discriminate).
assert (Hh : holes HTML_LINES = 1) by (vm_compute; reflexivity). rewrite Hh in H. lia.
Qed.

Lemma wp_page tok k s (Q : option cstring -> nat -> S -> Prop) : Z.of_nat (length (default [] tok)) < 2 ^ 32 ->
  (forall k', Q (Some (page_text tok)) k' s) -> (forall k', (exists j, env_alloc j = false) -> Q None k' s) ->
  wp (ui_render_index_page tok) Q k s.
Proof.
intros Ht H1 H0. pose proof (page_length tok) as Hl. unfold ui_render_index_page. apply wp_bind, wp_render; fold (page_text tok).
- apply buf_ok_empty.
- unfold roomy. cbn [contents empty_buf jb_buffer default from_option length]. generalize dependent (page_text tok). intros x Hl. simpl. lia.
- intros k' b (Hb & Hc & Hn). apply wp_ret. unfold contents in Hc. cbn [jb_buffer empty_buf default from_option app] in Hc.
  destruct (jb_buffer b) as [x|] eqn:Hx; [simpl in Hc; by rewrite Hc|]. destruct (Hn eq_refl) as [_ Hp].
  exfalso. revert Hp. unfold page_text. unfold HTML_LINES. discriminate.
- intros k' Ha. by apply wp_ret, H0.
Qed.
End Spec.

(** The page around the token. *)
Fixpoint before_hole (lines : list (option cstring)) : cstring :=
  match lines with Some line :: lines' => line ++ before_hole lines' | _ => [] end.
Fixpoint after_hole (lines : list (option cstring)) : list (option cstring) :=
  match lines with Some _ :: lines' => after_hole lines' | None :: lines' => lines' | [] => [] end.

Lemma page_around tok lines : None ∈ lines ->
  mjoin (line_text tok <$> lines) = before_hole lines ++ quoted (default [] tok) ++ mjoin (line_text tok <$> after_hole lines).
Proof.
induction lines as [|[line|] lines IH]; intros Hin; [by apply elem_of_nil in Hin| |done].
apply elem_of_cons in Hin as [?|Hin]; [done|].
change (line ++ mjoin (line_text tok <$> lines) = (line ++ before_hole lines) ++ quoted (default [] tok) ++ mjoin (line_text tok <$> after_hole lines)).
by rewrite <- app_assoc, <- IH.
Qed.

Lemma no_hole tok lines : holes lines = 0 -> mjoin (line_text tok <$> lines) = mjoin (default [] <$> lines).
Proof.
induction lines as [|[line|] lines IH]; [done| |].
- intros H. unfold holes in *. rewrite filter_cons_False in H by done. change (line ++ mjoin (line_text tok <$> lines) = line ++ mjoin (default [] <$> lines)).
  by rewrite IH.
- unfold holes. rewrite filter_cons_True by done. simpl. lia.
Qed.

Definition page_start : cstring := before_hole HTML_LINES.
Definition page_end : cstring := mjoin (default [] <$> after_hole HTML_LINES).

Lemma page_pieces tok : page_text tok = page_start ++ quoted (default [] tok) ++ page_end.
Proof.
unfold page_text. rewrite page_around; [|apply (bool_decide_eq_true_1 _); vm_compute; reflexivity].
by rewrite (no_hole tok (after_hole HTML_LINES)) by (vm_compute; reflexivity).
Qed.

Section UiTheorem.
Context `{E : Env} {S : Type}.

(** C40: the page.  Rendering line by line into the growing buffer is equal to
    joining the table with the token in its hole, or fails when memory runs
    out; there is no other outcome.  Whatever bytes the token has, the script
    that follows reads the literal in the hole as exactly that token, and the
    rest of the page follows it untouched. *)
Theorem render_page_correct tok k (s : S) r k' s' : Z.of_nat (length (default [] tok)) < 2 ^ 32 ->
  ui_render_index_page tok k s = (r, (k', s')) ->
  s' = s /\ ((r = None /\ exists j, env_alloc j = false) \/
             exists page rest, r = Some page /\ page = page_text tok /\ page = page_start ++ dquote :: rest /\
               json_string rest = Some (default [] tok, page_end)).
Proof.
intros Ht. to_wp. apply wp_page; [done| |].
- intros k1. split; [done|right]. eexists _, (escape (default [] tok) ++ dquote :: page_end). split; [done|]. split; [done|].
  split; [|apply json_string_escape]. rewrite page_pieces. unfold quoted. cbn [app]. by rewrite <- app_assoc.
- intros k1 Ha. split; [done|left]. by split.
Qed.
End UiTheorem.

Lemma render_page_witness : exists page rest,
  result (ui_render_index_page (E:=Sample.env) (Some [dquote])) 0%nat tt = Some page /\ page = page_start ++ dquote :: rest /\ json_string rest = Some ([dquote], page_end).
Proof.
destruct (render_page_correct (S:=unit) (E:=Sample.env) (Some [dquote]) 0%nat tt _ _ _ ltac:(vm_compute; reflexivity) (run_eta _ _ _))
  as [_ [[_ [j Hj]]|(page & rest & Hr & _ & Hp & Hrest)]]; [discriminate Hj|].
exists page, rest. split; [exact Hr|]. split; [exact Hp|exact Hrest].
Defined.
