(* ===== verification/Server.v ===== *)
(** * Server: the HTTP interface (src/server.c)

    libmicrohttpd is a parameter: how it cuts posted data into form fields.  A
    connection is driven by it as one call of [answer_to_connection] that
    creates the [connection_info], one call per block of posted data, one call
    without data, and [request_completed].  [World] gathers the states of the
    modules the handlers call. *)

From stdpp Require Import base numbers list strings gmap.
From Stdlib Require Import ZArith Lia Ascii.
From S2P Require Import Prelude Effects CLib Crypto JsonUtils Storage Auth PeerRegistry TransferQueue Transfer Ui.

Definition MAX_FILE_SIZE : Z := 1024 * 1024 * 100.
Definition UI_TOKEN_HEADER : cstring := lit "X-LocalDrop-UI-Token".
Definition PAIR_TOKEN_HEADER : cstring := lit "X-LocalDrop-Pair-Token".

Definition HTTP_OK : Z := 200.
Definition HTTP_BAD_REQUEST : Z := 400.
Definition HTTP_UNAUTHORIZED : Z := 401.
Definition HTTP_FORBIDDEN : Z := 403.
Definition HTTP_NOT_FOUND : Z := 404.
Definition HTTP_CONTENT_TOO_LARGE : Z := 413.
Definition HTTP_TOO_MANY_REQUESTS : Z := 429.
Definition HTTP_INTERNAL_SERVER_ERROR : Z := 500.
Definition HTTP_BAD_GATEWAY : Z := 502.
Definition HTTP_SERVICE_UNAVAILABLE : Z := 503.

(** ** libmicrohttpd and the host *)

(** One call of the post iterator. *)
Record post_item := { it_key : cstring; it_filename : option cstring; it_data : option (list ascii); it_off : Z; it_size : nat }.

(** The client address of a connection and how [inet_ntop] prints it. *)
Inductive sockaddr := AF_INET (printed : option cstring) | AF_INET6 (printed : option cstring) | AF_OTHER.
Record Connection := {
  cn_address : option sockaddr;
  cn_header : cstring -> option cstring; (* MHD_lookup_connection_value *)
  cn_form : bool                         (* MHD_create_post_processor succeeds *) }.

Class Host := {
  post_process : list (list ascii) -> list ascii -> list post_item * bool; (* the blocks before, the block: items, MHD_YES *)
  response_created : nat -> bool;     (* MHD_create_response_from_buffer *)
  host_name : nat -> option cstring;  (* gethostname *)
  daemon_started : nat -> bool;       (* MHD_start_daemon *)
  stack_text : nat -> cstring         (* what an uninitialised array reads as *)
}.

(** ** State *)

(** [upload_stage] and the arrays filled from the form; an array is all its
    bytes, its text is [cstr] of them. *)
Record connection_info := {
  ci_postprocessor : option (list (list ascii)); (* the blocks it was given *)
  ci_upload_stage : UploadStage;
  ci_filename : cstring;
  ci_target_ip : list ascii; ci_target_port : list ascii; ci_target_name : list ascii;
  ci_admin_code : list ascii; ci_pair_code : list ascii; ci_peer_name : list ascii; ci_peer_port : list ascii;
  ci_client_ip : cstring;
  ci_upload_in_progress : bool; ci_file_saved : bool;
  ci_response_status : Z; ci_auth_checked : bool; ci_request_authorized : bool;
  ci_response_message : cstring }.

Definition with_postprocessor v c := {| ci_postprocessor := v; ci_upload_stage := ci_upload_stage c; ci_filename := ci_filename c;
  ci_target_ip := ci_target_ip c; ci_target_port := ci_target_port c; ci_target_name := ci_target_name c;
  ci_admin_code := ci_admin_code c; ci_pair_code := ci_pair_code c; ci_peer_name := ci_peer_name c; ci_peer_port := ci_peer_port c;
  ci_client_ip := ci_client_ip c; ci_upload_in_progress := ci_upload_in_progress c; ci_file_saved := ci_file_saved c;
  ci_response_status := ci_response_status c; ci_auth_checked := ci_auth_checked c; ci_request_authorized := ci_request_authorized c;
  ci_response_message := ci_response_message c |}.
Definition with_response status message c := {| ci_postprocessor := ci_postprocessor c; ci_upload_stage := ci_upload_stage c; ci_filename := ci_filename c;
  ci_target_ip := ci_target_ip c; ci_target_port := ci_target_port c; ci_target_name := ci_target_name c;
  ci_admin_code := ci_admin_code c; ci_pair_code := ci_pair_code c; ci_peer_name := ci_peer_name c; ci_peer_port := ci_peer_port c;
  ci_client_ip := ci_client_ip c; ci_upload_in_progress := ci_upload_in_progress c; ci_file_saved := ci_file_saved c;
  ci_response_status := status; ci_auth_checked := ci_auth_checked c; ci_request_authorized := ci_request_authorized c;
  ci_response_message := message |}.
Definition with_stage st progress c := {| ci_postprocessor := ci_postprocessor c; ci_upload_stage := st; ci_filename := ci_filename c;
  ci_target_ip := ci_target_ip c; ci_target_port := ci_target_port c; ci_target_name := ci_target_name c;
  ci_admin_code := ci_admin_code c; ci_pair_code := ci_pair_code c; ci_peer_name := ci_peer_name c; ci_peer_port := ci_peer_port c;
  ci_client_ip := ci_client_ip c; ci_upload_in_progress := progress; ci_file_saved := ci_file_saved c;
  ci_response_status := ci_response_status c; ci_auth_checked := ci_auth_checked c; ci_request_authorized := ci_request_authorized c;
  ci_response_message := ci_response_message c |}.
Definition with_saved filename saved c := {| ci_postprocessor := ci_postprocessor c; ci_upload_stage := ci_upload_stage c; ci_filename := filename;
  ci_target_ip := ci_target_ip c; ci_target_port := ci_target_port c; ci_target_name := ci_target_name c;
  ci_admin_code := ci_admin_code c; ci_pair_code := ci_pair_code c; ci_peer_name := ci_peer_name c; ci_peer_port := ci_peer_port c;
  ci_client_ip := ci_client_ip c; ci_upload_in_progress := ci_upload_in_progress c; ci_file_saved := saved;
  ci_response_status := ci_response_status c; ci_auth_checked := ci_auth_checked c; ci_request_authorized := ci_request_authorized c;
  ci_response_message := ci_response_message c |}.
Definition with_auth checked authorized c := {| ci_postprocessor := ci_postprocessor c; ci_upload_stage := ci_upload_stage c; ci_filename := ci_filename c;
  ci_target_ip := ci_target_ip c; ci_target_port := ci_target_port c; ci_target_name := ci_target_name c;
  ci_admin_code := ci_admin_code c; ci_pair_code := ci_pair_code c; ci_peer_name := ci_peer_name c; ci_peer_port := ci_peer_port c;
  ci_client_ip := ci_client_ip c; ci_upload_in_progress := ci_upload_in_progress c; ci_file_saved := ci_file_saved c;
  ci_response_status := ci_response_status c; ci_auth_checked := checked; ci_request_authorized := authorized;
  ci_response_message := ci_response_message c |}.
Definition with_form ip port name admin code pname pport c := {| ci_postprocessor := ci_postprocessor c; ci_upload_stage := ci_upload_stage c;
  ci_filename := ci_filename c; ci_target_ip := ip; ci_target_port := port; ci_target_name := name;
  ci_admin_code := admin; ci_pair_code := code; ci_peer_name := pname; ci_peer_port := pport;
  ci_client_ip := ci_client_ip c; ci_upload_in_progress := ci_upload_in_progress c; ci_file_saved := ci_file_saved c;
  ci_response_status := ci_response_status c; ci_auth_checked := ci_auth_checked c; ci_request_authorized := ci_request_authorized c;
  ci_response_message := ci_response_message c |}.

(** [calloc], the status and the message of a new connection. *)
Definition zeros (n : nat) : list ascii := replicate n (chr 0).
Definition connection_new (client_ip : cstring) : connection_info := {|
  ci_postprocessor := None; ci_upload_stage := stage_zero; ci_filename := [];
  ci_target_ip := zeros 64; ci_target_port := zeros 16; ci_target_name := zeros 256;
  ci_admin_code := zeros 16; ci_pair_code := zeros 16; ci_peer_name := zeros 256; ci_peer_port := zeros 16;
  ci_client_ip := client_ip; ci_upload_in_progress := false; ci_file_saved := false;
  ci_response_status := HTTP_OK; ci_auth_checked := false; ci_request_authorized := false;
  ci_response_message := snprintf 256 [Str (lit "OK")] |}.

Record World := {
  w_auth : AuthState; w_registry : RegistryState; w_queue : QueueState;
  w_curl_ready : bool; w_sent : list HttpRequest; w_server_port : Z }.

Definition set_w_auth v w := {| w_auth := v; w_registry := w_registry w; w_queue := w_queue w;
  w_curl_ready := w_curl_ready w; w_sent := w_sent w; w_server_port := w_server_port w |}.
Definition set_w_registry v w := {| w_auth := w_auth w; w_registry := v; w_queue := w_queue w;
  w_curl_ready := w_curl_ready w; w_sent := w_sent w; w_server_port := w_server_port w |}.
Definition set_w_queue v w := {| w_auth := w_auth w; w_registry := w_registry w; w_queue := v;
  w_curl_ready := w_curl_ready w; w_sent := w_sent w; w_server_port := w_server_port w |}.
Definition set_w_port v w := {| w_auth := w_auth w; w_registry := w_registry w; w_queue := w_queue w;
  w_curl_ready := w_curl_ready w; w_sent := w_sent w; w_server_port := v |}.
Definition set_w_transfer (t : TransferState) w := {| w_auth := w_auth w; w_registry := w_registry w;
  w_queue := set_queue_fs (tf_fs t) (w_queue w); w_curl_ready := curl_ready t; w_sent := tf_sent t; w_server_port := w_server_port w |}.
Definition w_transfer w : TransferState := {| curl_ready := w_curl_ready w; tf_fs := queue_fs (w_queue w); tf_sent := w_sent w |}.

Definition on_auth {A} (m : M AuthState A) : M World A := zoom w_auth set_w_auth m.
Definition on_registry {A} (m : M RegistryState A) : M World A := zoom w_registry set_w_registry m.
Definition on_queue {A} (m : M QueueState A) : M World A := zoom w_queue set_w_queue m.
Definition on_storage {A} (m : M FileSystem A) : M World A := on_queue (storage m).
Definition on_transfer {A} (m : M TransferState A) : M World A := zoom w_transfer set_w_transfer m.

(** What a call of [answer_to_connection] amounts to: [MHD_NO] closes the
    connection, [MHD_YES] asks for more, [Response] answers.  [Crash] is a read
    through a NULL pointer; [NullResponse] hands a NULL response to
    libmicrohttpd. *)
Inductive reply := MHD_NO | MHD_YES | Response (status : Z) (content_type : option cstring) (body : cstring) | Crash | NullResponse.

(** ** Helpers *)

Definition set_error (con_info : connection_info) (status : Z) (message : option cstring) : connection_info :=
  with_response status (snprintf 256 [Str (default (lit "Erro") message)]) con_info.

(** [memcpy(dest + off, data, copy_size); dest[off + copy_size] = '\0';] *)
Definition write_at (dest : list ascii) (off : nat) (bytes : list ascii) : list ascii :=
  take off dest ++ bytes ++ drop (off + length bytes) dest.

Definition copy_form_value (dest : list ascii) (data : option (list ascii)) (off : Z) (size : nat) : list ascii :=
  let dest_size := Z.of_nat (length dest) in
  match data with
  | None => dest
  | Some data =>
      if (dest_size =? 0) || (size_t_wrap (dest_size - 1) <=? off) then dest
      else
        let copy_size := if dest_size <=? size_t_wrap (off + Z.of_nat size) then dest_size - off - 1 else Z.of_nat size in
        write_at dest (Z.to_nat off) (take (Z.to_nat copy_size) data ++ [chr 0])
  end.

Section Server.
Context `{E : Env} `{C : Curl} `{I : Inet} `{H : Host}.

(** The printed address of the client. *)
Definition get_client_ip (connection : Connection) : option cstring :=
  match cn_address connection with
  | Some (AF_INET printed) | Some (AF_INET6 printed) => printed
  | Some AF_OTHER | None => None
  end.

Definition validate_ip_address (value : cstring) : Z :=
  if bool_decide (value = []) then -1
  else if inet_pton4 value then 0 else if inet_pton6 value then 0 else -1.

(** The results of the storage calls, put in the connection. *)
Definition commit_uploaded_file (c : connection_info) : M World (Z * connection_info) :=
  let* (r, st, error, final_path) := on_storage (upload_stage_commit (ci_upload_stage c) (Some 512%nat) (Some 256%nat)) in
  let c := with_stage st (ci_upload_in_progress c) c in
  if negb (r =? 0)
  then ret (-1, with_response HTTP_INTERNAL_SERVER_ERROR (default (ci_response_message c) error) c)
  else ret (0, with_saved (default (ci_filename c) final_path) true c).

Definition seal_uploaded_stage (c : connection_info) : M World (Z * connection_info) :=
  let* (r, st, error) := on_storage (upload_stage_seal (ci_upload_stage c) (Some 256%nat)) in
  let c := with_stage st (ci_upload_in_progress c) c in
  if negb (r =? 0)
  then ret (-1, with_response HTTP_INTERNAL_SERVER_ERROR (default (ci_response_message c) error) c)
  else ret (0, with_saved (snprintf 512 [Str (st_staging_path st)]) true c).

Definition queue_json_payload (status_code : Z) (payload : option cstring) : M World reply :=
  match payload with
  | None => ret Crash
  | Some payload =>
      response <- ask response_created ;;
      if negb response then ret MHD_NO
      else ret (Response status_code (Some (lit "application/json")) payload)
  end.

(** A payload built by appends that must all succeed. *)
Definition queue_pieces (status_code : Z) (pieces : list (JsonBuf -> M World (Z * JsonBuf))) : M World reply :=
  let* (r, payload) := all_ok pieces empty_buf in
  if negb (r =? 0) then ret MHD_NO else queue_json_payload status_code (jb_buffer payload).

Definition queue_json_status_message (status_code : Z) (status_text message : cstring) : M World reply :=
  queue_pieces status_code
    [ app_lit (jlit "{'status':'"); app_esc status_text; app_lit (jlit "','message':'"); app_esc message; app_lit (jlit "'}") ].

Definition queue_json_session_response (status_code : Z) (message token : cstring) : M World reply :=
  queue_pieces status_code
    [ app_lit (jlit "{'status':'ok','message':'"); app_esc message; app_lit (jlit "','token':'"); app_esc token; app_lit (jlit "'}") ].

Definition queue_json_pair_code_response (code : cstring) (expires_at : Z) : M World reply :=
  queue_pieces HTTP_OK
    [ app_lit (jlit "{'status':'ok','code':'"); app_esc code; app_fmt [Lit (jlit "','expires_at':"); Long expires_at; Lit (lit "}")] ].

Definition queue_json_pair_response (message token : cstring) (expires_at : Z) : M World reply :=
  queue_pieces HTTP_OK
    [ app_lit (jlit "{'status':'ok','message':'"); app_esc message; app_lit (jlit "','token':'"); app_esc token;
      app_fmt [Lit (jlit "','expires_at':"); Long expires_at; Lit (lit "}")] ].

Definition queue_json_transfer_response (message job_id : cstring) : M World reply :=
  queue_pieces HTTP_OK
    [ app_lit (jlit "{'status':'ok','message':'"); app_esc message; app_lit (jlit "','job_id':'"); app_esc job_id; app_lit (jlit "'}") ].

(** [queue_json_status_message(connection, con_info->response_status, "error", con_info->response_message)] *)
Definition queue_refusal (c : connection_info) : M World reply :=
  queue_json_status_message (ci_response_status c) (lit "error") (ci_response_message c).

(** ** Authorisation *)

(** [message] is read although the limiter may not have written it. *)
Definition rate_limit_request (c : connection_info) (scope : cstring) (limit window_seconds : Z) : M World (Z * connection_info) :=
  let* (r, written) := on_auth (auth_rate_limit_allow (Some (ci_client_ip c)) (Some scope) limit window_seconds (Some 128%nat)) in
  if negb (r =? 0) then
    message <- (match written with Some text => ret text | None => ask stack_text end) ;;
    ret (-1, set_error c HTTP_TOO_MANY_REQUESTS
               (Some (if negb (bool_decide (message = [])) then message else lit "Limite de requisicoes atingido")))
  else ret (0, c).

Definition authorize_ui_request (connection : Connection) (c : connection_info) (scope : cstring) (limit : Z)
    : M World (Z * connection_info) :=
  if negb (ci_auth_checked c) then
    let c := with_auth true (ci_request_authorized c) c in
    let* (r, c) := rate_limit_request c scope limit 60 in
    if negb (r =? 0) then ret (-1, c)
    else
      let ui_token := cn_header connection UI_TOKEN_HEADER in
      valid <- (match ui_token with
                | Some _ => on_auth (auth_validate_ui_session (Some (ci_client_ip c)) ui_token)
                | None => ret (-1)
                end) ;;
      if negb (valid =? 0)
      then ret (-1, with_auth true false (set_error c HTTP_UNAUTHORIZED (Some (lit "Sessao administrativa invalida ou expirada"))))
      else ret (0, with_auth true true c)
  else ret (if ci_request_authorized c then 0 else -1, c).

Definition authorize_upload_request (connection : Connection) (c : connection_info) : M World (Z * connection_info) :=
  if negb (ci_auth_checked c) then
    let c := with_auth true (ci_request_authorized c) c in
    let* (r, c) := rate_limit_request c (lit "upload") 20 60 in
    if negb (r =? 0) then ret (-1, c)
    else
      let ui_token := cn_header connection UI_TOKEN_HEADER in
      ui_valid <- (match ui_token with
                   | Some _ => on_auth (auth_validate_ui_session (Some (ci_client_ip c)) ui_token)
                   | None => ret (-1)
                   end) ;;
      if ui_valid =? 0 then ret (0, with_auth true true c)
      else
        let pair_token := cn_header connection PAIR_TOKEN_HEADER in
        pair_valid <- (match pair_token with
                       | Some _ => on_auth (auth_validate_peer_token (Some (ci_client_ip c)) pair_token)
                       | None => ret (-1)
                       end) ;;
        if pair_valid =? 0 then ret (0, with_auth true true c)
        else ret (-1, with_auth true false
                        (set_error c HTTP_UNAUTHORIZED (Some (lit "Upload bloqueado: peer nao pareado ou sessao local ausente"))))
  else ret (if ci_request_authorized c then 0 else -1, c).

(** The port of a form field: [strtol] must consume a non-empty text and give
    a value of 1 to 65535. *)
Definition parse_port (text : cstring) : option Z :=
  let '(port_value, endptr) := strtol text in
  if bool_decide (text = []) || negb (bool_decide (endptr = [])) || (port_value <=? 0) || (65535 <? port_value) then None
  else Some port_value.

(** The status, the connection, the port and the token. *)
Definition validate_target_peer (c : connection_info) : M World (Z * connection_info * Z * option cstring) :=
  let target_ip := cstr (ci_target_ip c) in
  if negb (validate_ip_address target_ip =? 0)
  then ret (-1, set_error c HTTP_BAD_REQUEST (Some (lit "Endereco IP de destino invalido")), 0, None)
  else
    match parse_port (cstr (ci_target_port c)) with
    | None => ret (-1, set_error c HTTP_BAD_REQUEST (Some (lit "Porta de destino invalida")), 0, None)
    | Some port_value =>
        let* (r, peer) := on_registry (peer_registry_find_by_endpoint (Some target_ip) (wrap 16 port_value) true) in
        let peer := default inhabitant peer in
        if negb (r =? 0) || negb (pi_active peer)
        then ret (-1, set_error c HTTP_FORBIDDEN (Some (lit "Destino nao pertence a um peer descoberto ativo")), 0, None)
        else if negb (pi_paired peer)
        then ret (-1, set_error c HTTP_FORBIDDEN (Some (lit "Peer remoto ainda nao foi pareado")), 0, None)
        else
          let* (r, pair_token) := on_auth (auth_get_peer_token (Some target_ip) (wrap 16 port_value) (Some 65%nat)) in
          if negb (r =? 0)
          then ret (-1, set_error c HTTP_FORBIDDEN (Some (lit "Nao existe token de pareamento valido para o peer remoto")), 0, None)
          else ret (0, c, wrap 16 port_value, pair_token)
    end.

(** ** Posted data *)

Definition iterate_file (item : post_item) (c : connection_info) : M World connection_info :=
  let* (opened, c) :=
    (match it_filename item, st_fp (ci_upload_stage c), st_sealed (ci_upload_stage c) with
     | Some _, None, false =>
         let* (r, st, error) := on_storage (upload_stage_open true (it_filename item) (Some 256%nat)) in
         if negb (r =? 0)
         then ret (false, with_response HTTP_INTERNAL_SERVER_ERROR (default (ci_response_message c) error)
                            (with_stage st (ci_upload_in_progress c) c))
         else ret (true, with_stage st true c)
     | _, _, _ => ret (true, c)
     end) in
  if negb opened then ret c
  else
    let st := ci_upload_stage c in
    if (match st_fp st with Some _ => true | None => st_sealed st end) && (0 <? it_size item)%nat
    then
      let* (r, st, error) := on_storage (upload_stage_write st (default [] (it_data item)) MAX_FILE_SIZE (Some 256%nat)) in
      let c := with_stage st (ci_upload_in_progress c) c in
      if negb (r =? 0) then
        let message := default (ci_response_message c) error in
        ret (with_response (match strstr message (lit "limite") with Some _ => HTTP_CONTENT_TOO_LARGE | None => HTTP_INTERNAL_SERVER_ERROR end)
               message c)
      else ret c
    else ret c.

(** A form field other than the file. *)
Definition iterate_field (item : post_item) (c : connection_info) : connection_info :=
  let copy dest := copy_form_value dest (it_data item) (it_off item) (it_size item) in
  let key := it_key item in
  let '(ip, port, name, admin, code, pname, pport) :=
    (ci_target_ip c, ci_target_port c, ci_target_name c, ci_admin_code c, ci_pair_code c, ci_peer_name c, ci_peer_port c) in
  if strcmp key (lit "target_ip") =? 0 then with_form (copy ip) port name admin code pname pport c
  else if strcmp key (lit "target_port") =? 0 then with_form ip (copy port) name admin code pname pport c
  else if strcmp key (lit "target_name") =? 0 then with_form ip port (copy name) admin code pname pport c
  else if strcmp key (lit "admin_code") =? 0 then with_form ip port name (copy admin) code pname pport c
  else if strcmp key (lit "pair_code") =? 0 then with_form ip port name admin (copy code) pname pport c
  else if strcmp key (lit "peer_name") =? 0 then with_form ip port name admin code (copy pname) pport c
  else if strcmp key (lit "peer_port") =? 0 then with_form ip port name admin code pname (copy pport) c
  else c.

(** It always returns [MHD_YES]. *)
Definition iterate_post (item : post_item) (c : connection_info) : M World connection_info :=
  if 400 <=? ci_response_status c then ret c
  else if strcmp (it_key item) (lit "file") =? 0 then iterate_file item c
  else ret (iterate_field item c).

Fixpoint iterate_items (items : list post_item) (c : connection_info) : M World connection_info :=
  match items with
  | [] => ret c
  | item :: items' => c <- iterate_post item c ;; iterate_items items' c
  end.

(** [MHD_post_process]: the block goes to the parser, its items to the iterator. *)
Definition MHD_post_process (upload_data : list ascii) (c : connection_info) : M World (bool * connection_info) :=
  match ci_postprocessor c with
  | None => ret (true, c)
  | Some before =>
      let '(items, ok) := post_process before upload_data in
      c <- iterate_items items (with_postprocessor (Some (before ++ [upload_data])) c) ;;
      ret (ok, c)
  end.

(** The second half of every call with data. *)
Definition process_data (upload_data : list ascii) (failure : cstring) (c : connection_info) : M World connection_info :=
  let* (ok, c) := MHD_post_process upload_data c in
  if negb ok && (ci_response_status c <? 400) then ret (set_error c HTTP_BAD_REQUEST (Some failure)) else ret c.

(** Data of the routes that are only rate limited, and of those that are
    authorised. *)
Definition limited_data (scope : cstring) (limit : Z) (failure : cstring) (upload_data : list ascii) (c : connection_info)
    : M World connection_info :=
  let* (r, c) := (if negb (ci_auth_checked c)
                  then rate_limit_request (with_auth true (ci_request_authorized c) c) scope limit 60
                  else ret (0, c)) in
  if negb (r =? 0) then ret c
  else if 400 <=? ci_response_status c then ret c
  else process_data upload_data failure c.

Definition authorized_data (authorize : connection_info -> M World (Z * connection_info)) (failure : cstring)
    (upload_data : list ascii) (c : connection_info) : M World connection_info :=
  let* (r, c) := authorize c in
  if negb (r =? 0) then ret c else process_data upload_data failure c.

(** ** The routes, once all data has arrived *)

Definition get_index : M World reply :=
  page <- ui_render_index_page None ;;
  match page with
  | None => queue_json_status_message HTTP_INTERNAL_SERVER_ERROR (lit "error") (lit "Falha ao renderizar a interface")
  | Some page =>
      response <- ask response_created ;;
      if negb response then ret NullResponse
      else ret (Response HTTP_OK (Some (lit "text/html; charset=utf-8")) page)
  end.

Definition get_devices : M World reply :=
  let* (r, json) := on_registry (peer_registry_snapshot_json true) in
  if negb (r =? 0)
  then queue_json_status_message HTTP_INTERNAL_SERVER_ERROR (lit "error") (lit "Falha ao serializar os peers descobertos")
  else queue_json_payload HTTP_OK json.

(** A GET route for the unlocked interface. *)
Definition with_ui (connection : Connection) (c : connection_info) (scope : cstring) (limit : Z) (route : M World reply)
    : M World (reply * connection_info) :=
  let* (r, c) := authorize_ui_request connection c scope limit in
  if negb (r =? 0) then reply <- queue_refusal c ;; ret (reply, c)
  else reply <- route ;; ret (reply, c).

Definition get_local_code : M World reply :=
  let* (r, code, expires_at) := on_auth (auth_get_pairing_code (Some 16%nat) true) in
  if negb (r =? 0)
  then queue_json_status_message HTTP_INTERNAL_SERVER_ERROR (lit "error") (lit "Nao foi possivel gerar o codigo de pareamento")
  else queue_json_pair_code_response (default [] code) (default 0 expires_at).

Definition get_transfers : M World reply :=
  x <- on_queue (transfer_status_list_json true) ;;
  match x with
  | None => ret Crash
  | Some (r, json) =>
      if negb (r =? 0)
      then queue_json_status_message HTTP_INTERNAL_SERVER_ERROR (lit "error") (lit "Nao foi possivel consultar a fila de transferencias")
      else queue_json_payload HTTP_OK json
  end.

Definition get_transfer (job_id : cstring) : M World reply :=
  let* (r, json) := on_queue (transfer_status_get (Some job_id) true) in
  if negb (r =? 0)
  then queue_json_status_message HTTP_NOT_FOUND (lit "error") (lit "Transferencia nao encontrada")
  else queue_json_payload HTTP_OK json.

Definition post_unlock (c : connection_info) : M World reply :=
  if 400 <=? ci_response_status c then queue_refusal c
  else
    let admin_code := cstr (ci_admin_code c) in
    if bool_decide (admin_code = [])
    then queue_json_status_message HTTP_BAD_REQUEST (lit "error") (lit "Codigo administrativo ausente")
    else
      let* (r, token) := on_auth (auth_create_ui_session (Some (ci_client_ip c)) (Some admin_code) (Some 65%nat)) in
      if negb (r =? 0)
      then queue_json_status_message HTTP_UNAUTHORIZED (lit "error") (lit "Codigo administrativo invalido")
      else queue_json_session_response HTTP_OK (lit "Sessao destravada com sucesso") (default [] token).

Definition post_exchange (c : connection_info) : M World reply :=
  if 400 <=? ci_response_status c then queue_refusal c
  else
    let pair_code := cstr (ci_pair_code c) in
    let peer_name := cstr (ci_peer_name c) in
    match parse_port (cstr (ci_peer_port c)), bool_decide (pair_code = []) || bool_decide (peer_name = []) with
    | Some peer_port_value, false =>
        let port := wrap 16 peer_port_value in
        let* (r, token, expires_at) :=
          on_auth (auth_issue_pair_token (Some (ci_client_ip c)) (Some peer_name) port (Some pair_code) (Some 65%nat) true) in
        if negb (r =? 0)
        then queue_json_status_message HTTP_FORBIDDEN (lit "error") (lit "Codigo de pareamento invalido ou expirado")
        else
          _ <- on_registry (peer_registry_add_or_update (Some peer_name) (Some (ci_client_ip c)) port) ;;
          _ <- on_registry (peer_registry_set_paired (Some (ci_client_ip c)) port 1) ;;
          queue_json_pair_response (lit "Peer pareado com sucesso") (default [] token) (default 0 expires_at)
    | _, _ => queue_json_status_message HTTP_BAD_REQUEST (lit "error") (lit "Dados de pareamento invalidos")
    end.

Definition post_upload (c : connection_info) : M World (reply * connection_info) :=
  if 400 <=? ci_response_status c then reply <- queue_refusal c ;; ret (reply, c)
  else if negb (ci_upload_in_progress c)
  then reply <- queue_json_status_message HTTP_BAD_REQUEST (lit "error") (lit "Nenhum arquivo foi enviado") ;; ret (reply, c)
  else
    let* (r, c) := commit_uploaded_file c in
    if negb (r =? 0) then reply <- queue_refusal c ;; ret (reply, c)
    else reply <- queue_json_status_message HTTP_OK (lit "ok") (lit "Arquivo recebido com sucesso") ;; ret (reply, c).

(** [pair_message] is read although the call may not have written it. *)
Definition post_pair (c : connection_info) : M World reply :=
  if 400 <=? ci_response_status c then queue_refusal c
  else
    let target_ip := cstr (ci_target_ip c) in
    let pair_code := cstr (ci_pair_code c) in
    if negb (validate_ip_address target_ip =? 0) || bool_decide (pair_code = [])
    then queue_json_status_message HTTP_BAD_REQUEST (lit "error") (lit "Destino ou codigo de pareamento invalido")
    else
      match parse_port (cstr (ci_target_port c)) with
      | None => queue_json_status_message HTTP_BAD_REQUEST (lit "error") (lit "Porta do peer remoto invalida")
      | Some port_value =>
          let port := wrap 16 port_value in
          let* (r, peer) := on_registry (peer_registry_find_by_endpoint (Some target_ip) port true) in
          let peer := default inhabitant peer in
          if negb (r =? 0) || negb (pi_active peer)
          then queue_json_status_message HTTP_FORBIDDEN (lit "error") (lit "Pareamento permitido apenas com peers descobertos e ativos")
          else
            name <- ask host_name ;;
            stack <- ask stack_text ;;
            let hostname := take 255 (default stack name) in
            w <- get ;;
            result <- on_transfer (transfer_pair_peer (Some target_ip) port (Some hostname) (wrap 16 (w_server_port w))
                                     (Some pair_code) (Some 65%nat) true (Some 256%nat)) ;;
            if negb (pr_code result =? 0) then
              pair_message <- (match pr_message result with Some text => ret text | None => ask stack_text end) ;;
              queue_json_status_message HTTP_BAD_GATEWAY (lit "error")
                (if negb (bool_decide (pair_message = [])) then pair_message else lit "Peer remoto recusou o pareamento")
            else
              let target_name := cstr (ci_target_name c) in
              _ <- on_auth (auth_store_peer_token (Some target_ip) port
                              (Some (if negb (bool_decide (target_name = [])) then target_name else pi_name peer))
                              (pr_token result) (default 0 (pr_expires_at result))) ;;
              _ <- on_registry (peer_registry_set_paired (Some target_ip) port 1) ;;
              queue_json_status_message HTTP_OK (lit "ok") (lit "Peer pareado com sucesso")
      end.

Definition post_send (c : connection_info) : M World (reply * connection_info) :=
  if 400 <=? ci_response_status c then reply <- queue_refusal c ;; ret (reply, c)
  else if negb (ci_upload_in_progress c)
  then reply <- queue_json_status_message HTTP_BAD_REQUEST (lit "error") (lit "Nenhum arquivo foi enviado") ;; ret (reply, c)
  else
    let* (r, c, target_port, pair_token) := validate_target_peer c in
    if negb (r =? 0) then reply <- queue_refusal c ;; ret (reply, c)
    else
      let* (r, c) := seal_uploaded_stage c in
      if negb (r =? 0) then reply <- queue_refusal c ;; ret (reply, c)
      else
        let* (r, job_id) := on_queue (transfer_enqueue (Some (ci_filename c)) (Some (cstr (ci_target_ip c))) target_port pair_token (Some 65%nat)) in
        if negb (r =? 0) then
          st <- on_storage (upload_stage_abort (ci_upload_stage c)) ;;
          reply <- queue_json_status_message HTTP_SERVICE_UNAVAILABLE (lit "error") (lit "Fila de transferencia indisponivel") ;;
          ret (reply, with_stage st (ci_upload_in_progress c) (with_saved (ci_filename c) false c))
        else
          reply <- queue_json_transfer_response (lit "Transferencia enfileirada com sucesso") (default [] job_id) ;;
          ret (reply, c).

(** ** The callbacks *)

(** The reply, [*con_cls] and [*upload_data_size] after the call. *)
Record answer := { an_reply : reply; an_con_cls : option connection_info; an_upload_data_size : nat }.
Definition with_con (x : reply * connection_info) : reply * option connection_info := (fst x, Some (snd x)).

Definition is_route (url method : cstring) (path verb : string) : bool :=
  (strcmp url (lit path) =? 0) && (strcmp method (lit verb) =? 0).

Definition TRANSFERS : cstring := lit "/api/transfers/".

Definition new_connection (connection : Connection) (method : cstring) (size : nat) : M World answer :=
  calloc <- alloc ;;
  if negb calloc then ret {| an_reply := MHD_NO; an_con_cls := None; an_upload_data_size := size |}
  else
    let client_ip := match get_client_ip connection with Some ip => ip | None => snprintf 46 [Str (lit "unknown")] end in
    let c := connection_new client_ip in
    if strcmp method (lit "POST") =? 0 then
      if cn_form connection
      then ret {| an_reply := MHD_YES; an_con_cls := Some (with_postprocessor (Some []) c); an_upload_data_size := size |}
      else ret {| an_reply := MHD_NO; an_con_cls := None; an_upload_data_size := size |}
    else ret {| an_reply := MHD_YES; an_con_cls := Some c; an_upload_data_size := size |}.

(** A route that takes posted data: [data] for a block, [last] at the end. *)
Definition posted (data : list ascii -> connection_info -> M World connection_info)
    (last : connection_info -> M World (reply * connection_info)) (upload_data : list ascii) (c : connection_info) : M World answer :=
  if negb (length upload_data =? 0)%nat
  then c <- data upload_data c ;; ret {| an_reply := MHD_YES; an_con_cls := Some c; an_upload_data_size := 0 |}
  else let* (reply, c) := last c in ret {| an_reply := reply; an_con_cls := Some c; an_upload_data_size := 0 |}.

Definition keep (route : M World reply) (c : connection_info) : M World (reply * connection_info) :=
  reply <- route ;; ret (reply, c).

Definition answer_to_connection (connection : Connection) (url method : cstring) (upload_data : list ascii)
    (con_cls : option connection_info) : M World answer :=
  let size := length upload_data in
  let got (x : reply * connection_info) := {| an_reply := fst x; an_con_cls := Some (snd x); an_upload_data_size := size |} in
  match con_cls with
  | None => new_connection connection method size
  | Some c =>
      if is_route url method "/" "GET" then x <- keep get_index c ;; ret (got x)
      else if is_route url method "/api/devices" "GET" then x <- keep get_devices c ;; ret (got x)
      else if is_route url method "/api/pair/local-code" "GET"
      then x <- with_ui connection c (lit "pair_code") 20 get_local_code ;; ret (got x)
      else if is_route url method "/api/session/unlock" "POST"
      then posted (limited_data (lit "session_unlock") 8 (lit "Falha ao processar os dados de autenticacao"))
                  (fun c => keep (post_unlock c) c) upload_data c
      else if is_route url method "/api/pair/exchange" "POST"
      then posted (limited_data (lit "pair_exchange") 12 (lit "Falha ao processar a requisicao de pareamento"))
                  (fun c => keep (post_exchange c) c) upload_data c
      else if is_route url method "/api/transfers" "GET"
      then x <- with_ui connection c (lit "transfer_status") 30 get_transfers ;; ret (got x)
      else if is_prefix TRANSFERS url && (strcmp method (lit "GET") =? 0)
      then x <- with_ui connection c (lit "transfer_status") 30 (get_transfer (drop (length TRANSFERS) url)) ;; ret (got x)
      else if is_route url method "/upload" "POST"
      then posted (authorized_data (authorize_upload_request connection) (lit "Falha ao processar os dados do upload"))
                  post_upload upload_data c
      else if is_route url method "/api/pair" "POST"
      then posted (authorized_data (fun c => authorize_ui_request connection c (lit "pair_initiate") 10)
                     (lit "Falha ao processar o pareamento remoto"))
                  (fun c => keep (post_pair c) c) upload_data c
      else if is_route url method "/api/send" "POST"
      then posted (authorized_data (fun c => authorize_ui_request connection c (lit "send_file") 12)
                     (lit "Falha ao processar os dados do envio"))
                  post_send upload_data c
      else
        response <- ask response_created ;;
        ret {| an_reply := if response then Response HTTP_NOT_FOUND None (lit "404 Not Found") else NullResponse;
               an_con_cls := Some c; an_upload_data_size := size |}
  end.

(** [MHD_destroy_post_processor] and [free] give back memory, which is not
    modelled; [*con_cls] is gone after the call. *)
Definition request_completed (con_cls : option connection_info) : M World unit :=
  match con_cls with
  | None => ret tt
  | Some c =>
      if negb (ci_file_saved c)
      then _ <- on_storage (upload_stage_abort (ci_upload_stage c)) ;; ret tt
      else ret tt
  end.

(** Whether the daemon runs. *)
Definition server_start (port : Z) : M World bool := modify (set_w_port port) ;; ask daemon_started.

(** [MHD_stop_daemon] waits for the threads and completes the requests that
    are still open, of which [open] has the [*con_cls]. *)
Fixpoint MHD_stop_daemon (open : list (option connection_info)) : M World unit :=
  match open with
  | [] => ret tt
  | con_cls :: open' => request_completed con_cls ;; MHD_stop_daemon open'
  end.

(** Whether the daemon still runs. *)
Definition server_stop (daemon : bool) (open : list (option connection_info)) : M World bool :=
  if daemon then MHD_stop_daemon open ;; ret false else ret false.
End Server.
