(* ===== verification/ServerForm.v ===== *)
(** * ServerForm: form fields and ports

    What [copy_form_value] leaves in the arrays of the connection, and which
    texts the handlers take for a port. *)

From stdpp Require Import base numbers list strings gmap.
From Stdlib Require Import ZArith Lia Ascii.
From S2P Require Import Prelude Effects CLib Server.

Lemma cstr_app s b : c_string s -> cstr (s ++ b) = s ++ cstr b.
Proof. induction 1 as [|c s Hc Hs IH]; [done|]. simpl. destruct (Z.eqb_spec (code c) 0); [done|]. by rewrite IH. Qed.

Lemma cstr_nul b : cstr (chr 0 :: b) = [].
Proof. reflexivity. Qed.

(** A field cut into blocks arrives with increasing offsets. *)
Fixpoint feed_blocks (dest : list ascii) (off : Z) (blocks : list (list ascii)) : list ascii :=
  match blocks with
  | [] => dest
  | x :: blocks' => feed_blocks (copy_form_value dest (Some x) off (length x)) (off + Z.of_nat (length x)) blocks'
  end.

(** [dest] holds the first bytes of [t]. *)
Definition holds_text (n : nat) (t dest : list ascii) : Prop :=
  length dest = n /\ ((length t < n - 1)%nat -> take (length t) dest = t) /\ ((n - 1 <= length t)%nat -> cstr dest = take (n - 1) t).

Lemma copy_step n t dest x : (0 < n)%nat -> Z.of_nat n < 2 ^ 63 -> Z.of_nat (length t + length x) < 2 ^ 63 -> c_string t -> c_string x ->
  holds_text n t dest ->
  let dest' := copy_form_value dest (Some x) (Z.of_nat (length t)) (length x) in
  holds_text n (t ++ x) dest' /\ cstr dest' = take (n - 1) (t ++ x).
Proof.
intros Hn Hn63 Hl Ht Hx (Hlen & Hshort & Hlong). unfold copy_form_value. rewrite Hlen.
destruct (Z.eqb_spec (Z.of_nat n) 0); [lia|]. unfold size_t_wrap. rewrite !wrap_small by lia. cbn [orb].
destruct (Z.leb_spec (Z.of_nat n - 1) (Z.of_nat (length t))) as [Hoff|Hoff].
{ cbv zeta. rewrite take_app_le by lia. assert (Hc : cstr dest = take (n - 1) t) by (apply Hlong; lia).
  split; [|done]. split; [done|]. split; [rewrite length_app; lia|]. intros _. by rewrite take_app_le by lia. }
set (m := if Z.of_nat n <=? Z.of_nat (length t) + Z.of_nat (length x) then Z.of_nat n - Z.of_nat (length t) - 1 else Z.of_nat (length x)).
assert (Hm : take (length t + Z.to_nat m) (t ++ x) = take (n - 1) (t ++ x) /\ (Z.to_nat m <= length x)%nat /\ (length t + Z.to_nat m < n)%nat).
{ unfold m. destruct (Z.leb_spec (Z.of_nat n) (Z.of_nat (length t) + Z.of_nat (length x))).
  - split; [f_equal; lia|lia].
  - split; [|lia]. rewrite !take_ge; [done|rewrite length_app; lia..]. }
destruct Hm as (Hm & Hmx & Hmn). cbv zeta. unfold write_at. rewrite Nat2Z.id, Hshort by lia.
assert (Htk : length (take (Z.to_nat m) x) = Z.to_nat m) by (rewrite length_take; lia).
assert (Hd : cstr (t ++ (take (Z.to_nat m) x ++ [chr 0]) ++ drop (length t + length (take (Z.to_nat m) x ++ [chr 0])) dest) = take (n - 1) (t ++ x)).
{ rewrite <- app_assoc, cstr_app, cstr_app by (done || by apply c_string_take). simpl app at 3. rewrite cstr_nul, app_nil_r.
  rewrite <- Hm. by rewrite take_app_add. }
split; [|done]. split; [|split; [|done]].
- rewrite !length_app, length_drop, ?length_app, Htk. simpl. lia.
- intros Hs. assert (Hmx' : Z.to_nat m = length x).
  { rewrite length_app in Hs. unfold m. destruct (Z.leb_spec (Z.of_nat n) (Z.of_nat (length t) + Z.of_nat (length x))); lia. }
  rewrite Hmx', (take_ge x) by lia. rewrite <- (app_assoc x), (app_assoc t x). apply take_app_length.
Qed.

Lemma feed_holds n blocks : forall t dest, (0 < n)%nat -> Z.of_nat n < 2 ^ 63 -> Z.of_nat (length t + length (mjoin blocks)) < 2 ^ 63 ->
  c_string t -> Forall c_string blocks -> holds_text n t dest -> blocks <> [] ->
  let dest' := feed_blocks dest (Z.of_nat (length t)) blocks in length dest' = n /\ cstr dest' = take (n - 1) (t ++ mjoin blocks).
Proof.
induction blocks as [|x blocks IH]; intros t dest Hn Hn63 Hl Ht Hb Hd Hne; [done|]. apply Forall_cons in Hb as [Hx Hb].
change (mjoin (x :: blocks)) with (x ++ mjoin blocks) in *. rewrite length_app in Hl.
destruct (copy_step n t dest x Hn Hn63 ltac:(lia) Ht Hx Hd) as [Hd' Hc]. cbn [feed_blocks].
replace (Z.of_nat (length t) + Z.of_nat (length x)) with (Z.of_nat (length (t ++ x))) by (rewrite length_app; lia).
destruct blocks as [|y blocks]; [cbn [feed_blocks]; rewrite app_nil_r; split; [apply Hd'|done]|].
rewrite app_assoc. apply IH; [done..|rewrite length_app; lia|by apply Forall_app|done|done|done].
Qed.

(** C39: form fields.  A field of any length, sent in any number of blocks over
    whatever the array held before, arrives as its first [n - 1] characters,
    terminated, and nothing is written outside the array. *)
Theorem form_value_roundtrip n dest blocks : (1 < n)%nat -> Z.of_nat n < 2 ^ 63 -> length dest = n -> blocks <> [] ->
  Forall c_string blocks -> Z.of_nat (length (mjoin blocks)) < 2 ^ 63 ->
  length (feed_blocks dest 0 blocks) = n /\ cstr (feed_blocks dest 0 blocks) = take (n - 1) (mjoin blocks).
Proof.
intros Hn Hn63 Hl Hne Hb Hlen. change 0 with (Z.of_nat (length (@nil ascii))). apply (feed_holds n blocks []); try done; [lia|constructor|].
split; [done|]. split; [done|]. simpl. lia.
Qed.

(** An administrative code longer than its array, in two blocks. *)
Lemma form_value_witness : cstr (feed_blocks (zeros 16) 0 [lit "12345678"; lit "9012345678"]) = lit "123456789012345".
Proof.
refine (eq_trans (proj2 (form_value_roundtrip 16 (zeros 16) [lit "12345678"; lit "9012345678"] _ _ _ _ _ _)) _).
- lia.
- reflexivity.
- reflexivity.
- discriminate.
- by apply (bool_decide_eq_true_1 _); vm_compute.
- reflexivity.
- reflexivity.
Defined.
