(* ===== verification/ServerReply.v ===== *)
(** * ServerReply: the JSON replies of the server

    Every reply the handlers build is the printed form of a JSON object, or the
    call gives up when memory is out. *)

From stdpp Require Import base numbers list strings gmap.
From Stdlib Require Import ZArith Lia Ascii.
From S2P Require Import Prelude Effects CLib Crypto JsonUtils JsonValue Storage Transfer TransferSpec Server.

(** The calls that build a reply, and the object each stands for. *)
Inductive json_reply :=
| RStatus (status_code : Z) (status_text message : cstring)
| RSession (status_code : Z) (message token : cstring)
| RPairCode (code : cstring) (expires_at : Z)
| RPair (message token : cstring) (expires_at : Z)
| RTransfer (message job_id : cstring).

Definition reply_status (r : json_reply) : Z :=
  match r with RStatus st _ _ | RSession st _ _ => st | _ => HTTP_OK end.
Definition reply_value (r : json_reply) : json :=
  match r with
  | RStatus _ s m => JObj [(lit "status", JStr s); (lit "message", JStr m)]
  | RSession _ m t => JObj [(lit "status", JStr (lit "ok")); (lit "message", JStr m); (lit "token", JStr t)]
  | RPairCode c e => JObj [(lit "status", JStr (lit "ok")); (lit "code", JStr c); (lit "expires_at", JNum e)]
  | RPair m t e => JObj [(lit "status", JStr (lit "ok")); (lit "message", JStr m); (lit "token", JStr t); (lit "expires_at", JNum e)]
  | RTransfer m i => JObj [(lit "status", JStr (lit "ok")); (lit "message", JStr m); (lit "job_id", JStr i)]
  end.

(** Texts of a size the handlers deal with, times of type [time_t]. *)
Definition short (m : cstring) : Prop := Z.of_nat (length m) < 2 ^ 32.
Definition reply_small (r : json_reply) : Prop :=
  match r with
  | RStatus _ s m => short s /\ short m
  | RSession _ m t | RTransfer m t => short m /\ short t
  | RPairCode c e => short c /\ LONG_MIN <= e <= LONG_MAX
  | RPair m t e => short m /\ short t /\ LONG_MIN <= e <= LONG_MAX
  end.

Section Replies.
Context `{E : Env} `{H : Host}.
Implicit Types (k : nat) (w : World).

Definition queue_reply (r : json_reply) : M World reply :=
  match r with
  | RStatus st s m => queue_json_status_message st s m
  | RSession st m t => queue_json_session_response st m t
  | RPairCode c e => queue_json_pair_code_response c e
  | RPair m t e => queue_json_pair_response m t e
  | RTransfer m i => queue_json_transfer_response m i
  end.

Definition starved : Prop := exists j, env_alloc j = false \/ response_created j = false.

(** The reply carries the value, unless memory is out. *)
Definition answers (st : Z) (v : json) (r : reply) : Prop :=
  r = Response st (Some (lit "application/json")) (print v) \/ (r = MHD_NO /\ starved).

Lemma wp_queue_pieces st pieces t k w (Q : reply -> nat -> World -> Prop) :
  Adds (all_ok pieces) t -> t <> [] -> Z.of_nat (length t) < 2 ^ 40 ->
  (forall k', Q (Response st (Some (lit "application/json")) t) k' w) -> (forall k', starved -> Q MHD_NO k' w) ->
  wp (queue_pieces st pieces) Q k w.
Proof.
intros Hp Ht Hl H1 H0. unfold queue_pieces. apply wp_bind, Hp; [apply buf_ok_empty|unfold roomy; simpl; lia| |].
- intros k1 b (_ & Hc & Hn). cbn [Z.eqb negb]. unfold contents in Hc. cbn [jb_buffer empty_buf default from_option app] in Hc.
  destruct (jb_buffer b) as [u|]; [|by destruct (Hn eq_refl)]. cbn [default from_option id] in Hc. rewrite Hc.
  unfold queue_json_payload. apply wp_bind, wp_ask, wp_if; intros Hr; bool_prop; [|by apply wp_ret].
  apply wp_ret, H0. exists k1. by right.
- intros k1 b [j Hj] _. cbn [Z.eqb negb]. apply wp_ret, H0. exists j. by left.
Qed.

Lemma long_fmt_adds (S : Type) e : LONG_MIN <= e <= LONG_MAX ->
  Adds (S:=S) (app_fmt [Lit (jlit "','expires_at':"); Long e; Lit (lit "}")]) (jlit "','expires_at':" ++ show_long e ++ lit "}").
Proof.
intros He. replace (jlit "','expires_at':" ++ show_long e ++ lit "}") with (sprintf [Lit (jlit "','expires_at':"); Long e; Lit (lit "}")]) by json_text.
apply app_fmt_adds. pose proof (show_long_length e He). unfold sprintf, INT_MAX. cbn [fmap list_fmap mjoin list_join fmt_text].
rewrite !length_app. simpl length at 1 3 4. lia.
Qed.

Ltac short_text := unfold short in *; repeat match goal with
  | |- context [escape ?m] => pose proof (escape_length m); generalize dependent (escape m); intros
  end; rewrite ?length_app; simpl length; lia.

Lemma wp_reply r k w (Q : reply -> nat -> World -> Prop) : reply_small r ->
  (forall x k', answers (reply_status r) (reply_value r) x -> Q x k' w) -> wp (queue_reply r) Q k w.
Proof.
intros Hs HQ.
assert (Hgo : forall st pieces t, Adds (all_ok pieces) t -> t = print (reply_value r) -> Z.of_nat (length t) < 2 ^ 40 -> st = reply_status r ->
  wp (queue_pieces st pieces) Q k w).
{ intros st pieces t Hp -> Hl ->. eapply wp_queue_pieces; [exact Hp| |done| |].
  - destruct (print_head (reply_value r)) as (c & u & -> & _). done.
  - intros k'. apply HQ. by left.
  - intros k' Ha. apply HQ. by right. }
destruct r as [st s m|st m t|c e|m t e|m i]; cbn [queue_reply reply_small reply_value reply_status] in *;
  unfold queue_json_status_message, queue_json_session_response, queue_json_pair_code_response, queue_json_pair_response, queue_json_transfer_response.
- destruct Hs. eapply Hgo; [apply _|json_text| |done]; short_text.
- destruct Hs. eapply Hgo; [apply _|json_text| |done]; short_text.
- pose proof (long_fmt_adds World e (proj2 Hs)). pose proof (show_long_length e (proj2 Hs)). destruct Hs. eapply Hgo; [apply _|json_text| |done]; short_text.
- pose proof (long_fmt_adds World e (proj2 (proj2 Hs))). pose proof (show_long_length e (proj2 (proj2 Hs))). destruct Hs as (? & ? & _). eapply Hgo; [apply _|json_text| |done]; short_text.
- destruct Hs. eapply Hgo; [apply _|json_text| |done]; short_text.
Qed.
End Replies.
