(* ===== verification/ServerSpec.v ===== *)
(** * ServerSpec: who can make the server do what

    Between the calls of one connection the world may change in any way (other
    connections, the discovery, the worker); the invariant below is about the
    connection alone. *)

From stdpp Require Import base numbers list strings gmap.
From Stdlib Require Import ZArith Lia Ascii.
From S2P Require Import Prelude Effects CLib Crypto JsonUtils Storage StorageSpec Auth AuthSpec AuthLimiter AuthLife PeerRegistry.
From S2P Require Import TransferQueue TransferQueueSpec TransferQueueSystem Transfer Ui Server.

(** ** Names a storage call may touch *)

(** Only names of the staging directory differ. *)
Definition staging_only (fs fs' : FileSystem) : Prop :=
  forall p, ~ inside STAGING_DIR p -> fs_names fs' !! p = fs_names fs !! p.

Definition stage_path_ok (st : UploadStage) : Prop := st_staging_path st = [] \/ inside STAGING_DIR (st_staging_path st).

Lemma staging_only_refl fs : staging_only fs fs.
Proof. done. Qed.
Lemma staging_only_trans fs1 fs2 fs3 : staging_only fs1 fs2 -> staging_only fs2 fs3 -> staging_only fs1 fs3.
Proof. intros H1 H2 p Hp. by rewrite H2, H1. Qed.
Lemma staging_only_names fs fs' : fs_names fs' = fs_names fs -> staging_only fs fs'.
Proof. intros H p _. by rewrite H. Qed.
Lemma staging_only_insert p n fs fs' : inside STAGING_DIR p -> fs_names fs' = <[p := n]> (fs_names fs) -> staging_only fs fs'.
Proof. intros Hp H q Hq. rewrite H. apply lookup_insert_ne. by intros ->. Qed.
Lemma staging_only_delete p fs fs' : inside STAGING_DIR p -> fs_names fs' = delete p (fs_names fs) -> staging_only fs fs'.
Proof. intros Hp H q Hq. rewrite H. apply lookup_delete_ne. by intros ->. Qed.

Section Names.
Context `{E : Env} {R : RandOk E} {T : ClockRange E}.
Implicit Types (k : nat) (fs : FileSystem) (st : UploadStage).

Lemma wp_open_names filename err (Q : Z * UploadStage * option cstring -> nat -> FileSystem -> Prop) k fs :
  (forall r st e k' fs', staging_only fs fs' -> stage_path_ok st -> Q (r, st, e) k' fs') ->
  wp (upload_stage_open true filename err) Q k fs.
Proof.
intros HQ. unfold upload_stage_open. reduce_tests. cbv zeta. destruct (sanitized filename 256 ltac:(lia)) as [Hclean Hlen].
apply wp_bind, wp_random_token_why.
2: { intros k1 _. cbv beta iota. reduce_tests. apply wp_ret, HQ; [done|by left]. }
intros k1 tok Htok. cbv beta iota. reduce_tests. apply wp_bind, wp_ask. rewrite staging_path_text by (done || lia).
set (path := STAGING_DIR ++ lit "/" ++ staged_name _ _ _).
assert (Hin : inside STAGING_DIR path) by by apply inside_staging.
unfold fopen_wb. apply wp_bind, wp_bind, wp_ask, wp_bind, wp_get, wp_if; intros _; [apply wp_ret, wp_ret, HQ; [done|by left]|].
apply wp_bind, wp_ask. destruct (fs_names fs !! path) as [[|i]|] eqn:Ep; [apply wp_ret, wp_ret, HQ; [done|by left]|..];
  apply wp_bind, wp_put, wp_ret, wp_ret, HQ; try (by right); [done|].
by eapply staging_only_insert.
Qed.

Lemma wp_write_names st data max err (Q : Z * UploadStage * option cstring -> nat -> FileSystem -> Prop) k fs :
  (forall r st' e k', st_staging_path st' = st_staging_path st -> Q (r, st', e) k' fs) -> wp (upload_stage_write st data max err) Q k fs.
Proof.
intros HQ. unfold upload_stage_write. cbv zeta. destruct (st_fp st) as [fp|]; [|by apply wp_ret, HQ].
apply wp_if; intros _; [by apply wp_ret, HQ|]. apply wp_bind. unfold fwrite. apply wp_bind, wp_ask, wp_if; intros _.
- apply wp_ret. cbv beta iota. apply wp_if; intros _; by apply wp_ret, HQ.
- apply wp_bind, wp_ask. cbv zeta. apply wp_ret. cbv beta iota. apply wp_if; intros _; by apply wp_ret, HQ.
Qed.

Lemma wp_fflush_names fp (Q : Z * FILE -> nat -> FileSystem -> Prop) k fs :
  (forall r fp' k' fs', fs_names fs' = fs_names fs -> Q (r, fp') k' fs') -> wp (fflush fp) Q k fs.
Proof. intros HQ. apply wp_flush; intros; by apply HQ. Qed.

Lemma wp_fclose_names fp (Q : Z -> nat -> FileSystem -> Prop) k fs :
  (forall r k' fs', fs_names fs' = fs_names fs -> Q r k' fs') -> wp (fclose fp) Q k fs.
Proof.
intros HQ. unfold fclose. apply wp_bind, wp_fflush_names. intros r fp' k1 fs1 H1. cbv beta iota.
by apply wp_bind, wp_ask, wp_ret, HQ.
Qed.

Lemma wp_seal_names st err (Q : Z * UploadStage * option cstring -> nat -> FileSystem -> Prop) k fs :
  (forall r st' e k' fs', fs_names fs' = fs_names fs -> st_staging_path st' = st_staging_path st -> Q (r, st', e) k' fs') ->
  wp (upload_stage_seal st err) Q k fs.
Proof.
intros HQ. unfold upload_stage_seal. apply wp_if; intros _; [by apply wp_ret, HQ|].
destruct (st_fp st) as [fp|]; [|by apply wp_ret, HQ]. apply wp_bind, wp_fflush_names. intros r fp' k1 fs1 H1. cbv beta iota.
apply wp_if; intros _; [by apply wp_ret, HQ|]. apply wp_bind, wp_fclose_names. intros r2 k2 fs2 H2.
apply wp_if; intros _; apply wp_ret, HQ; congruence || done.
Qed.

Lemma wp_abort_names st (Q : UploadStage -> nat -> FileSystem -> Prop) k fs :
  stage_path_ok st -> (forall k' fs', staging_only fs fs' -> Q stage_zero k' fs') -> wp (upload_stage_abort st) Q k fs.
Proof.
intros Hst HQ. unfold upload_stage_abort. apply wp_bind.
assert (Hrest : forall k1 fs1, fs_names fs1 = fs_names fs ->
  wp ((if negb (bool_decide (st_staging_path st = [])) then _ <- unlink (st_staging_path st) ;; ret tt else ret tt) ;;
      ret stage_zero) Q k1 fs1).
{ intros k1 fs1 H1. apply wp_bind, wp_if; intros Hp; bool_prop; [|by apply wp_ret, wp_ret, HQ, staging_only_names].
  destruct Hst as [?|Hin]; [congruence|]. apply wp_bind. unfold unlink. apply wp_bind, wp_ask, wp_bind, wp_get.
  destruct (fs_names fs1 !! st_staging_path st) as [[|i]|]; try by apply wp_ret, wp_ret, wp_ret, HQ, staging_only_names.
  apply wp_if; intros _; [|by apply wp_ret, wp_ret, wp_ret, HQ, staging_only_names].
  apply wp_bind, wp_put, wp_ret, wp_ret, wp_ret, HQ. eapply staging_only_delete; [exact Hin|]. simpl. by rewrite H1. }
destruct (st_fp st) as [fp|]; [|by apply wp_ret, Hrest]. apply wp_bind, wp_fclose_names. intros r k1 fs1 H1. by apply wp_ret, Hrest.
Qed.
End Names.

(** ** What a call leaves alone *)

Definition downloads_kept (w w' : World) : Prop :=
  forall p, inside DOWNLOADS_DIR p -> fs_names (queue_fs (w_queue w')) !! p = fs_names (queue_fs (w_queue w)) !! p.
Definition queue_kept (w w' : World) : Prop := exists fs, w_queue w' = set_queue_fs fs (w_queue w).
Definition sent_kept (w w' : World) : Prop := w_sent w' = w_sent w.
(** No file delivered, no job queued, no request sent. *)
Definition quiet (w w' : World) : Prop := downloads_kept w w' /\ queue_kept w w' /\ sent_kept w w'.

Lemma queue_fs_id q : set_queue_fs (queue_fs q) q = q.
Proof. by destruct q. Qed.
Lemma quiet_same w w' : w_queue w' = w_queue w -> w_sent w' = w_sent w -> quiet w w'.
Proof.
intros Hq Hs. split; [by intros p _; rewrite Hq|]. split; [|done]. exists (queue_fs (w_queue w)). by rewrite queue_fs_id.
Qed.
Lemma quiet_refl w : quiet w w.
Proof. by apply quiet_same. Qed.
Lemma quiet_trans w1 w2 w3 : quiet w1 w2 -> quiet w2 w3 -> quiet w1 w3.
Proof.
intros (A1 & [fs1 B1] & C1) (A2 & [fs2 B2] & C2). split; [intros p Hp; by rewrite A2, A1|].
split; [exists fs2; by rewrite B2, B1|]. unfold sent_kept in *. congruence.
Qed.
Lemma quiet_auth v w : quiet w (set_w_auth v w).
Proof. by apply quiet_same. Qed.
Lemma quiet_registry v w : quiet w (set_w_registry v w).
Proof. by apply quiet_same. Qed.
Lemma quiet_staging w fs : staging_only (queue_fs (w_queue w)) fs -> quiet w (set_w_queue (set_queue_fs fs (w_queue w)) w).
Proof.
intros Hs. split; [|split; [by exists fs|done]]. intros p Hp. apply Hs. intros Hin. by apply (inside_disjoint p).
Qed.

Section Calls.
Context `{E : Env} {R : RandOk E} {T : ClockRange E} `{C : Curl} `{I : Inet} `{H : Host}.
Implicit Types (k : nat) (w : World) (c : connection_info).

Lemma wp_auth_quiet {A} (m : M AuthState A) (Q : A -> nat -> World -> Prop) k w :
  (forall a k' w', quiet w w' -> Q a k' w') -> wp (on_auth m) Q k w.
Proof. intros HQ. apply wp_zoom, wp_intro. intros a k' s' _. apply HQ, quiet_auth. Qed.
Lemma wp_registry_quiet {A} (m : M RegistryState A) (Q : A -> nat -> World -> Prop) k w :
  (forall a k' w', quiet w w' -> Q a k' w') -> wp (on_registry m) Q k w.
Proof. intros HQ. apply wp_zoom, wp_intro. intros a k' s' _. apply HQ, quiet_registry. Qed.
Lemma wp_on_storage {A} (m : M FileSystem A) (Q : A -> nat -> World -> Prop) k w :
  wp m (fun a k' fs' => Q a k' (set_w_queue (set_queue_fs fs' (w_queue w)) w)) k (queue_fs (w_queue w)) -> wp (on_storage m) Q k w.
Proof. intros HQ. by apply wp_zoom, wp_zoom. Qed.

(** A reply changes nothing. *)
Lemma wp_reply_silent (m : M World reply) k w (Q : reply -> nat -> World -> Prop) :
  wp m (fun _ _ w' => w' = w) k w -> (forall x k', Q x k' w) -> wp m Q k w.
Proof. intros Hm HQ. eapply wp_mono; [exact Hm|]. intros x k' w' ->. apply HQ. Qed.

(** A reply only takes time. *)
Definition only_replies (m : M World reply) : Prop := forall k w, wp m (fun _ k' w' => (k <= k')%nat /\ w' = w) k w.

Lemma replies_silent m k w : only_replies m -> wp m (fun _ _ w' => w' = w) k w.
Proof. intros Hm. eapply wp_mono; [apply Hm|]. by intros x k' w' [_ ->]. Qed.

Lemma payload_replies st payload : only_replies (queue_json_payload st payload).
Proof. intros k w. unfold queue_json_payload. destruct payload; [|done]. apply wp_bind, wp_ask, wp_if; intros _; apply wp_ret; (split; [lia|done]). Qed.

Lemma pieces_replies st pieces : Forall Silent pieces -> only_replies (queue_pieces st pieces).
Proof.
intros Hp k w. apply (silent_bind (all_ok pieces)); [by apply all_ok_silent|]. intros [r b] k' Hk. apply wp_if; intros _; [by apply wp_ret|].
eapply wp_mono; [apply payload_replies|]. intros x k2 w2 [Hk2 ->]. split; [lia|done].
Qed.

Lemma status_replies st s m : only_replies (queue_json_status_message st s m).
Proof. apply pieces_replies. repeat constructor; apply _. Qed.

Lemma payload_silent st payload k w : wp (queue_json_payload st payload) (fun _ _ w' => w' = w) k w.
Proof. apply replies_silent, payload_replies. Qed.

Lemma pieces_silent st pieces k w : Forall Silent pieces -> wp (queue_pieces st pieces) (fun _ _ w' => w' = w) k w.
Proof. intros Hp. by apply replies_silent, pieces_replies. Qed.

Lemma status_silent st s m k w : wp (queue_json_status_message st s m) (fun _ _ w' => w' = w) k w.
Proof. apply pieces_silent. repeat constructor; apply _. Qed.
Lemma session_silent st m t k w : wp (queue_json_session_response st m t) (fun _ _ w' => w' = w) k w.
Proof. apply pieces_silent. repeat constructor; apply _. Qed.
Lemma pair_code_silent x e k w : wp (queue_json_pair_code_response x e) (fun _ _ w' => w' = w) k w.
Proof. apply pieces_silent. repeat constructor; apply _. Qed.
Lemma pair_silent m t e k w : wp (queue_json_pair_response m t e) (fun _ _ w' => w' = w) k w.
Proof. apply pieces_silent. repeat constructor; apply _. Qed.
Lemma transfer_silent m i k w : wp (queue_json_transfer_response m i) (fun _ _ w' => w' = w) k w.
Proof. apply pieces_silent. repeat constructor; apply _. Qed.
End Calls.

Create HintDb silent.
#[export] Hint Resolve payload_silent status_silent session_silent pair_code_silent pair_silent transfer_silent : silent.

(** Finish a branch that only replies. *)
Ltac quietly := eapply wp_reply_silent; [unfold queue_refusal; auto with silent|].

(** ** Credentials *)

(** The address the connection is known by. *)
Definition client_text (connection : Connection) : cstring :=
  match get_client_ip connection with Some ip => ip | None => snprintf 46 [Str (lit "unknown")] end.

(** What [inet_ntop] prints, and what libmicrohttpd hands out. *)
Definition connection_ok (connection : Connection) : Prop :=
  ip_ok (client_text connection) /\ forall name value, cn_header connection name = Some value -> c_string value.

(** The header of the request names an open session, or a valid peer token, of
    its client. *)
Definition ui_open (connection : Connection) (t : Z) (w : World) : Prop :=
  exists tok, cn_header connection UI_TOKEN_HEADER = Some tok /\ session_valid (w_auth w) t (client_text connection) tok.
Definition peer_open (connection : Connection) (t : Z) (w : World) : Prop :=
  exists tok, cn_header connection PAIR_TOKEN_HEADER = Some tok /\ peer_token_valid (w_auth w) t (client_text connection) tok.

(** The tables are in order. *)
Definition world_ok (w : World) : Prop := auth_good (w_auth w) /\ queue_ready (w_queue w).

(** ** The connection *)

Definition conn_shape (connection : Connection) (c : connection_info) : Prop :=
  ci_client_ip c = client_text connection /\ stage_path_ok (ci_upload_stage c).

(** [P]: a credential was shown.  Without one, nothing was taken in. *)
Definition conn_auth (P : Prop) (c : connection_info) : Prop :=
  (ci_request_authorized c = true -> P) /\ (ci_upload_in_progress c = true -> P) /\ (cstr (ci_target_ip c) <> [] -> P).

Lemma conn_auth_mono (P P' : Prop) c : (P -> P') -> conn_auth P c -> conn_auth P' c.
Proof. intros Hp (H1 & H2 & H3). split; [|split]; auto. Qed.
Lemma conn_auth_all (P : Prop) c : P -> conn_auth P c.
Proof. intros Hp. by split; [|split]. Qed.

(** The same connection but for its reply. *)
Definition same_input c c' : Prop :=
  ci_client_ip c' = ci_client_ip c /\ ci_upload_stage c' = ci_upload_stage c /\
  ci_upload_in_progress c' = ci_upload_in_progress c /\ ci_target_ip c' = ci_target_ip c.

Lemma same_input_shape connection c c' : same_input c c' -> conn_shape connection c -> conn_shape connection c'.
Proof. intros (H1 & H2 & _) [H3 H4]. split; [by rewrite H1|by rewrite H2]. Qed.
Lemma same_input_auth P c c' : same_input c c' -> (ci_request_authorized c' = true -> P) -> conn_auth P c -> conn_auth P c'.
Proof. intros (_ & _ & H1 & H2) H3 (_ & H4 & H5). split; [done|]. rewrite H1, H2. by split. Qed.

(** The limiter touches neither sessions nor tokens. *)
Lemma limiter_tables now w limit ip scope s v s' : limiter now w limit ip scope s v s' ->
  ui_sessions s' = ui_sessions s /\ peer_tokens s' = peer_tokens s.
Proof. intros Hl. destruct Hl; done. Qed.

Section Authorize.
Context `{E : Env} {R : RandOk E} {T : ClockRange E} {MO : ClockMono E} `{C : Curl} `{I : Inet} `{H : Host}.
Context (connection : Connection) (Hconn : connection_ok connection).
Implicit Types (k : nat) (w : World) (c : connection_info).

Definition scope_ok (scope : cstring) (limit : Z) : Prop := c_string scope /\ (length scope <= 31)%nat /\ 0 < limit <= 2 ^ 32 - 1.

Lemma wp_rate_limit c scope limit (Q : Z * connection_info -> nat -> World -> Prop) k w :
  auth_ready (w_auth w) -> ci_client_ip c = client_text connection -> scope_ok scope limit ->
  (forall k' w', (k <= k')%nat -> quiet w w' -> auth_ready (w_auth w') ->
     ui_sessions (w_auth w') = ui_sessions (w_auth w) -> peer_tokens (w_auth w') = peer_tokens (w_auth w) -> Q (0, c) k' w') ->
  (forall k' w' m, quiet w w' -> Q (-1, set_error c HTTP_TOO_MANY_REQUESTS m) k' w') ->
  wp (rate_limit_request c scope limit 60) Q k w.
Proof.
intros Ha Hip (Hs & Hsl & Hlim) H0 H1. destruct Hconn as [[Hc Hcl] _]. unfold rate_limit_request. rewrite Hip. apply wp_bind, wp_zoom.
assert (Hno : forall v (m : option cstring) k1 s1, v <> 0 -> wp (let* (r, written) := ret (v, m) in
  if negb (r =? 0) then message <- (match written with Some text => ret text | None => ask stack_text end) ;;
    ret (-1, set_error c HTTP_TOO_MANY_REQUESTS
               (Some (if negb (bool_decide (message = [])) then message else lit "Limite de requisicoes atingido")))
  else ret (0, c)) Q k1 (set_w_auth s1 w)).
{ intros v m k1 s1 Hv. apply wp_bind, wp_ret. cbv beta iota. rewrite (proj2 (Z.eqb_neq v 0) Hv). cbn [negb]. apply wp_bind.
  destruct m as [m|]; [apply wp_ret|apply wp_ask]; apply wp_ret, H1, quiet_auth. }
apply wp_limiter; [done..|lia|lia| |].
- intros _. apply (Hno (-1) None). done.
- intros v m s' _ Hl. destruct (limiter_tables _ _ _ _ _ _ _ _ Hl) as [Hu Hp]. destruct (decide (v = 0)) as [->|Hv]; [|by apply (Hno v m)].
  cbv beta iota. reduce_tests. apply wp_ret, H0; [lia|apply quiet_auth| |done|done].
  cbn [w_auth set_w_auth]. eapply limiter_ready; try exact Hl; done || lia.
Qed.

(** Asking auth.c about a session, when the header has one. *)
Lemma wp_ask_session (Q : Z -> nat -> World -> Prop) k k0 w0 w : (k0 <= k)%nat ->
  auth_ready (w_auth w) -> ui_sessions (w_auth w) = ui_sessions (w_auth w0) -> peer_tokens (w_auth w) = peer_tokens (w_auth w0) ->
  (forall r k' w', quiet w w' -> (k <= k')%nat -> auth_ready (w_auth w') -> peer_tokens (w_auth w') = peer_tokens (w_auth w0) ->
     (r = 0 -> ui_open connection (env_clock k0) w0) -> Q r k' w') ->
  wp (match cn_header connection UI_TOKEN_HEADER with
      | Some _ => on_auth (auth_validate_ui_session (Some (client_text connection)) (cn_header connection UI_TOKEN_HEADER))
      | None => ret (-1)
      end) Q k w.
Proof.
intros Hk Ha Hu Hp HQ. destruct Hconn as [[Hc Hcl] Hh]. destruct (cn_header connection UI_TOKEN_HEADER) as [tok|] eqn:Htok.
2: { apply wp_ret, HQ; [apply quiet_refl|lia|done..]. }
apply wp_zoom. destruct (decide (tok = [])) as [->|Hne].
{ unfold wp. rewrite (proj1 (validate_empty _ k (w_auth w) (proj2 Ha))). apply HQ; [apply quiet_auth|lia|done..]. }
apply wp_validate_ui; [done..| |].
- intros _. apply HQ; [apply quiet_auth|lia|done..].
- intros r k1 s1 Hlk Hsc. pose proof (ui_scan_ready _ _ _ _ _ _ _ Ha Hsc) as Hr.
  destruct (ui_scan_result _ _ _ _ _ _ _ (proj1 Ha) Hc (Hh _ _ Htok) Hsc) as [Hv _].
  pose proof Hsc as (Hk1 & l & -> & _). apply HQ; [apply quiet_auth|lia|done|done|].
  intros Hr0. exists tok. split; [done|]. destruct (Hv Hr0) as (i & x & Hx & Hl & Hm). exists i, x. rewrite <- Hu. split; [done|]. split; [|done].
  eapply live_later; [|exact Hl]. apply clock_mono. lia.
Qed.

Lemma wp_ask_peer (Q : Z -> nat -> World -> Prop) k k0 w0 w : (k0 <= k)%nat ->
  auth_ready (w_auth w) -> peer_tokens (w_auth w) = peer_tokens (w_auth w0) ->
  (forall r k' w', quiet w w' -> (r = 0 -> peer_open connection (env_clock k0) w0) -> Q r k' w') ->
  wp (match cn_header connection PAIR_TOKEN_HEADER with
      | Some _ => on_auth (auth_validate_peer_token (Some (client_text connection)) (cn_header connection PAIR_TOKEN_HEADER))
      | None => ret (-1)
      end) Q k w.
Proof.
intros Hk Ha Hp HQ. destruct Hconn as [[Hc Hcl] Hh]. destruct (cn_header connection PAIR_TOKEN_HEADER) as [tok|] eqn:Htok.
2: { apply wp_ret, HQ; [apply quiet_refl|done]. }
apply wp_zoom. destruct (decide (tok = [])) as [->|Hne].
{ unfold wp. rewrite (proj2 (validate_empty _ k (w_auth w) (proj2 Ha))). apply HQ; [apply quiet_auth|done]. }
apply wp_validate_peer; [done..| |].
- intros _. apply HQ; [apply quiet_auth|done].
- intros r k1 s1 Hlk Hsc. destruct (pt_scan_result _ _ _ _ _ _ _ (proj1 Ha) Hc (Hh _ _ Htok) Hsc) as [Hv _].
  apply HQ; [apply quiet_auth|]. intros Hr0. exists tok. split; [done|]. destruct (Hv Hr0) as (i & x & Hx & Hl & Hm). exists i, x.
  rewrite <- Hp. split; [done|]. split; [|done]. eapply live_later; [|exact Hl]. apply clock_mono. lia.
Qed.

(** A credential was shown before, or is shown to this call. *)
Definition authorized_by (P : Prop) c (r : Z) c' : Prop :=
  same_input c c' /\ (ci_request_authorized c' = true -> ci_request_authorized c = true \/ P) /\
  (r = 0 -> ci_request_authorized c' = true).

Lemma wp_authorize_ui c scope limit (Q : Z * connection_info -> nat -> World -> Prop) k w :
  auth_ready (w_auth w) -> ci_client_ip c = client_text connection -> scope_ok scope limit ->
  (forall r c' k' w', quiet w w' -> authorized_by (ui_open connection (env_clock k) w) c r c' -> Q (r, c') k' w') ->
  wp (authorize_ui_request connection c scope limit) Q k w.
Proof.
intros Ha Hip Hs HQ. unfold authorize_ui_request. apply wp_if; intros Hch; bool_prop.
2: { apply wp_ret, HQ; [apply quiet_refl|]. split; [done|]. split; [by left|]. by destruct (ci_request_authorized c). }
cbv zeta. apply wp_bind, wp_rate_limit; [done..| |].
2: { intros k1 w1 m Hq. cbv beta iota. reduce_tests. apply wp_ret, HQ; [done|]. split; [done|]. split; [by left|done]. }
intros k1 w1 Hk Hq Ha1 Hu Hp. cbv beta iota. reduce_tests. cbn [ci_client_ip with_auth]. rewrite Hip.
apply wp_bind, (wp_ask_session _ k1 k w w1); [done..|]. intros r k2 w2 Hq2 _ _ _ Hv.
pose proof (quiet_trans _ _ _ Hq Hq2). apply wp_if; intros Hr; bool_prop; apply wp_ret, HQ; try done; (split; [done|]).
split; [|done]. intros _. right. by apply Hv.
Qed.

Lemma wp_authorize_upload c (Q : Z * connection_info -> nat -> World -> Prop) k w :
  auth_ready (w_auth w) -> ci_client_ip c = client_text connection ->
  (forall r c' k' w', quiet w w' ->
     authorized_by (ui_open connection (env_clock k) w \/ peer_open connection (env_clock k) w) c r c' -> Q (r, c') k' w') ->
  wp (authorize_upload_request connection c) Q k w.
Proof.
intros Ha Hip HQ. unfold authorize_upload_request. apply wp_if; intros Hch; bool_prop.
2: { apply wp_ret, HQ; [apply quiet_refl|]. split; [done|]. split; [by left|]. by destruct (ci_request_authorized c). }
cbv zeta. apply wp_bind, wp_rate_limit; [done..| | |].
{ split; [by apply (bool_decide_eq_true_1 _); vm_compute|]. split; [simpl; lia|lia]. }
2: { intros k1 w1 m Hq. cbv beta iota. reduce_tests. apply wp_ret, HQ; [done|]. split; [done|]. split; [by left|done]. }
intros k1 w1 Hk Hq Ha1 Hu Hp. cbv beta iota. reduce_tests. cbn [ci_client_ip with_auth]. rewrite Hip.
apply wp_bind, (wp_ask_session _ k1 k w w1); [done..|]. intros r k2 w2 Hq2 Hk2 Ha2 Hp2 Hv.
pose proof (quiet_trans _ _ _ Hq Hq2) as Hq3. apply wp_if; intros Hr; bool_prop.
{ apply wp_ret, HQ; [done|]. split; [done|]. split; [|done]. intros _. right. left. by apply Hv. }
apply wp_bind, (wp_ask_peer _ k2 k w w2); [lia|done|done|]. intros r3 k3 w3 Hq4 Hv3. pose proof (quiet_trans _ _ _ Hq3 Hq4) as Hq5.
apply wp_if; intros Hr3; bool_prop; apply wp_ret, HQ; try done; (split; [done|]).
split; [|done]. intros _. right. right. by apply Hv3.
Qed.
End Authorize.

(** ** Posted data *)

Section Data.
Context `{E : Env} {R : RandOk E} {T : ClockRange E} {MO : ClockMono E} `{C : Curl} `{I : Inet} `{H : Host}.
Context (connection : Connection) (Hconn : connection_ok connection).
Implicit Types (k : nat) (w : World) (c : connection_info).

(** The data of a block can fill the form and the staging file only. *)
Definition taken_in c c' : Prop := ci_request_authorized c' = ci_request_authorized c.

Lemma wp_iterate_file item c (Q : connection_info -> nat -> World -> Prop) k w :
  conn_shape connection c ->
  (forall c' k' w', quiet w w' -> conn_shape connection c' -> taken_in c c' -> Q c' k' w') ->
  wp (iterate_file item c) Q k w.
Proof.
intros [Hip Hst] HQ. unfold iterate_file. apply wp_bind.
assert (Hwrite : forall c1 k1 w1, quiet w w1 -> conn_shape connection c1 -> taken_in c c1 ->
  wp (let st := ci_upload_stage c1 in
      if (match st_fp st with Some _ => true | None => st_sealed st end) && (0 <? it_size item)%nat
      then
        let* (r, st, error) := on_storage (upload_stage_write st (default [] (it_data item)) MAX_FILE_SIZE (Some 256%nat)) in
        let c := with_stage st (ci_upload_in_progress c1) c1 in
        if negb (r =? 0) then
          let message := default (ci_response_message c) error in
          ret (with_response (match strstr message (lit "limite") with Some _ => HTTP_CONTENT_TOO_LARGE | None => HTTP_INTERNAL_SERVER_ERROR end)
                 message c)
        else ret c
      else ret c1) Q k1 w1).
{ intros c1 k1 w1 Hq [Hip1 Hst1] Ht1. cbv zeta. apply wp_if; intros _; [|by apply wp_ret, HQ].
  apply wp_bind, wp_on_storage, wp_write_names. intros r st' e k2 Hp. cbv beta iota.
  assert (Hq2 : quiet w (set_w_queue (set_queue_fs (queue_fs (w_queue w1)) (w_queue w1)) w1)).
  { eapply quiet_trans; [exact Hq|]. by apply quiet_staging. }
  assert (Hst2 : stage_path_ok st') by (unfold stage_path_ok; rewrite Hp; exact Hst1).
  apply wp_if; intros _; apply wp_ret, HQ; done. }
destruct (it_filename item) as [name|]; [|by apply wp_ret, Hwrite; [apply quiet_refl| |]].
destruct (st_fp (ci_upload_stage c)) as [fp|]; [by apply wp_ret, Hwrite; [apply quiet_refl| |]|].
destruct (st_sealed (ci_upload_stage c)); [by apply wp_ret, Hwrite; [apply quiet_refl| |]|].
apply wp_bind, wp_on_storage, wp_open_names. intros r st e k1 fs1 Hs Hst1. cbv beta iota.
apply wp_if; intros _; apply wp_ret; cbv beta iota; cbn [negb].
- apply wp_ret, HQ; [by apply quiet_staging|done|done].
- apply Hwrite; [by apply quiet_staging|done|done].
Qed.

Lemma iterate_field_shape item c : conn_shape connection c -> conn_shape connection (iterate_field item c) /\ taken_in c (iterate_field item c).
Proof. intros [H1 H2]. unfold iterate_field. repeat case_cond; done. Qed.

Lemma wp_iterate_items items c (Q : connection_info -> nat -> World -> Prop) k w :
  conn_shape connection c ->
  (forall c' k' w', quiet w w' -> conn_shape connection c' -> taken_in c c' -> Q c' k' w') ->
  wp (iterate_items items c) Q k w.
Proof.
revert c k w. induction items as [|item items IH]; intros c k w Hc HQ; cbn [iterate_items]; [by apply wp_ret, HQ; [apply quiet_refl| |]|].
apply wp_bind. unfold iterate_post.
assert (Hnext : forall c1 k1 w1, quiet w w1 -> conn_shape connection c1 -> taken_in c c1 -> wp (iterate_items items c1) Q k1 w1).
{ intros c1 k1 w1 Hq1 Hc1 Ht1. apply IH; [done|]. intros c2 k2 w2 Hq2 Hc2 Ht2. apply HQ; [by eapply quiet_trans|done|].
  unfold taken_in in *. congruence. }
apply wp_if; intros _; [by apply wp_ret, Hnext; [apply quiet_refl| |]|].
apply wp_if; intros _.
- by apply wp_iterate_file.
- destruct (iterate_field_shape item c Hc). by apply wp_ret, Hnext; [apply quiet_refl| |].
Qed.

Lemma wp_process_data data failure c (Q : connection_info -> nat -> World -> Prop) k w :
  conn_shape connection c ->
  (forall c' k' w', quiet w w' -> conn_shape connection c' -> taken_in c c' -> Q c' k' w') ->
  wp (process_data data failure c) Q k w.
Proof.
intros Hc HQ. unfold process_data, MHD_post_process. apply wp_bind.
assert (Hend : forall ok c1 k1 w1, quiet w w1 -> conn_shape connection c1 -> taken_in c c1 ->
  wp (if negb ok && (ci_response_status c1 <? 400) then ret (set_error c1 HTTP_BAD_REQUEST (Some failure)) else ret c1) Q k1 w1).
{ intros ok c1 k1 w1 Hq1 Hc1 Ht1. apply wp_if; intros _; by apply wp_ret, HQ. }
destruct (ci_postprocessor c) as [before|]; [|by apply wp_ret, Hend; [apply quiet_refl| |]].
destruct (post_process before data) as [items ok]. apply wp_bind, wp_iterate_items; [done|].
intros c1 k1 w1 Hq Hc1 Ht. by apply wp_ret, Hend.
Qed.

Lemma wp_limited_data scope limit failure data c (Q : connection_info -> nat -> World -> Prop) k w :
  auth_ready (w_auth w) -> scope_ok scope limit -> conn_shape connection c ->
  (forall c' k' w', quiet w w' -> conn_shape connection c' -> Q c' k' w') ->
  wp (limited_data scope limit failure data c) Q k w.
Proof.
intros Ha Hs Hc HQ. unfold limited_data. apply wp_bind.
assert (Hend : forall c1 k1 w1, quiet w w1 -> conn_shape connection c1 ->
  wp (if negb (0 =? 0) then ret c1 else if 400 <=? ci_response_status c1 then ret c1 else process_data data failure c1) Q k1 w1).
{ intros c1 k1 w1 Hq1 Hc1. cbn [Z.eqb negb]. apply wp_if; intros _; [by apply wp_ret, HQ|].
  apply wp_process_data; [done|]. intros c2 k2 w2 Hq2 Hc2 _. apply HQ; [by eapply quiet_trans|done]. }
apply wp_if; intros _; [|by apply wp_ret, Hend; [apply quiet_refl|]].
apply (wp_rate_limit connection Hconn); [done|apply Hc|done| |].
- intros k1 w1 _ Hq _ _ _. by apply Hend.
- intros k1 w1 m Hq. cbv beta iota. reduce_tests. by apply wp_ret, HQ.
Qed.

(** Data is taken in only once a credential was shown. *)
Lemma wp_authorized_data (P P0 : Prop) authorize failure data c (Q : connection_info -> nat -> World -> Prop) k w :
  (forall (Q' : Z * connection_info -> nat -> World -> Prop),
     (forall r c' k' w', quiet w w' -> authorized_by P0 c r c' -> Q' (r, c') k' w') -> wp (authorize c) Q' k w) ->
  (P0 -> P) -> conn_shape connection c -> conn_auth P c ->
  (forall c' k' w', quiet w w' -> conn_shape connection c' -> conn_auth P c' -> Q c' k' w') ->
  wp (authorized_data authorize failure data c) Q k w.
Proof.
intros Hau HP Hc Hp HQ. unfold authorized_data. apply wp_bind, Hau. intros r c1 k1 w1 Hq1 (Hsame & Hreq & Hok). cbv beta iota.
assert (Hr : ci_request_authorized c1 = true -> P).
{ intros Hreq1. destruct (Hreq Hreq1) as [Hreq2|?]; [by apply (proj1 Hp)|by apply HP]. }
pose proof (same_input_shape connection _ _ Hsame Hc) as Hc1.
apply wp_if; intros Hrz; bool_prop; [apply wp_ret, HQ; [done|done|by eapply same_input_auth]|].
apply wp_process_data; [done|]. intros c2 k2 w2 Hq2 Hc2 _. apply HQ; [by eapply quiet_trans|done|]. by apply conn_auth_all, Hr, Hok.
Qed.
End Data.

(** ** The routes *)

Section Routes.
Context `{E : Env} {R : RandOk E} {T : ClockRange E} `{C : Curl} `{I : Inet} `{H : Host}.
Context (connection : Connection).
Implicit Types (k : nat) (w : World) (c : connection_info).

Lemma storage_keeps fs w : queue_kept w (set_w_queue (set_queue_fs fs (w_queue w)) w) /\ sent_kept w (set_w_queue (set_queue_fs fs (w_queue w)) w).
Proof. split; [by exists fs|done]. Qed.

Lemma wp_get_index k w (Q : reply -> nat -> World -> Prop) : (forall x k', Q x k' w) -> wp get_index Q k w.
Proof.
intros HQ. unfold get_index. apply wp_bind, wp_page; [simpl; lia| |].
- intros k1. cbv iota. apply wp_bind, wp_ask, wp_if; intros _; by apply wp_ret.
- intros k1 _. by quietly.
Qed.

Lemma wp_get_devices k w (Q : reply -> nat -> World -> Prop) : (forall x k' w', quiet w w' -> Q x k' w') -> wp get_devices Q k w.
Proof.
intros HQ. unfold get_devices. apply wp_bind, wp_registry_quiet. intros [r json] k1 w1 Hq. apply wp_if; intros _; quietly; intros x k2; by apply HQ.
Qed.

Lemma wp_get_local_code k w (Q : reply -> nat -> World -> Prop) : (forall x k' w', quiet w w' -> Q x k' w') -> wp get_local_code Q k w.
Proof.
intros HQ. unfold get_local_code. apply wp_bind, wp_auth_quiet. intros [[r code] e] k1 w1 Hq. apply wp_if; intros _; quietly; intros x k2; by apply HQ.
Qed.

Lemma wp_get_transfers k w (Q : reply -> nat -> World -> Prop) : queue_ready (w_queue w) ->
  (forall x k', Q x k' w) -> (forall k' w', Q Crash k' w') -> wp get_transfers Q k w.
Proof.
intros Hq HQ Hc. unfold get_transfers. apply wp_bind, wp_zoom. replace w with (set_w_queue (w_queue w) w) in HQ by by destruct w.
apply wp_list_silent; [done| |].
- intros [r json] k1. apply wp_if; intros _; by quietly.
- intros k1 q1. by apply wp_ret.
Qed.

Lemma wp_get_transfer id k w (Q : reply -> nat -> World -> Prop) : queue_ready (w_queue w) ->
  (forall x k', Q x k' w) -> wp (get_transfer id) Q k w.
Proof.
intros Hq HQ. unfold get_transfer. apply wp_bind, wp_zoom. replace w with (set_w_queue (w_queue w) w) in HQ by by destruct w.
apply wp_status; [done|]. intros [r json] k1. apply wp_if; intros _; by quietly.
Qed.

Lemma wp_post_unlock c k w (Q : reply -> nat -> World -> Prop) : (forall x k' w', quiet w w' -> Q x k' w') -> wp (post_unlock c) Q k w.
Proof.
intros HQ. pose proof (quiet_refl w). unfold post_unlock. apply wp_if; intros _; [quietly; by auto|]. cbv zeta.
apply wp_if; intros _; [quietly; by auto|]. apply wp_bind, wp_auth_quiet. intros [r token] k1 w1 Hq.
apply wp_if; intros _; quietly; intros x k2; by apply HQ.
Qed.

Lemma wp_post_exchange c k w (Q : reply -> nat -> World -> Prop) : (forall x k' w', quiet w w' -> Q x k' w') -> wp (post_exchange c) Q k w.
Proof.
intros HQ. pose proof (quiet_refl w). unfold post_exchange. apply wp_if; intros _; [quietly; by auto|]. cbv zeta.
destruct (parse_port _) as [port|]; [|quietly; by auto]. destruct (_ || _); [quietly; by auto|].
apply wp_bind, wp_auth_quiet. intros [[r token] e] k1 w1 Hq1. apply wp_if; intros _; [quietly; intros x k2; by apply HQ|].
apply wp_bind, wp_registry_quiet. intros _ k2 w2 Hq2. apply wp_bind, wp_registry_quiet. intros _ k3 w3 Hq3.
quietly. intros x k4. apply HQ. eapply quiet_trans; [exact Hq1|]. by eapply quiet_trans.
Qed.

(** The file of the stage, once it is committed or sealed. *)
Lemma wp_commit_uploaded c k w (Q : Z * connection_info -> nat -> World -> Prop) : conn_shape connection c ->
  (forall r c' k' w', queue_kept w w' -> sent_kept w w' -> conn_shape connection c' ->
     ci_upload_in_progress c' = ci_upload_in_progress c -> ci_request_authorized c' = ci_request_authorized c ->
     ci_target_ip c' = ci_target_ip c -> Q (r, c') k' w') -> wp (commit_uploaded_file c) Q k w.
Proof.
intros [Hip Hst] HQ. unfold commit_uploaded_file. apply wp_bind, wp_on_storage.
assert (Hgo : forall r st e p k1 fs1, stage_path_ok st -> wp (
  let c := with_stage st (ci_upload_in_progress c) c in
  if negb (r =? 0)
  then ret (-1, with_response HTTP_INTERNAL_SERVER_ERROR (default (ci_response_message c) e) c)
  else ret (0, with_saved (default (ci_filename c) p) true c)) Q k1 (set_w_queue (set_queue_fs fs1 (w_queue w)) w)).
{ intros r st e p k1 fs1 Hs. destruct (storage_keeps fs1 w). cbv zeta. apply wp_if; intros _; apply wp_ret, HQ; done. }
unfold upload_stage_commit. apply wp_bind, wp_seal_names. intros r st e k1 fs1 _ Hp. cbv beta iota.
assert (Hst1 : stage_path_ok st) by (unfold stage_path_ok; by rewrite Hp).
apply wp_if; intros _; [by apply wp_ret, (Hgo (-1))|]. apply wp_bind, wp_ask. cbv zeta. apply wp_bind, wp_intro. intros r2 k2 fs2 _.
apply wp_if; intros _; apply wp_ret; [by apply (Hgo (-1))|]. apply (Hgo 0). by left.
Qed.

Lemma wp_seal_uploaded c k w (Q : Z * connection_info -> nat -> World -> Prop) : conn_shape connection c ->
  (forall r c' k' w', quiet w w' -> conn_shape connection c' ->
     ci_upload_in_progress c' = ci_upload_in_progress c -> ci_request_authorized c' = ci_request_authorized c ->
     ci_target_ip c' = ci_target_ip c -> Q (r, c') k' w') -> wp (seal_uploaded_stage c) Q k w.
Proof.
intros [Hip Hst] HQ. unfold seal_uploaded_stage. apply wp_bind, wp_on_storage, wp_seal_names. intros r st e k1 fs1 Hn Hp. cbv beta iota zeta.
assert (Hq : quiet w (set_w_queue (set_queue_fs fs1 (w_queue w)) w)) by by apply quiet_staging, staging_only_names.
assert (Hst1 : stage_path_ok st) by (unfold stage_path_ok; by rewrite Hp).
apply wp_if; intros _; apply wp_ret, HQ; done.
Qed.

Definition keeps_auth (P : Prop) c' : Prop := conn_shape connection c' /\ conn_auth P c'.

Lemma wp_post_upload P c k w (Q : reply * connection_info -> nat -> World -> Prop) : conn_shape connection c -> conn_auth P c ->
  (forall x c' k' w', queue_kept w w' -> sent_kept w w' -> (downloads_kept w w' \/ P) -> keeps_auth P c' -> Q (x, c') k' w') ->
  wp (post_upload c) Q k w.
Proof.
intros Hc Hp HQ. destruct (quiet_refl w) as (Hd & Hqk & Hsk). unfold post_upload.
apply wp_if; intros _; [apply wp_bind; quietly; intros x k1; apply wp_ret, HQ; auto; by split|].
apply wp_if; intros Hprog; bool_prop; [apply wp_bind; quietly; intros x k1; apply wp_ret, HQ; auto; by split|].
assert (HP : P) by (by apply (proj1 (proj2 Hp))). apply wp_bind, wp_commit_uploaded; [done|]. intros r c1 k1 w1 Hqk1 Hsk1 Hc1 Hpr1 Hra1 Htip1. cbv beta iota.
assert (Hk : keeps_auth P c1) by (split; [done|by apply conn_auth_all]).
apply wp_if; intros _; apply wp_bind; quietly; intros x k2; apply wp_ret, HQ; auto.
Qed.

(** The client changes nothing but the list of requests made. *)
Definition only_sent (s s' : TransferState) : Prop := curl_ready s' = curl_ready s /\ tf_fs s' = tf_fs s.

Lemma deliver_write_silent blocks b k s : wp (deliver write_response blocks b) (fun _ _ s' => s' = s) k s.
Proof.
revert b k. induction blocks as [|x blocks IH]; intros b k; cbn [deliver]; [by apply wp_ret|]. apply wp_bind.
apply wp_mono with (fun _ _ s' => s' = s).
- unfold write_response. cbv zeta. apply wp_if; intros _; [by apply wp_ret|]. apply wp_bind, wp_ask, wp_if; intros _; by apply wp_ret.
- intros [n b'] k' s' ->. cbv beta iota. apply wp_if; intros _; [apply IH|by apply wp_ret].
Qed.

Lemma wp_pair_only ip port name pport code token exp msg k s :
  wp (transfer_pair_peer ip port name pport code token exp msg) (fun _ _ s' => only_sent s s') k s.
Proof.
unfold transfer_pair_peer. apply wp_bind, wp_get. destruct ip as [ip|], code as [code|], token as [token|]; try by apply wp_ret.
apply wp_if; intros _; [by apply wp_ret|]. do 2 (apply wp_bind, wp_ask, wp_if; intros _; [by apply wp_ret|]).
assert (Hf : forall n d k1 (f : list Part -> M TransferState pair_result), (forall ps k2, wp (f ps) (fun _ _ s' => only_sent s s') k2 s) ->
  wp (ps <- add_field n d ;; f ps) (fun _ _ s' => only_sent s s') k1 s).
{ intros n d k1 f Hall. apply wp_bind. unfold add_field. apply wp_bind, wp_ask, wp_if; intros _; [by apply wp_ret|].
  apply wp_bind, wp_ask, wp_bind, wp_ask, wp_ret. apply Hall. }
apply Hf. intros p1 k1. apply Hf. intros p2 k2. apply Hf. intros p3 k3. cbv zeta. apply wp_bind. unfold curl_easy_perform.
apply wp_bind, wp_ask, wp_bind, wp_modify, wp_bind. eapply wp_mono; [apply deliver_write_silent|]. intros [ok b] k4 s4 ->.
cbv beta iota. destruct (report _ _ _) as [going u]. apply wp_ret. cbv beta iota. apply wp_if; intros _; [by apply wp_ret|].
apply wp_if; intros _; [by apply wp_ret|]. destruct (extract_json_string_field _ _ _) as [r tok]. apply wp_if; intros _; by apply wp_ret.
Qed.

Lemma set_transfer_kept w s' : only_sent (w_transfer w) s' -> queue_kept w (set_w_transfer s' w) /\ downloads_kept w (set_w_transfer s' w).
Proof.
intros [_ Hf]. cbn [tf_fs w_transfer] in Hf. split; [by exists (tf_fs s')|]. intros p _. cbn. by rewrite Hf.
Qed.

Lemma wp_post_pair c k w (Q : reply -> nat -> World -> Prop) :
  (forall x k' w', queue_kept w w' -> downloads_kept w w' -> (sent_kept w w' \/ cstr (ci_target_ip c) <> []) -> Q x k' w') ->
  wp (post_pair c) Q k w.
Proof.
intros HQ.
assert (HQ' : forall x k' w', quiet w w' -> Q x k' w') by (intros x k' w' (A1 & A2 & A3); by apply HQ; auto).
pose proof (quiet_refl w) as Hr. unfold post_pair. apply wp_if; intros _; [quietly; by auto|]. cbv zeta.
apply wp_if; intros Hv; [quietly; by auto|]. apply orb_false_iff in Hv as [Hv _]. bool_prop.
assert (Hip : cstr (ci_target_ip c) <> []).
{ intros Hn. unfold validate_ip_address in Hv. rewrite Hn in Hv. by rewrite bool_decide_true in Hv. }
destruct (parse_port _) as [port|]; [|quietly; by auto].
apply wp_bind, wp_registry_quiet. intros [r peer] k1 w1 Hq1. cbv beta iota. apply wp_if; intros _; [quietly; intros x k2; by apply HQ'|].
apply wp_bind, wp_ask, wp_bind, wp_ask, wp_bind, wp_get, wp_bind, wp_zoom.
eapply wp_mono; [apply wp_pair_only|]. intros res k2 s2 Ho. destruct (set_transfer_kept _ _ Ho) as [Hqk Hdk].
set (w2 := set_w_transfer s2 w1) in *. destruct Hq1 as (Hd1 & [fs1 Hqk1] & Hs1). destruct Hqk as [fs2 Hqk2].
assert (Hk : forall w3, quiet w2 w3 -> queue_kept w w3 /\ downloads_kept w w3).
{ intros w3 (Hd3 & [fs3 Hqk3] & _). split; [exists fs3; by rewrite Hqk3, Hqk2, Hqk1|]. intros p Hp. by rewrite Hd3, Hdk, Hd1. }
assert (HQ2 : forall x k3 w3, quiet w2 w3 -> Q x k3 w3).
{ intros x k3 w3 H3. destruct (Hk w3 H3). by apply HQ; auto. }
pose proof (quiet_refl w2) as Hr2. apply wp_if; intros _.
- apply wp_bind. destruct (pr_message res) as [m|]; [apply wp_ret|apply wp_ask]; quietly; by auto.
- apply wp_bind, wp_auth_quiet. intros _ k3 w3 Hq3. apply wp_bind, wp_registry_quiet. intros _ k4 w4 Hq4.
  quietly. intros x k5. apply HQ2. by eapply quiet_trans.
Qed.

Lemma wp_validate_target c k w (Q : Z * connection_info * Z * option cstring -> nat -> World -> Prop) :
  (forall r c' p t k' w', quiet w w' -> same_input c c' -> ci_request_authorized c' = ci_request_authorized c -> Q (r, c', p, t) k' w') ->
  wp (validate_target_peer c) Q k w.
Proof.
intros HQ. pose proof (quiet_refl w) as Hr. unfold validate_target_peer. cbv zeta. apply wp_if; intros _; [by apply wp_ret, HQ|].
destruct (parse_port _) as [port|]; [|by apply wp_ret, HQ].
apply wp_bind, wp_registry_quiet. intros [r peer] k1 w1 Hq1. cbv beta iota. apply wp_if; intros _; [by apply wp_ret, HQ|].
apply wp_if; intros _; [by apply wp_ret, HQ|]. apply wp_bind, wp_auth_quiet. intros [r2 tok] k2 w2 Hq2. cbv beta iota.
pose proof (quiet_trans _ _ _ Hq1 Hq2). apply wp_if; intros _; by apply wp_ret, HQ.
Qed.

Lemma wp_post_send P c k w (Q : reply * connection_info -> nat -> World -> Prop) : conn_shape connection c -> conn_auth P c ->
  (forall x c' k' w', sent_kept w w' -> (quiet w w' \/ P) -> keeps_auth P c' -> Q (x, c') k' w') ->
  wp (post_send c) Q k w.
Proof.
intros Hc Hp HQ. pose proof (quiet_refl w) as Hr. pose proof (proj2 (proj2 Hr)) as Hs. unfold post_send.
apply wp_if; intros _; [apply wp_bind; quietly; intros x k1; apply wp_ret, HQ; auto; by split|].
apply wp_if; intros Hprog; bool_prop; [apply wp_bind; quietly; intros x k1; apply wp_ret, HQ; auto; by split|].
assert (HP : P) by (by apply (proj1 (proj2 Hp))). apply wp_bind, wp_validate_target. intros r c1 port tok k1 w1 Hq1 Hsame Hra. cbv beta iota.
pose proof (same_input_shape connection _ _ Hsame Hc) as Hc1.
assert (Hka : forall c', conn_shape connection c' -> keeps_auth P c') by (intros c' Hc'; split; [done|by apply conn_auth_all]).
assert (Hs1 : sent_kept w w1) by apply Hq1.
apply wp_if; intros _; [apply wp_bind; quietly; intros x k2; apply wp_ret, HQ; auto|].
apply wp_bind, wp_seal_uploaded; [done|]. intros r2 c2 k2 w2 Hq2 Hc2 _ _ _. cbv beta iota.
assert (Hs2 : sent_kept w w2) by (apply (quiet_trans _ _ _ Hq1 Hq2)).
apply wp_if; intros _; [apply wp_bind; quietly; intros x k3; apply wp_ret, HQ; auto|].
apply wp_bind, wp_zoom, wp_intro. intros [r3 job] k3 q3 _. cbv beta iota. apply wp_if; intros _.
- apply wp_bind, wp_on_storage, wp_abort_names; [apply Hc2|]. intros k4 fs4 _. apply wp_bind. quietly. intros x k5. apply wp_ret, HQ; auto.
  apply Hka. split; [apply Hc2|by left].
- apply wp_bind. quietly. intros x k5. apply wp_ret, HQ; auto.
Qed.
End Routes.

(** ** A whole connection *)

Section Connection.
Context `{E : Env} {R : RandOk E} {T : ClockRange E} {MO : ClockMono E} `{C : Curl} `{I : Inet} `{H : Host}.
Context (connection : Connection) (url method : cstring).
Implicit Types (k : nat) (w : World) (c : connection_info).

Definition upload_route : bool := is_route url method "/upload" "POST".
Definition pair_route : bool := is_route url method "/api/pair" "POST".
Definition send_route : bool := is_route url method "/api/send" "POST".
Definition guarded_route : bool := upload_route || pair_route || send_route.

(** At tick [k], in world [w], the request carries what its route asks for: an
    open session of the client, or for an upload the token of a paired peer. *)
Definition credential k w : Prop :=
  ui_open connection (env_clock k) w \/ (upload_route = true /\ peer_open connection (env_clock k) w).

(** The calls so far, with the tick and the world each began in.  The world
    may be any in order: others act between the calls. *)
Inductive conn_history : list (nat * World) -> option connection_info -> Prop :=
| HistStart : conn_history [] None
| HistCall seen con_cls data k w a k' w' :
    conn_history seen con_cls -> world_ok w ->
    answer_to_connection connection url method data con_cls k w = (a, (k', w')) -> an_reply a <> Crash ->
    conn_history ((k, w) :: seen) (an_con_cls a).

Definition shown (seen : list (nat * World)) : Prop := exists k w, (k, w) ∈ seen /\ credential k w.

Definition conn_inv (P : Prop) (con_cls : option connection_info) : Prop :=
  match con_cls with
  | None => True
  | Some c => conn_shape connection c /\ (guarded_route = true -> conn_auth P c)
  end.

(** What a call may have done. *)
Definition guarded_effects (P : Prop) w w' : Prop :=
  (downloads_kept w w' \/ ((upload_route = true \/ send_route = true) /\ P)) /\
  (queue_kept w w' \/ (send_route = true /\ P)) /\ (sent_kept w w' \/ (pair_route = true /\ P)).

Lemma quiet_guarded P w w' : quiet w w' -> guarded_effects P w w'.
Proof. intros (H1 & H2 & H3). split; [|split]; by left. Qed.

Lemma conn_inv_mono (P P' : Prop) con_cls : (P -> P') -> conn_inv P con_cls -> conn_inv P' con_cls.
Proof. destruct con_cls as [c|]; [|done]. intros Hp [H1 H2]. split; [done|]. intros Hg. by eapply conn_auth_mono; [|apply H2]. Qed.

Context (Hconn : connection_ok connection).

Lemma wp_new_connection size k w (Q : answer -> nat -> World -> Prop) :
  (forall a k', conn_inv False (an_con_cls a) -> Q a k' w) -> wp (new_connection connection method size) Q k w.
Proof.
intros HQ. unfold new_connection. apply wp_bind, wp_ask, wp_if; intros _; [by apply wp_ret, HQ|].
fold (client_text connection). cbv zeta.
assert (Hnew : forall v, conn_inv False (Some (with_postprocessor v (connection_new (client_text connection))))).
{ intros v. split; [split; [done|by left]|]. intros _. by split; [|split]. }
apply wp_if; intros _; [|apply wp_ret, HQ, (Hnew None)]. destruct (cn_form connection); apply wp_ret, HQ; [apply Hnew|done].
Qed.

Lemma ready_kept w w' : queue_ready (w_queue w) -> queue_kept w w' -> queue_ready (w_queue w').
Proof. intros [Hi Hl] [fs ->]. split; [by destruct Hi|done]. Qed.

(** Routes that read need no guard. *)
Lemma wp_with_ui c scope limit (route : M World reply) k w (Q : reply * connection_info -> nat -> World -> Prop) :
  auth_ready (w_auth w) -> scope_ok scope limit -> conn_shape connection c ->
  (forall k1 w1, quiet w w1 -> wp route (fun x k' w' => forall c', conn_shape connection c' -> Q (x, c') k' w') k1 w1) ->
  (forall x c' k' w', quiet w w' -> conn_shape connection c' -> Q (x, c') k' w') ->
  wp (with_ui connection c scope limit route) Q k w.
Proof.
intros Ha Hs Hc Hr HQ. unfold with_ui. apply wp_bind, (wp_authorize_ui connection Hconn); [done|apply Hc|done|].
intros r c1 k1 w1 Hq (Hsame & _ & _). cbv beta iota. pose proof (same_input_shape connection _ _ Hsame Hc) as Hc1.
apply wp_if; intros _; apply wp_bind; [quietly; intros x k2; by apply wp_ret, HQ|].
eapply wp_mono; [by apply Hr|]. intros x k2 w2 Hx. by apply wp_ret, Hx.
Qed.

(** A posted route, phase by phase. *)
Lemma wp_posted data last upload_data c (P : Prop) k w (Q : answer -> nat -> World -> Prop) :
  wp (data upload_data c) (fun c' _ w' => guarded_effects P w w' /\ conn_inv P (Some c')) k w ->
  wp (last c) (fun x _ w' => guarded_effects P w w' /\ conn_inv P (Some (snd x))) k w ->
  (forall a k' w', guarded_effects P w w' -> conn_inv P (an_con_cls a) -> Q a k' w') ->
  wp (posted data last upload_data c) Q k w.
Proof.
intros Hd Hl HQ. unfold posted. apply wp_if; intros _; apply wp_bind.
- eapply wp_mono; [exact Hd|]. intros c' k1 w1 [H1 H2]. by apply wp_ret, HQ.
- eapply wp_mono; [exact Hl|]. intros [x c'] k1 w1 [H1 H2]. by apply wp_ret, HQ.
Qed.

Context (Hurl : c_string url) (Hmethod : c_string method).

Lemma route_is path verb : c_string (lit path) -> c_string (lit verb) -> is_route url method path verb = true -> url = lit path /\ method = lit verb.
Proof. intros Hp Hv Hr. unfold is_route in Hr. rewrite !strcmp_eqb in Hr by done. bool_prop. tauto. Qed.

Lemma get_unguarded : (strcmp method (lit "GET") =? 0) = true -> guarded_route = false.
Proof.
intros Hm. apply Z.eqb_eq in Hm. assert (Hmg : method = lit "GET") by (apply strcmp_eq; [done|by apply (bool_decide_eq_true_1 _); vm_compute|done]).
unfold guarded_route, upload_route, pair_route, send_route, is_route. rewrite Hmg. by rewrite !andb_false_r.
Qed.

Ltac a_scope := split; [by apply (bool_decide_eq_true_1 _); vm_compute|split; [simpl; lia|lia]].
Ltac a_route Hr := apply route_is in Hr; [|by apply (bool_decide_eq_true_1 _); vm_compute..].

Ltac a_unguarded Hr Hng := a_route Hr; let Hu := fresh "Hu" in let Hm := fresh "Hm" in destruct Hr as [Hu Hm];
  assert (Hng : guarded_route = false) by (unfold guarded_route, upload_route, pair_route, send_route; rewrite Hu, Hm; reflexivity).

(** What a call leaves, unless it crashes. *)
Definition call_ends (P : Prop) w (a : answer) w' : Prop := an_reply a = Crash \/ (guarded_effects P w w' /\ conn_inv P (an_con_cls a)).

(** The routes without a guard of their own. *)
Lemma ends_unguarded P x c size w w' : guarded_route = false -> quiet w w' -> conn_shape connection c ->
  call_ends P w {| an_reply := x; an_con_cls := Some c; an_upload_data_size := size |} w'.
Proof. intros Hng Hq Hc. right. split; [by apply quiet_guarded|]. split; [done|congruence]. Qed.

Lemma wp_limited_route P scope limit failure (route : connection_info -> M World reply) data c k w :
  guarded_route = false -> auth_ready (w_auth w) -> scope_ok scope limit -> conn_shape connection c ->
  (forall k w (Q : reply -> nat -> World -> Prop), (forall x k' w', quiet w w' -> Q x k' w') -> wp (route c) Q k w) ->
  wp (posted (limited_data scope limit failure) (fun c => keep (route c) c) data c) (fun a _ w' => call_ends P w a w') k w.
Proof.
intros Hng Ha Hs Hc Hroute. assert (Hi : forall c', conn_shape connection c' -> conn_inv P (Some c')) by (intros c' Hc'; split; [done|congruence]).
apply (wp_posted _ _ _ _ P); [| |by right].
- apply (wp_limited_data connection Hconn); [done..|]. intros c' k' w' Hq' Hc'. split; [by apply quiet_guarded|by apply Hi].
- apply wp_bind, Hroute. intros x k' w' Hq'. apply wp_ret. split; [by apply quiet_guarded|by apply Hi].
Qed.

(** The routes that a credential guards. *)
Lemma wp_guarded_route P P0 authorize failure last data c k w :
  (forall (Q' : Z * connection_info -> nat -> World -> Prop),
     (forall r c' k' w', quiet w w' -> authorized_by P0 c r c' -> Q' (r, c') k' w') -> wp (authorize c) Q' k w) ->
  (P0 -> P) -> conn_shape connection c -> conn_auth P c ->
  wp (last c) (fun x _ w' => guarded_effects P w w' /\ keeps_auth connection P (snd x)) k w ->
  wp (posted (authorized_data authorize failure) last data c) (fun a _ w' => call_ends P w a w') k w.
Proof.
intros Hau HP Hc Hca Hlast. apply (wp_posted _ _ _ _ P); [| |by right].
- eapply (wp_authorized_data connection P P0); [exact Hau|exact HP|done|done|]. intros c' k' w' Hq' Hc' Hp'. split; [by apply quiet_guarded|by split].
- eapply wp_mono; [exact Hlast|]. intros x k' w' [H1 [H2 H3]]. by split; [|split].
Qed.

(** Every call: what it may have done, and what it leaves of the connection. *)
Lemma wp_answer_ends (P : Prop) con_cls data k w : world_ok w -> conn_inv P con_cls -> (credential k w -> P) ->
  wp (answer_to_connection connection url method data con_cls) (fun a _ w' => call_ends P w a w') k w.
Proof.
intros [[Ha _] Hq] Hinv HP. unfold answer_to_connection. cbv zeta.
destruct con_cls as [c|]; [|apply wp_new_connection; intros a k' Hi; right; split; [apply quiet_guarded, quiet_refl|]; by eapply conn_inv_mono; [|exact Hi]].
destruct Hinv as [Hc Hg].
assert (Hget : forall x w', quiet w w' -> call_ends P w {| an_reply := x; an_con_cls := Some c; an_upload_data_size := length data |} w').
{ intros x w' Hq'. right. split; [by apply quiet_guarded|by split]. }
apply wp_if; intros Hr1; [apply wp_bind, wp_bind, wp_get_index; intros x k1; by apply wp_ret, wp_ret, Hget, quiet_refl|].
apply wp_if; intros Hr2; [apply wp_bind, wp_bind, wp_get_devices; intros x k1 w1 Hq1; by apply wp_ret, wp_ret, Hget|].
apply wp_if; intros Hr3.
{ a_unguarded Hr3 Hng. apply wp_bind, wp_with_ui; [done|a_scope|done| |intros; by apply wp_ret, ends_unguarded].
  intros k1 w1 Hq1. apply wp_get_local_code. intros x k2 w2 Hq2 c' Hc'. apply wp_ret, ends_unguarded; [done| |done]. by eapply quiet_trans. }
apply wp_if; intros Hr4; [a_unguarded Hr4 Hng; apply wp_limited_route; [done|done|a_scope|done|]; intros; by apply wp_post_unlock|].
apply wp_if; intros Hr5; [a_unguarded Hr5 Hng; apply wp_limited_route; [done|done|a_scope|done|]; intros; by apply wp_post_exchange|].
apply wp_if; intros Hr6.
{ a_unguarded Hr6 Hng. apply wp_bind, wp_with_ui; [done|a_scope|done| |intros; by apply wp_ret, ends_unguarded].
  intros k1 w1 Hq1. apply wp_get_transfers; [by eapply ready_kept, Hq1|intros x k2 c' Hc'; by apply wp_ret, ends_unguarded|].
  intros k2 w2 c' Hc'. apply wp_ret. by left. }
apply wp_if; intros Hr7.
{ assert (Hng : guarded_route = false) by by apply get_unguarded; apply andb_true_iff in Hr7 as [_ Hm].
  apply wp_bind, wp_with_ui; [done|a_scope|done| |intros; by apply wp_ret, ends_unguarded].
  intros k1 w1 Hq1. apply wp_get_transfer; [by eapply ready_kept, Hq1|]. intros x k2 c' Hc'. by apply wp_ret, ends_unguarded. }
assert (Hgd : upload_route = true \/ pair_route = true \/ send_route = true -> conn_auth P c).
{ intros Ho. apply Hg. unfold guarded_route. destruct Ho as [->|[->| ->]]; by rewrite ?orb_true_r. }
apply wp_if; intros Hr8; [|apply wp_if; intros Hr9; [|apply wp_if; intros Hr10; [|by apply wp_bind, wp_ask, wp_ret, Hget, quiet_refl]]].
- assert (Hca : conn_auth P c) by auto.
  apply (wp_guarded_route P (ui_open connection (env_clock k) w \/ peer_open connection (env_clock k) w)); [| |done|done|].
  + intros Q' HQ'. apply (wp_authorize_upload connection Hconn); [done|apply Hc|done].
  + intros Ho. apply HP. unfold credential, upload_route. rewrite Hr8. tauto.
  + eapply (wp_post_upload connection P); [done|done|]. intros x c' k' w' H1 H2 H3 H4. split; [|exact H4].
    split; [|split; by left]. destruct H3; [by left|right]. split; [by left|done].
- assert (Hca : conn_auth P c) by auto. apply (wp_guarded_route P (ui_open connection (env_clock k) w)); [|intros Ho; apply HP; by left|done|done|].
  + intros Q' HQ'. apply (wp_authorize_ui connection Hconn); [done|apply Hc|a_scope|done].
  + apply wp_bind, wp_post_pair. intros x k' w' H1 H2 H3. apply wp_ret. split; [|by split].
    split; [by left|]. split; [by left|]. destruct H3 as [?|Hip]; [by left|right]. split; [done|]. by apply (proj2 (proj2 Hca)).
- assert (Hca : conn_auth P c) by auto. apply (wp_guarded_route P (ui_open connection (env_clock k) w)); [|intros Ho; apply HP; by left|done|done|].
  + intros Q' HQ'. apply (wp_authorize_ui connection Hconn); [done|apply Hc|a_scope|done].
  + eapply (wp_post_send connection P); [done|done|]. intros x c' k' w' H1 H2 H3. split; [|exact H3].
    destruct H2 as [Hq2|HPp]; [by apply quiet_guarded|]. split; [right; split; [by right|done]|]. split; [by right|by left].
Qed.

Lemma wp_answer (P : Prop) con_cls data k w (Q : answer -> nat -> World -> Prop) :
  world_ok w -> conn_inv P con_cls -> (credential k w -> P) ->
  (forall a k' w', call_ends P w a w' -> Q a k' w') ->
  wp (answer_to_connection connection url method data con_cls) Q k w.
Proof. intros Hw Hi HP HQ. eapply wp_mono; [by apply (wp_answer_ends P)|]. intros a k' w'. apply HQ. Qed.

Lemma history_inv seen con_cls : conn_history seen con_cls -> conn_inv (shown seen) con_cls.
Proof.
induction 1 as [|seen con_cls data k w a k' w' Hh IH Hw He Hc]; [done|].
refine (wp_use _ (fun a _ _ => an_reply a <> Crash -> conn_inv (shown ((k, w) :: seen)) (an_con_cls a)) _ _ _ _ _ _ He Hc).
apply (wp_answer (shown ((k, w) :: seen))); [done| | |].
- eapply conn_inv_mono; [|exact IH]. intros (k0 & w0 & Hin & Hcr). exists k0, w0. split; [by right|done].
- intros Hcr. exists k, w. split; [by left|done].
- intros a1 k1 w1 [Hcr|[_ Hi]]; done.
Qed.

(** C2: nobody without a credential makes the server act.  Take any call of
    [answer_to_connection] of any connection, after any earlier calls of it and
    whatever happened in between.  If the call delivers a file to downloads,
    queues a transfer or makes a pairing request, then its route is the one for
    that, and in the world in which this or an earlier call of the connection
    began the request named an open session of its client, or, for an upload,
    a valid token of its client. *)
Theorem effects_need_credentials seen con_cls data k w a k' w' :
  conn_history seen con_cls -> world_ok w ->
  answer_to_connection connection url method data con_cls k w = (a, (k', w')) -> an_reply a <> Crash ->
  (downloads_kept w w' \/ ((upload_route = true \/ send_route = true) /\ shown ((k, w) :: seen))) /\
  (queue_kept w w' \/ (send_route = true /\ shown ((k, w) :: seen))) /\
  (sent_kept w w' \/ (pair_route = true /\ shown ((k, w) :: seen))).
Proof.
intros Hh Hw He Hc.
enough (Hg : wp (answer_to_connection connection url method data con_cls)
  (fun a _ w' => an_reply a <> Crash -> guarded_effects (shown ((k, w) :: seen)) w w') k w) by exact (wp_use _ _ _ _ _ _ _ Hg He Hc).
apply (wp_answer (shown ((k, w) :: seen))); [done| | |].
- eapply conn_inv_mono; [|apply history_inv; exact Hh]. intros (k0 & w0 & Hin & Hcr). exists k0, w0. split; [by right|done].
- intros Hcr. exists k, w. split; [by left|done].
- intros a1 k1 w1 [Hcr|[Hg _]]; done.
Qed.
End Connection.
