(* ===== verification/ServerTheorems.v ===== *)
(** * ServerTheorems: pairing, sending and cleaning up *)

From stdpp Require Import base numbers list strings gmap.
From Stdlib Require Import ZArith Lia Ascii.
From S2P Require Import Prelude Effects CLib Crypto JsonUtils JsonValue Storage StorageSpec Auth AuthSpec AuthTokens AuthLimiter AuthLife.
From S2P Require Import PeerRegistry PeerRegistrySpec TransferQueue TransferQueueSpec TransferQueueSystem Transfer TransferSpec Ui Server ServerReply ServerSpec.

(** ** Ports *)

Lemma parse_port_range text p : parse_port text = Some p -> 0 < p <= 65535 /\ text <> [] /\ strtol text = (p, []).
Proof.
unfold parse_port. destruct (strtol text) as [v r] eqn:Hs. destruct (_ || _) eqn:Hg; [done|]. intros [= <-].
apply orb_false_iff in Hg as [Hg H4]. apply orb_false_iff in Hg as [Hg H3]. apply orb_false_iff in Hg as [H1 H2]. bool_prop.
split; [lia|]. split; [done|]. by subst.
Qed.

Lemma wrap_port p : 0 < p <= 65535 -> wrap 16 p = p.
Proof. intros. apply wrap_small. lia. Qed.

(** Every decimal port reads back. *)
Lemma parse_port_shown p : 0 < p <= 65535 -> parse_port (show_nat p) = Some p.
Proof.
intros Hp. unfold parse_port. rewrite <- (show_long_nat p) by lia. rewrite <- (app_nil_r (show_long p)) at 1.
rewrite strtol_show_long by (unfold LONG_MIN, LONG_MAX; done || lia).
assert (Hne : show_long p <> []) by (rewrite show_long_nat by lia; by destruct (show_nat_spec p ltac:(lia))).
rewrite !bool_decide_false, bool_decide_true by done. cbn [negb orb].
destruct (Z.leb_spec p 0); [lia|]. destruct (Z.ltb_spec 65535 p); [lia|done].
Qed.

Section Addresses.
Context `{I : Inet} {IO : InetOk I}.

Lemma valid_address ip : validate_ip_address ip = 0 -> c_string ip ->
  (inet_pton4 ip = true \/ inet_pton6 ip = true) /\ c_string ip /\ (length ip <= 45)%nat.
Proof.
intros Hv Hc. unfold validate_ip_address in Hv. destruct (bool_decide (ip = [])); [done|].
destruct (inet_pton4 ip) eqn:H4; [destruct (inet4_text _ H4); split; [by left|split; [done|lia]]|].
destruct (inet_pton6 ip) eqn:H6; [destruct (inet6_text _ H6); split; [by right|split; [done|lia]]|done].
Qed.
End Addresses.

(** ** The pairing exchange *)

Section Exchange.
Context `{E : Env} {R : RandOk E} {T : ClockRange E} {MO : ClockMono E} {L : LocksOk E} `{C : Curl} `{I : Inet} `{H : Host}.
Implicit Types (k : nat) (w : World) (c : connection_info).

Lemma hex_escape n t : hex_token n t -> escape t = t.
Proof.
intros [_ Hh]. apply escape_plain. eapply Forall_impl; [exact Hh|]. intros x Hx. simpl in Hx.
assert (Hall : Forall (fun h => escape_char h = [h]) HEX) by (by apply (bool_decide_eq_true_1 _); vm_compute).
unfold is_hex in Hx. bool_prop. by eapply Forall_forall in Hall.
Qed.

(** The object of the reply prints as the text the client reads. *)
Lemma pair_reply_text tok e : hex_token 64 tok -> print (reply_value (RPair paired_text tok e)) = pair_reply paired_text tok e.
Proof. intros Ht. cbn [reply_value]. unfold pair_reply. cbn [print map fst snd]. rewrite <- (hex_escape _ _ Ht) at 2. json_text. Qed.

Definition refused_reply (x : reply) : Prop := exists st msg, 400 <= st /\ answers st (reply_value (RStatus st (lit "error") msg)) x.

Lemma wp_refuse st msg k w (Q : reply -> nat -> World -> Prop) : 400 <= st -> short msg ->
  (forall x k', refused_reply x -> Q x k' w) -> wp (queue_json_status_message st (lit "error") msg) Q k w.
Proof.
intros Hst Hm HQ. apply (wp_reply (RStatus st (lit "error") msg)); [by split|]. intros x k' Hx. apply HQ. by exists st, msg.
Qed.

(** What a client that gets the reply makes of it. *)
Definition understood (x : reply) (tok : cstring) (e : Z) : Prop :=
  forall st ct body a, x = Response st ct body -> accepted_answer a -> mjoin (an_body a) = body ->
    pair_outcome a = {| pr_code := 0; pr_token := Some tok; pr_expires_at := Some e; pr_message := Some paired_text |}.

Lemma answers_understood tok e x : hex_token 64 tok -> LONG_MIN <= e <= LONG_MAX ->
  answers HTTP_OK (reply_value (RPair paired_text tok e)) x -> understood x tok e.
Proof.
intros Ht He [->|[-> _]] st ct body a; [|done]. intros [= <- <- <-] Ha Hb. apply outcome_of_reply; [done| |done|done].
rewrite Hb. by apply pair_reply_text.
Qed.

Lemma wp_exchange c k w (Q : reply -> nat -> World -> Prop) :
  auth_good (w_auth w) -> ip_ok (ci_client_ip c) -> short (ci_response_message c) ->
  (forall k, env_clock k + 7 * 24 * 60 * 60 <= LONG_MAX) ->
  (forall x k' w', refused_reply x -> (forall t ip port tok, peer_token_at (w_auth w') ip port tok t <-> peer_token_at (w_auth w) ip port tok t) ->
     w_registry w' = w_registry w -> Q x k' w') ->
  (forall x k' w' port tok e, parse_port (cstr (ci_peer_port c)) = Some port -> cstr (ci_pair_code c) = pairing_code (w_auth w') ->
     answers HTTP_OK (reply_value (RPair paired_text tok e)) x -> hex_token 64 tok -> LONG_MIN <= e <= LONG_MAX ->
     env_clock k + 7 * 24 * 60 * 60 <= e ->
     peer_token_at (w_auth w') (ci_client_ip c) port tok e -> Q x k' w') ->
  wp (post_exchange c) Q k w.
Proof.
intros (Ha & Hu & _) [Hip Hil] Hm Hclk Hno Hyes. unfold post_exchange.
assert (Hr : forall st msg k1, 400 <= st -> short msg -> wp (queue_json_status_message st (lit "error") msg) Q k1 w).
{ intros st msg k1 Hst Hs. apply wp_refuse; [done..|]. intros x k' Hx. by apply Hno. }
apply wp_if; intros Hst; bool_prop; [by apply Hr|]. cbv zeta.
destruct (parse_port _) as [port|] eqn:Hport; [|by apply Hr]. destruct (_ || _); [by apply Hr|].
destruct (parse_port_range _ _ Hport) as [Hrange _]. rewrite wrap_port by done.
apply wp_bind, wp_zoom, wp_issue; [done|done|done|apply cstr_c_string|lia| |].
- intros k1 s1 Hs1. cbv beta iota. reduce_tests. apply wp_refuse; [done..|]. intros x k2 Hx. apply Hno; [done| |done].
  intros t ip' port' tok'. cbn [w_auth set_w_auth]. destruct Hs1 as [->|Hs1]; [done|].
  destruct (pairing_refreshed_facts _ _ _ Hs1 (proj1 Ha) (proj2 Ha)) as (_ & _ & Hpt & _). unfold peer_token_at. by rewrite Hpt.
- intros k1 tok e s1 Hk1 (s0 & j & Hp & Hcode & Htok & Hj & -> & Hup). cbv beta iota. reduce_tests.
  pose proof (upserted_at _ _ _ _ _ _ _ Hil Hup) as Hat. rewrite take_ge in Hat by (destruct Htok; lia).
  assert (Hpc : pairing_code s1 = pairing_code s0) by (by destruct Hup as (? & ? & _ & _ & ->)).
  assert (He : LONG_MIN <= env_clock j + 7 * 24 * 60 * 60 <= LONG_MAX) by (pose proof (clock_range j); specialize (Hclk j); lia).
  apply wp_bind, wp_zoom, wp_intro. intros r2 k2 s2 _. apply wp_bind, wp_zoom, wp_intro. intros r3 k3 s3 _.
  apply (wp_reply (RPair paired_text tok (env_clock j + 7 * 24 * 60 * 60))); [split; [done|split; [unfold short; destruct Htok; lia|done]]|].
  intros x k4 Hx. eapply Hyes; [done| |exact Hx|done|done| |exact Hat].
  + cbn. congruence.
  + pose proof (clock_mono k j). lia.
Qed.

(** C11: pairing from end to end.  The reply of the exchange either is an error
    and no token changes; or the code given was the pairing code in force, the
    reply carries a fresh token that is stored for the client's endpoint for at
    least a week, and every client that receives that reply, in whatever
    blocks, takes from it exactly that token and that expiry. *)
Theorem pairing_exchange_correct c k w x k' w' :
  auth_good (w_auth w) -> ip_ok (ci_client_ip c) -> short (ci_response_message c) ->
  (forall k, env_clock k + 7 * 24 * 60 * 60 <= LONG_MAX) ->
  post_exchange c k w = (x, (k', w')) ->
  (refused_reply x /\ forall ip port tok t, peer_token_at (w_auth w') ip port tok t <-> peer_token_at (w_auth w) ip port tok t) \/
  (exists port tok e, parse_port (cstr (ci_peer_port c)) = Some port /\ cstr (ci_pair_code c) = pairing_code (w_auth w') /\
     hex_token 64 tok /\ peer_token_at (w_auth w') (ci_client_ip c) port tok e /\ env_clock k + 7 * 24 * 60 * 60 <= e /\
     answers HTTP_OK (reply_value (RPair paired_text tok e)) x /\ understood x tok e).
Proof.
intros Ha Hip Hm Hclk. to_wp. apply wp_exchange; [done..| |].
- intros x1 k1 w1 Hx Hpt _. left. split; [done|]. intros ip port tok t. apply Hpt.
- intros x1 k1 w1 port tok e Hp Hc Hx Ht Hr He Hat. right. exists port, tok, e. do 6 (split; [done|]). by apply answers_understood.
Qed.
End Exchange.

(** ** Sending a file to a peer *)

Section Send.
Context `{E : Env} {R : RandOk E} {T : ClockRange E} {MO : ClockMono E} {L : LocksOk E} `{C : Curl} `{I : Inet} {IO : InetOk I} `{H : Host}.
Implicit Types (k : nat) (w : World) (c : connection_info).

(** A transfer may go to [(ip, port)] with [tok]: the address is one, a peer
    there is known, active and paired, and its stored token is not expired. *)
Definition target_allowed w (t : Z) (ip : cstring) (port : Z) (tok : cstring) : Prop :=
  (inet_pton4 ip = true \/ inet_pton6 ip = true) /\
  (exists p, reg_view (w_registry w) !! (ip, port) = Some p /\ pi_active p = true /\ pi_paired p = true) /\
  (exists full e, peer_token_at (w_auth w) ip port full e /\ t < e /\ tok = take 64 full).

(** The peer a call of the registry finds. *)
Lemma wp_find_on_world ip port k w (Q : Z * option PeerInfo -> nat -> World -> Prop) :
  reg_ready (w_registry w) -> c_string ip -> (length ip <= 45)%nat -> 0 <= port < 65536 ->
  (forall r p k', (k <= k')%nat -> (r = 0 -> exists q, p = Some q /\ reg_view (w_registry w) !! (ip, port) = Some q) -> Q (r, p) k' w) ->
  wp (on_registry (peer_registry_find_by_endpoint (Some ip) port true)) Q k w.
Proof.
intros Hr Hip Hl Hp HQ. apply wp_zoom. eapply wp_mono; [apply wp_find_peer; [done|by split]|].
intros [r p] k1 s1 [-> [_ Hpost]]. replace (set_w_registry (w_registry w) w) with w by by destruct w.
destruct Hpost as [(Hk & _)|(_ & j & Hj & Hs)]; [by rewrite lock_ok in Hk|].
apply HQ; [lia|]. intros ->. cbn [registry_spec] in Hs. injection Hs as Hr0 Hp0.
destruct (reg_view (w_registry w) !! (ip, port)) as [q|]; [by exists q|done].
Qed.

Lemma wp_target c k w (Q : Z * connection_info * Z * option cstring -> nat -> World -> Prop) :
  auth_good (w_auth w) -> reg_ready (w_registry w) ->
  (forall c' k' w' st msg, same_input c c' -> ci_file_saved c' = ci_file_saved c -> w_queue w' = w_queue w -> 400 <= st ->
     ci_response_status c' = st -> ci_response_message c' = msg -> short msg -> Q (-1, c', 0, None) k' w') ->
  (forall port tok k' w', w_queue w' = w_queue w -> parse_port (cstr (ci_target_port c)) = Some port ->
     target_allowed w (env_clock k) (cstr (ci_target_ip c)) port tok -> Q (0, c, port, Some tok) k' w') ->
  wp (validate_target_peer c) Q k w.
Proof.
intros (Ha & Hu & _) Hreg Hno Hyes. unfold validate_target_peer. cbv zeta. set (ip := cstr (ci_target_ip c)) in *.
assert (Hc : c_string ip) by apply cstr_c_string.
assert (Hr : forall st m k1 w1, w_queue w1 = w_queue w -> 400 <= st ->
  wp (ret (-1, set_error c st (Some m), 0, None)) Q k1 w1).
{ intros st m k1 w1 Hw Hst. apply wp_ret, (Hno _ _ _ st (snprintf 256 [Str m])); try done.
  unfold short. pose proof (snprintf_length 256 [Str m] ltac:(lia)). lia. }
apply wp_if; intros Hv; bool_prop; [by apply Hr|]. destruct (valid_address ip Hv Hc) as (Hin & _ & Hlen).
destruct (parse_port _) as [port|] eqn:Hport; [|by apply Hr]. destruct (parse_port_range _ _ Hport) as [Hrange _]. rewrite wrap_port by done.
apply wp_bind, wp_find_on_world; [done|done|done|lia|]. intros r p k1 Hk1 Hp. cbv beta iota. apply wp_if; intros Hact; [by apply Hr|].
apply orb_false_iff in Hact as [Hr0 Hact]. bool_prop. destruct (Hp Hr0) as (q & -> & Hq). cbn [default from_option id] in *.
apply wp_if; intros Hpaired; bool_prop; [by apply Hr|].
apply wp_bind, wp_zoom, wp_get_peer_token; [done|lia| |].
- intros Hlk. by rewrite lock_ok in Hlk.
- intros v k2 s2 _ Hsc. unfold pt_scan in Hsc. destruct v as [x|].
  + destruct (scan_sound _ _ _ _ _ _ _ _ _ _ _ _ Hsc) as (i & slot & Hs & [Hsa Hsl] & Hm & ->).
    apply (pt_match_port_true _ _ _ _ _ (proj1 Ha) Hs Hc) in Hm as [M1 M2]. cbv beta iota. reduce_tests. cbn [default from_option id]. reduce_tests.
    apply wp_ret, Hyes; [done|done|]. split; [done|]. split; [by exists q|].
    exists (pt_token slot), (pt_expires_at slot). split; [by exists i, slot|]. split; [pose proof (clock_mono k (S k1)); lia|].
    by rewrite copy_string_some.
  + cbn [default from_option id]. cbv beta iota. reduce_tests. by apply Hr.
Qed.

(** The refusals of the last phase. *)
Definition nothing_queued w c x c' w' : Prop :=
  refused_reply x /\ waiting (w_queue w') = waiting (w_queue w) /\ ci_file_saved c' = ci_file_saved c.

(** The file is queued. *)
Definition file_queued w (t : Z) c x c' w' : Prop := exists id tok port,
  parse_port (cstr (ci_target_port c)) = Some port /\ target_allowed w t (cstr (ci_target_ip c)) port tok /\
  waiting (w_queue w') = waiting (w_queue w) ++ [accepted_request id (st_staging_path (ci_upload_stage c)) (cstr (ci_target_ip c)) port tok] /\
  ci_file_saved c' = true /\ answers HTTP_OK (reply_value (RTransfer (lit "Transferencia enfileirada com sucesso") id)) x.

Lemma waiting_fs fs q : waiting (set_queue_fs fs q) = waiting q.
Proof. done. Qed.

Lemma accepted_take id path ip port tok : accepted_request id (take 511 path) ip port tok = accepted_request id path ip port tok.
Proof. unfold accepted_request. by rewrite take_take. Qed.

Lemma enqueue_short path ip port tok k q (Q : Z * option cstring -> nat -> QueueState -> Prop) :
  queue_ready q -> queue_initialized q = true ->
  (forall k' q', waiting q' = waiting q -> Q (-1, None) k' q') ->
  (forall k' id q', short id -> waiting q' = waiting q ++ [accepted_request id path ip port tok] -> Q (0, Some id) k' q') ->
  wp (transfer_enqueue (Some path) (Some ip) port (Some tok) (Some 65%nat)) Q k q.
Proof.
intros Hq Hi H0 H1. apply wp_enqueue; [done..| |].
- intros k1 j q1 Hp. apply H0. by destruct (pruned_inv _ _ _ (proj1 Hq) Hp).
- intros k1 j id q1 Hc He Hl Hid. destruct (enqueued_inv _ _ _ _ (proj1 Hq) Hc He) as (_ & Hw & _). apply H1; [|done].
  unfold short. lia.
Qed.
(** Sealing in the connection: the file is closed under its staging name. *)
Definition sealed_in c c' w w' : Prop :=
  waiting (w_queue w') = waiting (w_queue w) /\ queue_ready (w_queue w') /\ queue_initialized (w_queue w') = queue_initialized (w_queue w) /\
  st_staging_path (ci_upload_stage c') = st_staging_path (ci_upload_stage c) /\ ci_target_ip c' = ci_target_ip c.

Lemma seal_error_short st err k fs : err = Some 256%nat ->
  wp (upload_stage_seal st err) (fun '(_, _, e) _ _ => forall m, e = Some m -> short m) k fs.
Proof.
intros ->. assert (Hs : forall t m, Storage.set_error (Some 256%nat) t = Some m -> short m).
{ intros t m [= <-]. unfold short. pose proof (snprintf_length 256 [Str t] ltac:(lia)). lia. }
unfold upload_stage_seal. apply wp_if; intros _; [by apply wp_ret|]. destruct (st_fp st) as [fp|]; [|apply wp_ret, Hs].
apply wp_bind, wp_intro. intros [r fp'] k1 fs1 _. apply wp_if; intros _; [apply wp_ret, Hs|].
apply wp_bind, wp_intro. intros r2 k2 fs2 _. apply wp_if; intros _; [apply wp_ret, Hs|by apply wp_ret].
Qed.

Lemma wp_seal_connection c k w (Q : Z * connection_info -> nat -> World -> Prop) :
  queue_ready (w_queue w) -> short (ci_response_message c) ->
  (forall c' k' w', sealed_in c c' w w' -> ci_response_status c' = HTTP_INTERNAL_SERVER_ERROR -> short (ci_response_message c') ->
     ci_file_saved c' = ci_file_saved c -> Q (-1, c') k' w') ->
  (forall c' k' w', sealed_in c c' w w' -> ci_file_saved c' = true ->
     ci_filename c' = take 511 (st_staging_path (ci_upload_stage c)) -> Q (0, c') k' w') ->
  wp (seal_uploaded_stage c) Q k w.
Proof.
intros Hq Hm HQ0 HQ1. unfold seal_uploaded_stage. apply wp_bind, wp_on_storage.
eapply wp_mono; [apply wp_and; [apply (seal_error_short _ _ _ _ eq_refl)|apply (wp_seal_names _ _ (fun '(_, st', _) _ fs' =>
  fs_names fs' = fs_names (queue_fs (w_queue w)) /\ st_staging_path st' = st_staging_path (ci_upload_stage c))); done]|].
intros [[r st] e] k1 fs1 [He [Hn Hp]]. cbv beta iota zeta.
assert (Hsealed : forall c', ci_upload_stage c' = st -> ci_target_ip c' = ci_target_ip c -> sealed_in c c' w (set_w_queue (set_queue_fs fs1 (w_queue w)) w)).
{ intros c' Hc1 Hc2. unfold sealed_in. rewrite Hc1. by repeat split; try apply Hq. }
apply wp_if; intros _; apply wp_ret.
- apply HQ0; [by apply Hsealed|done| |done]. destruct e as [m|]; [by apply He|done].
- apply HQ1; [by apply Hsealed|done|]. cbn [ci_filename with_saved with_stage ci_upload_stage].
  unfold snprintf. by rewrite sprintf_str, Hp.
Qed.

(** C10: what the last phase of a send does.  Either the file is queued: the
    port is the decimal form field, the target is a known, active and paired
    peer whose stored token is not expired, exactly the request for the staged
    file with that address and that token joins the queue at its end, the file
    is marked as the queue's, and the reply names the job.  Or the reply is an
    error, nothing joins the queue, and the file stays the connection's to
    remove. *)
Theorem send_correct c k w x c' k' w' :
  auth_good (w_auth w) -> reg_ready (w_registry w) -> queue_ready (w_queue w) -> queue_initialized (w_queue w) = true ->
  stage_path_ok (ci_upload_stage c) -> short (ci_response_message c) -> ci_file_saved c = false ->
  post_send c k w = ((x, c'), (k', w')) ->
  file_queued w (env_clock k) c x c' w' \/ nothing_queued w c x c' w'.
Proof.
intros Ha Hr Hq Hi Hst Hm Hsaved. to_wp. cbn [fst snd]. unfold post_send, queue_refusal.
assert (Hno : forall st msg c1 k1 w1, waiting (w_queue w1) = waiting (w_queue w) -> 400 <= st -> short msg -> ci_file_saved c1 = ci_file_saved c ->
  wp (reply <- queue_json_status_message st (lit "error") msg ;; ret (reply, c1))
    (fun y _ w' => file_queued w (env_clock k) c (fst y) (snd y) w' \/ nothing_queued w c (fst y) (snd y) w') k1 w1).
{ intros st msg c1 k1 w1 Hw Hs Hms Hsv. apply wp_bind, wp_refuse; [done..|]. intros x1 k2 Hx. apply wp_ret. right. by split. }
apply wp_if; intros Hst4; bool_prop; [by apply Hno|]. apply wp_if; intros Hprog; bool_prop; [by apply Hno|].
apply wp_bind, wp_target; [done|done| |].
- intros c1 k1 w1 st msg _ Hs1 Hw Hst1 E1 E2 Hms. cbv beta iota. reduce_tests. rewrite E1, E2. apply Hno; [by rewrite Hw|done..].
- intros port tok k1 w1 Hw Hport Htarget. cbv beta iota. reduce_tests. rewrite <- Hw in Hq, Hi.
  apply wp_bind, wp_seal_connection; [done|done| |].
  + intros c1 k2 w2 (Hw2 & _) E1 E2 Hs1. cbv beta iota. reduce_tests. rewrite E1. apply Hno; [congruence|done..].
  + intros c1 k2 w2 (Hw2 & Hq2 & Hi2 & _ & Hip) Hs1 Hf. cbv beta iota. reduce_tests. rewrite Hf, Hip.
    apply wp_bind, wp_zoom, enqueue_short; [done|congruence| |].
    * intros k3 q3 Hw3. cbv beta iota. reduce_tests. apply wp_bind, wp_on_storage, wp_intro. intros st k4 fs4 _.
      apply wp_bind, wp_refuse; [done..|]. intros x1 k5 Hx. apply wp_ret. right. split; [done|]. cbn [w_queue set_w_queue].
      rewrite waiting_fs. split; [congruence|]. cbn. congruence.
    * intros k3 id q3 Hid Hw3. rewrite accepted_take in Hw3. cbv beta iota. reduce_tests. cbn [default from_option].
      apply wp_bind, (wp_reply (RTransfer (lit "Transferencia enfileirada com sucesso") id)); [by split|]. intros x1 k4 Hx. apply wp_ret.
      left. exists id, tok, port. do 2 (split; [done|]). split; [cbn [w_queue set_w_queue]; congruence|]. by split.
Qed.
End Send.
