(* ===== verification/ServerUpload.v ===== *)
(** * ServerUpload: a whole upload over HTTP

    libmicrohttpd drives the upload page by one call that creates the
    connection, one per block of the body, one without data, and
    [request_completed].  When the body is one file, these calls together do
    what [receive] does. *)

From stdpp Require Import base numbers list strings gmap.
From Stdlib Require Import ZArith Lia Ascii.
From S2P Require Import Prelude Effects CLib Crypto JsonUtils JsonValue Storage StorageSpec Auth AuthSpec AuthTokens AuthLimiter AuthLife.
From S2P Require Import PeerRegistry PeerRegistrySpec TransferQueue TransferQueueSpec TransferQueueSystem Transfer TransferSpec Ui Server ServerReply ServerSpec ServerTheorems.

(** ** The texts of storage errors *)

Section Errors.
Context `{E : Env}.
Implicit Types (k : nat) (fs : FileSystem) (st : UploadStage).

Definition short_error (e : option cstring) : Prop := forall m, e = Some m -> short m.

Lemma set_error_short t : short_error (Storage.set_error (Some 256%nat) t).
Proof. intros m [= <-]. unfold short. pose proof (snprintf_length 256 [Str t] ltac:(lia)). lia. Qed.
Lemma no_error_short : short_error None.
Proof. done. Qed.
#[local] Hint Resolve set_error_short no_error_short : core.

Lemma open_error_short stage name k fs : wp (upload_stage_open stage name (Some 256%nat)) (fun x _ _ => short_error (snd x)) k fs.
Proof.
unfold upload_stage_open. apply wp_if; intros _; [by apply wp_ret; cbn [snd]|]. cbv zeta. apply wp_bind, wp_intro. intros [r tok] k1 fs1 _.
apply wp_if; intros _; [by apply wp_ret; cbn [snd]|]. apply wp_bind, wp_ask, wp_bind, wp_intro. intros fp k2 fs2 _.
destruct fp; by apply wp_ret; cbn [snd].
Qed.

Lemma write_error_short st data max k fs : wp (upload_stage_write st data max (Some 256%nat)) (fun x _ _ => short_error (snd x)) k fs.
Proof.
unfold upload_stage_write. destruct (st_fp st) as [fp|]; [|by apply wp_ret; cbn [snd]]. apply wp_if; intros _; [by apply wp_ret; cbn [snd]|].
apply wp_bind, wp_intro. intros [n fp'] k1 fs1 _. apply wp_if; intros _; by apply wp_ret; cbn [snd].
Qed.

Lemma commit_error_short st size k fs : wp (upload_stage_commit st size (Some 256%nat)) (fun x _ _ => short_error (snd (fst x))) k fs.
Proof.
unfold upload_stage_commit. apply wp_bind. eapply wp_mono; [by apply seal_error_short|]. intros [[r st1] e] k1 fs1 He.
apply wp_if; intros _; [by apply wp_ret; cbn [fst snd]|]. apply wp_bind, wp_ask. cbv zeta. apply wp_bind, wp_intro. intros r2 k2 fs2 _.
apply wp_if; intros _; by apply wp_ret; cbn [fst snd].
Qed.
End Errors.

(** ** The data of the body *)

Definition disk (w : World) : FileSystem := queue_fs (w_queue w).

(** The parser gives the pieces of one file. *)
Definition is_piece (name : cstring) (item : post_item) (d : cstring) : Prop :=
  it_key item = lit "file" /\ it_filename item = Some name /\ it_data item = Some d /\ it_size item = length d.

(** What does not change while data comes in. *)
Definition conn_kept c c' : Prop :=
  ci_client_ip c' = ci_client_ip c /\ ci_auth_checked c' = ci_auth_checked c /\
  ci_request_authorized c' = ci_request_authorized c /\ ci_file_saved c' = ci_file_saved c /\
  ci_postprocessor c' = ci_postprocessor c.

Section Pieces.
Context `{E : Env} {R : RandOk E} {T : ClockRange E}.
Implicit Types (k : nat) (w : World) (c : connection_info).

(** Where an upload is after some chunks of its file: nothing came yet, the
    file is open, or it failed. *)
Inductive receiving (fs0 : FileSystem) (chunks : list cstring) c (fs : FileSystem) : Prop :=
| RcvNothing : chunks = [] -> ci_upload_stage c = stage_zero -> ci_upload_in_progress c = false -> ci_response_status c < 400 -> fs = fs0 ->
    receiving fs0 chunks c fs
| RcvFile i : held fs0 (ci_upload_stage c) i (mjoin chunks) fs -> st_sealed (ci_upload_stage c) = false ->
    Z.of_nat (length (mjoin chunks)) <= MAX_FILE_SIZE -> ci_upload_in_progress c = true -> ci_response_status c < 400 ->
    receiving fs0 chunks c fs
| RcvFailed : 400 <= ci_response_status c -> refused fs0 chunks MAX_FILE_SIZE -> abandoned fs0 (ci_upload_stage c) fs ->
    receiving fs0 chunks c fs.

Definition received fs0 chunks c w : Prop := receiving fs0 chunks c (disk w) /\ short (ci_response_message c).

Lemma mjoin_snoc (chunks : list cstring) d : mjoin (chunks ++ [d]) = mjoin chunks ++ d.
Proof. induction chunks as [|x chunks IH]; [by simpl; rewrite app_nil_r|]. change (x ++ mjoin (chunks ++ [d]) = (x ++ mjoin chunks) ++ d). by rewrite IH, app_assoc. Qed.

Lemma refused_more fs chunks d max : refused fs chunks max -> refused fs (chunks ++ [d]) max.
Proof. intros [Hr|Hr]; [left; rewrite mjoin_snoc, length_app; lia|by right]. Qed.

(** Why opening fails. *)
Lemma open_refused fs chunks max :
  (exists j, env_rand j 8 = None \/ env_io j = false \/ fs_names fs !! STAGING_DIR <> Some Dir \/
     exists p, inside STAGING_DIR p /\ fs_names fs !! p = Some Dir) -> refused fs chunks max.
Proof.
unfold refused. intros (j & [Hj|[Hj|[Hj|(p & Hp)]]]); [right; left; exists j; by left|right; left; exists j; by right|tauto|].
do 4 right. exists STAGING_DIR, p. tauto.
Qed.

Lemma set_disk_kept fs w : w_auth (set_w_queue (set_queue_fs fs (w_queue w)) w) = w_auth w.
Proof. done. Qed.

(** One more chunk. *)
Lemma wp_write_ends fs0 chunks d st i k fs :
  held fs0 st i (mjoin chunks) fs -> st_sealed st = false -> Z.of_nat (length (mjoin chunks)) <= MAX_FILE_SIZE -> small d ->
  wp (upload_stage_write st d MAX_FILE_SIZE (Some 256%nat)) (fun '(r, st', _) _ fs' =>
    (r = -1 /\ refused fs0 (chunks ++ [d]) MAX_FILE_SIZE /\ owns fs0 st' i fs') \/
    (r = 0 /\ Z.of_nat (length (mjoin (chunks ++ [d]))) <= MAX_FILE_SIZE /\ held fs0 st' i (mjoin (chunks ++ [d])) fs' /\ st_sealed st' = false)) k fs.
Proof.
intros Hheld Hseal Hle Hsmall. apply (wp_write fs0 st i (mjoin chunks)); try done; rewrite ?mjoin_snoc.
- intros Hbig. left. split; [done|]. split; [left; by rewrite mjoin_snoc|apply Hheld].
- intros k' st' e [j Hj] Hown. left. split; [done|]. split; [|done]. right. left. exists j. by right.
- intros k' st' Hle' Hh Hs _ _. by right.
Qed.

(** The second half of the iterator. *)
Lemma wp_piece_write fs0 chunks d item i c k w (Q : connection_info -> nat -> World -> Prop) :
  it_data item = Some d -> it_size item = length d -> small d ->
  held fs0 (ci_upload_stage c) i (mjoin chunks) (disk w) -> st_sealed (ci_upload_stage c) = false ->
  Z.of_nat (length (mjoin chunks)) <= MAX_FILE_SIZE -> ci_upload_in_progress c = true -> ci_response_status c < 400 ->
  short (ci_response_message c) ->
  (forall c' k' w', w_auth w' = w_auth w -> conn_kept c c' -> received fs0 (chunks ++ [d]) c' w' -> Q c' k' w') ->
  wp (let st := ci_upload_stage c in
      if (match st_fp st with Some _ => true | None => st_sealed st end) && (0 <? it_size item)%nat
      then
        let* (r, st, error) := on_storage (upload_stage_write st (default [] (it_data item)) MAX_FILE_SIZE (Some 256%nat)) in
        let c := with_stage st (ci_upload_in_progress c) c in
        if negb (r =? 0) then
          let message := default (ci_response_message c) error in
          ret (with_response (match strstr message (lit "limite") with Some _ => HTTP_CONTENT_TOO_LARGE | None => HTTP_INTERNAL_SERVER_ERROR end)
                 message c)
        else ret c
      else ret c) Q k w.
Proof.
intros Hd Hn Hsmall Hheld Hseal Hle Hprog Hst Hm HQ. rewrite Hd, Hn. cbv zeta.
assert (Hfp : is_Some (st_fp (ci_upload_stage c))).
{ destruct Hheld as [_ [_ Hh]]. destruct (st_fp (ci_upload_stage c)); [done|]. destruct Hh as [Hs _]. congruence. }
destruct Hfp as [fp Hfp]. rewrite Hfp. cbn [andb default from_option id]. destruct (Nat.ltb_spec 0 (length d)) as [Hpos|Hz].
2: { assert (d = []) as -> by (destruct d; [done|simpl in Hz; lia]). apply wp_ret, HQ; [done|done|]. split; [|done].
     apply (RcvFile _ _ _ _ i); rewrite ?mjoin_snoc, ?app_nil_r; done. }
apply wp_bind, wp_on_storage. eapply wp_mono; [apply wp_and; [apply write_error_short|by apply (wp_write_ends fs0 chunks d _ i)]|].
intros [[r st'] e] k1 fs1 [He Hends]. cbn [snd] in He. cbv beta iota.
assert (Hshort : short (default (ci_response_message c) e)) by (destruct e as [m|]; [by apply He|done]).
apply wp_if; intros Hr; bool_prop; apply wp_ret, HQ; try done; (split; [|done]); destruct Hends as [(-> & Hwhy & Hown)|(-> & Hle' & Hh & Hs)]; try done.
- apply RcvFailed; cbn [ci_response_status with_response]; [case_match; unfold HTTP_CONTENT_TOO_LARGE, HTTP_INTERNAL_SERVER_ERROR; lia|done|]. left. by exists i.
- by apply (RcvFile _ _ _ _ i).
Qed.

Lemma wp_open_ends fs0 name k : fs_inv fs0 ->
  wp (upload_stage_open true name (Some 256%nat)) (fun '(r, st, _) _ fs =>
    (r = -1 /\ (forall chunks, refused fs0 chunks MAX_FILE_SIZE) /\ abandoned fs0 st fs) \/
    (r = 0 /\ exists i, held fs0 st i [] fs /\ st_sealed st = false)) k fs0.
Proof.
intros Hfs. apply wp_open; [done| |].
- intros k' st e Hf Hp Hwhy. left. split; [done|]. split; [intros chunks; by apply open_refused|]. by right.
- intros k' st i fs' Hh Hs _. right. split; [done|]. by exists i.
Qed.

(** One call of the iterator. *)
Lemma wp_piece fs0 name chunks d item c k w (Q : connection_info -> nat -> World -> Prop) :
  fs_inv fs0 -> is_piece name item d -> small d -> received fs0 chunks c w ->
  (forall c' k' w', w_auth w' = w_auth w -> conn_kept c c' -> received fs0 (chunks ++ [d]) c' w' -> Q c' k' w') ->
  wp (iterate_post item c) Q k w.
Proof.
intros Hfs (Hkey & Hname & Hd & Hn) Hsmall [Hr Hm] HQ. unfold iterate_post. apply wp_if; intros Hst; bool_prop.
{ apply wp_ret, HQ; [done|done|]. split; [|done]. destruct Hr; [lia|lia|]. by apply RcvFailed; [|apply refused_more|]. }
rewrite Hkey. replace (strcmp (lit "file") (lit "file") =? 0) with true by reflexivity. unfold iterate_file. rewrite Hname. apply wp_bind.
destruct Hr as [-> Hstage Hprog _ Hfs0|i Hheld Hseal Hle Hprog _|]; [| |lia].
- rewrite Hstage. cbn [st_fp st_sealed stage_zero]. apply wp_bind, wp_on_storage. fold (disk w). rewrite Hfs0.
  eapply wp_mono; [apply wp_and; [apply open_error_short|by apply wp_open_ends]|]. intros [[r st] e] k1 fs1 [He Hends]. cbn [snd] in He. cbv beta iota.
  apply wp_if; intros Hr; bool_prop; apply wp_ret; cbv beta iota; cbn [negb]; destruct Hends as [(-> & Hwhy & Hab)|(-> & i & Hh & Hs)]; try done.
  + apply wp_ret, HQ; [done|done|]. split; [by apply RcvFailed|]. cbn [ci_response_message with_response]. destruct e as [m|]; [by apply He|done].
  + by apply (wp_piece_write fs0 [] d item i).
- assert (Hfp : is_Some (st_fp (ci_upload_stage c))).
  { destruct Hheld as [_ [_ Hh]]. destruct (st_fp (ci_upload_stage c)); [done|]. destruct Hh as [Hs _]. congruence. }
  destruct Hfp as [fp Hfp]. rewrite Hfp. apply wp_ret. cbv beta iota. cbn [negb]. by apply (wp_piece_write fs0 chunks d item i).
Qed.

Lemma conn_kept_trans c1 c2 c3 : conn_kept c1 c2 -> conn_kept c2 c3 -> conn_kept c1 c3.
Proof. unfold conn_kept. intros (? & ? & ? & ? & ?) (? & ? & ? & ? & ?). split_and!; congruence. Qed.

Lemma wp_pieces fs0 name chunks items ds c k w (Q : connection_info -> nat -> World -> Prop) :
  fs_inv fs0 -> Forall2 (is_piece name) items ds -> Forall small ds -> received fs0 chunks c w ->
  (forall c' k' w', w_auth w' = w_auth w -> conn_kept c c' -> received fs0 (chunks ++ ds) c' w' -> Q c' k' w') ->
  wp (iterate_items items c) Q k w.
Proof.
intros Hfs Hitems. revert chunks c k w Q. induction Hitems as [|item d items ds Hitem Hitems IH]; intros chunks c k w Q Hsmall Hr HQ; cbn [iterate_items].
- apply wp_ret, HQ; [done|done|]. by rewrite app_nil_r.
- apply Forall_cons_1 in Hsmall as [Hd Hsmall]. apply wp_bind, (wp_piece fs0 name chunks d); [done..|]. intros c1 k1 w1 Ha1 Hk1 Hr1.
  apply (IH (chunks ++ [d])); [done|done|]. intros c2 k2 w2 Ha2 Hk2 Hr2. apply HQ; [congruence|by eapply conn_kept_trans|].
  by rewrite <- app_assoc in Hr2.
Qed.
End Pieces.

(** ** The credential *)

Section Credential.
Context `{E : Env} {R : RandOk E} {T : ClockRange E} {MO : ClockMono E} {L : LocksOk E} `{C : Curl} `{I : Inet} `{H : Host}.
Context (connection : Connection) (Hconn : connection_ok connection).
Implicit Types (k : nat) (w : World) (c : connection_info).

Lemma ui_open_earlier t t' w : t <= t' -> ui_open connection t' w -> ui_open connection t w.
Proof. intros Ht (tok & Htok & i & x & Hx & Hl & Hm). exists tok. split; [done|]. exists i, x. split; [done|]. split; [by eapply live_later|done]. Qed.
Lemma peer_open_earlier t t' w : t <= t' -> peer_open connection t' w -> peer_open connection t w.
Proof. intros Ht (tok & Htok & i & x & Hx & Hl & Hm). exists tok. split; [done|]. exists i, x. split; [done|]. split; [by eapply live_later|done]. Qed.

(** Only auth.c is asked. *)
Definition auth_only {A} (m : M World A) : Prop := forall k w, wp m (fun _ _ w' => exists s, w' = set_w_auth s w) k w.

Lemma auth_only_ret {A} (a : A) : auth_only (ret a).
Proof. intros k w. apply wp_ret. exists (w_auth w). by destruct w. Qed.
Lemma auth_only_ask {A} (f : nat -> A) : auth_only (ask f).
Proof. intros k w. apply wp_ask. exists (w_auth w). by destruct w. Qed.
Lemma auth_only_call {A} (m : M AuthState A) : auth_only (on_auth m).
Proof. intros k w. apply wp_zoom, wp_intro. intros a k' s _. by exists s. Qed.
Lemma auth_only_bind {A B} (m : M World A) (f : A -> M World B) : auth_only m -> (forall a, auth_only (f a)) -> auth_only (bind m f).
Proof.
intros Hm Hf k w. apply wp_bind. eapply wp_mono; [apply Hm|]. intros a k1 w1 [s1 ->]. eapply wp_mono; [apply Hf|].
intros b k2 w2 [s2 ->]. by exists s2.
Qed.
#[local] Hint Resolve auth_only_ret auth_only_ask auth_only_call : core.

Lemma authorize_only_auth c : auth_only (authorize_upload_request connection c).
Proof.
unfold authorize_upload_request, rate_limit_request. cbv zeta. case_match; [|done].
repeat first [solve [auto] | apply auth_only_bind; [|intros ?] | case_match].
Qed.

(** The request carries a valid token, which is not the empty text. *)
Definition token_shown (t : Z) w : Prop := peer_open connection t w /\ cn_header connection PAIR_TOKEN_HEADER <> Some [].

(** A token is accepted exactly when it is valid, up to the time of the call. *)
Lemma wp_ask_peer_exact k0 w0 k w (Q : Z -> nat -> World -> Prop) : (k0 <= k)%nat ->
  auth_ready (w_auth w) -> peer_tokens (w_auth w) = peer_tokens (w_auth w0) ->
  (forall r k' w', (r = 0 -> peer_open connection (env_clock k0) w0) -> (token_shown (env_clock k') w0 -> r = 0) -> Q r k' w') ->
  wp (match cn_header connection PAIR_TOKEN_HEADER with
      | Some _ => on_auth (auth_validate_peer_token (Some (client_text connection)) (cn_header connection PAIR_TOKEN_HEADER))
      | None => ret (-1)
      end) Q k w.
Proof.
intros Hk Ha Hp HQ. destruct Hconn as [[Hc _] Hh]. unfold token_shown, peer_open in HQ.
destruct (cn_header connection PAIR_TOKEN_HEADER) as [tok|] eqn:Htok.
2: { apply wp_ret, HQ; [done|]. by intros [(tok & ? & _) _]. }
apply wp_zoom. destruct (decide (tok = [])) as [->|Hne].
{ unfold wp. rewrite (proj2 (validate_empty _ k (w_auth w) (proj2 Ha))). apply HQ; [done|].
  by intros [_ Hn]. }
apply wp_validate_peer; [done..| |]; [intros Hn; by rewrite lock_ok in Hn|].
intros r k1 s1 _ Hsc. destruct (pt_scan_result _ _ _ _ _ _ _ (proj1 Ha) Hc (Hh _ _ Htok) Hsc) as [H1 H2]. apply HQ.
- intros Hr. exists tok. split; [done|]. destruct (H1 Hr) as (i & x & Hx & Hl & Hm). exists i, x. rewrite <- Hp. split; [done|]. split; [|done].
  eapply live_later; [|exact Hl]. apply clock_mono. lia.
- intros [(tok' & [= <-] & i & x & Hx & Hm) _]. apply H2. exists i, x. by rewrite Hp.
Qed.

(** What the first call with data decides: the connection is let in, or it is
    refused because of the rate or for lack of a credential. *)
Definition let_in c k w c' : Prop :=
  c' = with_auth true true c /\ (ui_open connection (env_clock k) w \/ peer_open connection (env_clock k) w).
Definition kept_out c k' w c' : Prop := exists st m, c' = set_error (with_auth true false c) st m /\
  (st = HTTP_TOO_MANY_REQUESTS \/ (st = HTTP_UNAUTHORIZED /\ ~ token_shown (env_clock k') w)).

Lemma wp_first_data c k w (Q : Z * connection_info -> nat -> World -> Prop) :
  auth_ready (w_auth w) -> ci_client_ip c = client_text connection -> ci_auth_checked c = false -> ci_request_authorized c = false ->
  (forall c' k' w', (exists s, w' = set_w_auth s w) -> let_in c k w c' -> Q (0, c') k' w') ->
  (forall c' k' w', (exists s, w' = set_w_auth s w) -> kept_out c k' w c' -> Q (-1, c') k' w') ->
  wp (authorize_upload_request connection c) Q k w.
Proof.
intros Ha Hip Hch Hau HQ0 HQ1.
apply wp_mono with (fun x k' w' => (exists s, w' = set_w_auth s w) /\ (fst x = 0 /\ let_in c k w (snd x) \/ fst x = -1 /\ kept_out c k' w (snd x))).
2: { intros [r c'] k' w' [Hs [[Hr Hc]|[Hr Hc]]]; cbn [fst snd] in *; subst r; auto. }
apply wp_and; [apply authorize_only_auth|]. unfold authorize_upload_request. rewrite Hch, Hau. cbn [negb]. cbv zeta.
apply wp_bind, (wp_rate_limit connection Hconn); [done|done| | |].
{ split; [by apply (bool_decide_eq_true_1 _); vm_compute|]. split; [simpl; lia|lia]. }
2: { intros k1 w1 m _. cbv beta iota. reduce_tests. apply wp_ret. right. split; [done|]. exists HTTP_TOO_MANY_REQUESTS, m. split; [done|by left]. }
intros k1 w1 Hk _ Ha1 Hu Hp. cbv beta iota. reduce_tests. cbn [ci_client_ip with_auth]. rewrite Hip.
apply wp_bind, (wp_ask_session connection Hconn _ k1 k w w1); [done..|]. intros r k2 w2 _ Hk2 Ha2 Hp2 Hv.
apply wp_if; intros Hr; bool_prop; [apply wp_ret; left; split; [done|]; split; [done|left; by apply Hv]|].
apply wp_bind, (wp_ask_peer_exact k w); [lia|done|done|]. intros r3 k3 w3 Hv3 Hv4.
apply wp_if; intros Hr3; bool_prop; apply wp_ret; [left; split; [done|]; split; [done|right; by apply Hv3]|].
right. split; [done|]. eexists HTTP_UNAUTHORIZED, _. split; [reflexivity|]. right. split; [done|]. intros Hs. by apply Hr3, Hv4.
Qed.
End Credential.

(** ** The connection *)

(** How libmicrohttpd drives a request whose body comes in these blocks. *)
Section Drive.
Context `{E : Env} `{C : Curl} `{I : Inet} `{H : Host}.
Context (connection : Connection) (url method : cstring).

Fixpoint feed (blocks : list (list ascii)) (con_cls : option connection_info) : M World (option connection_info) :=
  match blocks with
  | [] => ret con_cls
  | data :: blocks' =>
      a <- answer_to_connection connection url method data con_cls ;;
      feed blocks' (an_con_cls a)
  end.

Definition serve (blocks : list (list ascii)) : M World reply :=
  a <- answer_to_connection connection url method [] None ;;
  match an_con_cls a with
  | None => ret (an_reply a)
  | Some c =>
      con_cls <- feed blocks (Some c) ;;
      a <- answer_to_connection connection url method [] con_cls ;;
      request_completed (an_con_cls a) ;;
      ret (an_reply a)
  end.
End Drive.

(** The blocks are the body of one file, which the parser cuts into the
    chunks. *)
Inductive file_body `{H : Host} (name : cstring) : list (list ascii) -> list (list ascii) -> list cstring -> Prop :=
| BodyEnd before : file_body name before [] []
| BodyBlock before data items ds blocks chunks : data <> [] -> post_process before data = (items, true) ->
    Forall2 (is_piece name) items ds -> Forall small ds -> file_body name (before ++ [data]) blocks chunks ->
    file_body name before (data :: blocks) (ds ++ chunks).

Section Session.
Context `{E : Env} {R : RandOk E} {T : ClockRange E} {MO : ClockMono E} {L : LocksOk E} `{C : Curl} `{I : Inet} `{H : Host}.
Context (connection : Connection) (Hconn : connection_ok connection).
Context (k0 : nat) (w0 : World) (Ha : auth_ready (w_auth w0)) (Hfs : fs_inv (disk w0)) (name : cstring).
Implicit Types (k : nat) (w : World) (c : connection_info).

Definition credential : Prop := ui_open connection (env_clock k0) w0 \/ peer_open connection (env_clock k0) w0.

(** Why the connection was kept out. *)
Definition denied (st : Z) k : Prop :=
  st = HTTP_TOO_MANY_REQUESTS \/ (st = HTTP_UNAUTHORIZED /\ exists j, (j <= k)%nat /\ ~ token_shown connection (env_clock j) w0).

(** The connection between two calls. *)
Inductive upload_state (before : list (list ascii)) (chunks : list cstring) c k w : Prop :=
| UsFresh : before = [] -> chunks = [] -> c = with_postprocessor (Some []) (connection_new (client_text connection)) -> (k0 <= k)%nat -> w = w0 ->
    upload_state before chunks c k w
| UsIn : ci_auth_checked c = true -> ci_request_authorized c = true -> ci_file_saved c = false -> ci_postprocessor c = Some before ->
    credential -> received (disk w0) chunks c w -> upload_state before chunks c k w
| UsOut : ci_auth_checked c = true -> ci_request_authorized c = false -> ci_file_saved c = false ->
    ci_upload_stage c = stage_zero -> disk w = disk w0 -> denied (ci_response_status c) k -> short (ci_response_message c) ->
    upload_state before chunks c k w.

Lemma answer_upload data c :
  answer_to_connection connection (lit "/upload") (lit "POST") data (Some c) =
  posted (authorized_data (authorize_upload_request connection) (lit "Falha ao processar os dados do upload")) post_upload data c.
Proof. reflexivity. Qed.

(** A block of a connection that was let in. *)
Lemma wp_block_in before chunks data items ds c k w failure (Q : connection_info -> nat -> World -> Prop) :
  post_process before data = (items, true) -> Forall2 (is_piece name) items ds -> Forall small ds ->
  ci_auth_checked c = true -> ci_request_authorized c = true -> ci_file_saved c = false -> ci_postprocessor c = Some before ->
  credential -> received (disk w0) chunks c w ->
  (forall c' k' w', upload_state (before ++ [data]) (chunks ++ ds) c' k' w' -> Q c' k' w') ->
  wp (process_data data failure c) Q k w.
Proof.
intros Hpp Hitems Hsmall H1 H2 H3 H4 Hcr Hr HQ. unfold process_data, MHD_post_process. rewrite H4, Hpp.
apply wp_bind, wp_bind, (wp_pieces (disk w0) name chunks items ds); [done..| |].
{ destruct Hr as [Hr Hm]. split; [|done]. destruct Hr; [by apply RcvNothing|by apply (RcvFile _ _ _ _ i)|by apply RcvFailed]. }
intros c' k' w' _ (_ & K1 & K2 & K3 & K4) Hr'. apply wp_ret. cbv beta iota. cbn [negb andb]. apply wp_ret, HQ.
apply UsIn; [by rewrite K1|by rewrite K2|by rewrite K3|by rewrite K4|done|done].
Qed.

Lemma wp_block before chunks data items ds c k w (Q : answer -> nat -> World -> Prop) :
  data <> [] -> post_process before data = (items, true) -> Forall2 (is_piece name) items ds -> Forall small ds ->
  upload_state before chunks c k w ->
  (forall c' a k' w', an_con_cls a = Some c' -> upload_state (before ++ [data]) (chunks ++ ds) c' k' w' -> Q a k' w') ->
  wp (answer_to_connection connection (lit "/upload") (lit "POST") data (Some c)) Q k w.
Proof.
intros Hne Hpp Hitems Hsmall Hs HQ. rewrite answer_upload. unfold posted. destruct data as [|x data]; [done|]. cbn [length Nat.eqb negb].
apply wp_bind. unfold authorized_data. apply wp_bind.
assert (Hin : forall c1 k1 w1, ci_auth_checked c1 = true -> ci_request_authorized c1 = true -> ci_file_saved c1 = false ->
  ci_postprocessor c1 = Some before -> credential -> received (disk w0) chunks c1 w1 ->
  wp (process_data (x :: data) (lit "Falha ao processar os dados do upload") c1)
    (fun c2 => wp (ret {| an_reply := MHD_YES; an_con_cls := Some c2; an_upload_data_size := 0 |}) Q) k1 w1).
{ intros c1 k1 w1 H1 H2 H3 H4 Hcr Hr. apply (wp_block_in before chunks (x :: data) items ds); try done.
  intros c2 k2 w2 Hs2. by eapply wp_ret, HQ. }
destruct Hs as [-> -> Hc Hk ->|H1 H2 H3 H4 Hcr Hr|H1 H2 H3 H4 Hd Hden Hm].
- subst c. apply (wp_first_data connection Hconn); [done..| |].
  + intros c' k' w' [s ->] [-> Hcr]. cbv beta iota. reduce_tests. apply Hin; [done..| |].
    * destruct Hcr as [Hcr|Hcr]; [left; eapply ui_open_earlier|right; eapply peer_open_earlier]; try exact Hcr; by apply clock_mono.
    * split; [by apply RcvNothing|by vm_compute].
  + intros c' k' w' [s ->] (st & m & -> & Hwhy). cbv beta iota. reduce_tests. eapply wp_ret, wp_ret, HQ; [done|].
    apply UsOut; [done..| |].
    * destruct Hwhy as [Hst|[Hst Hn]]; [by left|right]. split; [done|]. by exists k'.
    * unfold short, set_error. cbn [ci_response_message with_response]. pose proof (snprintf_length 256 [Str (default (lit "Erro") m)] ltac:(lia)). lia.
- unfold authorize_upload_request. rewrite H1, H2. cbn [negb]. apply wp_ret. cbv beta iota. reduce_tests. by apply Hin.
- unfold authorize_upload_request. rewrite H1, H2. cbn [negb]. apply wp_ret. cbv beta iota. reduce_tests. eapply wp_ret, wp_ret, HQ; [done|].
  by apply UsOut.
Qed.

Lemma wp_feed before blocks chunks more c k w (Q : option connection_info -> nat -> World -> Prop) :
  file_body name before blocks more -> upload_state before chunks c k w ->
  (forall c' k' w' before', upload_state before' (chunks ++ more) c' k' w' -> Q (Some c') k' w') ->
  wp (feed connection (lit "/upload") (lit "POST") blocks (Some c)) Q k w.
Proof.
intros Hb. revert chunks c k w. induction Hb as [before|before data items ds blocks more Hne Hpp Hitems Hsmall Hb IH]; intros chunks c k w Hs HQ; cbn [feed].
- eapply wp_ret, HQ. rewrite app_nil_r. exact Hs.
- eapply wp_bind, wp_block; [done..|]. intros c' a k' w' -> Hs'. eapply IH; [exact Hs'|]. intros c2 k2 w2 before2. rewrite <- app_assoc. apply HQ.
Qed.

(** What the upload comes to. *)
Definition upload_refused (st : Z) (x : reply) : Prop := exists msg, answers st (reply_value (RStatus st (lit "error") msg)) x.

Definition upload_done (chunks : list cstring) (x : reply) k w : Prop :=
  answers HTTP_OK (reply_value (RStatus HTTP_OK (lit "ok") (lit "Arquivo recebido com sucesso"))) x /\ credential /\
  Z.of_nat (length (mjoin chunks)) <= MAX_FILE_SIZE /\ exists path, delivered (disk w0) (mjoin chunks) path (disk w).
Definition upload_failed (chunks : list cstring) (x : reply) w : Prop :=
  refused_reply x /\ (chunks = [] \/ refused (disk w0) chunks MAX_FILE_SIZE) /\ undone (disk w0) (disk w).
Definition upload_denied (x : reply) k w : Prop := exists st, upload_refused st x /\ denied st k /\ disk w = disk w0.

Definition upload_outcome (chunks : list cstring) (x : reply) k w : Prop :=
  upload_done chunks x k w \/ upload_failed chunks x w \/ upload_denied x k w.

(** Ending a connection whose file is not delivered. *)
Lemma wp_complete_undone c k w (Q : unit -> nat -> World -> Prop) : ci_file_saved c = false -> abandoned (disk w0) (ci_upload_stage c) (disk w) ->
  (forall k' w', undone (disk w0) (disk w') -> Q tt k' w') -> wp (request_completed (Some c)) Q k w.
Proof.
intros Hs Hab HQ. unfold request_completed. rewrite Hs. cbn [negb]. apply wp_bind, wp_on_storage, (wp_abandon_stage (disk w0)); [done|].
intros k' fs' Hu. by apply wp_ret, HQ.
Qed.

(** The commit, seen from the connection. *)
Lemma wp_commit_connection chunks i c k w (Q : Z * connection_info -> nat -> World -> Prop) :
  held (disk w0) (ci_upload_stage c) i (mjoin chunks) (disk w) -> ci_file_saved c = false -> short (ci_response_message c) ->
  (forall c' k' w', ci_file_saved c' = false -> abandoned (disk w0) (ci_upload_stage c') (disk w') -> refused (disk w0) chunks MAX_FILE_SIZE ->
     ci_response_status c' = HTTP_INTERNAL_SERVER_ERROR -> short (ci_response_message c') -> Q (-1, c') k' w') ->
  (forall c' k' w' path, ci_file_saved c' = true -> delivered (disk w0) (mjoin chunks) path (disk w') -> Q (0, c') k' w') ->
  wp (commit_uploaded_file c) Q k w.
Proof.
intros Hheld Hs Hm HQ1 HQ0. unfold commit_uploaded_file. apply wp_bind, wp_on_storage.
eapply wp_mono; [apply wp_and; [apply commit_error_short|apply (wp_commit (disk w0) _ i (mjoin chunks) _ (fun '(r, st, _, path) _ fs =>
  (r = -1 /\ refused (disk w0) chunks MAX_FILE_SIZE /\ owns (disk w0) st i fs) \/
  (r = 0 /\ exists path, delivered (disk w0) (mjoin chunks) path fs))); [done| |]]|].
- intros k' st e fs' Hwhy Hown. left. split; [done|]. split; [|done].
  destruct Hwhy as (j & [Hj|[Hj|(p & Hp)]]); unfold refused; [right; left; exists j; by right|tauto|]. do 4 right. exists DOWNLOADS_DIR, p. tauto.
- intros k' st j fs' path Hcom _ _. right. split; [done|]. exists path. eapply committed_delivered; [|exact Hcom]. apply Hheld.
- intros [[[r st] e] path] k1 fs1 [He Hends]. cbn [fst snd] in He. cbv beta iota zeta.
  apply wp_if; intros Hr; bool_prop; apply wp_ret; destruct Hends as [(-> & Hwhy & Hown)|(-> & p & Hd)]; try done.
  + apply HQ1; [done|left; by exists i|done|done|]. cbn [ci_response_message with_response]. destruct e as [m|]; [by apply He|done].
  + by apply (HQ0 _ _ _ p).
Qed.

Lemma wp_error st msg k w (Q : reply -> nat -> World -> Prop) : short msg ->
  (forall x k', (k <= k')%nat -> upload_refused st x -> Q x k' w) -> wp (queue_json_status_message st (lit "error") msg) Q k w.
Proof.
intros Hm HQ. eapply wp_mono; [apply wp_and; [apply status_replies|apply (wp_reply (RStatus st (lit "error") msg) _ _ (fun x _ _ => upload_refused st x)); [by split|]]|].
- intros x k' Hx. by exists msg.
- intros x k' w' [[Hk ->] Hx]. by apply HQ.
Qed.

Lemma refused_is st x : 400 <= st -> upload_refused st x -> refused_reply x.
Proof. intros Hst [msg Hx]. by exists st, msg. Qed.

Definition last_call c : M World reply :=
  a <- answer_to_connection connection (lit "/upload") (lit "POST") [] (Some c) ;;
  request_completed (an_con_cls a) ;;
  ret (an_reply a).

(** The last call is [post_upload], then the connection is closed. *)
Lemma wp_last_call c k w (Q : reply -> nat -> World -> Prop) :
  wp (post_upload c) (fun x k' w' => wp (request_completed (Some (snd x))) (fun _ k'' w'' => Q (fst x) k'' w'') k' w') k w ->
  wp (last_call c) Q k w.
Proof.
intros Hw. unfold last_call. rewrite answer_upload. unfold posted. cbn [length Nat.eqb negb]. apply wp_bind, wp_bind.
eapply wp_mono; [exact Hw|]. intros [x c'] k' w' Hc. apply wp_ret. cbn [an_con_cls an_reply]. apply wp_bind.
eapply wp_mono; [exact Hc|]. intros [] k2 w2 HQ. by apply wp_ret.
Qed.

(** A refusal, and then the file of the stage is gone. *)
Lemma wp_refusal_ends st msg c k w (Q : reply -> nat -> World -> Prop) : 400 <= st -> short msg ->
  ci_file_saved c = false -> abandoned (disk w0) (ci_upload_stage c) (disk w) ->
  (forall x k' w', refused_reply x -> undone (disk w0) (disk w') -> Q x k' w') ->
  wp (reply <- queue_json_status_message st (lit "error") msg ;; ret (reply, c))
    (fun x k' w' => wp (request_completed (Some (snd x))) (fun _ k'' w'' => Q (fst x) k'' w'') k' w') k w.
Proof.
intros Hst Hm Hs Hab HQ. apply wp_bind, wp_error; [done|]. intros x k' _ Hx. apply wp_ret. cbn [fst snd].
apply wp_complete_undone; [done..|]. intros k2 w2 Hu. apply HQ; [by eapply refused_is|done].
Qed.

Lemma wp_last_in chunks c k w (Q : reply -> nat -> World -> Prop) :
  ci_file_saved c = false -> credential -> received (disk w0) chunks c w ->
  (forall x k' w', upload_outcome chunks x k' w' -> Q x k' w') -> wp (last_call c) Q k w.
Proof.
intros Hsaved Hcr [Hr Hm] HQ. apply wp_last_call. unfold post_upload.
assert (Hfail : forall x k' w', chunks = [] \/ refused (disk w0) chunks MAX_FILE_SIZE -> refused_reply x -> undone (disk w0) (disk w') -> Q x k' w').
{ intros x k' w' Hwhy Hx Hu. apply HQ. right. left. by split_and!. }
destruct Hr as [Hchunks Hstage Hprog Hst Hd|i Hheld Hseal Hle Hprog Hst|Hst Hwhy Hab].
- destruct (Z.leb_spec 400 (ci_response_status c)); [lia|]. rewrite Hprog. cbn [negb].
  apply wp_refusal_ends; [done|done|done|rewrite Hstage; by right|]. intros; by apply Hfail; auto.
- destruct (Z.leb_spec 400 (ci_response_status c)); [lia|]. rewrite Hprog. cbn [negb].
  apply wp_bind, (wp_commit_connection chunks i); [done..| |].
  + intros c' k' w' Hs' Hab Hwhy Hst' Hm'. cbv beta iota. reduce_tests. unfold queue_refusal. rewrite Hst'.
    apply wp_refusal_ends; [done..|]. intros; apply Hfail; auto.
  + intros c' k' w' path Hs' Hd. cbv beta iota. reduce_tests.
    apply wp_bind, (wp_reply (RStatus HTTP_OK (lit "ok") (lit "Arquivo recebido com sucesso"))); [by split|].
    intros x k2 Hx. apply wp_ret. cbn [fst snd]. unfold request_completed. rewrite Hs'. cbn [negb]. apply wp_ret, HQ. left.
    split; [done|]. split; [done|]. split; [done|]. by exists path.
- destruct (Z.leb_spec 400 (ci_response_status c)); [|lia]. unfold queue_refusal. apply wp_refusal_ends; [done..|]. intros; apply Hfail; auto.
Qed.

Lemma denied_later st k k' : (k <= k')%nat -> denied st k -> denied st k'.
Proof. intros Hk [Hst|(Hst & j & Hj & Hn)]; [by left|right]. split; [done|]. exists j. split; [lia|done]. Qed.

Lemma denied_error st k : denied st k -> 400 <= st.
Proof. unfold denied, HTTP_TOO_MANY_REQUESTS, HTTP_UNAUTHORIZED. lia. Qed.

Lemma wp_last before chunks c k w (Q : reply -> nat -> World -> Prop) : upload_state before chunks c k w ->
  (forall x k' w', upload_outcome chunks x k' w' -> Q x k' w') -> wp (last_call c) Q k w.
Proof.
intros Hs HQ. destruct Hs as [-> -> -> Hk ->|H1 H2 H3 H4 Hcr Hr|H1 H2 H3 H4 Hd Hden Hm].
- apply wp_last_call. unfold post_upload. cbn [ci_response_status ci_upload_in_progress connection_new with_postprocessor]. reduce_tests.
  apply wp_refusal_ends; [done..|by right|]. intros x k' w' Hx Hu. apply HQ. right. left. split; [done|]. split; [by left|done].
- by apply (wp_last_in chunks).
- apply wp_last_call. unfold post_upload, queue_refusal. pose proof (denied_error _ _ Hden) as Hge.
  destruct (Z.leb_spec 400 (ci_response_status c)); [|lia]. apply wp_bind, wp_error; [done|]. intros x k' Hk' Hx. apply wp_ret. cbn [fst snd].
  unfold request_completed. rewrite H3, H4. cbn [negb]. apply wp_bind, wp_on_storage. unfold upload_stage_abort. cbn [st_fp st_staging_path stage_zero].
  apply wp_bind, wp_ret, wp_bind, wp_ret, wp_ret, wp_ret, HQ. right. right. exists (ci_response_status c). split; [done|].
  split; [by eapply denied_later|]. exact Hd.
Qed.

Lemma wp_new_upload k w (Q : answer -> nat -> World -> Prop) :
  (forall k', Q {| an_reply := MHD_NO; an_con_cls := None; an_upload_data_size := 0 |} k' w) ->
  (forall k', (k <= k')%nat -> Q {| an_reply := MHD_YES; an_con_cls := Some (with_postprocessor (Some []) (connection_new (client_text connection)));
                   an_upload_data_size := 0 |} k' w) ->
  wp (answer_to_connection connection (lit "/upload") (lit "POST") [] None) Q k w.
Proof.
intros H0 H1. unfold answer_to_connection, new_connection. cbn [length]. apply wp_bind, wp_ask, wp_if; intros _; [by apply wp_ret|].
replace (strcmp (lit "POST") (lit "POST") =? 0) with true by reflexivity. apply wp_if; intros _; apply wp_ret; [apply H1; lia|apply H0].
Qed.

Lemma wp_serve_upload blocks chunks (Q : reply -> nat -> World -> Prop) : file_body name [] blocks chunks ->
  (forall x k' w', upload_outcome chunks x k' w' -> Q x k' w') -> (forall k', Q MHD_NO k' w0) ->
  wp (serve connection (lit "/upload") (lit "POST") blocks) Q k0 w0.
Proof.
intros Hb H1 H0. unfold serve. apply wp_bind, wp_new_upload; cbn [an_con_cls an_reply]; [intros k1; by apply wp_ret|].
intros k1 Hk1. apply wp_bind, (wp_feed [] blocks [] chunks); [done|by apply UsFresh|]. intros c k2 w2 before Hs. by apply (wp_last before chunks c).
Qed.
End Session.

(** C5: a whole upload over HTTP.  When the body of a request to the upload page
    is one file, in blocks and chunks of any size, the calls libmicrohttpd makes
    for it, from the one that creates the connection to [request_completed],
    come to one of four ends.  The file is delivered: a credential was shown,
    it is within the limit, a new file of the downloads directory holds exactly
    the chunks in order, nothing else changed, and the reply says so.  The
    upload failed, for a stated reason, with an error, and left at most a
    staging file, and that only when the system refused an operation.  The
    connection was kept out, because of its rate or for lack of a credential,
    and no file changed.  Or there was no memory for the connection, and
    nothing happened. *)
Theorem upload_page_correct `{E : Env} (R : RandOk E) (T : ClockRange E) (MO : ClockMono E) (L : LocksOk E) `{C : Curl} `{I : Inet} `{H : Host}
    connection name blocks chunks k w x k' w' :
  connection_ok connection -> auth_ready (w_auth w) -> fs_inv (disk w) -> file_body name [] blocks chunks ->
  serve connection (lit "/upload") (lit "POST") blocks k w = (x, (k', w')) ->
  upload_outcome connection k w chunks x k' w' \/ (x = MHD_NO /\ w' = w).
Proof.
intros Hconn Ha Hfs Hb. to_wp. apply (wp_serve_upload connection Hconn k w Ha Hfs name blocks chunks); [done|by left|by right].
Qed.
