(* ===== verification/ServerInvariant.v ===== *)
(** * ServerInvariant: no request puts the tables of the server out of order

    Every handler, and so every call libmicrohttpd makes, keeps the tables of
    the modules it calls well formed, their locks free and the administrative
    code as it is. *)

From stdpp Require Import base numbers list strings gmap.
From Stdlib Require Import ZArith Lia Ascii.
From S2P Require Import Prelude Effects CLib Crypto JsonUtils JsonValue Storage StorageSpec Auth AuthSpec AuthTokens AuthLimiter AuthLife.
From S2P Require Import PeerRegistry PeerRegistrySpec TransferQueue TransferQueueSpec TransferQueueSystem Transfer TransferSpec Ui Server ServerReply ServerSpec ServerTheorems.

(** ** Safe computations *)

(** What holds between the calls, while the program runs. *)
Definition world_good (w : World) : Prop :=
  auth_good (w_auth w) /\ reg_ready (w_registry w) /\ queue_ready (w_queue w) /\ queue_initialized (w_queue w) = true.

Lemma world_good_ok w : world_good w -> world_ok w.
Proof. by intros (H1 & _ & H2 & _). Qed.

(** A computation keeps [world_good], the administrative code and libcurl
    ready, and its result satisfies [Q]. *)
Definition same_setup (w w' : World) : Prop := admin_code (w_auth w') = admin_code (w_auth w) /\ w_curl_ready w' = w_curl_ready w.
Definition world_step (w w' : World) : Prop := world_good w' /\ same_setup w w'.

Lemma same_setup_trans w1 w2 w3 : same_setup w1 w2 -> same_setup w2 w3 -> same_setup w1 w3.
Proof. unfold same_setup. intros [] []. split; congruence. Qed.
Definition safe {A} (m : M World A) (Q : A -> Prop) : Prop :=
  forall k w, world_good w -> wp m (fun a _ w' => world_step w w' /\ Q a) k w.

Section Safe.
Context `{E : Env}.

Lemma safe_ret {A} (a : A) (Q : A -> Prop) : Q a -> safe (ret a) Q.
Proof. intros HQ k w Hw. by apply wp_ret. Qed.
Lemma safe_ask {A} (f : nat -> A) (Q : A -> Prop) : (forall k, Q (f k)) -> safe (ask f) Q.
Proof. intros HQ k w Hw. by apply wp_ask. Qed.
Lemma safe_get (Q : World -> Prop) : (forall w, world_good w -> Q w) -> safe get Q.
Proof. intros HQ k w Hw. apply wp_get. split; [done|auto]. Qed.
Lemma safe_bind {A B} (P : A -> Prop) (m : M World A) (f : A -> M World B) (Q : B -> Prop) :
  safe m P -> (forall a, P a -> safe (f a) Q) -> safe (bind m f) Q.
Proof.
intros Hm Hf k w Hw. apply wp_bind. eapply wp_mono; [by apply Hm|]. intros a k' w' [[Hw' Hc] Ha].
eapply wp_mono; [by apply (Hf a Ha)|]. intros b k'' w'' [[Hw'' Hc'] Hb]. split; [split; [done|by eapply same_setup_trans]|done].
Qed.
Lemma safe_if {A} (b : bool) (m1 m2 : M World A) (Q : A -> Prop) :
  (b = true -> safe m1 Q) -> (b = false -> safe m2 Q) -> safe (if b then m1 else m2) Q.
Proof. destruct b; auto. Qed.
Lemma safe_mono {A} (m : M World A) (P Q : A -> Prop) : safe m P -> (forall a, P a -> Q a) -> safe m Q.
Proof. intros Hm HPQ k w Hw. eapply wp_mono; [by apply Hm|]. intros a k' w' [? ?]. auto. Qed.
Lemma safe_silent {A} (m : M World A) : (forall k w, wp m (fun _ _ w' => w' = w) k w) -> safe m (fun _ => True).
Proof. intros Hm k w Hw. eapply wp_mono; [apply Hm|]. by intros a k' w' ->. Qed.

(** The result of a last [ret] does not matter to the state. *)
Lemma wp_discard {S A} (m : M S A) (P : S -> Prop) k s :
  wp (_ <- m ;; ret tt) (fun _ _ s' => P s') k s -> wp m (fun _ _ s' => P s') k s.
Proof. unfold wp, bind, ret. by destruct (m k s) as [a [k' s']]. Qed.

(** ** The modules *)

Context {R : RandOk E}.

Lemma safe_auth {A} (m : M AuthState A) (c : auth_call) : auth_call_ok c -> auth_do c = (_ <- m ;; ret tt) -> safe (on_auth m) (fun _ => True).
Proof.
intros Hc Hm k w (Ha & Hr & Hq). apply wp_zoom. apply (wp_discard m (fun s' => world_step w (set_w_auth s' w) /\ True)).
rewrite <- Hm. eapply wp_mono; [by apply wp_auth_do|]. intros _ k' s' [Hs Hcode]. done.
Qed.

Lemma safe_registry {A} (m : M RegistryState A) :
  (forall k s, reg_ready s -> wp m (fun _ _ s' => reg_ready s') k s) -> safe (on_registry m) (fun _ => True).
Proof.
intros Hm k w (Ha & Hr & Hq). apply wp_zoom. eapply wp_mono; [by apply Hm|]. intros a k' s' Hs. done.
Qed.

Lemma safe_storage {A} (m : M FileSystem A) : safe (on_storage m) (fun _ => True).
Proof.
intros k w (Ha & Hr & [Hq Hl] & Hi). apply wp_on_storage, wp_intro. intros a k' fs' _.
split; [|done]. split; [|done]. split; [done|]. split; [done|]. split; [|done]. split; [by destruct Hq|done].
Qed.

Lemma safe_queue {A} (m : M QueueState A) :
  (forall k q, queue_ready q -> queue_initialized q = true -> wp m (fun _ _ q' => queue_ready q' /\ queue_initialized q' = true) k q) ->
  safe (on_queue m) (fun _ => True).
Proof. intros Hm k w (Ha & Hr & Hq & Hi). apply wp_zoom. eapply wp_mono; [by apply Hm|]. intros a k' q' [? ?]. done. Qed.

Lemma safe_add name ip port : c_string name -> endpoint_ok ip port ->
  safe (on_registry (peer_registry_add_or_update (Some name) (Some ip) port)) (fun _ => True).
Proof.
intros Hn He. apply safe_registry. intros k s Hs. eapply wp_mono; [by apply wp_add|]. intros r k' s' [H _]. done.
Qed.
Lemma safe_paired ip port paired : endpoint_ok ip port -> safe (on_registry (peer_registry_set_paired (Some ip) port paired)) (fun _ => True).
Proof. intros He. apply safe_registry. intros k s Hs. eapply wp_mono; [by apply wp_paired|]. intros r k' s' [H _]. done. Qed.

Lemma safe_find ip port : endpoint_ok ip port ->
  safe (on_registry (peer_registry_find_by_endpoint (Some ip) port true)) (fun _ => True).
Proof.
intros He. apply safe_registry. intros k s Hs. eapply wp_mono; [by apply wp_find_peer|]. by intros r k' s' [-> _].
Qed.

Lemma snapshot_silent k s : reg_ready s -> wp (peer_registry_snapshot_json true) (fun _ _ s' => s' = s) k s.
Proof.
intros [Hinv Hi]. pose proof (reg_free _ (conj Hinv Hi)) as Hl. unfold peer_registry_snapshot_json. apply wp_bind, wp_get. rewrite Hi. reduce_tests.
assert (Hfail : forall {A} (x : A) k', wp (pthread_unlock ;; ret x) (fun _ _ s' => s' = s) k' (set_registry_lock MHeld s)).
{ intros A x k'. leave. apply wp_ret. simpl. by rewrite unlock_reg. }
enter Hl; [|by apply wp_ret]. apply wp_bind. eapply wp_mono; [apply unchanged, app_lit_silent|]. intros [r b] k1 ? ->.
apply wp_if; intros _; [apply Hfail|]. apply wp_bind, wp_get, wp_bind.
apply (wp_for_acc (fun _ _ _ s' => s' = set_mutex MHeld s)); [done| |].
- intros j a k2 ? _ ->. unfold snapshot_body. apply wp_bind, wp_get, wp_bind. apply wp_mono with (fun _ _ s' => s' = set_mutex MHeld s).
  { apply wp_if; intros _; [apply unchanged, app_lit_silent|by apply wp_ret]. }
  assert (Hbad : forall k', wp (pthread_unlock ;; ret (inr (-1, None)))
    (fun (x : JsonBuf + (Z * option cstring)) k' s' => match x with inr v => wp (ret v) (fun _ _ s' => s' = s) k' s' | inl _ => s' = set_mutex MHeld s end) k' (set_mutex MHeld s)).
  { intros k'. leave. apply wp_ret, wp_ret. simpl. by rewrite unlock_reg. }
  intros [r2 b2] k3 ? ->. apply wp_if; intros _; [apply Hbad|]. apply wp_bind. eapply wp_mono; [apply unchanged, all_ok_silent; repeat constructor; apply _|].
  intros [r3 b3] k4 ? ->. apply wp_if; intros _; [apply Hbad|by apply wp_ret].
- intros a k2 ? ->. leave. simpl. rewrite unlock_reg by done. apply wp_bind. eapply wp_mono; [apply unchanged, app_lit_silent|]. intros [r2 b2] k3 ? ->.
  apply wp_if; intros _; by apply wp_ret.
Qed.

Lemma safe_snapshot : safe (on_registry (peer_registry_snapshot_json true)) (fun _ => True).
Proof. apply safe_registry. intros k s Hs. eapply wp_mono; [by apply snapshot_silent|]. by intros x k' s' ->. Qed.
End Safe.

(** ** The peer's token *)

(** What is read out of a C string is one. *)
Lemma extract_c_string json field size : c_string json ->
  match snd (extract_json_string_field (Some json) field size) with Some t => c_string t | None => True end.
Proof.
intros Hj. unfold extract_json_string_field. destruct field as [field|], size as [n|]; try done. destruct (n =? 0)%nat; [done|].
destruct (strstr json _) as [start|] eqn:Hs; [|constructor]. destruct (strstr_some _ _ _ Hs) as (q & t & -> & _).
cbv zeta. destruct (strchr _ _) as [e|]; [|constructor]. cbn [snd]. apply Forall_take, Forall_drop. by apply Forall_app in Hj as [_ ?].
Qed.

Definition c_token (res : pair_result) : Prop := forall t, pr_token res = Some t -> c_string t.

Section Peer.
Context `{E : Env} `{C : Curl} `{I : Inet}.

Lemma wp_pair_token ip port name pport code token (exp : bool) msg k s :
  wp (transfer_pair_peer ip port name pport code token exp msg) (fun res _ _ => c_token res) k s.
Proof.
assert (Hnone : forall m, c_token (pair_failed None m)) by done.
unfold transfer_pair_peer. apply wp_bind, wp_get. destruct ip as [ip|], code as [code|], token as [token|]; try by apply wp_ret.
apply wp_if; intros _; [by apply wp_ret|]. do 2 (apply wp_bind, wp_ask, wp_if; intros _; [by apply wp_ret|]).
do 3 (apply wp_bind, wp_intro; intros ? ? ? _). cbv zeta. apply wp_bind, wp_intro. intros [[[res code2] b] u] k1 s1 _. cbv beta iota.
apply wp_if; intros _; [by apply wp_ret|]. apply wp_if; intros _; [by apply wp_ret|].
assert (Ht : match snd (extract_json_string_field (cstr <$> rb_data b) (Some (lit "token")) (Some token)) with Some t => c_string t | None => True end).
{ destruct (rb_data b) as [d|]; [|done]. apply extract_c_string, cstr_c_string. }
destruct (extract_json_string_field _ _ _) as [r tok]. apply wp_if; intros _; apply wp_ret; intros t Hq; cbn [pr_token pair_failed] in Hq; subst tok; exact Ht.
Qed.

Lemma safe_pair ip port name pport code token (exp : bool) msg :
  safe (on_transfer (transfer_pair_peer ip port name pport code token exp msg)) c_token.
Proof.
intros k w (Ha & Hr & [Hq Hl] & Hi). apply wp_zoom.
eapply wp_mono; [apply wp_and; [apply wp_pair_token|apply wp_pair_only]|]. intros res k' s' [Hc [Hcurl Hf]]. split; [|done]. split; [|by split].
split; [done|]. split; [done|]. split; [|done]. split; [by destruct Hq|done].
Qed.
End Peer.

(** ** The queue *)

Section Queue.
Context `{E : Env} {R : RandOk E} {L : LocksOk E}.

Lemma safe_enqueue path ip port token :
  safe (on_queue (transfer_enqueue (Some path) (Some ip) port token (Some 65%nat))) (fun _ => True).
Proof.
apply safe_queue. intros k q Hq Hi. destruct token as [token|]; [|done]. apply wp_enqueue; [done..| |].
- intros k1 j q1 Hp. destruct (pruned_inv _ _ _ (proj1 Hq) Hp) as [Hinv _].
  split; [split; [done|]|]; [rewrite (same_lock _ _ (proj1 Hp)); apply Hq|by rewrite (same_init _ _ (proj1 Hp))].
- intros k1 j id q1 Hc He Hl _. destruct (enqueued_inv _ _ _ _ (proj1 Hq) Hc He) as (Hinv & _). split; [by split|].
  destruct He as (s1 & ? & ? & Hp & _ & _ & _ & _ & ->). cbn. by rewrite (same_init _ _ (proj1 Hp)).
Qed.

Lemma safe_status id : safe (on_queue (transfer_status_get (Some id) true)) (fun _ => True).
Proof. apply safe_queue. intros k q Hq Hi. by apply wp_status. Qed.
End Queue.

(** ** The handlers *)

(** One step into a computation whose first call is a safe one. *)
Ltac step lem := eapply safe_bind; [lem|].
Ltac branch := apply safe_if; intros ?.
Ltac safe_reply := apply safe_silent; intros; eauto with silent.

Section Handlers.
Context `{E : Env} {R : RandOk E} {L : LocksOk E} `{C : Curl} `{I : Inet} {IO : InetOk I} `{H : Host}.
Context (connection : Connection) (Hconn : connection_ok connection).
Implicit Types (c : connection_info).

Definition client_of c : Prop := ci_client_ip c = client_text connection.
Definition client_in {A} (x : A * connection_info) : Prop := client_of (snd x).

Lemma client_ip_ok c : client_of c -> ip_ok (ci_client_ip c).
Proof. intros ->. apply Hconn. Qed.

Lemma safe_rate_limit c scope limit : client_of c -> scope_ok scope limit -> safe (rate_limit_request c scope limit 60) client_in.
Proof.
intros Hc (Hs & Hsl & Hlim). unfold rate_limit_request.
step ltac:(apply (safe_auth _ (ALimit (ci_client_ip c) scope limit 60 (Some 128%nat))); [|reflexivity]).
{ split; [by apply client_ip_ok|]. split; [done|]. split; [done|]. lia. }
intros [r m] _. branch; [|by apply safe_ret]. eapply (safe_bind (fun _ => True)); [destruct m; [by apply safe_ret|by apply safe_ask]|].
intros message _. by apply safe_ret.
Qed.

(** The two questions to auth.c about a header. *)
Lemma safe_ask_session c : client_of c ->
  safe (match cn_header connection UI_TOKEN_HEADER with
        | Some _ => on_auth (auth_validate_ui_session (Some (ci_client_ip c)) (cn_header connection UI_TOKEN_HEADER))
        | None => ret (-1)
        end) (fun _ => True).
Proof.
intros Hc. destruct (cn_header connection UI_TOKEN_HEADER) as [tok|] eqn:Ht; [|by apply safe_ret].
apply (safe_auth _ (AValidateSession (ci_client_ip c) tok)); [|done]. split; [by apply client_ip_ok|]. by apply (proj2 Hconn) in Ht.
Qed.
Lemma safe_ask_peer c : client_of c ->
  safe (match cn_header connection PAIR_TOKEN_HEADER with
        | Some _ => on_auth (auth_validate_peer_token (Some (ci_client_ip c)) (cn_header connection PAIR_TOKEN_HEADER))
        | None => ret (-1)
        end) (fun _ => True).
Proof.
intros Hc. destruct (cn_header connection PAIR_TOKEN_HEADER) as [tok|] eqn:Ht; [|by apply safe_ret].
apply (safe_auth _ (AValidate (ci_client_ip c) tok)); [|done]. split; [by apply client_ip_ok|]. by apply (proj2 Hconn) in Ht.
Qed.

Lemma safe_authorize_ui c scope limit : client_of c -> scope_ok scope limit -> safe (authorize_ui_request connection c scope limit) client_in.
Proof.
intros Hc Hs. unfold authorize_ui_request. branch; [|by apply safe_ret]. cbv zeta.
step ltac:(by apply safe_rate_limit). intros [r c1] Hc1. branch; [by apply safe_ret|].
step ltac:(by apply safe_ask_session). intros v _. branch; by apply safe_ret.
Qed.

Lemma safe_authorize_upload c : client_of c -> safe (authorize_upload_request connection c) client_in.
Proof.
intros Hc. unfold authorize_upload_request. branch; [|by apply safe_ret]. cbv zeta.
step ltac:(apply safe_rate_limit; [done|]). { repeat split; try lia; by apply (bool_decide_eq_true_1 _); vm_compute. }
intros [r c1] Hc1. branch; [by apply safe_ret|].
step ltac:(by apply safe_ask_session). intros v _. branch; [by apply safe_ret|].
step ltac:(by apply safe_ask_peer). intros v2 _. branch; by apply safe_ret.
Qed.

(** *** Posted data *)

Lemma safe_iterate_file item c : client_of c -> safe (iterate_file item c) client_of.
Proof.
intros Hc. unfold iterate_file. eapply (safe_bind client_in).
- destruct (it_filename item), (st_fp (ci_upload_stage c)), (st_sealed (ci_upload_stage c)); try by apply safe_ret.
  step ltac:(apply safe_storage). intros [[r st] e] _. branch; by apply safe_ret.
- intros [opened c1] Hc1. branch; [by apply safe_ret|]. cbv zeta. branch; [|by apply safe_ret].
  step ltac:(apply safe_storage). intros [[r st] e] _. branch; by apply safe_ret.
Qed.

Lemma iterate_field_client item c : client_of c -> client_of (iterate_field item c).
Proof. intros Hc. unfold iterate_field. cbv zeta. repeat case_match; done. Qed.

Lemma safe_iterate_items items c : client_of c -> safe (iterate_items items c) client_of.
Proof.
revert c. induction items as [|item items IH]; intros c Hc; cbn [iterate_items]; [by apply safe_ret|].
eapply (safe_bind client_of); [|intros c1 Hc1; by apply IH]. unfold iterate_post. branch; [by apply safe_ret|].
branch; [by apply safe_iterate_file|]. by apply safe_ret, iterate_field_client.
Qed.

Lemma safe_process_data data failure c : client_of c -> safe (process_data data failure c) client_of.
Proof.
intros Hc. unfold process_data. eapply (safe_bind client_in).
- unfold MHD_post_process. destruct (ci_postprocessor c) as [before|]; [|by apply safe_ret].
  destruct (post_process before data) as [items ok]. step ltac:(by apply safe_iterate_items). intros c1 Hc1. by apply safe_ret.
- intros [ok c1] Hc1. branch; by apply safe_ret.
Qed.

Lemma safe_limited_data scope limit failure data c : scope_ok scope limit -> client_of c -> safe (limited_data scope limit failure data c) client_of.
Proof.
intros Hs Hc. unfold limited_data. eapply (safe_bind client_in); [branch; [by apply safe_rate_limit|by apply safe_ret]|].
intros [r c1] Hc1. branch; [by apply safe_ret|]. branch; [by apply safe_ret|]. by apply safe_process_data.
Qed.

Lemma safe_authorized_data authorize failure data c : client_of c -> safe (authorize c) client_in ->
  safe (authorized_data authorize failure data c) client_of.
Proof.
intros Hc Ha. unfold authorized_data. step ltac:(exact Ha). intros [r c1] Hc1. branch; [by apply safe_ret|]. by apply safe_process_data.
Qed.

(** *** The routes *)

Definition any {A} (a : A) : Prop := True.
Notation sound_reply := (fun x : reply => x <> Crash).

Lemma safe_get_index : safe get_index any.
Proof.
apply safe_silent. intros k w. by apply wp_get_index.
Qed.

Lemma safe_get_devices : safe get_devices any.
Proof. unfold get_devices. step ltac:(apply safe_snapshot). intros [r json] _. branch; safe_reply. Qed.

Lemma safe_get_local_code : safe get_local_code any.
Proof.
unfold get_local_code. step ltac:(apply (safe_auth _ (APairingCode 16)); [simpl; lia|reflexivity]).
intros [[r code] e] _. branch; safe_reply.
Qed.

Lemma safe_get_transfer id : safe (get_transfer id) any.
Proof. unfold get_transfer. step ltac:(apply safe_status). intros [r json] _. branch; safe_reply. Qed.

Lemma safe_post_unlock c : client_of c -> safe (post_unlock c) any.
Proof.
intros Hc. unfold post_unlock. branch; [safe_reply|]. cbv zeta. branch; [safe_reply|].
step ltac:(apply (safe_auth _ (ACreateSession (ci_client_ip c) (cstr (ci_admin_code c)))); [|reflexivity]).
{ split; [by apply client_ip_ok|apply cstr_c_string]. }
intros [r tok] _. branch; safe_reply.
Qed.

Lemma port_endpoint ip text port : c_string ip -> (length ip <= 45)%nat -> parse_port text = Some port -> endpoint_ok ip (wrap 16 port).
Proof. intros H1 H2 Hp. destruct (parse_port_range _ _ Hp) as [Hr _]. rewrite wrap_port by done. split; [done|]. split; [done|lia]. Qed.

Lemma safe_post_exchange c : client_of c -> safe (post_exchange c) any.
Proof.
intros Hc. unfold post_exchange. branch; [safe_reply|]. cbv zeta. destruct (parse_port _) as [port|] eqn:Hp; [|safe_reply].
destruct (_ || _); [safe_reply|]. destruct (client_ip_ok c Hc) as [Hi Hl]. pose proof (port_endpoint _ _ _ Hi Hl Hp) as He.
step ltac:(apply (safe_auth _ (AIssue (ci_client_ip c) (Some (cstr (ci_peer_name c))) (wrap 16 port) (cstr (ci_pair_code c)))); [|reflexivity]).
{ split; [by split|apply cstr_c_string]. }
intros [[r tok] e] _. branch; [safe_reply|].
step ltac:(by apply safe_add; [apply cstr_c_string|]). intros r1 _. step ltac:(by apply safe_paired). intros r2 _. safe_reply.
Qed.

Lemma safe_commit c : client_of c -> safe (commit_uploaded_file c) client_in.
Proof.
intros Hc. unfold commit_uploaded_file. step ltac:(apply safe_storage). intros [[[r st] e] f] _. cbv zeta. branch; by apply safe_ret.
Qed.
Lemma safe_seal c : client_of c -> safe (seal_uploaded_stage c) client_in.
Proof.
intros Hc. unfold seal_uploaded_stage. step ltac:(apply safe_storage). intros [[r st] e] _. cbv zeta. branch; by apply safe_ret.
Qed.

(** A reply that leaves the connection alone. *)
Lemma safe_keep (m : M World reply) c : safe m any -> client_of c -> safe (reply <- m ;; ret (reply, c)) client_in.
Proof. intros Hm Hc. step ltac:(exact Hm). intros x _. by apply safe_ret. Qed.
Ltac keep_reply := apply safe_keep; [safe_reply|done].

Lemma safe_post_upload c : client_of c -> safe (post_upload c) client_in.
Proof.
intros Hc. unfold post_upload. branch; [keep_reply|]. branch; [keep_reply|].
step ltac:(by apply safe_commit). intros [r c1] Hc1. branch; keep_reply.
Qed.

Lemma safe_post_pair c : safe (post_pair c) any.
Proof.
unfold post_pair. branch; [safe_reply|]. cbv zeta. apply safe_if; intros Hv; [safe_reply|]. apply orb_false_iff in Hv as [Hv _]. bool_prop.
destruct (valid_address _ Hv (cstr_c_string _)) as (_ & Hi & Hl).
destruct (parse_port _) as [port|] eqn:Hp; [|safe_reply]. pose proof (port_endpoint _ _ _ Hi Hl Hp) as He.
step ltac:(by apply safe_find). intros [r peer] _. branch; [safe_reply|].
step ltac:(by apply (safe_ask _ any)). intros name _. step ltac:(by apply (safe_ask _ any)). intros stack _.
step ltac:(by apply (safe_get any)). intros w _. step ltac:(apply safe_pair). intros res Hres. branch.
- eapply (safe_bind any); [destruct (pr_message res); [by apply safe_ret|by apply safe_ask]|]. intros m _. safe_reply.
- eapply (safe_bind any).
  + destruct (pr_token res) as [tok|] eqn:Htok; [|apply safe_silent; intros k0 w0; by destruct w0].
    apply (safe_auth _ (AStore (cstr (ci_target_ip c)) (wrap 16 port)
      (Some (if negb (bool_decide (cstr (ci_target_name c) = [])) then cstr (ci_target_name c) else pi_name (default inhabitant peer)))
      tok (default 0 (pr_expires_at res)))); [|done]. split; [by split|by apply Hres].
  + intros r1 _. step ltac:(by apply safe_paired). intros r2 _. safe_reply.
Qed.

Lemma safe_target c : client_of c -> safe (validate_target_peer c) (fun '(_, c', _, _) => client_of c').
Proof.
intros Hc. unfold validate_target_peer. cbv zeta. apply safe_if; intros Hv; [by apply safe_ret|]. bool_prop.
destruct (valid_address _ Hv (cstr_c_string _)) as (_ & Hi & Hl).
destruct (parse_port _) as [port|] eqn:Hp; [|by apply safe_ret]. pose proof (port_endpoint _ _ _ Hi Hl Hp) as He.
step ltac:(by apply safe_find). intros [r peer] _. branch; [by apply safe_ret|]. branch; [by apply safe_ret|].
step ltac:(apply (safe_auth _ (AGet (cstr (ci_target_ip c)) (wrap 16 port))); [by split|reflexivity]).
intros [r2 tok] _. branch; by apply safe_ret.
Qed.

Lemma safe_post_send c : client_of c -> safe (post_send c) client_in.
Proof.
intros Hc. unfold post_send. branch; [keep_reply|]. branch; [keep_reply|].
step ltac:(by apply safe_target). intros [[[r c1] port] tok] Hc1. branch; [keep_reply|].
step ltac:(by apply safe_seal). intros [r2 c2] Hc2. branch; [keep_reply|].
step ltac:(apply safe_enqueue). intros [r3 id] _. branch; [|keep_reply].
step ltac:(apply safe_storage). intros st _. step ltac:(safe_reply). intros x _. by apply safe_ret.
Qed.

(** *** Every call *)

(** When the call does not end the process. *)
Definition unless_crash {A} (x : A * reply) (P : Prop) : Prop := snd x = Crash \/ P.

Lemma wp_transfers k w : world_good w -> wp get_transfers (fun x _ w' => x = Crash \/ world_step w w') k w.
Proof.
intros Hw. pose proof Hw as (Ha & Hr & Hq & Hi). unfold get_transfers. apply wp_bind, wp_zoom, wp_list_silent; [done| |].
- intros [r json] k1. replace (set_w_queue (w_queue w) w) with w by by destruct w.
  assert (Hs : forall m : M World reply, (forall k w, wp m (fun _ _ w' => w' = w) k w) -> wp m (fun x _ w' => x = Crash \/ world_step w w') k1 w).
  { intros m Hm. eapply wp_mono; [apply Hm|]. intros x k2 w2 ->. by right. }
  cbv beta iota. apply wp_if; intros _; apply Hs; intros; eauto with silent.
- intros k1 q1. apply wp_ret. by left.
Qed.

Definition answer_kept w (a : answer) w' : Prop :=
  an_reply a = Crash \/ (world_step w w' /\ match an_con_cls a with Some c => client_of c | None => True end).

Lemma answer_kept_safe w (m : M World answer) k : world_good w ->
  safe m (fun a => match an_con_cls a with Some c => client_of c | None => True end) -> wp m (fun a _ w' => answer_kept w a w') k w.
Proof. intros Hw Hm. eapply wp_mono; [by apply Hm|]. intros a k' w' Ha. by right. Qed.

Lemma safe_posted data last upload_data c : safe (data upload_data c) client_of -> safe (last c) client_in ->
  safe (posted data last upload_data c) (fun a => match an_con_cls a with Some c => client_of c | None => True end).
Proof.
intros Hd Hl. unfold posted. branch.
- step ltac:(exact Hd). intros c1 Hc1. by apply safe_ret.
- step ltac:(exact Hl). intros [x c1] Hc1. by apply safe_ret.
Qed.

Lemma safe_new method size :
  safe (new_connection connection method size) (fun a => match an_con_cls a with Some c => client_of c | None => True end).
Proof.
unfold new_connection. step ltac:(by apply (safe_ask _ any)). intros calloc _. branch; [by apply safe_ret|]. cbv zeta.
branch; [|by apply safe_ret]. destruct (cn_form connection); by apply safe_ret.
Qed.

Lemma safe_with_ui c scope limit route : client_of c -> scope_ok scope limit -> safe route any -> safe (with_ui connection c scope limit route) client_in.
Proof.
intros Hc Hs Hr. unfold with_ui. step ltac:(by apply safe_authorize_ui). intros [r c1] Hc1. branch; [keep_reply|]. by apply safe_keep.
Qed.

Ltac a_scope := split; [by apply (bool_decide_eq_true_1 _); vm_compute|split; [simpl; lia|lia]].
(** A route whose reply keeps the connection, or gives it back. *)
Ltac kept_route := eapply safe_bind; [apply safe_keep; eassumption|]; intros [? ?] ?; by apply safe_ret.

Lemma wp_answer_kept url method data con_cls k w : world_good w -> match con_cls with Some c => client_of c | None => True end ->
  wp (answer_to_connection connection url method data con_cls) (fun a _ w' => answer_kept w a w') k w.
Proof.
intros Hw Hc. unfold answer_to_connection. cbv zeta. destruct con_cls as [c|]; [|apply answer_kept_safe, safe_new; done].
pose proof safe_get_index. pose proof safe_get_devices.
apply wp_if; intros _; [apply answer_kept_safe; [done|kept_route]|].
apply wp_if; intros _; [apply answer_kept_safe; [done|kept_route]|].
apply wp_if; intros _.
{ apply answer_kept_safe; [done|]. step ltac:(apply safe_with_ui; [done|a_scope|apply safe_get_local_code]). intros x Hx. by apply safe_ret. }
apply wp_if; intros _.
{ apply answer_kept_safe, safe_posted; [done|apply safe_limited_data; [a_scope|done]|]. by apply safe_keep; [apply safe_post_unlock|]. }
apply wp_if; intros _.
{ apply answer_kept_safe, safe_posted; [done|apply safe_limited_data; [a_scope|done]|]. by apply safe_keep; [apply safe_post_exchange|]. }
apply wp_if; intros _.
{ unfold with_ui. do 2 apply wp_bind. eapply wp_mono; [apply safe_authorize_ui; [exact Hc|a_scope|exact Hw]|].
  intros [r c1] k1 w1 [[Hw1 Hcode] Hc1]. apply wp_if; intros _; apply wp_bind.
  - eapply wp_mono; [apply status_silent|]. intros x k2 w2 ->. apply wp_ret, wp_ret. right. by split.
  - eapply wp_mono; [by apply wp_transfers|]. intros x k2 w2 Hx. apply wp_ret, wp_ret. destruct Hx as [->|[Hw2 Hcode2]]; [by left|right].
    split; [split; [done|by eapply same_setup_trans]|done]. }
apply wp_if; intros _.
{ apply answer_kept_safe; [done|]. step ltac:(apply safe_with_ui; [done|a_scope|apply safe_get_transfer]). intros x Hx. by apply safe_ret. }
apply wp_if; intros _.
{ apply answer_kept_safe, safe_posted; [done| |by apply safe_post_upload]. apply safe_authorized_data; [done|by apply safe_authorize_upload]. }
apply wp_if; intros _.
{ apply answer_kept_safe, safe_posted; [done| |by apply safe_keep; [apply safe_post_pair|]].
  apply safe_authorized_data; [done|]. apply safe_authorize_ui; [done|a_scope]. }
apply wp_if; intros _.
{ apply answer_kept_safe, safe_posted; [done| |by apply safe_post_send].
  apply safe_authorized_data; [done|]. apply safe_authorize_ui; [done|a_scope]. }
apply answer_kept_safe; [done|]. step ltac:(by apply (safe_ask _ any)). intros r _. by apply safe_ret.
Qed.

Lemma safe_completed con_cls : safe (request_completed con_cls) any.
Proof.
unfold request_completed. destruct con_cls as [c|]; [|by apply safe_ret]. branch; [|by apply safe_ret].
step ltac:(apply safe_storage). intros st _. by apply safe_ret.
Qed.
End Handlers.
