(* ===== verification/Discovery.v ===== *)
(** * Discovery: announcing and browsing (src/discovery.c)

    Avahi is a parameter: which of its calls fail.  What it calls back is a
    list of events, handed to the callbacks in order.  What is printed is kept
    in [d_out]. *)

From stdpp Require Import base numbers list strings gmap.
From Stdlib Require Import ZArith Lia Ascii.
From S2P Require Import Prelude Effects CLib PeerRegistry.

Class Avahi := {
  avahi_created : nat -> bool; (* a call that returns an object returns one *)
  avahi_status : nat -> Z;     (* what a call that returns a status returns *)
  avahi_strerror : nat -> cstring (* the text of the error of a call that failed *)
}.

(** A static pointer: never set, to an object in use, to one given back. *)
Inductive handle := Null | Live | Freed.
#[export] Instance handle_dec : EqDecision handle.
Proof. solve_decision. Defined.

Inductive AvahiBrowserEvent := AVAHI_BROWSER_NEW | AVAHI_BROWSER_REMOVE | AVAHI_BROWSER_FAILURE | AVAHI_BROWSER_OTHER.
Inductive AvahiResolverEvent := AVAHI_RESOLVER_FOUND | AVAHI_RESOLVER_FAILURE.
Inductive AvahiEntryGroupState := AVAHI_ENTRY_GROUP_ESTABLISHED | AVAHI_ENTRY_GROUP_FAILURE | AVAHI_ENTRY_GROUP_OTHER.
#[export] Instance browser_event_dec : EqDecision AvahiBrowserEvent.
Proof. solve_decision. Defined.

(** The static variables, the names the open resolvers were created for, the
    registry the callbacks write to, and standard output. *)
Record DiscoveryState := {
  simple_poll : handle; client : handle; browser : handle; group : handle;
  local_device_name : cstring;
  resolvers : list cstring;
  d_registry : RegistryState;
  d_out : cstring }.

Definition set_simple_poll v s := {| simple_poll := v; client := client s; browser := browser s; group := group s;
  local_device_name := local_device_name s; resolvers := resolvers s; d_registry := d_registry s; d_out := d_out s |}.
Definition set_client v s := {| simple_poll := simple_poll s; client := v; browser := browser s; group := group s;
  local_device_name := local_device_name s; resolvers := resolvers s; d_registry := d_registry s; d_out := d_out s |}.
Definition set_browser v s := {| simple_poll := simple_poll s; client := client s; browser := v; group := group s;
  local_device_name := local_device_name s; resolvers := resolvers s; d_registry := d_registry s; d_out := d_out s |}.
Definition set_group v s := {| simple_poll := simple_poll s; client := client s; browser := browser s; group := v;
  local_device_name := local_device_name s; resolvers := resolvers s; d_registry := d_registry s; d_out := d_out s |}.
Definition set_local_device_name v s := {| simple_poll := simple_poll s; client := client s; browser := browser s; group := group s;
  local_device_name := v; resolvers := resolvers s; d_registry := d_registry s; d_out := d_out s |}.
Definition set_resolvers v s := {| simple_poll := simple_poll s; client := client s; browser := browser s; group := group s;
  local_device_name := local_device_name s; resolvers := v; d_registry := d_registry s; d_out := d_out s |}.
Definition set_d_registry v s := {| simple_poll := simple_poll s; client := client s; browser := browser s; group := group s;
  local_device_name := local_device_name s; resolvers := resolvers s; d_registry := v; d_out := d_out s |}.
Definition set_d_out v s := {| simple_poll := simple_poll s; client := client s; browser := browser s; group := group s;
  local_device_name := local_device_name s; resolvers := resolvers s; d_registry := d_registry s; d_out := v |}.

Definition discovery_boot (r : RegistryState) (out : cstring) : DiscoveryState := {|
  simple_poll := Null; client := Null; browser := Null; group := Null; local_device_name := []; resolvers := [];
  d_registry := r; d_out := out |}.

(** What Avahi calls back.  The address of a resolved service is given as
    [avahi_address_snprint] prints it; the name is the one the resolver was
    created for. *)
Inductive avahi_event :=
| EvBrowse (event : AvahiBrowserEvent) (name : option cstring)
| EvResolve (r : nat) (event : AvahiResolverEvent) (address : option cstring) (port : Z)
| EvGroup (state : AvahiEntryGroupState)
| EvClient (failed : bool).

Definition newline : ascii := chr 10.

Section Discovery.
Context `{E : Env} `{A : Avahi}.

Definition on_d_registry {B} (m : M RegistryState B) : M DiscoveryState B := zoom d_registry set_d_registry m.
Definition avahi_new : M DiscoveryState bool := ask avahi_created.
Definition say (fs : list fmt) : M DiscoveryState unit := modify (fun s => set_d_out (d_out s ++ sprintf fs ++ [newline]) s).
Definition say_error (text : string) : M DiscoveryState unit := error <- ask avahi_strerror ;; say [Lit (lit text); Str error].

(** [r] is the resolver's place among the open ones. *)
Definition resolve_callback (r : nat) (event : AvahiResolverEvent) (name : cstring) (address : option cstring) (port : Z)
    : M DiscoveryState unit :=
  (match event with
   | AVAHI_RESOLVER_FOUND =>
       match address with
       | Some address =>
           let addr := snprintf 40 [Str address] in
           r <- on_d_registry (peer_registry_add_or_update (Some name) (Some addr) port) ;;
           if r =? 0
           then say [Lit (lit "✅ Dispositivo descoberto: "); Str name; Lit (lit " ("); Str addr; Lit (lit ":"); UInt port; Lit (lit ")")]
           else say [Lit (lit "❌ Limite de dispositivos atingido ou registro indisponivel")]
       | None => ret tt
       end
   | AVAHI_RESOLVER_FAILURE => ret tt
   end) ;;
  modify (fun s => set_resolvers (delete r (resolvers s)) s).

Definition browse_callback (event : AvahiBrowserEvent) (name : option cstring) : M DiscoveryState unit :=
  s <- get ;;
  if (bool_decide (event = AVAHI_BROWSER_NEW) || bool_decide (event = AVAHI_BROWSER_REMOVE)) &&
     (match name with
      | Some name => negb (bool_decide (local_device_name s = [])) && (strcmp name (local_device_name s) =? 0)
      | None => false
      end)
  then ret tt
  else
    match event, name with
    | AVAHI_BROWSER_NEW, Some name =>
        started <- avahi_new ;;
        if started : bool then modify (fun s => set_resolvers (resolvers s ++ [name]) s) else ret tt
    | AVAHI_BROWSER_REMOVE, Some name =>
        r <- on_d_registry (peer_registry_mark_inactive (Some name)) ;;
        if r =? 0 then say [Lit (lit "❌ Dispositivo saiu: "); Str name] else ret tt
    | AVAHI_BROWSER_FAILURE, _ => say [Lit (lit "❌ Falha no browser Avahi")]
    | _, _ => ret tt
    end.

Definition entry_group_callback (g : handle) (state : AvahiEntryGroupState) : M DiscoveryState unit :=
  modify (set_group g) ;;
  match state with
  | AVAHI_ENTRY_GROUP_ESTABLISHED => say [Lit (lit "✅ Serviço anunciado com sucesso!")]
  | AVAHI_ENTRY_GROUP_FAILURE => say [Lit (lit "❌ Falha ao anunciar serviço")]
  | AVAHI_ENTRY_GROUP_OTHER => ret tt
  end.

Definition client_callback (failed : bool) : M DiscoveryState unit :=
  if failed then say [Lit (lit "❌ Falha no cliente Avahi")] else ret tt.

Definition discovery_init (device_name : cstring) (port : Z) : M DiscoveryState Z :=
  modify (set_local_device_name (snprintf 256 [Str device_name])) ;;
  ok <- avahi_new ;;
  modify (set_simple_poll (if ok : bool then Live else Null)) ;;
  if negb ok then say [Lit (lit "❌ Erro ao criar simple_poll")] ;; ret (-1)
  else
    ok <- avahi_new ;;
    modify (set_client (if ok : bool then Live else Null)) ;;
    if negb ok then say_error "❌ Erro ao criar cliente: " ;; ret (-1)
    else
      ok <- avahi_new ;;
      modify (set_group (if ok : bool then Live else Null)) ;;
      if negb ok then say [Lit (lit "❌ Erro ao criar entry group")] ;; ret (-1)
      else
        error <- ask avahi_status ;;
        if error <? 0 then say_error "❌ Erro ao adicionar serviço: " ;; ret (-1)
        else
          error <- ask avahi_status ;;
          if error <? 0 then say_error "❌ Erro ao fazer commit: " ;; ret (-1)
          else
            ok <- avahi_new ;;
            modify (set_browser (if ok : bool then Live else Null)) ;;
            if negb ok then say [Lit (lit "❌ Erro ao criar browser")] ;; ret (-1)
            else say [Lit (lit "🔍 Descoberta iniciada - anunciando como '"); Str device_name; Lit (lit "'")] ;; ret 0.

(** One event goes to its callback; an event of a resolver that is not open
    does not happen. *)
Definition avahi_dispatch (e : avahi_event) : M DiscoveryState unit :=
  match e with
  | EvBrowse event name => browse_callback event name
  | EvResolve r event address port =>
      s <- get ;;
      match resolvers s !! r with
      | Some name => resolve_callback r event name address port
      | None => ret tt
      end
  | EvGroup state => entry_group_callback Live state
  | EvClient failed => client_callback failed
  end.

Fixpoint avahi_simple_poll_iterate (events : list avahi_event) : M DiscoveryState unit :=
  match events with
  | [] => ret tt
  | e :: events' => avahi_dispatch e ;; avahi_simple_poll_iterate events'
  end.

Definition discovery_poll (events : list avahi_event) : M DiscoveryState unit :=
  s <- get ;;
  if negb (bool_decide (simple_poll s = Null)) then avahi_simple_poll_iterate events else ret tt.

(** Freeing the browser, the group, the client and the poll; the pointers are
    not reset.  The result tells whether every object was still there to be
    freed. *)
Definition free_handle (h : handle) : bool * handle :=
  match h with Null => (true, Null) | Live => (true, Freed) | Freed => (false, Freed) end.

Definition discovery_cleanup : M DiscoveryState bool :=
  s <- get ;;
  let '(ok1, b) := free_handle (browser s) in
  let '(ok2, g) := free_handle (group s) in
  let '(ok3, c) := free_handle (client s) in
  let '(ok4, p) := free_handle (simple_poll s) in
  put (set_simple_poll p (set_client c (set_group g (set_browser b s)))) ;;
  ret (ok1 && ok2 && ok3 && ok4).
End Discovery.
