(* ===== verification/DiscoverySpec.v ===== *)
(** * DiscoverySpec: what discovery does to the registry *)

From stdpp Require Import base numbers list strings gmap.
From Stdlib Require Import ZArith Lia Ascii.
From S2P Require Import Prelude Effects CLib PeerRegistry PeerRegistrySpec Discovery.

(** ** The registry calls of a run *)

(** Calls at their times, applied to the abstract registry. *)
Definition replay (calls : list (Z * reg_call)) (m : gmap endpoint PeerInfo) : gmap endpoint PeerInfo :=
  foldl (fun m '(t, c) => snd (registry_spec t c m)) m calls.

(** The name a call of discovery carries. *)
Definition call_name (c : reg_call) : option cstring :=
  match c with RAdd name _ _ | RInactive name => Some name | _ => None end.

(** Names and addresses of the sizes mDNS allows. *)
Definition service_name (n : cstring) : Prop := c_string n /\ (length n <= 63)%nat.
Definition event_ok (e : avahi_event) : Prop :=
  match e with
  | EvBrowse _ (Some n) => service_name n
  | EvResolve _ _ (Some a) port => c_string a /\ (length a <= 39)%nat /\ 0 <= port < 65536
  | _ => True
  end.

(** What asks for a call: the end of a service, or the answer of a resolver. *)
Definition asked_by (events : list avahi_event) (open : list cstring) (c : reg_call) : Prop :=
  match c with
  | RInactive n => EvBrowse AVAHI_BROWSER_REMOVE (Some n) ∈ events
  | RAdd n ip port => (exists r, EvResolve r AVAHI_RESOLVER_FOUND (Some ip) port ∈ events) /\
                      (n ∈ open \/ EvBrowse AVAHI_BROWSER_NEW (Some n) ∈ events)
  | _ => False
  end.

(** Between the callbacks: the registry is in order, and no resolver is open
    for the device's own name. *)
Record disc_inv (s : DiscoveryState) : Prop := {
  di_registry : reg_ready (d_registry s);
  di_local : c_string (local_device_name s) /\ (length (local_device_name s) <= 255)%nat;
  di_open : Forall (fun n => service_name n /\ (local_device_name s <> [] -> n <> local_device_name s)) (resolvers s) }.

Definition foreign (local : cstring) (c : reg_call) : Prop := exists n, call_name c = Some n /\ service_name n /\ (local <> [] -> n <> local).

(** From [s] to [s'] the callbacks made the registry calls of [calls]. *)
Definition disc_step (events : list avahi_event) (s : DiscoveryState) (calls : list (Z * reg_call)) (s' : DiscoveryState) : Prop :=
  disc_inv s' /\ local_device_name s' = local_device_name s /\
  reg_view (d_registry s') = replay calls (reg_view (d_registry s)) /\
  Forall (fun tc => foreign (local_device_name s) tc.2 /\ asked_by events (resolvers s) tc.2) calls /\
  (forall n, n ∈ resolvers s' -> n ∈ resolvers s \/ EvBrowse AVAHI_BROWSER_NEW (Some n) ∈ events).

Section Discovery.
Context `{E : Env} `{A : Avahi}.
Implicit Types (s : DiscoveryState).

Lemma disc_step_none e s : disc_inv s -> disc_step e s [] s.
Proof. intros Hs. split; [done|]. split; [done|]. split; [done|]. split; [constructor|]. by left. Qed.

Lemma elem_of_delete (n : cstring) (r : nat) (l : list cstring) : n ∈ delete r l -> n ∈ l.
Proof. intros Hn. eapply elem_of_submseteq; [exact Hn|]. apply sublist_submseteq, sublist_delete. Qed.

(** Printing changes the output alone. *)
Lemma wp_say fs k s (Q : unit -> nat -> DiscoveryState -> Prop) : (forall o, Q tt k (set_d_out o s)) -> wp (say fs) Q k s.
Proof. intros HQ. by apply wp_modify, HQ. Qed.
Lemma wp_say_error text k s (Q : unit -> nat -> DiscoveryState -> Prop) : (forall k' o, Q tt k' (set_d_out o s)) -> wp (say_error text) Q k s.
Proof. intros HQ. apply wp_bind, wp_ask, wp_say. intros o. apply HQ. Qed.
Lemma disc_inv_out s o : disc_inv s -> disc_inv (set_d_out o s).
Proof. by intros [? ? ?]. Qed.
Lemma disc_step_out e s calls s1 o : disc_step e s calls s1 -> disc_step e s calls (set_d_out o s1).
Proof. intros ([? ? ?] & ? & ? & ? & ?). by split_and!. Qed.

(** A registry call made by a callback. *)
Lemma disc_step_call e k s c r k' (s1 : RegistryState) : disc_inv s -> foreign (local_device_name s) c -> asked_by [e] (resolvers s) c ->
  reg_post c k (d_registry s) r k' s1 -> exists calls, disc_step [e] s calls (set_d_registry s1 s).
Proof.
intros [Hr Hl Ho] Hf Ha [Hr1 Hpost]. assert (Hinv : disc_inv (set_d_registry s1 s)) by by split.
destruct Hpost as [(_ & _ & ->)|(_ & j & _ & Hspec)]; [exists []|exists [(env_clock j, c)]]; (split; [done|]); (split; [done|]).
- split; [done|]. split; [constructor|]. by left.
- split; [cbn; by rewrite <- Hspec|]. split; [by repeat constructor|]. by left.
Qed.

Lemma own_name s n : disc_inv s -> service_name n ->
  negb (bool_decide (local_device_name s = [])) && (strcmp n (local_device_name s) =? 0) = false -> local_device_name s <> [] -> n <> local_device_name s.
Proof.
intros Hs [Hn _] Hg Hne. rewrite bool_decide_false in Hg by done. cbn [negb andb] in Hg. rewrite strcmp_eqb in Hg by (done || apply Hs).
by apply bool_decide_eq_false in Hg.
Qed.

Lemma wp_dispatch e k s (Q : unit -> nat -> DiscoveryState -> Prop) : disc_inv s -> event_ok e ->
  (forall k' calls s', disc_step [e] s calls s' -> Q tt k' s') -> wp (avahi_dispatch e) Q k s.
Proof.
intros Hs He HQ. pose proof (disc_step_none [e] s Hs) as Hnone. destruct e as [event name|r event address port|state|failed]; cbn [avahi_dispatch].
- unfold browse_callback. apply wp_bind, wp_get, wp_if; intros Hg; [by eapply wp_ret, HQ|].
  destruct event, name as [name|]; try (by eapply wp_ret, HQ); try (apply wp_say; intros o; by eapply HQ, disc_step_out);
    (apply andb_false_iff in Hg as [Hg|Hg]; [by vm_compute in Hg|]); pose proof (own_name s name Hs He Hg) as Hown.
  + apply wp_bind, wp_ask, wp_if; intros _; [|by eapply wp_ret, HQ]. apply wp_modify. eapply (HQ _ []).
    split; [destruct Hs; split; try done; cbn [resolvers set_resolvers local_device_name]; apply Forall_app; split; [done|by constructor]|].
    split; [done|]. split; [done|]. split; [constructor|]. cbn [resolvers set_resolvers]. intros n Hn. apply elem_of_app in Hn as [Hn|Hn]; [by left|right].
    apply list_elem_of_singleton in Hn as ->. by left.
  + apply wp_bind, wp_zoom. eapply wp_mono; [apply wp_inactive; [apply Hs|apply He]|]. intros r k1 s1 Hpost.
    edestruct (disc_step_call (EvBrowse AVAHI_BROWSER_REMOVE (Some name)) k s (RInactive name)) as [calls Hstep]; [done| | |exact Hpost|
      by apply wp_if; intros _; [apply wp_say; intros o; eapply HQ, disc_step_out|eapply wp_ret, HQ]].
    * by exists name.
    * cbn [asked_by]. by left.
- apply wp_bind, wp_get. destruct (resolvers s !! r) as [name|] eqn:Hr; [|by eapply wp_ret, HQ]. unfold resolve_callback. apply wp_bind.
  assert (Hin : name ∈ resolvers s) by by eapply list_elem_of_lookup_2.
  destruct (proj1 (Forall_forall _ _) (di_open _ Hs) name Hin) as [Hname Hown].
  assert (Hclose : forall calls s1, disc_step [EvResolve r event address port] s calls s1 -> resolvers s1 = resolvers s ->
    disc_step [EvResolve r event address port] s calls (set_resolvers (delete r (resolvers s1)) s1)).
  { intros calls s1 (H1 & H2 & H3 & H4 & H5) Heq.
    assert (Hsub : forall n, n ∈ delete r (resolvers s1) -> n ∈ resolvers s1) by (intros n; apply elem_of_delete).
    split; [|split; [done|split; [done|split; [done|intros n Hn; by apply H5, Hsub]]]].
    destruct H1 as [R1 R2 R3]. split; try done. cbn [resolvers set_resolvers local_device_name]. apply Forall_forall. intros n Hn.
    by apply (proj1 (Forall_forall _ _) R3), Hsub. }
  destruct event, address as [a|]; try (apply wp_ret, wp_modify; by eapply HQ, Hclose).
  destruct He as (Ha & Hla & Hp). unfold snprintf. rewrite sprintf_str, take_ge by (simpl; lia).
  apply wp_bind, wp_zoom. eapply wp_mono; [apply wp_add; [apply Hs|split; [apply Hname|split; [done|split; [lia|done]]]]|].
  intros r1 k1 s1 Hpost.
  edestruct (disc_step_call (EvResolve r AVAHI_RESOLVER_FOUND (Some a) port) k s (RAdd name a port)) as [calls Hstep];
    [done| | |exact Hpost|
    apply wp_if; intros _; apply wp_say; intros o; apply wp_modify; refine (HQ _ _ _ (Hclose _ _ (disc_step_out _ _ _ _ _ Hstep) eq_refl))].
  + by exists name.
  + split; [exists r; by left|by left].
- assert (Hg : disc_step [EvGroup state] s [] (set_group Live s)) by (split; [by destruct Hs|]; split_and!; try done; by left).
  unfold entry_group_callback. apply wp_bind, wp_modify. destruct state; [| |by eapply wp_ret, HQ]; apply wp_say; intros o; by eapply HQ, disc_step_out.
- unfold client_callback. apply wp_if; intros _; [apply wp_say; intros o; by eapply HQ, disc_step_out|by eapply wp_ret, HQ].
Qed.

Lemma replay_app c1 c2 m : replay (c1 ++ c2) m = replay c2 (replay c1 m).
Proof. apply foldl_app. Qed.

Lemma asked_by_more es es' open open' c : (forall e, e ∈ es -> e ∈ es') ->
  (forall n, n ∈ open -> n ∈ open' \/ EvBrowse AVAHI_BROWSER_NEW (Some n) ∈ es') -> asked_by es open c -> asked_by es' open' c.
Proof.
intros He Ho. destruct c; cbn; try done; [|by auto]. intros [[r Hr] [Hn|Hn]]; (split; [exists r; by auto|]); [by auto|right; by auto].
Qed.

Lemma disc_step_trans e es s1 c1 s2 c2 s3 : disc_step [e] s1 c1 s2 -> disc_step es s2 c2 s3 -> disc_step (e :: es) s1 (c1 ++ c2) s3.
Proof.
intros (H1 & L1 & V1 & F1 & O1) (H2 & L2 & V2 & F2 & O2).
assert (Hn1 : forall n, n ∈ resolvers s2 -> n ∈ resolvers s1 \/ EvBrowse AVAHI_BROWSER_NEW (Some n) ∈ e :: es).
{ intros n Hn. destruct (O1 n Hn) as [?|Hx]; [by left|right]. apply list_elem_of_singleton in Hx as <-. by left. }
split; [done|]. split; [congruence|]. split; [by rewrite replay_app, V2, V1|]. split.
- apply Forall_app. split; eapply Forall_impl; [exact F1| |exact F2|]; intros [t c] [Hf Ha]; cbn in *; rewrite ?L1 in Hf; (split; [done|]).
  + eapply asked_by_more; [| |exact Ha]; [intros x Hx; apply list_elem_of_singleton in Hx as ->; by left|by left].
  + eapply asked_by_more; [| |exact Ha]; [intros x Hx; by right|exact Hn1].
- intros n Hn. destruct (O2 n Hn) as [Hx|Hx]; [by apply Hn1|right; by right].
Qed.

Lemma wp_iterate events k s (Q : unit -> nat -> DiscoveryState -> Prop) : disc_inv s -> Forall event_ok events ->
  (forall k' calls s', disc_step events s calls s' -> Q tt k' s') -> wp (avahi_simple_poll_iterate events) Q k s.
Proof.
intros Hs He. revert k s Hs Q. induction He as [|e es He Hes IH]; intros k s Hs Q HQ; cbn [avahi_simple_poll_iterate].
{ eapply wp_ret, HQ. by apply disc_step_none. }
apply wp_bind, wp_dispatch; [done|done|]. intros k1 c1 s1 H1. apply IH; [apply H1|]. intros k2 c2 s2 H2. by eapply HQ, disc_step_trans.
Qed.

(** ** The device's own name *)

Lemma own_kept t c m local ep p : foreign local c -> local <> [] ->
  (registry_spec t c m).2 !! ep = Some p -> pi_name p = local -> m !! ep = Some p.
Proof.
intros (n & Hc & [_ Hlen] & Hne) Hl Hp Hname. specialize (Hne Hl).
assert (Ht : take 255 n = n) by (apply take_ge; lia).
destruct c as [n' ip port|n'|ip port b|ip port]; cbn [call_name] in Hc; try discriminate Hc; injection Hc as ->; cbn [registry_spec] in Hp.
- assert (Hins : forall q, pi_name q = n -> <[(ip, port) := q]> m !! ep = Some p -> m !! ep = Some p).
  { intros q Hq Hin. apply lookup_insert_Some in Hin as [[_ ->]|[_ ?]]; [congruence|done]. }
  destruct (m !! (ip, port)) as [q|]; [by apply (Hins (refreshed n t q) Ht)|]. destruct (_ <? _)%nat; [by apply (Hins (discovered n ip port t) Ht)|done].
- cbn [snd] in Hp. rewrite lookup_fmap_Some in Hp. destruct Hp as (q & Hq & Hm). unfold inactivate in Hq.
  destruct (streq (pi_name q) n) eqn:Hs; [|by subst]. apply streq_true in Hs. subst p. cbn in Hname. congruence.
Qed.

Lemma replay_own local calls m ep p : Forall (fun tc => foreign local tc.2) calls -> local <> [] ->
  replay calls m !! ep = Some p -> pi_name p = local -> m !! ep = Some p.
Proof.
intros Hc Hl. revert m. induction Hc as [|[t c] calls Hf Hc IH]; intros m Hp Hn; [done|]. cbn [replay foldl] in Hp.
eapply (own_kept t c m local); [done|done|by apply IH|done].
Qed.

Lemma wp_poll events k s (Q : unit -> nat -> DiscoveryState -> Prop) : disc_inv s -> Forall event_ok events ->
  (forall k' calls s', disc_step events s calls s' -> Q tt k' s') -> wp (discovery_poll events) Q k s.
Proof.
intros Hs He HQ. unfold discovery_poll. apply wp_bind, wp_get, wp_if; intros _; [by apply wp_iterate|].
apply wp_ret. eapply HQ. destruct (disc_step_none events s Hs) as (H1 & H2 & H3 & H4 & H5). by split_and!.
Qed.

(** C16: discovery.  Whatever Avahi reports, in whatever order, the registry
    ends as the map operations leave it for a sequence of calls each of which
    was asked for: a peer is entered or refreshed only with an address a
    resolver found for a name that was announced, and made inactive only when
    its service ended.  The device's own name is never entered or touched. *)
Theorem discovery_correct events k s k' s' :
  disc_inv s -> Forall event_ok events -> discovery_poll events k s = (tt, (k', s')) ->
  disc_inv s' /\ exists calls,
    reg_view (d_registry s') = replay calls (reg_view (d_registry s)) /\
    Forall (fun tc => asked_by events (resolvers s) tc.2) calls /\
    (local_device_name s <> [] -> forall ep p, reg_view (d_registry s') !! ep = Some p -> pi_name p = local_device_name s ->
       reg_view (d_registry s) !! ep = Some p).
Proof.
intros Hs He Hrun. refine (wp_use _ (fun _ _ s1 => disc_inv s1 /\ exists calls, _ = replay calls _ /\ _ /\ _) _ _ _ _ _ _ Hrun).
apply wp_poll; [done..|]. intros k1 calls s1 (H1 & _ & H3 & H4 & _). split; [done|]. exists calls. split; [done|].
split; [eapply Forall_impl; [exact H4|]; by intros x []|].
intros Hl ep p Hp Hn. rewrite H3 in Hp. eapply replay_own; [|exact Hl|exact Hp|exact Hn]. eapply Forall_impl; [exact H4|]. by intros x [].
Qed.

(** All of Avahi's objects are in use; all have been given back; or there is
    no browser, and nothing was given back. *)
Definition disc_live s : Prop := simple_poll s = Live /\ client s = Live /\ group s = Live /\ browser s = Live.
Definition given_back s : Prop := simple_poll s = Freed /\ client s = Freed /\ group s = Freed /\ browser s = Freed.
Definition unavailable s : Prop := simple_poll s <> Freed /\ client s <> Freed /\ group s <> Freed /\ browser s = Null.

(** Start-up leaves the registry alone. *)
Definition initialised (name : cstring) (r : RegistryState) (v : Z) s : Prop :=
  disc_inv s /\ d_registry s = r /\ local_device_name s = take 255 name /\
  ((v = 0 /\ disc_live s) \/ (v = -1 /\ unavailable s)).

(** The state while discovery opens its objects. *)
Definition opening (name : cstring) (r : RegistryState) (p c g b : handle) s : Prop :=
  (simple_poll s = p /\ client s = c /\ group s = g /\ browser s = b) /\ local_device_name s = take 255 name /\ resolvers s = [] /\ d_registry s = r.

Section Opening.
Context (name : cstring) (r : RegistryState) (Hn : c_string name) (Hr : reg_ready r).

Lemma opening_inv p c g b s : opening name r p c g b s -> disc_inv s.
Proof.
intros (_ & Hl & Ho & Hreg). split; [by rewrite Hreg| |rewrite Ho; constructor].
rewrite Hl. split; [by apply c_string_take|rewrite length_take; lia].
Qed.

(** Nothing of it was given back. *)
Definition partly p c g b : Prop := p <> Freed /\ c <> Freed /\ g <> Freed /\ b = Null.

Lemma opening_ends p c g b k s v : opening name r p c g b s ->
  (v = -1 /\ partly p c g b) \/ (v = 0 /\ p = Live /\ c = Live /\ g = Live /\ b = Live) ->
  wp (ret v) (fun v _ s => initialised name r v s) k s.
Proof.
intros Ho Hv. pose proof (opening_inv _ _ _ _ _ Ho) as Hi. destruct Ho as ((Hp & Hc & Hg & Hb) & Hl & _ & Hreg). apply wp_ret.
destruct Hv as [[-> Hpart]|(-> & -> & -> & -> & ->)]; split_and!; try done; [right|left]; (split; [done|]); unfold unavailable, disc_live;
  rewrite Hp, Hc, Hg, Hb; [exact Hpart|done].
Qed.

Lemma opening_fails p c g b k s fs : opening name r p c g b s -> partly p c g b -> wp (say fs ;; ret (-1)) (fun v _ s => initialised name r v s) k s.
Proof. intros Ho Hp. apply wp_bind, wp_say. intros o. eapply opening_ends; [exact Ho|by left]. Qed.
Lemma opening_error p c g b k s text : opening name r p c g b s -> partly p c g b -> wp (say_error text ;; ret (-1)) (fun v _ s => initialised name r v s) k s.
Proof. intros Ho Hp. apply wp_bind, wp_say_error. intros k' o. eapply opening_ends; [exact Ho|by left]. Qed.

(** One more object, or a failure. *)
Lemma wp_new_object (set : handle -> DiscoveryState -> DiscoveryState) (fail next : M DiscoveryState Z) (P : handle -> DiscoveryState -> Prop) k s
    (Q : Z -> nat -> DiscoveryState -> Prop) :
  (forall h, P h (set h s)) -> (forall k' s', P Null s' -> wp fail Q k' s') -> (forall k' s', P Live s' -> wp next Q k' s') ->
  wp (ok <- avahi_new ;; modify (set (if ok : bool then Live else Null)) ;; if negb ok then fail else next) Q k s.
Proof.
intros HP Hf Hnext. apply wp_bind, wp_ask. apply wp_bind, wp_modify. destruct (avahi_created k); cbn [negb]; [apply Hnext|apply Hf]; apply HP.
Qed.
End Opening.

Lemma wp_discovery_init name port k r out : reg_ready r -> c_string name ->
  wp (discovery_init name port) (fun v _ s => initialised name r v s) k (discovery_boot r out).
Proof.
intros Hr Hn. unfold discovery_init. apply wp_bind, wp_modify. unfold snprintf. rewrite sprintf_str.
apply (wp_new_object set_simple_poll _ _ (fun h => opening name r h Null Null Null)); [done|intros; by eapply opening_fails|]. intros k1 s1 H1.
apply (wp_new_object set_client _ _ (fun h => opening name r Live h Null Null));
  [by intros h; destruct H1 as ((? & ? & ? & ?) & ?)|intros; by eapply opening_error|]. intros k2 s2 H2.
apply (wp_new_object set_group _ _ (fun h => opening name r Live Live h Null));
  [by intros h; destruct H2 as ((? & ? & ? & ?) & ?)|intros; by eapply opening_fails|]. intros k3 s3 H3.
do 2 (apply wp_bind, wp_ask, wp_if; intros _; [by eapply opening_error|]).
apply (wp_new_object set_browser _ _ (fun h => opening name r Live Live Live h));
  [by intros h; destruct H3 as ((? & ? & ? & ?) & ?)|intros; by eapply opening_fails|]. intros k4 s4 H4.
apply wp_bind, wp_say. intros o. eapply opening_ends; [done|done|exact H4|by right].
Qed.
End Discovery.
