(* ===== verification/Main.v ===== *)
(** * Main: start-up, the loop and shutdown (src/main.c)

    The network interfaces, libqrencode and what Avahi reports in a round are
    parameters.  [main] runs for a given number of rounds, after which SIGINT
    has cleared [keep_running], with the requests that are open then given.
    The requests of the loop are in System.v.  What [main] prints is kept in
    [p_out]. *)

From stdpp Require Import base numbers list strings gmap.
From Stdlib Require Import ZArith Lia Ascii.
From S2P Require Import Prelude Effects CLib Storage Auth PeerRegistry TransferQueue Transfer Server Discovery.

Definition PORT : Z := 8080.

(** One entry of [getifaddrs]: whether it has an IPv4 address, and what
    [getnameinfo] makes of it. *)
Record ifaddrs := { ifa_inet : bool; ifa_host : option cstring }.

Class Machine := {
  getifaddrs : nat -> option (list ifaddrs);
  QRcode_encodeString : nat -> cstring -> option (nat * list Z); (* width and modules *)
  avahi_reports : nat -> list avahi_event                        (* what one iteration calls back *)
}.

(** [p_fault]: an object was freed twice, or a thread could not be joined. *)
Record Program := { p_world : World; p_disc : DiscoveryState; p_daemon : bool; p_out : cstring; p_fault : bool }.

Definition set_p_world v p := {| p_world := v; p_disc := p_disc p; p_daemon := p_daemon p; p_out := p_out p; p_fault := p_fault p |}.
Definition set_p_disc v p := {| p_world := set_w_registry (d_registry v) (p_world p); p_disc := v; p_daemon := p_daemon p;
  p_out := d_out v; p_fault := p_fault p |}.
Definition set_p_daemon v p := {| p_world := p_world p; p_disc := p_disc p; p_daemon := v; p_out := p_out p; p_fault := p_fault p |}.
Definition set_p_out v p := {| p_world := p_world p; p_disc := p_disc p; p_daemon := p_daemon p; p_out := v; p_fault := p_fault p |}.
Definition set_p_fault v p := {| p_world := p_world p; p_disc := p_disc p; p_daemon := p_daemon p; p_out := p_out p; p_fault := v |}.

(** Discovery sees the registry and the output of the program. *)
Definition disc_view (p : Program) : DiscoveryState := set_d_out (p_out p) (set_d_registry (w_registry (p_world p)) (p_disc p)).
Definition on_world {A} (m : M World A) : M Program A := zoom p_world set_p_world m.
Definition on_discovery {A} (m : M DiscoveryState A) : M Program A := zoom disc_view set_p_disc m.

Definition main_boot (fs : FileSystem) : Program := {|
  p_world := {| w_auth := auth_boot; w_registry := registry_boot; w_queue := queue_boot fs; w_curl_ready := false; w_sent := []; w_server_port := 0 |};
  p_disc := discovery_boot registry_boot []; p_daemon := false; p_out := []; p_fault := false |}.

(** ** Helpers *)

Fixpoint find_host (ifa : list ifaddrs) : cstring :=
  match ifa with
  | [] => snprintf 1025 [Lit (lit "127.0.0.1")]
  | a :: ifa' =>
      if negb (ifa_inet a) then find_host ifa'
      else match ifa_host a with
           | Some host => if negb (strcmp host (lit "127.0.0.1") =? 0) then host else find_host ifa'
           | None => find_host ifa'
           end
  end.

Definition block : cstring := map chr [226; 150; 136; 226; 150; 136].

Section Main.
Context `{E : Env} `{C : Curl} `{I : Inet} `{H : Host} `{A : Avahi} `{N : Machine}.

(** [static char host[NI_MAXHOST]]: never NULL. *)
Definition get_local_ip : M Program (option cstring) :=
  ifaddr <- ask getifaddrs ;;
  match ifaddr with
  | None => ret (Some (snprintf 1025 [Lit (lit "127.0.0.1")]))
  | Some ifaddr => ret (Some (find_host ifaddr))
  end.

Definition printf (text : cstring) : M Program unit := modify (fun p => set_p_out (p_out p ++ text) p).

Definition print_row (size : nat) (data : list Z) (y : nat) : cstring :=
  block ++ mjoin ((fun x => if negb (Z.land (data !!! (y * size + x)%nat) 1 =? 0) then lit "  " else block) <$> seq 0 size) ++ block ++ [newline].
Definition print_bar (size : nat) : cstring := mjoin (replicate (size + 2) block).

Definition print_qrcode (text : cstring) : M Program unit :=
  qrcode <- ask (fun k => QRcode_encodeString k text) ;;
  match qrcode with
  | None => printf (lit "❌ Erro ao gerar QR code" ++ [newline])
  | Some (size, data) =>
      printf [newline] ;;
      printf (print_bar size ++ [newline]) ;;
      printf (mjoin (print_row size data <$> seq 0 size)) ;;
      printf (print_bar size ++ [newline; newline])
  end.

(** A failing start: the message, what was started so far undone, status 1. *)
Definition abandon (message : string) (undo : M Program unit) : M Program (Z + bool) :=
  printf (lit message ++ [newline]) ;; undo ;; ret (inl 1).

Context (send : cstring -> cstring -> Z -> cstring -> list (Z * Z) * Z).

(** The queue is joined: its worker runs until the queue is empty. *)
Definition shutdown_queue : M Program unit :=
  joined <- on_world (on_queue (transfer_queue_shutdown send (S MAX_TRANSFER_JOBS))) ;;
  if negb joined then modify (set_p_fault true) else ret tt.
Definition cleanup_discovery : M Program unit :=
  ok <- on_discovery discovery_cleanup ;;
  if negb ok then modify (set_p_fault true) else ret tt.

(** The tails of the cleanup sequence. *)
Definition undo_registry : M Program unit := on_world (on_registry peer_registry_cleanup).
Definition undo_transfer : M Program unit := on_world (on_transfer transfer_global_cleanup) ;; undo_registry.
Definition undo_auth : M Program unit := on_world (on_auth auth_cleanup) ;; undo_transfer.
Definition undo_storage : M Program unit := on_world (on_storage storage_cleanup) ;; undo_auth.
Definition undo_queue : M Program unit := shutdown_queue ;; undo_storage.
Definition undo_all (discovery_enabled : bool) : M Program unit :=
  (if discovery_enabled then cleanup_discovery else ret tt) ;; undo_queue.

(** Up to the loop: the exit status of a failed start, or [discovery_enabled]. *)
Definition main_start : M Program (Z + bool) :=
  ip <- get_local_ip ;;
  r <- on_world (on_registry peer_registry_init) ;;
  if negb (r =? 0) then abandon "❌ Erro ao inicializar o registro de peers" (ret tt)
  else
    r <- on_world (on_transfer transfer_global_init) ;;
    if negb (r =? 0) then abandon "❌ Erro ao inicializar libcurl" undo_registry
    else
      r <- on_world (on_auth auth_init) ;;
      if negb (r =? 0) then abandon "❌ Erro ao inicializar autenticacao local" undo_transfer
      else
        r <- on_world (on_storage storage_init) ;;
        if negb (r =? 0) then abandon "❌ Erro ao inicializar armazenamento local" undo_auth
        else
          r <- on_world (on_queue transfer_queue_init) ;;
          if negb (r =? 0) then abandon "❌ Erro ao inicializar fila de transferencias" undo_storage
          else
            match ip with
            | None => abandon "❌ Não foi possível obter o IP local" undo_queue
            | Some ip =>
                name <- ask host_name ;;
                stack <- ask stack_text ;;
                let hostname := take 255 (default stack name) in
                let url := snprintf 1200 [Lit (lit "http://"); Str ip; Lit (lit ":"); Long PORT] in
                printf (lit "🚀 LocalDrop iniciado!" ++ [newline; newline]) ;;
                printf (lit "📱 Escaneie o QR code:" ++ [newline]) ;;
                print_qrcode url ;;
                printf (lit "💡 Ou acesse: " ++ url ++ [newline; newline]) ;;
                let* (r, admin_code) := on_world (on_auth (auth_get_admin_code (Some 16%nat))) in
                (if r =? 0 then printf (lit "🔐 Codigo administrativo local: " ++ default [] admin_code ++ [newline; newline]) else ret tt) ;;
                r <- on_discovery (discovery_init hostname PORT) ;;
                (if r <? 0 then printf (lit "⚠️  Descoberta mDNS indisponivel; iniciando apenas o servidor web" ++ [newline]) else ret tt) ;;
                let discovery_enabled := negb (r <? 0) in
                daemon <- on_world (server_start PORT) ;;
                modify (set_p_daemon daemon) ;;
                if negb daemon then abandon "❌ Erro ao iniciar servidor" (undo_all discovery_enabled)
                else
                  printf (lit "⏳ Aguardando conexões... (Ctrl+C para sair)" ++ [newline; newline]) ;;
                  ret (inr discovery_enabled)
            end.

Definition main_round (discovery_enabled : bool) : M Program unit :=
  if discovery_enabled then events <- ask avahi_reports ;; on_discovery (discovery_poll events) else ret tt.

Fixpoint main_loop (rounds : nat) (discovery_enabled : bool) : M Program unit :=
  match rounds with
  | O => ret tt
  | S rounds' => main_round discovery_enabled ;; main_loop rounds' discovery_enabled
  end.

(** [open]: the requests that are open when the program is stopped. *)
Definition main_stop (discovery_enabled : bool) (open : list (option connection_info)) : M Program Z :=
  printf ([newline] ++ lit "🛑 Encerrando..." ++ [newline]) ;;
  p <- get ;;
  daemon <- on_world (server_stop (p_daemon p) open) ;;
  modify (set_p_daemon daemon) ;;
  undo_all discovery_enabled ;;
  ret 0.

Definition main (rounds : nat) (open : list (option connection_info)) : M Program Z :=
  started <- main_start ;;
  match started with
  | inl status => ret status
  | inr discovery_enabled => main_loop rounds discovery_enabled ;; main_stop discovery_enabled open
  end.
End Main.
