(* ===== verification/MainSpec.v ===== *)
(** * MainSpec: what start-up and shutdown leave behind *)

From stdpp Require Import base numbers list strings gmap.
From Stdlib Require Import ZArith Lia Ascii.
From S2P Require Import Prelude Effects CLib Crypto Storage Auth AuthSpec AuthLife PeerRegistry PeerRegistrySpec TransferQueue TransferQueueSpec TransferQueueSystem.
From S2P Require Import Transfer Server ServerSpec ServerInvariant Discovery DiscoverySpec Main.

(** The host's name is a C string. *)
Class HostOk (H : Host) : Prop := {
  host_name_c k n : host_name k = Some n -> c_string n;
  stack_text_c k : c_string (stack_text k) }.

(** ** The state of the modules *)

Definition auth_off (s : AuthState) : Prop := auth_initialized s = false /\ auth_lock s = MUninit.
Definition queue_off (s : QueueState) : Prop := queue_initialized s = false /\ queue_lock s = MUninit.

(** Which modules run; the queue's worker is between jobs. *)
Definition modules (reg curl auth queue : bool) (p : Program) : Prop :=
  let w := p_world p in
  (if reg then reg_ready (w_registry w) else reg_off (w_registry w)) /\
  w_curl_ready w = curl /\
  (if auth then auth_good (w_auth w) else auth_off (w_auth w)) /\
  (if queue then sys_inv {| sys_queue := w_queue w; sys_worker := Idle |} else queue_off (w_queue w)) /\
  p_fault p = false.

(** What is left of discovery: if it was [enabled] each of its objects has been
    given back; if not there never was a browser. *)
Definition disc_over (enabled : bool) (s : DiscoveryState) : Prop := if enabled then given_back s else unavailable s.

(** Nothing runs any more, and nothing went wrong on the way. *)
Definition all_down (enabled : bool) (p : Program) : Prop :=
  modules false false false false p /\ p_daemon p = false /\ disc_over enabled (p_disc p).

Section Undo.
Context `{E : Env} {R : RandOk E} {L : LocksOk E} `{C : Curl} `{I : Inet} `{H : Host} `{A : Avahi} `{N : Machine}.
Context (send : cstring -> cstring -> Z -> cstring -> list (Z * Z) * Z).
Implicit Types (p : Program) (k : nat).

(** An [undo] takes the modules down and leaves the daemon and discovery as
    they are. *)
Definition takes_down (m : M Program unit) (reg curl auth queue : bool) (reg' curl' auth' queue' : bool) : Prop :=
  forall k p, modules reg curl auth queue p ->
    wp m (fun _ _ p' => modules reg' curl' auth' queue' p' /\ p_daemon p' = p_daemon p /\ p_disc p' = p_disc p) k p.

Lemma takes_down_seq m1 m2 r1 c1 a1 q1 r2 c2 a2 q2 r3 c3 a3 q3 :
  takes_down m1 r1 c1 a1 q1 r2 c2 a2 q2 -> takes_down m2 r2 c2 a2 q2 r3 c3 a3 q3 -> takes_down (m1 ;; m2) r1 c1 a1 q1 r3 c3 a3 q3.
Proof.
intros H1 H2 k p Hp. apply wp_bind. eapply wp_mono; [by apply H1|]. intros _ k1 p1 (Hp1 & Hd1 & Hs1).
eapply wp_mono; [by apply H2|]. intros _ k2 p2 (Hp2 & Hd2 & Hs2). split; [done|split; congruence].
Qed.

Lemma down_nothing r c a q : takes_down (ret tt) r c a q r c a q.
Proof. intros k p Hp. by apply wp_ret. Qed.

Lemma down_registry c a q : takes_down undo_registry true c a q false c a q.
Proof.
intros k p (Hr & Hrest). apply wp_zoom, wp_zoom. unfold peer_registry_cleanup. apply wp_bind, wp_get. pose proof (reg_free _ Hr) as Hl.
destruct Hr as [_ Hi]. rewrite Hi. reduce_tests. apply wp_bind. unfold pthread_destroy. apply wp_modify, wp_modify.
split; [|done]. split; [|exact Hrest]. split; [done|]. cbn. by rewrite Hl.
Qed.

Lemma down_curl r c a q : takes_down (on_world (on_transfer transfer_global_cleanup)) r c a q r false a q.
Proof.
intros k p (Hr & Hc & Ha & Hq & Hf). apply wp_zoom, wp_zoom. unfold transfer_global_cleanup. apply wp_bind, wp_get.
assert (Hq' : set_queue_fs (queue_fs (w_queue (p_world p))) (w_queue (p_world p)) = w_queue (p_world p)) by by destruct (w_queue (p_world p)).
apply wp_if; intros Hcurl; [apply wp_ret|apply wp_modify]; (split; [|done]); unfold modules; cbn; rewrite Hq'; repeat split; try done.
by apply negb_true_iff in Hcurl.
Qed.

Lemma down_auth r c q : takes_down (on_world (on_auth auth_cleanup)) r c true q r c false q.
Proof.
intros k p (Hr & Hc & Ha & Hrest). apply wp_zoom, wp_zoom. unfold auth_cleanup. apply wp_bind, wp_get. pose proof (ready_lock _ (proj1 Ha)) as Hl.
destruct Ha as [[_ Hi] _]. rewrite Hi. reduce_tests. apply wp_bind. unfold pthread_destroy. apply wp_modify, wp_modify.
split; [|done]. split; [done|]. split; [done|]. split; [|exact Hrest]. split; [done|]. cbn. by rewrite Hl.
Qed.

Lemma idle_at_rest q : sys_inv {| sys_queue := q; sys_worker := Idle |} -> at_rest q.
Proof. intros [Hr Hi Hs Ho]. split; [done|]. intros i Hi1 Hf. by destruct (Ho i Hi1 Hf). Qed.

Lemma down_queue r c a : takes_down (shutdown_queue send) r c a true r c a false.
Proof.
intros k p (Hr & Hc & Ha & Hq & Hf). unfold shutdown_queue. apply wp_bind, wp_zoom, wp_zoom.
pose proof (idle_at_rest _ Hq) as Hrest. pose proof (si_init _ Hq) as Hi. cbn in Hi.
eapply wp_mono; [apply wp_shutdown; [done|done|]|]. { pose proof (q_count _ (proj1 (proj1 Hrest))). unfold MAX_TRANSFER_JOBS in *. lia. }
intros b k1 q1 (-> & Hl & Hd & _). apply wp_if; intros Hb; [done|]. apply wp_ret. split; [|done]. by repeat split.
Qed.

Lemma down_transfer c a q : takes_down undo_transfer true c a q false false a q.
Proof. eapply takes_down_seq; [apply down_curl|apply down_registry]. Qed.
Lemma down_auths c q : takes_down undo_auth true c true q false false false q.
Proof. eapply takes_down_seq; [apply down_auth|apply down_transfer]. Qed.
Lemma down_storage c q : takes_down undo_storage true c true q false false false q.
Proof.
eapply takes_down_seq; [|apply down_auths]. intros k p Hp. apply wp_zoom, wp_on_storage, wp_ret. split; [|done].
destruct p as [[wa wr wq wc ws wp] ? ? ? ?]. cbn. by destruct wq.
Qed.
Lemma down_queues c : takes_down (undo_queue send) true c true true false false false false.
Proof. eapply takes_down_seq; [apply down_queue|apply down_storage]. Qed.
End Undo.

(** ** Discovery *)

Section Rounds.
Context `{E : Env} `{A : Avahi}.
Implicit Types (s : DiscoveryState).

Lemma dispatch_live e k s : disc_live s -> wp (avahi_dispatch e) (fun _ _ s' => disc_live s') k s.
Proof.
intros Hs.
assert (Hreg : forall B (m : M RegistryState B) k s, disc_live s -> wp (on_d_registry m) (fun _ _ s' => disc_live s') k s).
{ intros B m k1 s1 H1. by apply wp_zoom, wp_intro. }
assert (Hsay : forall fs k s, disc_live s -> wp (say fs) (fun _ _ s' => disc_live s') k s) by (intros fs k1 s1 H1; by apply wp_modify).
destruct e as [event name|r event address port|state|failed]; cbn [avahi_dispatch].
- unfold browse_callback. apply wp_bind, wp_get, wp_if; intros _; [by apply wp_ret|].
  destruct event, name as [name|]; try (by apply wp_ret); try (by apply Hsay).
  + apply wp_bind, wp_ask, wp_if; intros _; [by apply wp_modify|by apply wp_ret].
  + apply wp_bind. eapply wp_mono; [by apply Hreg|]. intros r k1 s1 H1. apply wp_if; intros _; [by apply Hsay|by apply wp_ret].
- apply wp_bind, wp_get. destruct (resolvers s !! r) as [name|]; [|by apply wp_ret]. unfold resolve_callback. apply wp_bind.
  destruct event, address as [a|]; try by apply wp_ret, wp_modify.
  apply wp_bind. eapply wp_mono; [by apply Hreg|]. intros r1 k1 s1 H1.
  apply (wp_mono _ (fun _ _ s' => disc_live s')); [|intros; by apply wp_modify]. apply wp_if; intros _; by apply Hsay.
- unfold entry_group_callback. apply wp_bind, wp_modify. assert (H1 : disc_live (set_group Live s)) by (destruct Hs as (? & ? & _ & ?); by split_and!).
  destruct state; [by apply Hsay|by apply Hsay|by apply wp_ret].
- unfold client_callback. apply wp_if; intros _; [by apply Hsay|by apply wp_ret].
Qed.

Lemma poll_live events k s : disc_live s -> wp (discovery_poll events) (fun _ _ s' => disc_live s') k s.
Proof.
intros Hs. unfold discovery_poll. apply wp_bind, wp_get, wp_if; intros _; [|by apply wp_ret].
revert k s Hs. induction events as [|e events IH]; intros k s Hs; cbn [avahi_simple_poll_iterate]; [by apply wp_ret|].
apply wp_bind. eapply wp_mono; [by apply dispatch_live|]. intros ? k1 s1 H1. by apply IH.
Qed.

Lemma poll_inv events k s : disc_inv s -> Forall event_ok events -> wp (discovery_poll events) (fun _ _ s' => disc_inv s') k s.
Proof. intros Hs He. apply wp_poll; [done..|]. by intros k1 calls s1 [? _]. Qed.
End Rounds.

(** What Avahi reports fits its types. *)
Class MachineOk (N : Machine) : Prop := reports_ok k : Forall event_ok (avahi_reports k).

(** No file is queued, no request has been made, and the queue is open. *)
Definition fresh (p : Program) : Prop :=
  waiting (w_queue (p_world p)) = [] /\ w_sent (p_world p) = [] /\ queue_running (w_queue (p_world p)) = true.

(** Discovery as the loop finds it. *)
Definition disc_on (enabled : bool) (s : DiscoveryState) : Prop := if enabled then disc_live s else unavailable s.

(** The program in its loop. *)
Definition running (discovery_enabled : bool) (p : Program) : Prop :=
  modules true true true true p /\ p_daemon p = true /\ disc_inv (disc_view p) /\ disc_on discovery_enabled (p_disc p).

Section Stop.
Context `{E : Env} {R : RandOk E} {L : LocksOk E} `{C : Curl} `{I : Inet} `{H : Host} `{A : Avahi} `{N : Machine} {NO : MachineOk N}.
Context (send : cstring -> cstring -> Z -> cstring -> list (Z * Z) * Z).
Implicit Types (p : Program) (k : nat).

Lemma wp_undo_all (enabled : bool) k p : modules true true true true p -> p_daemon p = false -> disc_on enabled (p_disc p) ->
  wp (undo_all send enabled) (fun _ _ p' => all_down enabled p') k p.
Proof.
intros Hm Hd Hon.
assert (Hrest : forall k1 p1, modules true true true true p1 -> p_daemon p1 = false -> disc_over enabled (p_disc p1) ->
  wp (undo_queue send) (fun _ _ p' => all_down enabled p') k1 p1).
{ intros k1 p1 Hm1 Hd1 Ho1. eapply wp_mono; [exact (down_queues send true k1 p1 Hm1)|]. intros ? k2 p2 (H1 & H2 & H3).
  split; [done|]. split; [congruence|]. by rewrite H3. }
unfold undo_all. apply wp_bind. destruct enabled; [|by apply wp_ret, Hrest]. destruct Hon as (H1 & H2 & H3 & H4).
unfold cleanup_discovery. apply wp_bind, wp_zoom. unfold discovery_cleanup. apply wp_bind, wp_get. cbn [browser group client simple_poll disc_view set_d_registry set_d_out].
rewrite H1, H2, H3, H4. cbn [free_handle]. apply wp_bind, wp_put, wp_ret. cbn [andb negb]. apply wp_ret, Hrest; [|done|done].
by destruct p as [[] ? ? ? ?].
Qed.

(** Completing requests touches the files alone. *)
Lemma modules_fs fs p reg curl auth queue : modules reg curl auth queue p ->
  modules reg curl auth queue (set_p_world (set_w_queue (set_queue_fs fs (w_queue (p_world p))) (p_world p)) p).
Proof.
intros (H1 & H2 & H3 & H4 & H5). split; [done|]. split; [done|]. split; [done|]. split; [|done]. cbn.
destruct queue; [|exact H4]. destruct H4 as [Hr Hi Hs Ho]. by split; [apply queue_ready_fs| | |].
Qed.

Lemma wp_complete_all p open k w : modules true true true true (set_p_world w p) ->
  wp (MHD_stop_daemon open) (fun _ _ w' => modules true true true true (set_p_world w' p)) k w.
Proof.
revert k w. induction open as [|con_cls open IH]; intros k w Hw; cbn [MHD_stop_daemon]; [by apply wp_ret|]. apply wp_bind.
apply (wp_mono _ (fun _ _ w' => modules true true true true (set_p_world w' p))); [|intros ? k1 w1 H1; by apply IH].
unfold request_completed. destruct con_cls as [c|]; [|by apply wp_ret]. apply wp_if; intros _; [|by apply wp_ret].
apply wp_bind, wp_on_storage, wp_intro. intros st k1 fs1 _. apply wp_ret. exact (modules_fs fs1 _ _ _ _ _ Hw).
Qed.

Lemma wp_server_stop daemon open k p (Q : bool -> nat -> Program -> Prop) : modules true true true true p ->
  (forall k' p', modules true true true true p' -> p_disc p' = p_disc p -> Q false k' p') ->
  wp (on_world (server_stop daemon open)) Q k p.
Proof.
intros Hm HQ. apply wp_zoom. unfold server_stop. assert (H0 : modules true true true true (set_p_world (p_world p) p)) by by destruct p.
apply wp_if; intros _; [|by apply wp_ret, HQ]. apply wp_bind. eapply wp_mono; [by apply wp_complete_all|].
intros ? k1 w1 H1. by apply wp_ret, HQ.
Qed.

Lemma wp_stop (enabled : bool) open k p : running enabled p ->
  wp (main_stop send enabled open) (fun r _ p' => r = 0 /\ all_down enabled p') k p.
Proof.
intros (Hm & Hd & _ & Hon). unfold main_stop, printf. apply wp_bind, wp_modify, wp_bind, wp_get, wp_bind, wp_server_stop; [exact Hm|].
intros k1 p1 H1 Hd1. apply wp_bind, wp_modify, wp_bind. eapply wp_mono; [apply wp_undo_all; [exact H1|done|]|].
- cbn [p_disc set_p_daemon]. by rewrite Hd1.
- intros ? k2 p2 H2. by apply wp_ret.
Qed.

Lemma wp_loop rounds (enabled : bool) k p : running enabled p -> wp (main_loop rounds enabled) (fun _ _ p' => running enabled p') k p.
Proof.
revert k p. induction rounds as [|rounds IH]; intros k p Hp; cbn [main_loop]; [by apply wp_ret|]. apply wp_bind.
apply (wp_mono _ (fun _ _ p' => running enabled p')); [|intros ? k1 p1 H1; by apply IH]. unfold main_round. apply wp_if; intros He; [|by apply wp_ret].
destruct Hp as (Hm & Hd & Hi & Hl). subst enabled. apply wp_bind, wp_ask, wp_zoom.
eapply wp_mono; [apply wp_and; [by apply poll_inv|by apply poll_live]|]. intros ? k1 s1 [Hi1 Hl1].
split; [destruct Hm as (_ & Hm); split; [apply Hi1|done]|]. split; [done|]. split; [by destruct s1|done].
Qed.
End Stop.

(** ** Start-up *)

(** The modules that were started run, the others are as at boot. *)
Definition starting (reg curl auth : bool) (p : Program) : Prop :=
  let w := p_world p in
  (if reg then reg_ready (w_registry w) else w_registry w = registry_boot) /\ w_curl_ready w = curl /\
  (if auth then auth_good (w_auth w) else w_auth w = auth_boot) /\ (exists fs, w_queue w = queue_boot fs) /\
  p_fault p = false /\ p_daemon p = false /\ p_disc p = discovery_boot registry_boot [] /\ w_sent w = [].

Section Start.
Context `{E : Env} {R : RandOk E} {T : ClockMono E} {L : LocksOk E} `{C : Curl} `{I : Inet} `{H : Host} {HO : HostOk H} `{A : Avahi} `{N : Machine}.
Context (send : cstring -> cstring -> Z -> cstring -> list (Z * Z) * Z).
Implicit Types (p : Program) (k : nat).

(** Neither discovery nor the daemon runs. *)
Definition unserved reg curl auth queue p : Prop := modules reg curl auth queue p /\ p_daemon p = false /\ unavailable (p_disc p).

Lemma starting_modules reg curl auth p : starting reg curl auth p -> unserved reg curl auth false p.
Proof.
intros (Hr & Hc & Ha & [fs Hq] & Hf & Hd & Hdisc & _). split; [|by rewrite Hdisc]. split; [destruct reg; [done|by rewrite Hr]|]. split; [done|].
split; [destruct auth; [done|by rewrite Ha]|]. split; [by rewrite Hq|done].
Qed.

Lemma starting_out reg curl auth p o : starting reg curl auth p -> starting reg curl auth (set_p_out o p).
Proof. done. Qed.

(** A failing start. *)
Definition outcome_ok (r : Z + bool) (p : Program) : Prop :=
  match r with inl status => status = 1 /\ exists enabled, all_down enabled p | inr enabled => running enabled p /\ fresh p end.

Lemma wp_abandon message undo reg curl auth queue k p :
  unserved reg curl auth queue p -> takes_down undo reg curl auth queue false false false false ->
  wp (abandon message undo) (fun r _ p' => outcome_ok r p') k p.
Proof.
intros (Hm & Hd & Hs) Hu. unfold abandon, printf. apply wp_bind, wp_modify, wp_bind. eapply wp_mono; [by apply Hu|].
intros ? k1 p1 (H1 & H2 & H3). apply wp_ret. split; [done|]. exists false. split; [done|]. rewrite H2, H3. by split.
Qed.

(** *** One module after the other *)

Lemma start_registry k p (Q : Z -> nat -> Program -> Prop) : starting false false false p ->
  (forall k' p', starting true false false p' -> Q 0 k' p') ->
  (forall r k' p', r <> 0 -> unserved false false false false p' -> Q r k' p') ->
  wp (on_world (on_registry peer_registry_init)) Q k p.
Proof.
intros Hs H1 H0. pose proof (starting_modules _ _ _ _ Hs) as [(_ & Hm) Hu]. destruct Hs as (Hr & Hrest). apply wp_zoom, wp_zoom. rewrite Hr.
eapply wp_mono; [apply wp_registry_init|]. intros r k1 s1 [Hok Hbad]. destruct (decide (r = 0)) as [->|Hne].
- apply H1. split; [by apply Hok|exact Hrest].
- apply H0; [done|]. split; [|exact Hu]. split; [by apply Hbad|exact Hm].
Qed.

Lemma start_curl k p (Q : Z -> nat -> Program -> Prop) : starting true false false p ->
  (forall k' p', starting true true false p' -> Q 0 k' p') -> (forall k' p', starting true false false p' -> Q (-1) k' p') ->
  wp (on_world (on_transfer transfer_global_init)) Q k p.
Proof.
intros (Hr & Hc & Ha & [fs Hq] & Hf & Hd & Hdisc & Hsent) H1 H0. apply wp_zoom, wp_zoom. unfold transfer_global_init.
apply wp_bind, wp_get. cbn [curl_ready w_transfer]. rewrite Hc. apply wp_bind, wp_ask, wp_if; intros _; [apply wp_ret, H0|apply wp_bind, wp_modify, wp_ret, H1];
  unfold starting; cbn; rewrite Hq; split_and!; try done; by exists fs.
Qed.

Lemma start_auth k p (Q : Z -> nat -> Program -> Prop) : starting true true false p ->
  (forall k' p', starting true true true p' -> Q 0 k' p') ->
  (forall r k' p', r <> 0 -> unserved true true false false p' -> Q r k' p') ->
  wp (on_world (on_auth auth_init)) Q k p.
Proof.
intros Hs H1 H0. pose proof (starting_modules _ _ _ _ Hs) as [Hm Hd]. destruct Hs as (Hr & Hc & Ha & Hrest). apply wp_zoom, wp_zoom. rewrite Ha.
eapply wp_mono; [apply wp_auth_init|]. intros r k1 s1 [Hok Hbad]. destruct (decide (r = 0)) as [->|Hne].
- apply H1. split; [exact Hr|]. split; [exact Hc|]. split; [by apply Hok|exact Hrest].
- apply H0; [done|]. split; [|exact Hd]. destruct Hm as (M1 & M2 & _ & M4). split; [exact M1|]. split; [exact M2|]. split; [|exact M4].
  destruct (Hbad Hne) as (_ & ? & ?). by split.
Qed.

Lemma start_storage k p (Q : Z -> nat -> Program -> Prop) : starting true true true p ->
  (forall r k' p', starting true true true p' -> Q r k' p') -> wp (on_world (on_storage storage_init)) Q k p.
Proof.
intros (Hr & Hc & Ha & [fs Hq] & Hf & Hd & Hdisc & Hsent) HQ. apply wp_zoom, wp_on_storage, wp_intro. intros r k1 fs1 _. apply HQ.
unfold starting. cbn. rewrite Hq. split_and!; try done. by exists fs1.
Qed.

(** Everything runs; discovery has not started and there is no daemon. *)
Definition ready_to_serve p : Prop :=
  modules true true true true p /\ p_daemon p = false /\ p_disc p = discovery_boot registry_boot [] /\ fresh p.

Lemma start_queue k p (Q : Z -> nat -> Program -> Prop) : starting true true true p ->
  (forall k' p', ready_to_serve p' -> Q 0 k' p') ->
  (forall r k' p', r <> 0 -> unserved true true true false p' -> Q r k' p') ->
  wp (on_world (on_queue transfer_queue_init)) Q k p.
Proof.
intros Hs H1 H0. destruct Hs as (Hr & Hc & Ha & [fs Hq] & Hf & Hd & Hdisc & Hsent). apply wp_zoom, wp_zoom. rewrite Hq.
eapply wp_mono; [apply wp_queue_init|]. intros r k1 s1 [Hok Hbad]. destruct (decide (r = 0)) as [->|Hne].
- destruct (Hok eq_refl) as (Hinv & Hw & Ho). apply H1. by split_and!.
- apply H0; [done|]. split; [|split; [exact Hd|cbn; by rewrite Hdisc]]. destruct (Hbad Hne) as (_ & Hi & _ & Hl). by split_and!.
Qed.

(** Printing. *)
Lemma serve_out p o : ready_to_serve p -> ready_to_serve (set_p_out o p).
Proof. done. Qed.
Lemma wp_printf text k p (Q : unit -> nat -> Program -> Prop) : ready_to_serve p ->
  (forall k' p', ready_to_serve p' -> Q tt k' p') -> wp (printf text) Q k p.
Proof. intros Hp HQ. by apply wp_modify, HQ. Qed.
Lemma wp_qrcode text k p (Q : unit -> nat -> Program -> Prop) : ready_to_serve p ->
  (forall k' p', ready_to_serve p' -> Q tt k' p') -> wp (print_qrcode text) Q k p.
Proof.
intros Hp HQ. unfold print_qrcode. apply wp_bind, wp_ask. destruct (QRcode_encodeString _ _) as [[size data]|]; [|by apply wp_printf].
do 3 (apply wp_bind, wp_printf; [done|]; intros ? ? ?). by apply wp_printf.
Qed.

Lemma wp_admin_line k p (Q : Z * option cstring -> nat -> Program -> Prop) : ready_to_serve p ->
  (forall r k' p', ready_to_serve p' -> Q r k' p') -> wp (on_world (on_auth (auth_get_admin_code (Some 16%nat)))) Q k p.
Proof.
intros ((Hr & Hc & Ha & Hq & Hf) & Hd & Hdisc & Hw) HQ. apply wp_zoom, wp_zoom.
apply (wp_admin_code 16); [apply Ha|lia| |]; intros _; apply HQ; by split_and!.
Qed.

(** With or without discovery. *)
Definition announced (enabled : bool) p : Prop :=
  modules true true true true p /\ p_daemon p = false /\ disc_inv (disc_view p) /\ disc_on enabled (p_disc p) /\ fresh p.

Lemma announced_out enabled p o : announced enabled p -> announced enabled (set_p_out o p).
Proof. intros (Hm & Hd & Hi & Hrest). split; [exact Hm|]. split; [exact Hd|]. split; [exact (disc_inv_out _ o Hi)|exact Hrest]. Qed.

Lemma wp_announce name k p (Q : Z -> nat -> Program -> Prop) : ready_to_serve p -> c_string name ->
  (forall r k' p', announced (negb (r <? 0)) p' -> Q r k' p') -> wp (on_discovery (discovery_init name PORT)) Q k p.
Proof.
intros ((Hr & Hm) & Hd & Hdisc & Hfresh) Hn HQ. apply wp_zoom. unfold disc_view. rewrite Hdisc.
change (set_d_out ?o (set_d_registry ?r (discovery_boot registry_boot []))) with (discovery_boot r o).
eapply wp_mono; [by apply wp_discovery_init|]. intros r k1 s1 (Hi & Hreg & _ & Hres). apply HQ.
split; [split; [cbn; by rewrite Hreg|exact Hm]|]. split; [exact Hd|]. split; [by destruct s1|]. split; [|exact Hfresh].
by destruct Hres as [[-> Hl]|[-> Hl]].
Qed.

(** *** The whole of it *)

Lemma wp_serve (enabled : bool) k p : announced enabled p ->
  wp (daemon <- on_world (server_start PORT) ;;
      modify (set_p_daemon daemon) ;;
      if negb daemon then abandon "❌ Erro ao iniciar servidor" (undo_all send enabled)
      else
        printf (lit "⏳ Aguardando conexões... (Ctrl+C para sair)" ++ [newline; newline]) ;;
        ret (inr enabled)) (fun r _ p' => outcome_ok r p') k p.
Proof.
intros (Hm & Hd & Hi & Hl & Hfresh). apply wp_bind, wp_zoom. unfold server_start. apply wp_bind, wp_modify, wp_ask, wp_bind, wp_modify, wp_if; intros Hok; bool_prop; rewrite Hok.
- unfold abandon, printf. apply wp_bind, wp_modify, wp_bind. eapply wp_mono; [apply wp_undo_all; [exact Hm|done|exact Hl]|].
  intros ? k1 p1 H1. apply wp_ret. split; [done|]. by exists enabled.
- unfold printf. apply wp_bind, wp_modify, wp_ret. split; [|exact Hfresh].
  split; [exact Hm|]. split; [done|]. split; [exact (disc_inv_out _ _ Hi)|exact Hl].
Qed.

Lemma hostname_c k1 k2 : c_string (take 255 (default (stack_text k1) (host_name k2))).
Proof. apply c_string_take. destruct (host_name k2) eqn:Hn; [by eapply host_name_c|apply stack_text_c]. Qed.

Lemma wp_main_start fs k : wp (main_start send) (fun r _ p' => outcome_ok r p') k (main_boot fs).
Proof.
assert (H0 : starting false false false (main_boot fs)) by (split_and!; try done; by exists fs).
unfold main_start. apply wp_bind. unfold get_local_ip. apply wp_bind, wp_ask.
match goal with |- wp (match ?x with _ => _ end) ?Q ?k0 ?p0 => assert (Hip : forall ip, Q (Some ip) k0 p0); [|by destruct x; apply wp_ret, Hip] end.
intros ip. apply wp_bind, start_registry; [done| |].
2:{ intros r k1 p1 Hr Hm. rewrite (proj2 (Z.eqb_neq r 0) Hr). eapply wp_abandon; [done..|apply down_nothing]. }
intros k1 p1 Hs1. reduce_tests. apply wp_bind, start_curl; [done| |].
2:{ intros k2 p2 Hs2. reduce_tests. eapply wp_abandon; [by apply starting_modules|apply down_registry]. }
intros k2 p2 Hs2. reduce_tests. apply wp_bind, start_auth; [done| |].
2:{ intros r k3 p3 Hr Hm. rewrite (proj2 (Z.eqb_neq r 0) Hr). eapply wp_abandon; [done..|apply down_transfer]. }
intros k3 p3 Hs3. reduce_tests. apply wp_bind, start_storage; [done|]. intros r4 k4 p4 Hs4. apply wp_if; intros Hr4.
{ eapply wp_abandon; [by apply starting_modules|apply down_auths]. }
apply wp_bind, start_queue; [done| |].
2:{ intros r k5 p5 Hr Hm. rewrite (proj2 (Z.eqb_neq r 0) Hr). eapply wp_abandon; [done..|apply down_storage]. }
intros k5 p5 Hs5. reduce_tests. apply wp_bind, wp_ask, wp_bind, wp_ask. cbv zeta.
do 2 (apply wp_bind, wp_printf; [done|]; intros ? ? ?). apply wp_bind, wp_qrcode; [done|]. intros ? ? ?.
apply wp_bind, wp_printf; [done|]. intros ? ? ?. apply wp_bind, wp_admin_line; [done|]. intros [r6 code] k6 p6 Hs6. apply wp_bind.
match goal with |- wp _ ?Q _ _ => assert (Hnext : forall k' p', ready_to_serve p' -> Q tt k' p'); [|by apply wp_if; intros _; [apply wp_printf|apply wp_ret, Hnext]] end.
intros k7 p7 Hs7. apply wp_bind, wp_announce; [done|apply hostname_c|]. intros r8 k8 p8 Hs8. apply wp_bind.
match goal with |- wp _ ?Q _ _ => assert (Hnext : forall k' p', announced (negb (r8 <? 0)) p' -> Q tt k' p') end.
- intros k9 p9 Hs9. by apply wp_serve.
- apply wp_if; intros _; [by apply wp_modify, Hnext, announced_out|by apply wp_ret, Hnext].
Qed.
End Start.

(** ** Theorems *)

Section MainTheorems.
Context `{E : Env} {R : RandOk E} {T : ClockMono E} {L : LocksOk E} `{C : Curl} `{I : Inet} `{H : Host} {HO : HostOk H} `{A : Avahi} `{N : Machine} {NO : MachineOk N}.
Context (send : cstring -> cstring -> Z -> cstring -> list (Z * Z) * Z).

(** C21: start-up is all or nothing.  Whatever part of the start fails, with
    whatever file system, [main] goes on to its loop only with every module
    initialised, the daemon running, nothing queued or sent yet, and discovery
    either complete or switched off; otherwise it gives up with status 1, and
    every module it had initialised is cleaned up again.  So is discovery, if
    its start had succeeded: each of its four objects has been given back, and
    none twice; if it had not, there never was a browser. *)
Theorem main_start_correct fs k r k' p' : main_start send k (main_boot fs) = (r, (k', p')) ->
  match r with
  | inl status => status = 1 /\ exists enabled, all_down enabled p'
  | inr enabled => running enabled p' /\ fresh p'
  end.
Proof. intros He. exact (wp_use _ _ _ _ _ _ _ (wp_main_start send fs k) He). Qed.

(** C15: the program ends clean.  However many rounds it runs and whatever
    requests are open when it is stopped, [main] returns 1 as its start left
    things when the start failed, and 0 after a complete start; either way it
    leaves no module initialised, no lock in being, no daemon and the queue's
    worker joined.  If discovery was started, its poll, client, group and
    browser have all been given back, each once. *)
Theorem main_ends_clean fs rounds open k r k' p' : main send rounds open k (main_boot fs) = (r, (k', p')) ->
  exists started k1 p1 enabled, main_start send k (main_boot fs) = (started, (k1, p1)) /\ all_down enabled p' /\
    match started with inl status => r = 1 /\ status = 1 /\ p' = p1 | inr discovery_enabled => r = 0 /\ enabled = discovery_enabled end.
Proof.
pose proof (wp_main_start send fs k) as Hs. unfold wp in Hs. to_wp. unfold main. apply wp_bind. unfold wp.
destruct (main_start send k (main_boot fs)) as [[status|on] [k1 p1]] eqn:He.
- destruct Hs as [-> [enabled Hd]]. exists (inl 1), k1, p1, enabled. by split_and!.
- destruct Hs as [Hr _]. apply wp_bind. eapply wp_mono; [by apply wp_loop|]. intros ? k2 p2 H2.
  eapply wp_mono; [by apply wp_stop|]. intros r2 k3 p3 [-> H3]. by exists (inr on), k1, p1, on.
Qed.
End MainTheorems.
