(* ===== verification/Devices.v ===== *)
(** * Devices: two devices and the network between them

    The device that pairs runs [post_pair] and later the worker's
    [transfer_send_file]; the device that is paired with runs [post_exchange]
    and later [authorize_upload_request].  Each has an environment and a world
    of its own; what joins them is the network: the form of the request is
    what the other device parses, and its reply is the answer of libcurl. *)

From stdpp Require Import base numbers list strings gmap.
From Stdlib Require Import ZArith Lia Ascii.
From S2P Require Import Prelude Effects CLib Crypto JsonUtils JsonValue Storage StorageSpec Auth AuthSpec AuthTokens AuthLimiter AuthLife.
From S2P Require Import PeerRegistry PeerRegistrySpec TransferQueue Transfer TransferSpec Server ServerReply ServerSpec ServerTheorems ServerUpload.

(** ** The network *)

(** The calls of libcurl that set a request up have memory. *)
Class CurlSetUp (C : Curl) : Prop := curl_sets_up j : curl_ok j = true.

(** The reply the other device gave is the answer libcurl reports. *)
Definition delivers (a : HttpAnswer) (x : reply) : Prop :=
  match x with
  | Response st _ body => an_code a = CURLE_OK /\ an_status a = st /\ mjoin (an_body a) = body
  | _ => an_code a <> CURLE_OK
  end.

(** The fields of a request are the texts of the arrays they were read into. *)
Definition carried (req : HttpRequest) (c : connection_info) : Prop :=
  forall code name port, http_parts req = exchange_fields code name port ->
    cstr (ci_pair_code c) = code /\ cstr (ci_peer_port c) = show_nat port.

(** The header of a request is the one libmicrohttpd finds. *)
Definition heard (req : HttpRequest) (connection : Connection) : Prop :=
  forall token, token_header token ∈ http_headers req -> cn_header connection PAIR_TOKEN_HEADER = Some token.

(** The parser finds in the body the bytes of the file libcurl read for it. *)
Definition carries_file `{H : Host} (fs : FileSystem) (req : HttpRequest) (name : cstring) (blocks : list (list ascii)) (chunks : list cstring) : Prop :=
  forall path content, http_parts req = [{| part_name := Some (lit "file"); part_data := Some (PartFile path) |}] ->
    read_file fs path = Some content -> file_body name [] blocks chunks /\ mjoin chunks = content.

(** ** The device that pairs *)

(** The message of a failure fits its array. *)
Lemma extract_message_short json n fallback m : (0 < n)%nat -> extract_message json (Some n) fallback = Some m -> (length m < n)%nat.
Proof.
intros Hn. unfold extract_message. destruct (Nat.eqb_spec n 0) as [|_]; [lia|].
destruct (extract_json_string_field json (Some (lit "message")) (Some n)) as [r text] eqn:Hx.
destruct (Z.eqb_spec r 0) as [->|Hr]; cbn [negb].
- intros ->. destruct json as [json|]; [|done]. apply extract_found in Hx as [H _]; [|done].
  by destruct (H eq_refl) as (t & _ & _ & [= ->] & Hl & _).
- intros [= <-]. by apply snprintf_length.
Qed.

Lemma outcome_message_short `{C : Curl} a m : pr_message (pair_outcome a) = Some m -> short m.
Proof.
intros H. unfold short. enough (length m < 256)%nat by lia. revert H. unfold pair_outcome. cbv zeta.
destruct (negb _); [intros [= <-]; apply snprintf_length; lia|]. destruct (_ || _); [apply extract_message_short; lia|].
destruct (extract_json_string_field _ _ _) as [r tok]. destruct (negb _); [done|apply extract_message_short; lia].
Qed.

(** An answer that is no 2xx comes with a message. *)
Lemma outcome_refused `{C : Curl} a : ~ accepted_answer a -> pr_code (pair_outcome a) <> 0 /\ is_Some (pr_message (pair_outcome a)).
Proof.
intros Ha. unfold pair_outcome. cbv zeta. destruct (Z.eqb_spec (an_code a) CURLE_OK) as [Hc|Hc]; cbn [negb]; [|done].
destruct ((an_status a <? 200) || (300 <=? an_status a)) eqn:Hs.
- split; [done|]. unfold extract_message. cbn [Nat.eqb].
  destruct (extract_json_string_field _ _ _) as [r t] eqn:Hx. destruct (Z.eqb_spec r 0) as [->|]; cbn [negb]; [|done].
  cbn [pr_message pair_failed].
  destruct (bool_decide _); [done|]. apply extract_found in Hx as [H _]; [|lia]. by destruct (H eq_refl) as (u & _ & _ & -> & _).
- exfalso. apply Ha. split; [done|]. apply orb_false_iff in Hs as [H1 H2]. bool_prop. lia.
Qed.

Section Pairing.
Context `{E : Env} {R : RandOk E} {T : ClockRange E} {MO : ClockMono E} {L : LocksOk E} {A : AllocOk E}.
Context `{C : Curl} {CO : CurlOk C} {CS : CurlSetUp C} `{I : Inet} {IO : InetOk I} `{H : Host}.
Implicit Types (k : nat) (w : World) (c : connection_info).

(** Nothing is kept of a pairing that failed. *)
Definition pairing_refused w (x : reply) w' : Prop := refused_reply x /\ w_auth w' = w_auth w.

(** A pairing that succeeded: the token is stored, unless the table is full;
    the peer is paired in the registry and the reply says so. *)
Definition paired_with w ip port tok e (x : reply) w' : Prop :=
  ((exists name, upserted (w_auth w) ip port name tok e (w_auth w')) \/ (upsert_full (w_auth w) ip port /\ w_auth w' = w_auth w)) /\
  (exists p, reg_view (w_registry w') !! (ip, port) = Some p /\ pi_active p = true /\ pi_paired p = true) /\
  answers HTTP_OK (reply_value (RStatus HTTP_OK (lit "ok") (lit "Peer pareado com sucesso"))) x.

(** The request of a pairing. *)
Definition asked c w port (req : HttpRequest) : Prop :=
  parse_port (cstr (ci_target_port c)) = Some port /\
  (inet_pton4 (cstr (ci_target_ip c)) = true \/ inet_pton6 (cstr (ci_target_ip c)) = true) /\
  http_url req = url_text (cstr (ci_target_ip c)) port (lit "/api/pair/exchange") /\
  exists name, http_parts req = exchange_fields (cstr (ci_pair_code c)) name (wrap 16 (w_server_port w)).

Definition pairing_done c w (port : Z) (a : HttpAnswer) (x : reply) w' : Prop :=
  let o := pair_outcome a in
  (pr_code o <> 0 /\ w_auth w' = w_auth w /\ (refused_reply x \/ pr_message o = None)) \/
  (pr_code o = 0 /\ exists tok, pr_token o = Some tok /\ paired_with w (cstr (ci_target_ip c)) port tok (default 0 (pr_expires_at o)) x w').

Lemma wp_pair_on_world ip port name pport code k w (Q : pair_result -> nat -> World -> Prop) :
  w_curl_ready w = true -> validate_destination_ip (Some ip) = 0 -> 0 <= port < 2 ^ 16 -> 0 <= pport < 2 ^ 16 ->
  (forall k' w' req j, w_auth w' = w_auth w -> w_registry w' = w_registry w -> w_sent w' = w_sent w ++ [req] ->
     http_url req = url_text ip port (lit "/api/pair/exchange") -> http_parts req = exchange_fields code name pport ->
     Q (pair_outcome (curl_answer j req)) k' w') ->
  wp (on_transfer (transfer_pair_peer (Some ip) port (Some name) pport (Some code) (Some 65%nat) true (Some 256%nat))) Q k w.
Proof.
intros Hr Hv Hp Hpp HQ. apply wp_zoom, wp_pair_peer; [done..| |].
- intros k' [Hn|[Hn|[j Hn]]]; [cbn in Hn; congruence|done|]. by rewrite curl_sets_up in Hn.
- intros k' req j _ _ (Hu & _ & [Hparts|[i Hi]]); [by apply HQ|]. by rewrite curl_sets_up in Hi.
Qed.

Lemma address_length ip : inet_pton4 ip = true \/ inet_pton6 ip = true -> (length ip <= 45)%nat.
Proof. intros [Hi|Hi]; [destruct (inet4_text _ Hi); lia|by apply (inet6_text _ Hi)]. Qed.

Lemma valid_destination ip : inet_pton4 ip = true \/ inet_pton6 ip = true -> ip <> [] -> validate_destination_ip (Some ip) = 0.
Proof. intros [Hi|Hi] Hne; destruct ip as [|x ip]; try done; simpl; rewrite Hi; [done|by case_match]. Qed.

(** Storing the token and marking the peer. *)
Lemma wp_store_on_world ip port name tok e k w (Q : Z -> nat -> World -> Prop) :
  auth_ready (w_auth w) -> c_string ip -> (length ip <= 45)%nat ->
  (forall r k' w', w_registry w' = w_registry w -> w_sent w' = w_sent w ->
     (upserted (w_auth w) ip port name tok e (w_auth w') \/ (upsert_full (w_auth w) ip port /\ w_auth w' = w_auth w)) -> Q r k' w') ->
  wp (on_auth (auth_store_peer_token (Some ip) port name (Some tok) e)) Q k w.
Proof.
intros Ha Hip Hl HQ. apply wp_zoom, wp_store; [done..| |].
- intros [Hn|Hf]; [by rewrite lock_ok in Hn|]. apply HQ; [done..|]. by right.
- intros s' Hup. apply HQ; [done..|]. by left.
Qed.

Lemma wp_mark_paired ip port q k w (Q : Z -> nat -> World -> Prop) :
  reg_ready (w_registry w) -> endpoint_ok ip port -> reg_view (w_registry w) !! (ip, port) = Some q ->
  (forall r k' w', w_auth w' = w_auth w -> w_sent w' = w_sent w -> reg_view (w_registry w') !! (ip, port) = Some (with_paired true q) -> Q r k' w') ->
  wp (on_registry (peer_registry_set_paired (Some ip) port 1)) Q k w.
Proof.
intros Hr He Hq HQ. apply wp_zoom. eapply wp_mono; [by apply wp_paired|].
intros r k1 s1 [_ [(Hn & _)|(_ & j & _ & Hs)]]; [by rewrite lock_ok in Hn|]. apply HQ; [done..|].
cbn [registry_spec] in Hs. rewrite Hq in Hs. injection Hs as _ Hv. cbn [w_registry set_w_registry]. rewrite Hv. by rewrite lookup_insert_eq.
Qed.

(** What [post_pair] does: it refuses and asks nobody, or asks once and follows
    the answer. *)
Lemma wp_pair_remote c k w (Q : reply -> nat -> World -> Prop) :
  auth_good (w_auth w) -> reg_ready (w_registry w) -> short (ci_response_message c) -> w_curl_ready w = true ->
  (forall x k' w', pairing_refused w x w' -> w_sent w' = w_sent w -> Q x k' w') ->
  (forall x k' w' port req j, asked c w port req -> w_sent w' = w_sent w ++ [req] ->
     pairing_done c w port (curl_answer j req) x w' -> Q x k' w') ->
  wp (post_pair c) Q k w.
Proof.
intros (Ha & _) Hreg Hm Hcurl Hno Hyes. unfold post_pair. set (ip := cstr (ci_target_ip c)) in *.
assert (Hr : forall st msg k1, 400 <= st -> short msg -> wp (queue_json_status_message st (lit "error") msg) Q k1 w).
{ intros st msg k1 Hst Hs. apply wp_refuse; [done..|]. intros x k' Hx. by apply Hno. }
apply wp_if; intros Hst; bool_prop; [by apply Hr|]. cbv zeta. apply wp_if; intros Hv; [by apply Hr|].
apply orb_false_iff in Hv as [Hv _]. bool_prop. destruct (valid_address ip Hv (cstr_c_string _)) as (Hin & Hip & Hlen).
destruct (parse_port _) as [port|] eqn:Hport; [|by apply Hr]. destruct (parse_port_range _ _ Hport) as [Hrange _]. rewrite wrap_port by done.
apply wp_bind, wp_find_on_world; [done|done|done|lia|]. intros r p k1 _ Hp. cbv beta iota. apply wp_if; intros Hact; [by apply Hr|].
apply orb_false_iff in Hact as [Hr0 Hact]. bool_prop. destruct (Hp Hr0) as (q & -> & Hq). cbn [default from_option id] in *.
apply wp_bind, wp_ask, wp_bind, wp_ask, wp_bind, wp_get, wp_bind, wp_pair_on_world; [done| |lia|by apply Z.mod_pos_bound|].
{ apply valid_destination; [done|]. intros Hn. unfold validate_ip_address in Hv. by rewrite bool_decide_true in Hv. }
intros k2 w2 req j Hau Hrg Hsent Hu Hparts. assert (Hask : asked c w port req) by (do 3 (split; [done|]); by eexists).
set (a := curl_answer j req) in *.
assert (Hdone : forall x k' w', w_sent w' = w_sent w ++ [req] -> pairing_done c w port a x w' -> Q x k' w').
{ intros x k' w' H1 H2. by eapply Hyes. }
apply wp_if; intros Hcode; bool_prop.
- assert (Hfail : forall x k', refused_reply x \/ pr_message (pair_outcome a) = None -> Q x k' w2).
  { intros x k' Hx. apply Hdone; [done|]. by left. }
  apply wp_bind. destruct (pr_message (pair_outcome a)) as [m|] eqn:Hmsg.
  + apply wp_ret, wp_refuse; [done| |intros x k'; auto]. case_match; [by eapply outcome_message_short|done].
  + apply wp_ask. eapply wp_mono; [apply status_silent|]. intros x k' w' ->. auto.
- destruct (outcome_success a Hcode) as (_ & tok & Htok & _). rewrite Htok. rewrite <- Hau in Ha.
  apply wp_bind, wp_store_on_world; [done|done|lia|]. intros r3 k3 w3 Hrg3 Hs3 Hst3. rewrite Hau in Hst3.
  assert (Hq3 : reg_view (w_registry w3) !! (ip, port) = Some q) by (by rewrite Hrg3, Hrg).
  apply wp_bind, (wp_mark_paired _ _ q); [by rewrite Hrg3, Hrg|split; [done|split; [lia|lia]]|done|].
  intros r4 k4 w4 Hau4 Hs4 Hv4. apply (wp_reply (RStatus HTTP_OK (lit "ok") (lit "Peer pareado com sucesso"))); [by split|].
  intros x k5 Hx. apply Hdone; [congruence|]. right. split; [done|]. exists tok. split; [done|]. split; [|split; [|done]].
  + destruct Hst3 as [Hst3|[Hf Hst3]]; [left; eexists; rewrite Hau4; exact Hst3|right; split; [done|congruence]].
  + by exists (with_paired true q).
Qed.
End Pairing.

(** ** Both devices *)

(** The port of the form reads back. *)
Lemma parse_port_form p q : 0 <= p < 2 ^ 16 -> parse_port (show_nat p) = Some q -> q = p.
Proof.
intros Hp Hq. destruct (decide (p = 0)) as [->|Hne]; [by vm_compute in Hq|]. rewrite parse_port_shown in Hq by lia. congruence.
Qed.

(** Two devices hold the same token: [ws] for the endpoint it sends to, [wr]
    for the endpoint that sends. *)
Definition share_token (ws : World) ip port (wr : World) client pport tok e : Prop :=
  hex_token 64 tok /\ peer_token_at (w_auth ws) ip port tok e /\ peer_token_at (w_auth wr) client pport tok e.

Section Agreement.
Context {ES : Env} {RS : RandOk ES} {TS : ClockRange ES} {MS : ClockMono ES} {LS : LocksOk ES} {AS : AllocOk ES}.
Context {ER : Env} {RR : RandOk ER} {TR : ClockRange ER} {MR : ClockMono ER} {LR : LocksOk ER}.
Context `{C : Curl} {CO : CurlOk C} {CS : CurlSetUp C} `{I : Inet} {IO : InetOk I} {HS HR : Host}.
Implicit Types (k : nat) (w : World) (c : connection_info).

(** How a pairing ends for the two: refused by both, accepted by both, or
    the reply is lost and only the device that was asked keeps a token. *)
Definition both_refuse ws wr (xs xr : reply) ws' wr' : Prop :=
  refused_reply (E:=ES) (H:=HS) xs /\ refused_reply (E:=ER) (H:=HR) xr /\ w_auth ws' = w_auth ws /\
  forall ip port tok e, peer_token_at (w_auth wr') ip port tok e <-> peer_token_at (w_auth wr) ip port tok e.

Definition reply_lost ws (xs xr : reply) ws' : Prop :=
  refused_reply (E:=ES) (H:=HS) xs /\ w_auth ws' = w_auth ws /\ xr = MHD_NO /\ starved (E:=ER) (H:=HR).

Definition both_pair cs ws cr kr port (xs : reply) ws' wr' : Prop := exists tok e,
  let ip := cstr (ci_target_ip cs) in
  cstr (ci_pair_code cs) = pairing_code (w_auth wr') /\ env_clock (Env:=ER) kr + 7 * 24 * 60 * 60 <= e /\
  answers (E:=ES) (H:=HS) HTTP_OK (reply_value (RStatus HTTP_OK (lit "ok") (lit "Peer pareado com sucesso"))) xs /\
  (exists p, reg_view (w_registry ws') !! (ip, port) = Some p /\ pi_active p = true /\ pi_paired p = true) /\
  ((upsert_full (w_auth ws) ip port /\ w_auth ws' = w_auth ws) \/
   share_token ws' ip port wr' (ci_client_ip cr) (wrap 16 (w_server_port ws)) tok e).

Lemma refused_undelivered a (x : reply) : refused_reply (E:=ER) (H:=HR) x -> delivers a x -> ~ accepted_answer a.
Proof. intros (st & msg & Hst & [->|[-> _]]) Hd [Hc Hs]; [|done]. destruct Hd as (_ & H & _). lia. Qed.

Lemma done_refused cs ws port a x ws' : ~ accepted_answer a -> pairing_done (E:=ES) (H:=HS) cs ws port a x ws' ->
  refused_reply (E:=ES) (H:=HS) x /\ w_auth ws' = w_auth ws.
Proof.
intros Ha Hd. destruct (outcome_refused a Ha) as [H1 H2]. destruct Hd as [(_ & Hw & [Hx|Hx])|(H0 & _)]; [done| |done].
rewrite Hx in H2. by destruct H2.
Qed.

(** The answer is the reply of a successful exchange. *)
Lemma done_accepted cs ws cr kr port a ws' wr' tok e xs xr :
  (length (cstr (ci_target_ip cs)) <= 45)%nat -> hex_token 64 tok -> LONG_MIN <= e <= LONG_MAX ->
  cstr (ci_pair_code cs) = pairing_code (w_auth wr') -> env_clock (Env:=ER) kr + 7 * 24 * 60 * 60 <= e ->
  peer_token_at (w_auth wr') (ci_client_ip cr) (wrap 16 (w_server_port ws)) tok e ->
  answers (E:=ER) (H:=HR) HTTP_OK (reply_value (RPair paired_text tok e)) xr -> delivers a xr ->
  pairing_done (E:=ES) (H:=HS) cs ws port a xs ws' ->
  both_pair cs ws cr kr port xs ws' wr' \/ reply_lost ws xs xr ws'.
Proof.
intros Hip Ht He Hcode Hexp Hat [->|[-> Hst]] Hd Hdone.
- destruct Hd as (Hc & Hs & Hb). rewrite pair_reply_text in Hb by done.
  assert (Ho : pair_outcome a = _) by (apply (outcome_of_reply a tok e); [split; [done|rewrite Hs; unfold HTTP_OK; lia]|done..]).
  destruct Hdone as [(Hn & _)|(_ & u & Hu & Hst & Hp & Hx)]; rewrite Ho in *; [done|]. injection Hu as <-. left. exists tok, e.
  do 4 (split; [done|]). destruct Hst as [[name Hup]|Hfull]; [right|by left]. split; [done|]. split; [|done].
  pose proof (upserted_at _ _ _ _ _ _ _ Hip Hup) as Hs'. rewrite take_ge in Hs' by (destruct Ht; lia). exact Hs'.
- destruct (done_refused cs ws port a xs ws') as [H1 H2]; [by intros [Hc _]|done|]. by right.
Qed.

(** What each device's handler comes to. *)
Lemma exchange_ends cr kr wr xr kr' wr' : auth_good (w_auth wr) -> ip_ok (ci_client_ip cr) -> short (ci_response_message cr) ->
  (forall k, env_clock (Env:=ER) k + 7 * 24 * 60 * 60 <= LONG_MAX) ->
  post_exchange (E:=ER) (H:=HR) cr kr wr = (xr, (kr', wr')) ->
  (refused_reply (E:=ER) (H:=HR) xr /\ forall ip port tok e, peer_token_at (w_auth wr') ip port tok e <-> peer_token_at (w_auth wr) ip port tok e) \/
  exists port tok e, parse_port (cstr (ci_peer_port cr)) = Some port /\ cstr (ci_pair_code cr) = pairing_code (w_auth wr') /\
    hex_token 64 tok /\ LONG_MIN <= e <= LONG_MAX /\ env_clock (Env:=ER) kr + 7 * 24 * 60 * 60 <= e /\
    peer_token_at (w_auth wr') (ci_client_ip cr) port tok e /\
    answers (E:=ER) (H:=HR) HTTP_OK (reply_value (RPair paired_text tok e)) xr.
Proof.
intros Ha Hip Hm Hclk. to_wp. apply wp_exchange; [done..| |].
- intros x k w Hx Hpt _. left. split; [done|]. intros ip port tok e. apply Hpt.
- intros x k w port tok e Hp Hc Hx Ht He Hk Hat. right. by exists port, tok, e.
Qed.

Lemma pair_ends cs ks ws xs ks' ws' :
  auth_good (w_auth ws) -> reg_ready (w_registry ws) -> short (ci_response_message cs) -> w_curl_ready ws = true ->
  post_pair (E:=ES) (H:=HS) cs ks ws = (xs, (ks', ws')) ->
  (pairing_refused (E:=ES) (H:=HS) ws xs ws' /\ w_sent ws' = w_sent ws) \/
  exists port req j, asked cs ws port req /\ w_sent ws' = w_sent ws ++ [req] /\
    pairing_done (E:=ES) (H:=HS) cs ws port (curl_answer j req) xs ws'.
Proof.
intros Ha Hreg Hm Hcurl. to_wp. apply wp_pair_remote; [done..|by left|].
intros x k w port req j H1 H2 H3. right. by exists port, req, j.
Qed.

(** C4: two devices agree on a pairing.  Either the device that pairs asks
    nobody, refuses and keeps its tokens.  Or it sends exactly one request, to
    the exchange page of the peer, and then: both devices refuse and no token
    of either changes; or the device that was asked had no memory for its
    reply, and the other one refuses; or both accept: the code typed in was
    the pairing code in force, the peer is marked paired, and both devices hold
    the same fresh token with the same expiry, a week away, unless the table
    of the device that pairs is full, which its reply does not say. *)
Theorem devices_agree cs ks ws xs ks' ws' cr kr wr xr kr' wr' :
  auth_good (w_auth ws) -> reg_ready (w_registry ws) -> short (ci_response_message cs) -> w_curl_ready ws = true ->
  post_pair (E:=ES) (H:=HS) cs ks ws = (xs, (ks', ws')) ->
  auth_good (w_auth wr) -> ip_ok (ci_client_ip cr) -> short (ci_response_message cr) ->
  (forall k, env_clock (Env:=ER) k + 7 * 24 * 60 * 60 <= LONG_MAX) ->
  post_exchange (E:=ER) (H:=HR) cr kr wr = (xr, (kr', wr')) ->
  (forall req j, w_sent ws' = w_sent ws ++ [req] -> carried req cr /\ delivers (curl_answer j req) xr) ->
  (w_sent ws' = w_sent ws /\ refused_reply (E:=ES) (H:=HS) xs /\ w_auth ws' = w_auth ws) \/
  exists req port, w_sent ws' = w_sent ws ++ [req] /\ asked cs ws port req /\
    (both_refuse ws wr xs xr ws' wr' \/ reply_lost ws xs xr ws' \/ both_pair cs ws cr kr port xs ws' wr').
Proof.
intros Ha Hreg Hm Hcurl Hs Har Hip Hmr Hclk Hr Hnet. apply exchange_ends in Hr; [|done..].
destruct (pair_ends _ _ _ _ _ _ Ha Hreg Hm Hcurl Hs) as [[[Hx Hw] Hse]|(port & req & j & Hask & Hse & Hd)]; [by left|]. right.
exists req, port. do 2 (split; [done|]). destruct (Hnet req j Hse) as [Hc Ha'].
destruct Hask as (Hport & Hin & _ & name & Hparts). destruct (Hc _ _ _ Hparts) as [Hcode Hpp].
destruct Hr as [[Hx Htok]|(pport & tok & e & Hp & Hco & Ht & He & Hexp & Hat & Hx)].
- left. destruct (done_refused _ _ _ _ _ _ (refused_undelivered _ _ Hx Ha') Hd). by split.
- right. apply or_comm. rewrite Hpp in Hp. apply parse_port_form in Hp; [subst pport|by apply Z.mod_pos_bound].
  eapply done_accepted; try done; [by apply address_length|congruence].
Qed.
End Agreement.

(** ** Sending between paired devices *)

Section Delivery.
Context {ES : Env} {ER : Env} {RR : RandOk ER} {TR : ClockRange ER} {MR : ClockMono ER} {LR : LocksOk ER}.
Context {CR : Curl} {HR : Host} `{C : Curl} {CO : CurlOk C} {CS : CurlSetUp C} `{I : Inet} {IO : InetOk I}.
Context (connection : Connection) (Hconn : connection_ok connection).
Implicit Types (k : nat) (w : World) (c : connection_info).

Lemma allowed_shared ws wr ip port client pport tok e t tok' : auth_good (w_auth ws) ->
  share_token ws ip port wr client pport tok e -> target_allowed ws t ip port tok' -> tok' = tok.
Proof.
intros (_ & Hu & _) (Ht & Hs & _) (_ & _ & full & e' & Hf & _ & ->).
destruct (peer_token_functional _ _ _ _ _ _ _ Hu Hf Hs) as [-> _]. apply take_ge. destruct Ht; lia.
Qed.

Lemma hex_not_empty n tok : hex_token (S n) tok -> tok <> [].
Proof. by intros [Hl _] ->. Qed.

(** What a send that made a request asked for, and what it returns. *)
Lemma send_asked path ip port tok (cb : bool) k ts r calls k' ts' req : hex_token 64 tok -> 0 <= port < 2 ^ 16 ->
  transfer_send_file (E:=ES) path (Some ip) port (Some tok) cb k ts = ((r, calls), (k', ts')) -> tf_sent ts' = tf_sent ts ++ [req] ->
  upload_request path ip port tok req /\ token_header tok ∈ http_headers req /\ exists j, r = send_value (curl_answer j req).
Proof.
intros [Hl _] Hp He. refine (wp_use _ (fun x _ s' => tf_sent s' = tf_sent ts ++ [req] -> upload_request path ip port tok req /\
  token_header tok ∈ http_headers req /\ exists j, fst x = send_value (curl_answer j req)) _ _ (r, calls) _ _ _ He).
apply wp_send_file; [lia|done| |].
- intros k1 _ Hs. apply (f_equal length) in Hs. rewrite length_app in Hs. simpl in Hs. lia.
- intros k1 req1 j _ _ _ Hreq Hs. cbn [tf_sent set_tf_sent] in Hs. apply app_inv_head in Hs as [= ->]. split; [done|]. split; [|by exists j].
  destruct Hreq as (_ & _ & [->|[_ [i Hi]]]); [by left|]. by rewrite curl_sets_up in Hi.
Qed.

(** A send returns 0 exactly when a 2xx reply reaches it. *)
Lemma send_value_reply st ct body a : delivers a (Response st ct body) -> send_value a = if (200 <=? st) && (st <? 300) then 0 else -1.
Proof.
intros (Hc & <- & _). unfold send_value. destruct (accepted_answer_dec a) as [[_ Hs]|Hn].
- destruct (Z.leb_spec 200 (an_status a)); [|lia]. by destruct (Z.ltb_spec (an_status a) 300); [|lia].
- destruct (Z.leb_spec 200 (an_status a)); [|done]. destruct (Z.ltb_spec (an_status a) 300); [|done]. by destruct Hn.
Qed.

Lemma send_value_lost a : delivers a MHD_NO -> send_value a = -1.
Proof. intros Hd. unfold send_value. by destruct (accepted_answer_dec a) as [[Hc _]|]. Qed.

Lemma send_value_refused st a (x : reply) : 400 <= st -> upload_refused (E:=ER) st x -> delivers a x -> send_value a = -1.
Proof.
intros Hst [msg [->|[-> _]]] Hd; [|by apply send_value_lost]. cbn [reply_status] in Hd. rewrite (send_value_reply _ _ _ _ Hd).
destruct (Z.ltb_spec st 300); [lia|by rewrite andb_false_r].
Qed.

(** The ends of a transfer between two devices. *)
Inductive transfer_ends (content : cstring) (chunks : list cstring) wr (v : Z) (x : reply) wr' : Prop :=
| Arrived p : v = 0 -> Z.of_nat (length content) <= MAX_FILE_SIZE -> delivered (disk wr) content p (disk wr') -> transfer_ends content chunks wr v x wr'
| ArrivedUnseen p : v = -1 -> x = MHD_NO -> starved (E:=ER) (H:=HR) -> delivered (disk wr) content p (disk wr') -> transfer_ends content chunks wr v x wr'
| NotStored : v = -1 -> upload_failed (E:=ER) wr chunks x wr' -> transfer_ends content chunks wr v x wr'
| SlowedDown : v = -1 -> upload_refused (E:=ER) HTTP_TOO_MANY_REQUESTS x -> disk wr' = disk wr -> transfer_ends content chunks wr v x wr'
| NoConnection : v = -1 -> x = MHD_NO -> wr' = wr -> transfer_ends content chunks wr v x wr'.

(** The end of the upload decides the end of the transfer. *)
Lemma upload_ends k0 wr chunks (x : reply) k wr' a : upload_outcome (E:=ER) (H:=HR) connection k0 wr chunks x k wr' ->
  (forall i, (i <= k)%nat -> token_shown connection (env_clock (Env:=ER) i) wr) -> delivers a x ->
  transfer_ends (mjoin chunks) chunks wr (send_value a) x wr'.
Proof.
intros [([->|[-> Hst]] & _ & Hle & p & Hp)|[(Hx & Hwhy & Hu)|(st & Hx & Hden & Hd)]] Hshown Hnet.
- apply (Arrived _ _ _ _ _ _ p); [by rewrite (send_value_reply _ _ _ _ Hnet)|done|done].
- apply (ArrivedUnseen _ _ _ _ _ _ p); [by apply send_value_lost|done..].
- apply NotStored; [|done]. destruct Hx as (st & msg & Hst & Hx). apply (send_value_refused st a x); [done|by exists msg|done].
- assert (st = HTTP_TOO_MANY_REQUESTS) as -> by (destruct Hden as [?|(_ & i & Hi & Hn)]; [done|by destruct (Hn (Hshown i Hi))]).
  apply SlowedDown; [|done|done]. by apply (send_value_refused HTTP_TOO_MANY_REQUESTS a x).
Qed.

(** C3: a file sent to a paired device arrives there.  When two devices hold the
    same token, the first one sends with it the file its queue was allowed to
    send, and the request reaches the second one, whose parser finds the bytes
    of the file in it: the request is for the upload page with the staged file
    and the token; the token is accepted as long as it has not expired; and
    either the send succeeds and a new file of the other device holds exactly
    the bytes, or the send fails and the other device has not stored the file,
    unless it only had no memory for its reply. *)
Theorem paired_file_arrives ws t path ip port tok' (cb : bool) ks ts r calls ks' ts' req content
    wr pport tok e name blocks chunks kr x kr' wr' :
  auth_good (w_auth ws) -> share_token ws ip port wr (client_text connection) pport tok e ->
  target_allowed ws t ip port tok' -> 0 <= port < 2 ^ 16 ->
  transfer_send_file (E:=ES) path (Some ip) port (Some tok') cb ks ts = ((r, calls), (ks', ts')) ->
  tf_sent ts' = tf_sent ts ++ [req] -> read_file (tf_fs ts) path = Some content ->
  auth_ready (w_auth wr) -> fs_inv (disk wr) -> heard req connection ->
  carries_file (H:=HR) (tf_fs ts) req name blocks chunks ->
  serve (E:=ER) (C:=CR) (H:=HR) connection (lit "/upload") (lit "POST") blocks kr wr = (x, (kr', wr')) -> env_clock (Env:=ER) kr' < e ->
  (forall j, delivers (curl_answer j req) x) ->
  upload_request path ip port tok req /\ transfer_ends content chunks wr r x wr'.
Proof.
intros Ha Hshare Hallowed Hp Hsend Hreq Hcontent Har Hfs Hheard Hbody.
rewrite (allowed_shared _ _ _ _ _ _ _ _ _ _ Ha Hshare Hallowed) in Hsend. destruct Hshare as (Ht & _ & Hat).
destruct (send_asked _ _ _ _ _ _ _ _ _ _ _ _ Ht Hp Hsend Hreq) as (Hu & Hin & j & ->).
destruct (Hbody path content (proj1 (proj2 Hu)) Hcontent) as [Hparse <-].
assert (Hshown : forall i, env_clock (Env:=ER) i < e -> token_shown connection (env_clock (Env:=ER) i) wr).
{ intros i Hi. split; [exists tok; split; [by apply Hheard|by eapply peer_token_at_valid]|].
  rewrite (Hheard _ Hin). intros [= ->]. by destruct Ht. }
intros Hserve Hlate Hnet. split; [done|]. revert Hlate Hnet.
refine (wp_use _ (fun y k w => env_clock (Env:=ER) k < e -> (forall j, delivers (curl_answer j req) y) -> transfer_ends (mjoin chunks) chunks wr _ y w) _ _ _ _ _ _ Hserve).
apply (wp_serve_upload connection Hconn kr wr Har Hfs name blocks chunks); [done| |].
- intros y k w Hend He Hnet. eapply upload_ends; [exact Hend| |apply Hnet].
  intros i Hi. apply Hshown. pose proof (clock_mono (E:=ER) i k Hi). lia.
- intros k _ Hnet. apply NoConnection; [by apply send_value_lost|done|done].
Qed.
End Delivery.
