(* ===== verification/System.v ===== *)
(** * System: the running program

    After start-up three kinds of thread act: libmicrohttpd runs
    [answer_to_connection] and [request_completed] for its connections, the
    worker of the queue sends files, and the main thread polls discovery.  The
    steps below interleave their calls in every way; the theorems hold for all
    of them. *)

From stdpp Require Import base numbers list strings gmap.
From Stdlib Require Import ZArith Lia Ascii.
From S2P Require Import Prelude Effects CLib Crypto JsonUtils Storage StorageSpec Auth AuthSpec AuthTokens AuthLimiter AuthLife PeerRegistry PeerRegistrySpec.
From S2P Require Import TransferQueue TransferQueueSpec TransferQueueSystem Transfer TransferSpec Ui Server ServerReply ServerSpec ServerTheorems ServerInvariant.
From S2P Require Import Discovery DiscoverySpec Main MainSpec.

(** ** The state *)

(** A connection, with what the handlers keep for it. *)
Record conn := { cn_peer : Connection; cn_url : cstring; cn_method : cstring; cn_cls : option connection_info }.
Definition set_cls v c := {| cn_peer := cn_peer c; cn_url := cn_url c; cn_method := cn_method c; cn_cls := v |}.

(** [ps_sending]: what the send under way still has to report, and its
    result. *)
Record process := {
  ps_program : Program; ps_conns : gmap nat conn; ps_worker : worker; ps_sending : option (list (Z * Z) * Z) }.

Definition ps_world (p : process) : World := p_world (ps_program p).
Definition set_ps_world w p := {| ps_program := set_p_world w (ps_program p); ps_conns := ps_conns p; ps_worker := ps_worker p; ps_sending := ps_sending p |}.
Definition set_ps_conns v p := {| ps_program := ps_program p; ps_conns := v; ps_worker := ps_worker p; ps_sending := ps_sending p |}.
Definition set_ps_program v p := {| ps_program := v; ps_conns := ps_conns p; ps_worker := ps_worker p; ps_sending := ps_sending p |}.
Definition set_ps_worker wk sending p := {| ps_program := ps_program p; ps_conns := ps_conns p; ps_worker := wk; ps_sending := sending |}.
Definition set_ps_queue q p := set_ps_world (set_w_queue q (ps_world p)) p.

(** A call of [answer_to_connection]: the request, the tick and the world it
    began in. *)
Record call := { ca_peer : Connection; ca_url : cstring; ca_method : cstring; ca_tick : nat; ca_world : World }.

Section Steps.
Context `{E : Env} `{C : Curl} `{I : Inet} `{H : Host} `{A : Avahi} `{N : Machine}.
Context (discovery_enabled : bool).

(** The worker, with what it does to the queue. *)
Inductive worker_step : process -> list event -> process -> Prop :=
| StepTake p k t k' q' : ps_worker p = Idle -> worker_take k (w_queue (ps_world p)) = (t, (k', q')) ->
    worker_step p (take_event t q') (set_ps_worker (after_take t q') None (set_ps_queue q' p))
| StepSend p i r k res calls k' t' : ps_worker p = Sending i r -> ps_sending p = None ->
    (let job := job_at (w_queue (ps_world p)) i in
     transfer_send_file (tj_filepath job) (Some (tj_target_ip job)) (tj_target_port job) (Some (tj_pair_token job)) true k (w_transfer (ps_world p)))
      = ((res, calls), (k', t')) ->
    worker_step p [] (set_ps_worker (Sending i r) (Some (calls, res)) (set_ps_world (set_w_transfer t' (ps_world p)) p))
| StepReport p i r sent total calls res k k' q' : ps_worker p = Sending i r -> ps_sending p = Some ((sent, total) :: calls, res) ->
    transfer_job_progress sent total (Some i) k (w_queue (ps_world p)) = (tt, (k', q')) ->
    worker_step p [] (set_ps_worker (Sending i r) (Some (calls, res)) (set_ps_queue q' p))
| StepFinished p i r res k k' q' : ps_worker p = Sending i r -> ps_sending p = Some ([], res) ->
    worker_finish i res k (w_queue (ps_world p)) = (tt, (k', q')) ->
    worker_step p [EFinish r res] (set_ps_worker Idle None (set_ps_queue q' p)).

(** The worker left alone. *)
Inductive worker_run : process -> list event -> process -> Prop :=
| WorkerRests p : worker_run p [] p
| WorkerActs p1 e1 p2 e2 p3 : worker_step p1 e1 p2 -> worker_run p2 e2 p3 -> worker_run p1 (e1 ++ e2) p3.

Inductive step : process -> list call -> process -> Prop :=
| StepOpen p id c : ps_conns p !! id = None -> cn_cls c = None -> connection_ok (cn_peer c) -> c_string (cn_url c) -> c_string (cn_method c) ->
    step p [] (set_ps_conns (<[id := c]> (ps_conns p)) p)
| StepCall p id c data k a k' w' : ps_conns p !! id = Some c ->
    answer_to_connection (cn_peer c) (cn_url c) (cn_method c) data (cn_cls c) k (ps_world p) = (a, (k', w')) -> an_reply a <> Crash ->
    step p [{| ca_peer := cn_peer c; ca_url := cn_url c; ca_method := cn_method c; ca_tick := k; ca_world := ps_world p |}]
      (set_ps_conns (<[id := set_cls (an_con_cls a) c]> (ps_conns p)) (set_ps_world w' p))
| StepCompleted p id c k k' w' : ps_conns p !! id = Some c -> request_completed (cn_cls c) k (ps_world p) = (tt, (k', w')) ->
    step p [] (set_ps_conns (delete id (ps_conns p)) (set_ps_world w' p))
| StepRound p k k' g : main_round discovery_enabled k (ps_program p) = (tt, (k', g)) -> step p [] (set_ps_program g p)
| StepWorker p evs p' : worker_step p evs p' -> step p [] p'.

(** The calls made so far, the latest first. *)
Inductive run (p0 : process) : list call -> process -> Prop :=
| RunStart : run p0 [] p0
| RunStep calls p new p' : run p0 calls p -> step p new p' -> run p0 (new ++ calls) p'.
End Steps.

(** The program as the loop begins. *)
Definition process_start (g : Program) : process := {| ps_program := g; ps_conns := ∅; ps_worker := Idle; ps_sending := None |}.

(** The [*con_cls] of the requests that are open. *)
Definition open_requests (p : process) : list (option connection_info) := cn_cls ∘ snd <$> map_to_list (ps_conns p).

(** ** What was asked for *)

Section Asked.
Context `{E : Env} `{C : Curl} `{I : Inet} `{H : Host}.

(** An unlocked interface made a call of this route. *)
Definition ui_call (calls : list call) (url : cstring) (peer : Connection) : Prop :=
  exists c, c ∈ calls /\ ca_peer c = peer /\ ca_url c = url /\ ca_method c = lit "POST" /\ ui_open peer (env_clock (ca_tick c)) (ca_world c).

(** A request of the queue: an unlocked interface asked for it, and when it was
    asked for, its target was an active, paired peer with a valid token. *)
Definition asked_for (calls : list call) (r : request) : Prop :=
  exists peer id path ip port tok, r = accepted_request id path ip port tok /\ ui_call calls (lit "/api/send") peer /\
    exists c, c ∈ calls /\ ca_peer c = peer /\ ca_url c = lit "/api/send" /\ target_allowed (ca_world c) (env_clock (ca_tick c)) ip port tok.

(** The HTTP request that sends a file of the queue. *)
Definition upload_of (r : request) (req : HttpRequest) : Prop :=
  http_url req = peer_url (rq_ip r) (rq_port r) (lit "/upload") /\
  http_parts req = [{| part_name := Some (lit "file"); part_data := Some (PartFile (rq_path r)) |}] /\
  (http_headers req = [] \/ http_headers req = [snprintf 128 [Lit (lit "X-LocalDrop-Pair-Token: "); Str (rq_token r)]]).

(** The HTTP request that asks an active peer to pair. *)
Definition exchange_of (w : World) (req : HttpRequest) : Prop :=
  exists ip port q, http_url req = peer_url ip port (lit "/api/pair/exchange") /\
    reg_view (w_registry w) !! (ip, port) = Some q /\ pi_active q = true.

(** Every request made has its reason. *)
Definition request_justified (calls : list call) (req : HttpRequest) : Prop :=
  (exists r, asked_for calls r /\ upload_of r req) \/
  (exists peer c, ui_call calls (lit "/api/pair") peer /\ c ∈ calls /\ ca_peer c = peer /\ ca_url c = lit "/api/pair" /\ exchange_of (ca_world c) req).

Lemma ui_call_mono calls calls' url peer : (forall c, c ∈ calls -> c ∈ calls') -> ui_call calls url peer -> ui_call calls' url peer.
Proof. intros Hc (c & Hin & Hrest). exists c. split; [by apply Hc|done]. Qed.
Lemma asked_for_mono calls calls' r : (forall c, c ∈ calls -> c ∈ calls') -> asked_for calls r -> asked_for calls' r.
Proof.
intros Hc (peer & id & path & ip & port & tok & Hr & Hui & c & Hin & Hrest). exists peer, id, path, ip, port, tok.
split; [done|]. split; [by eapply ui_call_mono|]. exists c. split; [by apply Hc|done].
Qed.
Lemma request_justified_mono calls calls' req : (forall c, c ∈ calls -> c ∈ calls') -> request_justified calls req -> request_justified calls' req.
Proof.
intros Hc [(r & Hr & Hu)|(peer & c & Hui & Hin & Hrest)]; [left|right].
- exists r. split; [by eapply asked_for_mono|done].
- exists peer, c. split; [by eapply ui_call_mono|]. split; [by apply Hc|done].
Qed.
End Asked.
