(* ===== verification/SystemSpec.v ===== *)
(** * SystemSpec: every interleaving

    The invariant of the running program, and why every HTTP request it ever
    makes was asked for. *)

From stdpp Require Import base numbers list strings gmap.
From Stdlib Require Import ZArith Lia Ascii.
From S2P Require Import Prelude Effects CLib Crypto JsonUtils Storage StorageSpec Auth AuthSpec AuthTokens AuthLimiter AuthLife PeerRegistry PeerRegistrySpec.
From S2P Require Import TransferQueue TransferQueueSpec TransferQueueSystem TransferQueueTheorems Transfer TransferSpec Ui Server ServerReply ServerSpec ServerTheorems ServerInvariant.
From S2P Require Import Discovery DiscoverySpec Main MainSpec System.

(** ** What a handler does to the queue *)

(** From [w] to [w'] the queue takes steps of its own system in which only
    requests of [ok] are accepted, and stays open. *)
Definition queue_moves `{E : Env} (ok : request -> Prop) (w w' : World) : Prop :=
  queue_running (w_queue w') = queue_running (w_queue w) /\ forall wk, exists evs, trace {| sys_queue := w_queue w; sys_worker := wk |} evs {| sys_queue := w_queue w'; sys_worker := wk |} /\
    Forall (fun e => exists r, e = EAccept r /\ ok r) evs.

Section Moves.
Context `{E : Env}.
Implicit Types (w : World) (ok : request -> Prop).

Lemma trace_app s1 e1 s2 e2 s3 : trace s1 e1 s2 -> trace s2 e2 s3 -> trace s1 (e1 ++ e2) s3.
Proof.
intros H1 H2. induction H2 as [|evs s e s' Ht IH Hs]; [by rewrite app_nil_r|]. rewrite app_assoc. by eapply TraceStep.
Qed.

Lemma moves_refl ok w w' : w_queue w' = w_queue w -> queue_moves ok w w'.
Proof. intros Hq. split; [by rewrite Hq|]. intros wk. exists []. rewrite Hq. by repeat constructor. Qed.

Lemma moves_trans ok w1 w2 w3 : queue_moves ok w1 w2 -> queue_moves ok w2 w3 -> queue_moves ok w1 w3.
Proof.
intros [R1 H1] [R2 H2]. split; [congruence|]. intros wk. destruct (H1 wk) as (e1 & T1 & F1), (H2 wk) as (e2 & T2 & F2). exists (e1 ++ e2).
split; [by eapply trace_app|by apply Forall_app].
Qed.

Lemma moves_step ok w w' e : queue_running (w_queue w') = queue_running (w_queue w) -> (forall wk, sys_step {| sys_queue := w_queue w; sys_worker := wk |} e {| sys_queue := w_queue w'; sys_worker := wk |}) ->
  Forall (fun e => exists r, e = EAccept r /\ ok r) e -> queue_moves ok w w'.
Proof. intros Hr Hs Hf. split; [done|]. intros wk. exists ([] ++ e). split; [|done]. eapply TraceStep; [constructor|apply Hs]. Qed.

Lemma moves_kept ok w w' : queue_kept w w' -> queue_moves ok w w'.
Proof. intros [fs Hq]. apply (moves_step _ _ _ []); [by rewrite Hq|intros wk; rewrite Hq; constructor|constructor]. Qed.

Lemma moves_mono ok ok' w w' : (forall r, ok r -> ok' r) -> queue_moves ok w w' -> queue_moves ok' w w'.
Proof.
intros Hok [Hrun Hm]. split; [done|]. intros wk. destruct (Hm wk) as (evs & Ht & Hf). exists evs. split; [done|]. eapply Forall_impl; [exact Hf|].
intros e (r & -> & Hr). exists r. auto.
Qed.
End Moves.

(** ** Sending *)

Section Handlers.
Context `{E : Env} {R : RandOk E} {T : ClockRange E} {MO : ClockMono E} {L : LocksOk E} `{C : Curl} `{I : Inet} {IO : InetOk I} `{H : Host}.
Implicit Types (k : nat) (w : World) (c : connection_info).

(** A request to a target that may be sent to. *)
Definition to_target w (t : Z) (r : request) : Prop := exists id path ip port tok, r = accepted_request id path ip port tok /\ target_allowed w t ip port tok.

Lemma wp_reply_moves ok w0 (m : M World reply) c k w (Q : reply * connection_info -> nat -> World -> Prop) :
  (forall k w, wp m (fun _ _ w' => w' = w) k w) -> queue_moves ok w0 w ->
  (forall x k' w', queue_moves ok w0 w' -> Q x k' w') -> wp (reply <- m ;; ret (reply, c)) Q k w.
Proof. intros Hm Hw HQ. apply wp_bind. eapply wp_mono; [apply Hm|]. intros x k' w' ->. by apply wp_ret, HQ. Qed.

Lemma wp_enqueue_moves ok path ip port tok k w (Q : Z * option cstring -> nat -> World -> Prop) :
  queue_ready (w_queue w) -> queue_initialized (w_queue w) = true -> (forall id, ok (accepted_request id path ip port tok)) ->
  (forall x k' w', queue_moves ok w w' -> Q x k' w') ->
  wp (on_queue (transfer_enqueue (Some path) (Some ip) port (Some tok) (Some 65%nat))) Q k w.
Proof.
intros Hq Hi Hok HQ. apply wp_zoom, wp_intro. intros [r id] k1 q1 He. apply HQ.
eapply moves_step; [exact (wp_use _ _ _ _ _ _ _ (enqueue_running path ip port tok k (w_queue w) Hq Hi) He)|intros wk; exact (StepEnqueue _ wk _ _ _ _ _ _ _ _ _ He)|]. case_match; [|constructor]. constructor; [|constructor]. by eexists.
Qed.

Lemma wp_send_moves c k w (Q : reply * connection_info -> nat -> World -> Prop) :
  world_good w ->
  (forall x k' w', queue_moves (to_target w (env_clock k)) w w' -> Q x k' w') -> wp (post_send c) Q k w.
Proof.
intros (Ha & Hr & Hqr & Hqi) HQ. set (ok := to_target w (env_clock k)) in *.
assert (Hrefuse : forall c1 k1 w1, queue_moves ok w w1 -> wp (reply <- queue_refusal c1 ;; ret (reply, c1)) Q k1 w1).
{ intros c1 k1 w1 Hw. eapply wp_reply_moves; [apply status_silent|exact Hw|exact HQ]. }
assert (Hrefl : queue_moves ok w w) by by apply moves_refl.
unfold post_send. apply wp_if; intros _; [by apply Hrefuse|]. apply wp_if; intros _; [eapply wp_reply_moves; [apply status_silent|done|done]|].
apply wp_bind, wp_target; [done|done| |].
- intros c1 k1 w1 st msg _ _ Hq _ _ _ _. apply Hrefuse. by apply moves_refl.
- intros port tok k1 w1 Hq _ Htarget. cbv beta iota. reduce_tests.
  apply wp_bind. unfold seal_uploaded_stage. apply wp_bind, wp_on_storage, wp_intro. intros [[r st] e] k2 fs2 _. cbv beta iota zeta.
  assert (Hw2 : queue_moves ok w (set_w_queue (set_queue_fs fs2 (w_queue w1)) w1)).
  { eapply moves_trans; [by apply moves_refl|]. apply moves_kept. by exists fs2. }
  apply wp_if; intros Hr2; [apply wp_ret; cbv beta iota; reduce_tests; by apply Hrefuse|]. apply wp_ret. cbv beta iota. reduce_tests.
  apply wp_bind, (wp_enqueue_moves ok); [cbn; rewrite Hq; by apply queue_ready_fs|cbn; by rewrite Hq|intros id; by exists id, (snprintf 512 [Str (st_staging_path st)]), (cstr (ci_target_ip c)), port, tok|].
  intros [r3 id] k3 w3 H3. pose proof (moves_trans _ _ _ _ Hw2 H3) as H03. cbv beta iota. apply wp_if; intros _.
  + apply wp_bind, wp_on_storage, wp_intro. intros st4 k4 fs4 _. apply wp_bind. eapply wp_mono; [apply status_silent|]. intros x k5 w5 ->.
    apply wp_ret, HQ. eapply moves_trans; [exact H03|]. apply moves_kept. by exists fs4.
  + eapply wp_reply_moves; [intros; apply transfer_silent|exact H03|exact HQ].
Qed.

(** ** Pairing *)

Lemma wp_perform_sent {B P} (wr : cstring -> B -> M TransferState (Z * B)) (xf : Z * Z * Z * Z -> P -> Z * P) req b pr k s (Q : Z * Z * B * P -> nat -> TransferState -> Prop) :
  (forall x b k s, wp (wr x b) (fun _ _ s' => s' = s) k s) ->
  (forall v k' , Q v k' (set_tf_sent (tf_sent s ++ [req]) s)) -> wp (curl_easy_perform wr xf req b pr) Q k s.
Proof.
intros Hwr HQ. unfold curl_easy_perform. apply wp_bind, wp_ask, wp_bind, wp_modify, wp_bind.
assert (Hd : forall blocks b k s, wp (deliver wr blocks b) (fun _ _ s' => s' = s) k s).
{ induction blocks as [|x blocks IH]; intros b1 k1 s1; cbn [deliver]; [by apply wp_ret|]. apply wp_bind. eapply wp_mono; [apply Hwr|].
  intros [n b2] k2 s2 ->. apply wp_if; intros _; [apply IH|by apply wp_ret]. }
eapply wp_mono; [apply Hd|]. intros [ok b1] k1 s1 ->. cbv beta iota. destruct (report _ _ _) as [going p1]. by apply wp_ret, HQ.
Qed.

Lemma write_silent x b k (s : TransferState) : wp (write_response x b) (fun _ _ s' => s' = s) k s.
Proof. unfold write_response. cbv zeta. apply wp_if; intros _; [by apply wp_ret|]. apply wp_bind, wp_ask, wp_if; intros _; by apply wp_ret. Qed.

(** At most one request, to the exchange page. *)
Definition one_more (P : HttpRequest -> Prop) (old new : list HttpRequest) : Prop := new = old \/ exists req, new = old ++ [req] /\ P req.

Lemma wp_pair_one ip port name pport code token (exp : bool) msg k s :
  wp (transfer_pair_peer (Some ip) port name pport code token exp msg)
    (fun _ _ s' => one_more (fun req => http_url req = peer_url ip port (lit "/api/pair/exchange")) (tf_sent s) (tf_sent s')) k s.
Proof.
set (P := fun req => http_url req = _). assert (Hnone : forall (x : pair_result) k', wp (ret x) (fun _ _ s' => one_more P (tf_sent s) (tf_sent s')) k' s) by (intros; apply wp_ret; by left).
unfold transfer_pair_peer. apply wp_bind, wp_get. destruct code as [code|], token as [token|]; try apply Hnone.
apply wp_if; intros _; [apply Hnone|]. do 2 (apply wp_bind, wp_ask, wp_if; intros _; [apply Hnone|]).
assert (Hf : forall n d k1 (f : list Part -> M TransferState pair_result), (forall ps k2, wp (f ps) (fun _ _ s' => one_more P (tf_sent s) (tf_sent s')) k2 s) ->
  wp (ps <- add_field n d ;; f ps) (fun _ _ s' => one_more P (tf_sent s) (tf_sent s')) k1 s).
{ intros n d k1 f Hall. apply wp_bind. unfold add_field. apply wp_bind, wp_ask, wp_if; intros _; [by apply wp_ret|].
  apply wp_bind, wp_ask, wp_bind, wp_ask, wp_ret. apply Hall. }
apply Hf. intros p1 k1. apply Hf. intros p2 k2. apply Hf. intros p3 k3. cbv zeta.
apply wp_bind, wp_perform_sent; [apply write_silent|]. intros [[[res code2] b] u] k4. cbv beta iota.
match goal with |- wp _ _ _ ?s1 => assert (Hone : one_more P (tf_sent s) (tf_sent s1)) by (right; by eexists) end.
apply wp_if; intros _; [by apply wp_ret|]. apply wp_if; intros _; [by apply wp_ret|].
destruct (extract_json_string_field _ _ _) as [r tok]. apply wp_if; intros _; by apply wp_ret.
Qed.

Lemma wp_pair_sent c k w (Q : reply -> nat -> World -> Prop) : reg_ready (w_registry w) ->
  (forall x k' w', one_more (exchange_of w) (w_sent w) (w_sent w') -> Q x k' w') -> wp (post_pair c) Q k w.
Proof.
intros Hreg HQ.
assert (Hsame : forall (m : M World reply) k1 w1, (forall k w, wp m (fun _ _ w' => w' = w) k w) -> one_more (exchange_of w) (w_sent w) (w_sent w1) -> wp m Q k1 w1).
{ intros m k1 w1 Hm H1. eapply wp_mono; [apply Hm|]. intros x k2 w2 ->. by apply HQ. }
assert (H0 : one_more (exchange_of w) (w_sent w) (w_sent w)) by by left.
unfold post_pair. apply wp_if; intros _; [apply Hsame; [intros; apply status_silent|done]|]. cbv zeta.
apply wp_if; intros Hv; [apply Hsame; [intros; apply status_silent|done]|]. apply orb_false_iff in Hv as [Hv _]. bool_prop.
destruct (valid_address _ Hv (cstr_c_string _)) as (_ & Hi & Hl).
destruct (parse_port _) as [port|] eqn:Hp; [|apply Hsame; [intros; apply status_silent|done]].
destruct (parse_port_range _ _ Hp) as [Hrange _]. rewrite wrap_port by done.
apply wp_bind, wp_find_on_world; [done|done|done|lia|]. intros r peer k1 _ Hfound. cbv beta iota.
apply wp_if; intros Hact; [apply Hsame; [intros; apply status_silent|done]|]. apply orb_false_iff in Hact as [Hr0 Hact]. bool_prop.
destruct (Hfound Hr0) as (q & -> & Hq). cbn [default] in Hact.
apply wp_bind, wp_ask, wp_bind, wp_ask, wp_bind, wp_get, wp_bind, wp_zoom.
eapply wp_mono; [apply wp_pair_one|]. intros res k2 s2 Hone.
assert (H2 : one_more (exchange_of w) (w_sent w) (w_sent (set_w_transfer s2 w))).
{ destruct Hone as [Hone|(req & Hs & Hu)]; [left; exact Hone|right]. exists req. split; [exact Hs|]. by exists (cstr (ci_target_ip c)), port, q. }
apply wp_if; intros _.
- apply wp_bind. destruct (pr_message res); [apply wp_ret|apply wp_ask]; (apply Hsame; [intros; apply status_silent|exact H2]).
- apply wp_bind, wp_zoom, wp_intro. intros r3 k3 s3 _. apply wp_bind, wp_zoom, wp_intro. intros r4 k4 s4 _. apply Hsame; [intros; apply status_silent|exact H2].
Qed.
End Handlers.

(** ** The worker's send *)

Section Upload.
Context `{E : Env} `{C : Curl} `{I : Inet}.

Lemma discard_silent x u k (s : TransferState) : wp (discard_response x u) (fun _ _ s' => s' = s) k s.
Proof. by apply wp_ret. Qed.

Lemma wp_file_sent path ip port token (cb : bool) k s :
  wp (transfer_send_file path (Some ip) port (Some token) cb)
    (fun _ _ s' => (curl_ready s' = curl_ready s /\ tf_fs s' = tf_fs s) /\
       one_more (upload_of {| rq_id := []; rq_path := path; rq_ip := ip; rq_port := port; rq_token := token |}) (tf_sent s) (tf_sent s')) k s.
Proof.
set (P := upload_of _).
assert (Hnone : forall (x : Z * list (Z * Z)) k', wp (ret x) (fun _ _ s' => (curl_ready s' = curl_ready s /\ tf_fs s' = tf_fs s) /\ one_more P (tf_sent s) (tf_sent s')) k' s).
{ intros. apply wp_ret. split; [done|by left]. }
unfold transfer_send_file. apply wp_bind, wp_get. apply wp_if; intros _; [apply Hnone|]. apply wp_bind, wp_ask.
destruct (fs_names (tf_fs s) !! path) as [node|]; [|apply Hnone]. apply wp_if; intros _; [apply Hnone|]. cbv zeta.
do 5 (apply wp_bind, wp_ask, wp_if; intros _; [apply Hnone|]). apply wp_bind.
match goal with |- wp _ ?Q _ _ => assert (Hgo : forall hs k', (hs = [] \/ hs = [snprintf 128 [Lit (lit "X-LocalDrop-Pair-Token: "); Str token]]) -> Q hs k' s) end.
- intros hs k' Hhs. apply wp_bind, wp_perform_sent; [apply discard_silent|]. intros [[[res code] u] [st calls]] k2. cbv beta iota.
  match goal with |- wp _ _ _ ?s1 => assert (Hone : (curl_ready s1 = curl_ready s /\ tf_fs s1 = tf_fs s) /\ one_more P (tf_sent s) (tf_sent s1)) end.
  { split; [done|]. right. eexists. split; [reflexivity|]. by split_and!. }
  apply wp_if; intros _; [by apply wp_ret|]. apply wp_if; intros _; by apply wp_ret.
- destruct token as [|x token]; [apply wp_ret, Hgo; by left|]. apply wp_bind, wp_ask, wp_ret, Hgo. destruct (curl_ok _); auto.
Qed.
End Upload.

(** ** A call of the server *)

Section Calls.
Context `{E : Env} {R : RandOk E} {T : ClockRange E} {MO : ClockMono E} {L : LocksOk E} `{C : Curl} `{I : Inet} {IO : InetOk I} `{H : Host}.
Context (connection : Connection) (Hconn : connection_ok connection).
Implicit Types (k : nat) (w : World) (c : connection_info).

Lemma answer_send data c :
  answer_to_connection connection (lit "/api/send") (lit "POST") data (Some c) =
  posted (authorized_data (fun c => authorize_ui_request connection c (lit "send_file") 12) (lit "Falha ao processar os dados do envio")) post_send data c.
Proof. reflexivity. Qed.

Lemma answer_pair data c :
  answer_to_connection connection (lit "/api/pair") (lit "POST") data (Some c) =
  posted (authorized_data (fun c => authorize_ui_request connection c (lit "pair_initiate") 10) (lit "Falha ao processar o pareamento remoto"))
    (fun c => keep (post_pair c) c) data c.
Proof. reflexivity. Qed.

(** Data phases are quiet. *)
Lemma wp_ui_data scope limit failure data c k w (Q : connection_info -> nat -> World -> Prop) :
  auth_ready (w_auth w) -> conn_shape connection c -> scope_ok scope limit -> conn_auth True c ->
  (forall c' k' w', quiet w w' -> Q c' k' w') ->
  wp (authorized_data (fun c => authorize_ui_request connection c scope limit) failure data c) Q k w.
Proof.
intros Ha Hc Hs Hca HQ. eapply (wp_authorized_data connection True True); [|done|done|done|intros; by apply HQ].
intros Q' HQ'. eapply (wp_authorize_ui connection Hconn); [done|apply Hc|done|]. intros r c' k' w' Hq (H1 & _ & H3). apply HQ'; [done|].
by split_and!; [..|intros _; right|].
Qed.

Context (url method : cstring) (Hurl : c_string url) (Hmethod : c_string method).

(** What a call that does not end the process has done, given that [P] holds
    as soon as a credential was shown. *)
Record call_done (P : Prop) k w (a : answer) w' : Prop := {
  cd_conn : conn_inv connection url method P (an_con_cls a);
  cd_world : world_step w w';
  cd_queue : queue_moves (fun r => (url = lit "/api/send" /\ method = lit "POST") /\ P /\ to_target w (env_clock k) r) w w';
  cd_sent : one_more (fun req => (url = lit "/api/pair" /\ method = lit "POST") /\ P /\ exchange_of w req) (w_sent w) (w_sent w') }.

Lemma one_more_mono (P Q : HttpRequest -> Prop) old new : (forall r, P r -> Q r) -> one_more P old new -> one_more Q old new.
Proof. intros HPQ [?|(req & ? & ?)]; [by left|right; exists req; auto]. Qed.

Lemma route_text path verb : c_string (lit path) -> c_string (lit verb) -> is_route url method path verb = true -> url = lit path /\ method = lit verb.
Proof. intros. eapply route_is; done. Qed.

Lemma shape_of (P : Prop) c : conn_inv connection url method P (Some c) -> conn_shape connection c.
Proof. by intros []. Qed.

Lemma call_queue (P : Prop) con_cls data k w a k' w' : world_good w -> conn_inv connection url method P con_cls -> P ->
  url = lit "/api/send" -> method = lit "POST" ->
  answer_to_connection connection url method data con_cls k w = (a, (k', w')) -> queue_moves (to_target w (env_clock k)) w w'.
Proof.
intros Hw Hi HP Hu Hm He. refine (wp_use _ (fun _ _ w' => queue_moves _ w w') _ _ _ _ _ _ He). clear He.
pose proof Hw as (Ha & Hr & _). destruct con_cls as [c|].
- pose proof (shape_of _ _ Hi) as Hc. rewrite Hu, Hm, answer_send. unfold posted. apply wp_if; intros _; apply wp_bind.
  + apply wp_ui_data; [apply Ha|done|split; [by apply (bool_decide_eq_true_1 _); vm_compute|split; [simpl; lia|lia]]|by apply conn_auth_all|].
    intros c1 k1 w1 Hq. apply wp_ret, moves_kept, Hq.
  + apply wp_send_moves; [done|]. intros [x c1] k1 w1 Hmoves. by apply wp_ret.
- unfold answer_to_connection. apply (wp_new_connection connection url method). intros a1 k1 _. by apply moves_refl.
Qed.

Lemma call_sent (P : Prop) con_cls data k w a k' w' : world_good w -> conn_inv connection url method P con_cls -> P ->
  url = lit "/api/pair" -> method = lit "POST" ->
  answer_to_connection connection url method data con_cls k w = (a, (k', w')) -> one_more (exchange_of w) (w_sent w) (w_sent w').
Proof.
intros Hw Hi HP Hu Hm He. refine (wp_use _ (fun _ _ w' => one_more _ (w_sent w) (w_sent w')) _ _ _ _ _ _ He). clear He.
pose proof Hw as (Ha & Hr & _). destruct con_cls as [c|].
- pose proof (shape_of _ _ Hi) as Hc. rewrite Hu, Hm, answer_pair. unfold posted. apply wp_if; intros _; apply wp_bind.
  + apply wp_ui_data; [apply Ha|done|split; [by apply (bool_decide_eq_true_1 _); vm_compute|split; [simpl; lia|lia]]|by apply conn_auth_all|].
    intros c1 k1 w1 (_ & _ & Hs). apply wp_ret. by left.
  + apply wp_bind, wp_pair_sent; [done|]. intros x k1 w1 Hone. by apply wp_ret, wp_ret.
- unfold answer_to_connection. apply (wp_new_connection connection url method). intros a1 k1 _. by left.
Qed.

Lemma call_effects (P : Prop) con_cls data k w a k' w' : world_good w -> conn_inv connection url method P con_cls ->
  (credential connection url method k w -> P) ->
  answer_to_connection connection url method data con_cls k w = (a, (k', w')) -> an_reply a <> Crash -> call_done P k w a w'.
Proof.
intros Hw Hi HP He Hcr.
assert (Hguard : an_reply a = Crash \/ (guarded_effects url method P w w' /\ conn_inv connection url method P (an_con_cls a))).
{ refine (wp_use _ (fun a _ w' => an_reply a = Crash \/ (guarded_effects url method P w w' /\ conn_inv connection url method P (an_con_cls a))) _ _ _ _ _ _ He).
  apply (wp_answer connection url method Hconn Hurl Hmethod P); [by apply world_good_ok|done|done|]. by auto. }
assert (Hkept : answer_kept connection w a w').
{ refine (wp_use _ (fun a _ w' => answer_kept connection w a w') _ _ _ _ _ _ He). apply (wp_answer_kept connection Hconn); [done|].
  destruct con_cls as [c|]; [apply (shape_of _ _ Hi)|done]. }
destruct Hguard as [?|[(_ & Hq & Hs) Hconn']]; [done|]. destruct Hkept as [?|[Hstep _]]; [done|]. split; [done|done| |].
- destruct Hq as [Hq|[Hroute HP']]; [by apply moves_kept|].
  destruct (route_text "/api/send" "POST") as [Hu Hm]; [by apply (bool_decide_eq_true_1 _); vm_compute..|exact Hroute|].
  eapply moves_mono; [|eapply call_queue; [exact Hw|exact Hi|exact HP'|exact Hu|exact Hm|exact He]]. intros r Hr. by split_and!.
- destruct Hs as [Hs|[Hroute HP']]; [by left|].
  destruct (route_text "/api/pair" "POST") as [Hu Hm]; [by apply (bool_decide_eq_true_1 _); vm_compute..|exact Hroute|].
  eapply one_more_mono; [|eapply call_sent; [exact Hw|exact Hi|exact HP'|exact Hu|exact Hm|exact He]]. intros r Hr. by split_and!.
Qed.
End Calls.

(** ** The invariant *)

Section Invariant.
Context `{E : Env} {R : RandOk E} {T : ClockRange E} {MO : ClockMono E} {L : LocksOk E} `{C : Curl} `{I : Inet} {IO : InetOk I} `{H : Host}
  `{A : Avahi} `{N : Machine} {NO : MachineOk N}.
Context (discovery_enabled : bool).
Implicit Types (p : process) (calls : list call) (k : nat).

(** A call of this connection showed the credential of its route. *)
Definition shown_in calls (peer : Connection) (url method : cstring) : Prop :=
  exists c, c ∈ calls /\ ca_peer c = peer /\ ca_url c = url /\ ca_method c = method /\ credential peer url method (ca_tick c) (ca_world c).

Definition conn_ok calls (c : conn) : Prop :=
  connection_ok (cn_peer c) /\ c_string (cn_url c) /\ c_string (cn_method c) /\
  conn_inv (cn_peer c) (cn_url c) (cn_method c) (shown_in calls (cn_peer c) (cn_url c) (cn_method c)) (cn_cls c).

Record process_inv calls p : Prop := {
  pi_world : world_good (ps_world p);
  pi_curl : w_curl_ready (ps_world p) = true;
  pi_queue : sys_inv {| sys_queue := w_queue (ps_world p); sys_worker := ps_worker p |};
  pi_fault : p_fault (ps_program p) = false /\ p_daemon (ps_program p) = true;
  pi_disc : disc_inv (disc_view (ps_program p));
  pi_live : disc_on discovery_enabled (p_disc (ps_program p));
  pi_conns : map_Forall (fun _ c => conn_ok calls c) (ps_conns p);
  pi_waiting : Forall (asked_for calls) (waiting (w_queue (ps_world p)));
  pi_sending i r : ps_worker p = Sending i r -> asked_for calls r;
  pi_sent : Forall (request_justified calls) (w_sent (ps_world p));
  pi_open : queue_running (w_queue (ps_world p)) = true /\ ps_worker p <> Stopped }.

Lemma process_start_inv g : running discovery_enabled g -> fresh g -> process_inv [] (process_start g).
Proof.
intros ((Hr & Hc & Ha & Hq & Hf) & Hd & Hi & Hl) (Hw & Hs & Ho). pose proof (si_ready _ Hq) as Hready. pose proof (si_init _ Hq) as Hinit.
split; try done.
- cbn. unfold ps_world. cbn. rewrite Hw. constructor.
- unfold ps_world. cbn. rewrite Hs. constructor.
Qed.

Section More.
Context (calls calls' : list call) (Hmore : forall c, c ∈ calls -> c ∈ calls').

Lemma shown_more peer url method : shown_in calls peer url method -> shown_in calls' peer url method.
Proof. intros (c & Hin & Hrest). exists c. split; [by apply Hmore|done]. Qed.
Lemma conn_ok_more c : conn_ok calls c -> conn_ok calls' c.
Proof. intros (H1 & H2 & H3 & H4). split; [done|]. split; [done|]. split; [done|]. eapply conn_inv_mono; [|exact H4]. apply shown_more. Qed.
Lemma conns_more (m : gmap nat conn) : map_Forall (fun _ c => conn_ok calls c) m -> map_Forall (fun _ c => conn_ok calls' c) m.
Proof. intros Hm. eapply map_Forall_impl; [exact Hm|]. intros i c. apply conn_ok_more. Qed.
Lemma asked_more l : Forall (asked_for calls) l -> Forall (asked_for calls') l.
Proof. intros Hl. eapply Forall_impl; [exact Hl|]. intros r. by apply asked_for_mono. Qed.
Lemma sent_more l : Forall (request_justified calls) l -> Forall (request_justified calls') l.
Proof. intros Hl. eapply Forall_impl; [exact Hl|]. intros r. by apply request_justified_mono. Qed.
End More.

(** What a step of the queue's system does to the invariant of the requests. *)
Lemma trace_waiting ok s evs s' : sys_inv s -> trace s evs s' -> sys_worker s' = sys_worker s ->
  Forall (fun e => exists r, e = EAccept r /\ ok r) evs -> sys_inv s' /\ exists new, waiting (sys_queue s') = waiting (sys_queue s) ++ new /\ Forall ok new.
Proof.
intros Hs Ht Hwk Hf. split; [by eapply trace_inv|]. destruct (trace_queue s evs s' Hs Ht) as [Hw _].
exists (accepted evs). assert (Hb : begun evs = []).
{ clear -Hf. induction Hf as [|e evs (r & -> & _) Hf IH]; [done|exact IH]. }
rewrite Hb in Hw. split; [done|]. clear -Hf. induction Hf as [|e evs (r & -> & Hr) Hf IH]; [constructor|]. by constructor.
Qed.

Lemma moves_inv ok w w' wk : sys_inv {| sys_queue := w_queue w; sys_worker := wk |} -> queue_moves ok w w' ->
  sys_inv {| sys_queue := w_queue w'; sys_worker := wk |} /\ exists new, waiting (w_queue w') = waiting (w_queue w) ++ new /\ Forall ok new.
Proof. intros Hs [_ Hm]. destruct (Hm wk) as (evs & Ht & Hf). by apply (trace_waiting ok _ _ _ Hs Ht). Qed.

(** *** The threads *)

Lemma disc_view_world g w : disc_inv (disc_view g) -> reg_ready (w_registry w) -> disc_inv (disc_view (set_p_world w g)).
Proof. by intros [_ H2 H3] Hr. Qed.

(** The worker's steps. *)
Lemma queue_step_inv calls p q' wk' sn evs : process_inv calls p ->
  sys_step {| sys_queue := w_queue (ps_world p); sys_worker := ps_worker p |} evs {| sys_queue := q'; sys_worker := wk' |} ->
  accepted evs = [] -> queue_running q' = true /\ wk' <> Stopped -> process_inv calls (set_ps_worker wk' sn (set_ps_queue q' p)).
Proof.
intros Hp Hstep Hacc Hopen. destruct (step_preserves _ _ _ (pi_queue _ _ Hp) Hstep) as (Hs & Hw & Hn). cbn [sys_queue sys_worker] in *.
rewrite Hacc, app_nil_r in Hw.
pose proof (pi_waiting _ _ Hp) as Hwait. rewrite Hw in Hwait. apply Forall_app in Hwait as [Hbegun Hwait].
pose proof (si_ready _ Hs) as Hready. pose proof (si_init _ Hs) as Hinit. destruct Hp as [(H1 & H2 & _) H3 H4 H5 H6 H7 H8 H9 H10 H11 H12].
split; try done. intros i r Hwk. cbn [ps_worker set_ps_worker] in Hwk. subst wk'.
assert (Hin : r ∈ sending_now (ps_worker p) ++ begun evs) by (rewrite Hn; apply elem_of_app; right; by left).
apply elem_of_app in Hin as [Hin|Hin]; [|by eapply Forall_forall in Hbegun].
destruct (ps_worker p) as [|i' r'|] eqn:Hwk; try by apply elem_of_nil in Hin. apply list_elem_of_singleton in Hin as ->. by eapply H10.
Qed.

Lemma send_step_inv calls p i r k res sends k' t' : process_inv calls p -> ps_worker p = Sending i r ->
  (let job := job_at (w_queue (ps_world p)) i in
   transfer_send_file (tj_filepath job) (Some (tj_target_ip job)) (tj_target_port job) (Some (tj_pair_token job)) true k (w_transfer (ps_world p)))
    = ((res, sends), (k', t')) ->
  process_inv calls (set_ps_worker (Sending i r) (Some (sends, res)) (set_ps_world (set_w_transfer t' (ps_world p)) p)).
Proof.
intros Hp Hwk He. cbv zeta in He. destruct (wp_use _ _ _ _ _ _ _ (wp_file_sent _ _ _ _ true k _) He) as [[Hcurl Hfs] Hone].
cbn [tf_fs w_transfer curl_ready tf_sent] in *.
destruct (si_sending _ (pi_queue _ _ Hp) i r Hwk) as [_ Hreq]. cbn [sys_queue] in Hreq.
assert (Hq : w_queue (set_w_transfer t' (ps_world p)) = w_queue (ps_world p)) by (cbn; rewrite Hfs; by destruct (w_queue (ps_world p))).
pose proof (pi_sending _ _ Hp i r Hwk) as Hasked. destruct Hp as [(G1 & G2 & G3) H3 H4 H5 H6 H7 H8 H9 H10 H11 H12].
assert (Hsent : Forall (request_justified calls) (tf_sent t')).
{ destruct Hone as [->|(req & -> & Hreqs)]; [done|]. apply Forall_app. split; [done|]. constructor; [|constructor]. left. exists r. split; [done|].
  rewrite <- Hreq. exact Hreqs. }
split; unfold ps_world in *; cbn [ps_program ps_worker ps_conns set_ps_worker set_ps_world p_world set_p_world] in *; rewrite ?Hq; try done.
- split; [done|]. split; [done|]. by rewrite Hq.
- cbn. congruence.
- by rewrite <- Hwk.
- by intros i1 r1 [= <- <-].
- split; [apply H12|done].
Qed.

(** The end of a connection. *)
Lemma completed_quiet con_cls k w : wp (request_completed con_cls) (fun _ _ w' => queue_kept w w' /\ sent_kept w w') k w.
Proof.
destruct (quiet_refl w) as (_ & Hq & Hs). unfold request_completed. destruct con_cls as [c|]; [|by apply wp_ret]. apply wp_if; intros _; [|by apply wp_ret].
apply wp_bind, wp_on_storage, wp_intro. intros st k1 fs1 _. apply wp_ret. split; [by exists fs1|done].
Qed.

Lemma completed_step_inv calls p id c k k' w' : process_inv calls p -> ps_conns p !! id = Some c ->
  request_completed (cn_cls c) k (ps_world p) = (tt, (k', w')) ->
  process_inv calls (set_ps_conns (delete id (ps_conns p)) (set_ps_world w' p)).
Proof.
intros Hp Hc He. destruct (wp_use _ _ _ _ _ _ _ (completed_quiet _ _ _) He) as [Hq Hs].
destruct (wp_use _ _ _ _ _ _ _ (safe_completed (cn_cls c) k _ (pi_world _ _ Hp)) He) as [[Hw' [_ Hcurl]] _].
destruct (moves_inv (fun _ => False) _ _ _ (pi_queue _ _ Hp) (moves_kept _ _ _ Hq)) as (Hsys & new & Hnew & Hf).
assert (Hn : new = []) by (by destruct Hf). subst new. rewrite app_nil_r in Hnew.
destruct Hp as [G H3 H4 H5 H6 H7 H8 H9 H10 H11 H12]. split; unfold ps_world in *; cbn [ps_program ps_worker ps_conns set_ps_conns set_ps_world p_world set_p_world] in *; try done.
- congruence.
- apply (disc_view_world (ps_program p) w'); [done|]. apply Hw'.
- by apply map_Forall_delete.
- by rewrite Hnew.
- unfold sent_kept in Hs. by rewrite Hs.
- destruct Hq as [fs ->]. apply H12.
Qed.

(** A round of discovery. *)
Lemma round_step_inv calls p k k' g : process_inv calls p -> main_round discovery_enabled k (ps_program p) = (tt, (k', g)) ->
  process_inv calls (set_ps_program g p).
Proof.
intros Hp He. refine (wp_use _ (fun _ _ g => process_inv calls (set_ps_program g p)) _ _ _ _ _ _ He). clear He.
unfold main_round. apply wp_if; intros Hen; [|apply wp_ret; by destruct p]. apply wp_bind, wp_ask, wp_zoom.
eapply wp_mono; [apply wp_and; [by apply poll_inv, reports_ok; apply Hp|]|].
{ apply poll_live. pose proof (pi_live _ _ Hp) as Hl. by rewrite Hen in Hl. }
intros ? k1 s1 [Hi1 Hl1].
destruct Hp as [(G1 & G2 & G3) H3 H4 H5 H6 H7 H8 H9 H10 H11 H12]. split; try done.
- split; [done|]. split; [apply Hi1|done].
- by destruct s1.
- by rewrite Hen.
Qed.

(** A call of a handler. *)
Lemma shown_ui calls peer url : upload_route url (lit "POST") = false -> shown_in calls peer url (lit "POST") -> ui_call calls url peer.
Proof.
intros Hu (c & Hin & H1 & H2 & H3 & [Hcred|[Hroute _]]); [|congruence]. exists c. by split_and!.
Qed.

Lemma call_step_inv calls p id c data k a k' w' : process_inv calls p -> ps_conns p !! id = Some c ->
  answer_to_connection (cn_peer c) (cn_url c) (cn_method c) data (cn_cls c) k (ps_world p) = (a, (k', w')) -> an_reply a <> Crash ->
  process_inv ({| ca_peer := cn_peer c; ca_url := cn_url c; ca_method := cn_method c; ca_tick := k; ca_world := ps_world p |} :: calls)
    (set_ps_conns (<[id := set_cls (an_con_cls a) c]> (ps_conns p)) (set_ps_world w' p)).
Proof.
intros Hp Hc He Hcr. set (ca := {| ca_peer := cn_peer c |}). set (calls' := ca :: calls).
assert (Hmore : forall x, x ∈ calls -> x ∈ calls') by (intros x; by right). assert (Hca : ca ∈ calls') by by left.
destruct (pi_conns _ _ Hp id c Hc) as (Hpeer & Hurl & Hmethod & Hinv).
assert (Hdone : call_done (cn_peer c) (cn_url c) (cn_method c) (shown_in calls' (cn_peer c) (cn_url c) (cn_method c)) k (ps_world p) a w').
{ eapply call_effects; [done|done|done|apply Hp| | |exact He|exact Hcr].
  - eapply conn_inv_mono; [|exact Hinv]. by apply shown_more.
  - intros Hcred. exists ca. by split_and!. }
destruct Hdone as [Hcls [Hw' [_ Hcurl]] Hq Hs].
destruct (moves_inv _ _ _ _ (pi_queue _ _ Hp) Hq) as (Hsys & new & Hnew & Hf).
destruct Hp as [G H3 H4 H5 H6 H7 H8 H9 H10 H11 H12]. split; unfold ps_world in *; cbn [ps_program ps_worker ps_conns set_ps_conns set_ps_world p_world set_p_world] in *; try done.
- congruence.
- apply (disc_view_world (ps_program p) w'); [done|]. apply Hw'.
- apply map_Forall_insert_2; [by split_and!|by eapply conns_more].
- rewrite Hnew. apply Forall_app. split; [by eapply asked_more|]. eapply Forall_impl; [exact Hf|].
  intros r ((Hu & Hm) & Hshown & (rid & path & ip & port & tok & Hr & Ht)). exists (cn_peer c), rid, path, ip, port, tok.
  split; [done|]. rewrite Hu, Hm in Hshown. split; [by apply shown_ui|]. exists ca. by split_and!.
- intros i r Hwk. eapply asked_for_mono; [exact Hmore|]. by eapply H10.
- assert (Hold : Forall (request_justified calls') (w_sent (p_world (ps_program p)))) by by eapply sent_more.
  destruct Hs as [->|(req & -> & (Hu & Hm) & Hshown & Hx)]; [done|]. apply Forall_app. split; [done|]. constructor; [|constructor].
  right. exists (cn_peer c), ca. rewrite Hu, Hm in Hshown. split; [by apply shown_ui|]. by split_and!.
- destruct Hq as [-> _]. exact H12.
Qed.

Lemma worker_step_inv calls p evs p' : process_inv calls p -> worker_step p evs p' -> process_inv calls p'.
Proof.
intros Hp Hstep. destruct Hstep as [p k t k' q' Hwk He|p i r k res sends k' t' Hwk Hsn He|p i r sent total sends res k k' q' Hwk Hsn He|p i r res k k' q' Hwk Hsn He].
- destruct (wp_use _ _ _ _ _ _ _ (take_running k _ (si_ready _ (pi_queue _ _ Hp))) He) as [Hr Hs]. destruct (pi_open _ _ Hp) as [Ho _].
  eapply queue_step_inv; [done|rewrite Hwk; by econstructor|by destruct t|]. cbn in Hr, Hs. rewrite Hr. split; [done|].
  destruct t; try done. intros _. rewrite Hs in Ho by done. discriminate Ho.
- by eapply send_step_inv.
- destruct (si_sending _ (pi_queue _ _ Hp) i r Hwk) as [Hsend _].
  eapply (queue_step_inv _ _ _ _ _ []); [done|rewrite Hwk; by econstructor|done|]. split; [|done].
  rewrite (wp_use _ _ _ _ _ _ _ (progress_running sent total i k _ (si_ready _ (pi_queue _ _ Hp)) Hsend) He). apply Hp.
- destruct (si_sending _ (pi_queue _ _ Hp) i r Hwk) as [Hsend _].
  eapply (queue_step_inv _ _ _ _ _ [EFinish r res]); [done|rewrite Hwk; by econstructor|done|]. split; [|done].
  rewrite (wp_use _ _ _ _ _ _ _ (finish_running i res k _ (si_ready _ (pi_queue _ _ Hp)) Hsend) He). apply Hp.
Qed.

Lemma step_inv calls p new p' : process_inv calls p -> step discovery_enabled p new p' -> process_inv (new ++ calls) p'.
Proof.
intros Hp Hstep. destruct Hstep as [p id c Hfree Hcls H1 H2 H3|p id c data k a k' w' Hc He Hcr|p id c k k' w' Hc He|p k k' g He|p evs p' Hw]; cbn [app].
- destruct Hp. split; try done. cbn. apply map_Forall_insert_2; [|done]. split_and!; try done. by rewrite Hcls.
- by eapply call_step_inv.
- by eapply completed_step_inv.
- by eapply round_step_inv.
- by eapply worker_step_inv.
Qed.

Lemma run_inv calls p0 p : process_inv [] p0 -> run discovery_enabled p0 calls p -> process_inv calls p.
Proof. intros H0 Hrun. induction Hrun as [|calls p new p' Hrun IH Hstep]; [done|]. by eapply step_inv. Qed.

(** *** The worker alone *)

Lemma run_as_unit {S} (m : M S unit) k s : m k s = (tt, (tick m k s, final m k s)).
Proof. rewrite (run_eta m k s). by destruct (result m k s). Qed.

Definition system_of p : system := {| sys_queue := w_queue (ps_world p); sys_worker := ps_worker p |}.

(** A step of the worker is a step of the queue's system, or does not touch
    it. *)
Lemma worker_step_system p evs p' : worker_step p evs p' -> sys_step (system_of p) evs (system_of p') \/ (evs = [] /\ system_of p' = system_of p).
Proof.
destruct 1 as [p k t k' q' Hwk He|p i r k res sends k' t' Hwk Hsn He|p i r sent total sends res k k' q' Hwk Hsn He|p i r res k k' q' Hwk Hsn He];
  unfold system_of; rewrite Hwk.
- left. by econstructor.
- right. split; [done|]. cbv zeta in He. destruct (wp_use _ _ _ _ _ _ _ (wp_file_sent _ _ _ _ true k _) He) as [[_ Hfs] _].
  unfold ps_world. cbn in *. rewrite Hfs. by destruct (w_queue _).
- left. by econstructor.
- left. by econstructor.
Qed.

Lemma trace_cons s1 e1 s2 e2 s3 : sys_step s1 e1 s2 -> trace s2 e2 s3 -> trace s1 (e1 ++ e2) s3.
Proof. intros H1 H2. eapply trace_app; [|exact H2]. apply (TraceStep s1 [] s1 e1 s2); [constructor|exact H1]. Qed.

Lemma worker_run_trace p evs p' : worker_run p evs p' -> trace (system_of p) evs (system_of p').
Proof.
induction 1 as [p|p1 e1 p2 e2 p3 Hs Hr IH]; [constructor|]. destruct (worker_step_system _ _ _ Hs) as [Hsys|[-> <-]]; [by eapply trace_cons|exact IH].
Qed.

Lemma worker_run_inv calls p evs p' : process_inv calls p -> worker_run p evs p' -> process_inv calls p'.
Proof. intros Hp Hr. induction Hr as [|p1 e1 p2 e2 p3 Hs Hr IH]; [done|]. by eapply IH, worker_step_inv. Qed.

Lemma worker_run_app p1 e1 p2 e2 p3 : worker_run p1 e1 p2 -> worker_run p2 e2 p3 -> worker_run p1 (e1 ++ e2) p3.
Proof. induction 1 as [|p1 e1 p' e p2 Hs Hr IH]; [done|]. intros H3. rewrite <- app_assoc. eapply WorkerActs; [exact Hs|by apply IH]. Qed.

(** The reports still to come, then the end of the send. *)
Lemma worker_reports i r sends res p : ps_worker p = Sending i r -> ps_sending p = Some (sends, res) ->
  exists p', worker_run p [EFinish r res] p' /\ ps_worker p' = Idle.
Proof.
revert p. induction sends as [|[sent total] sends IH]; intros p Hwk Hsn.
- eexists (set_ps_worker Idle None (set_ps_queue _ p)). split; [|reflexivity]. eapply (WorkerActs _ [EFinish r res] _ []); [|constructor].
  eapply (StepFinished p i r res 0%nat); [exact Hwk|exact Hsn|apply run_as_unit].
- edestruct (fun q' => IH (set_ps_worker (Sending i r) (Some (sends, res)) (set_ps_queue q' p))) as (p' & Hrun & Hidle); [reflexivity|reflexivity|].
  exists p'. split; [|exact Hidle]. eapply (WorkerActs _ [] _ [EFinish r res]); [|exact Hrun].
  eapply (StepReport p i r sent total sends res 0%nat); [exact Hwk|exact Hsn|apply run_as_unit].
Qed.

(** A busy worker gets to the end of its file. *)
Lemma worker_ends p i r : ps_worker p = Sending i r -> exists res p', worker_run p [EFinish r res] p' /\ ps_worker p' = Idle.
Proof.
intros Hwk. destruct (ps_sending p) as [[sends res]|] eqn:Hsn; [exists res; by eapply worker_reports|].
destruct (let job := job_at (w_queue (ps_world p)) i in
   transfer_send_file (tj_filepath job) (Some (tj_target_ip job)) (tj_target_port job) (Some (tj_pair_token job)) true 0%nat (w_transfer (ps_world p)))
  as [[res sends] [k1 t1]] eqn:He.
destruct (worker_reports i r sends res (set_ps_worker (Sending i r) (Some (sends, res)) (set_ps_world (set_w_transfer t1 (ps_world p)) p)))
  as (p' & Hrun & Hidle); [reflexivity|reflexivity|]. exists res, p'. split; [|exact Hidle].
eapply (WorkerActs _ [] _ [EFinish r res]); [|exact Hrun]. by eapply StepSend.
Qed.

Lemma worker_idles calls p : process_inv calls p -> exists evs p', worker_run p evs p' /\ ps_worker p' = Idle /\ begun evs = [] /\ finished evs = sending_now (ps_worker p).
Proof.
intros Hp. destruct (ps_worker p) as [|i r|] eqn:Hwk; [exists [], p; by repeat constructor| |by destruct (pi_open _ _ Hp) as [_ ?]].
destruct (worker_ends p i r Hwk) as (res & p' & Hrun & Hidle). by exists [EFinish r res], p'.
Qed.

(** An idle worker takes the next job while there is one. *)
Lemma worker_takes p : sys_inv (system_of p) -> ps_worker p = Idle -> waiting (w_queue (ps_world p)) <> [] ->
  exists i r p', worker_step p [EStart r] p' /\ ps_worker p' = Sending i r.
Proof.
intros Hs Hwk Hne. destruct (worker_take 0%nat (w_queue (ps_world p))) as [t [k1 q1]] eqn:He.
assert (Ht : exists i, t = TakeJob i).
{ refine (wp_use _ (fun t _ _ => exists i, t = TakeJob i) _ _ _ _ _ _ He). apply wp_take; [apply Hs| | |by eauto];
    intros Hc _ _; destruct Hne; unfold waiting, ring; by rewrite Hc. }
destruct Ht as [i ->]. exists i, (request_of (job_at q1 i)). eexists. split; [by eapply (StepTake p 0%nat (TakeJob i))|reflexivity].
Qed.

Lemma worker_drains calls n p : process_inv calls p -> ps_worker p = Idle -> length (waiting (w_queue (ps_world p))) = n ->
  exists evs p', worker_run p evs p' /\ ps_worker p' = Idle /\ waiting (w_queue (ps_world p')) = [].
Proof.
revert p. induction n as [|n IH]; intros p Hp Hwk Hn.
{ exists [], p. split; [constructor|]. split; [done|]. by apply length_zero_iff_nil. }
destruct (worker_takes p (pi_queue _ _ Hp) Hwk) as (i & r & p1 & Hstep & Hwk1); [by intros Hnil; rewrite Hnil in Hn|].
destruct (worker_ends p1 i r Hwk1) as (res & p2 & Hrun & Hidle).
assert (H12 : worker_run p ([EStart r] ++ [EFinish r res]) p2) by by eapply WorkerActs.
pose proof (worker_run_inv _ _ _ _ Hp H12) as Hp2. destruct (trace_queue _ _ _ (pi_queue _ _ Hp) (worker_run_trace _ _ _ H12)) as [Hw _].
cbn [accepted begun omap list_omap app system_of sys_queue] in Hw. rewrite app_nil_r in Hw.
destruct (IH p2 Hp2 Hidle) as (evs & p3 & H23 & H3); [rewrite Hw in Hn; by injection Hn|].
exists (([EStart r] ++ [EFinish r res]) ++ evs), p3. split; [by eapply worker_run_app|exact H3].
Qed.

Lemma worker_accepts_none p evs p' : worker_run p evs p' -> accepted evs = [].
Proof.
induction 1 as [|p1 e1 p2 e2 p3 Hs Hr IH]; [done|]. unfold accepted in *. rewrite omap_app, IH, app_nil_r. destruct Hs as [p k t| | |]; try done. by destruct t.
Qed.
End Invariant.

(** ** Theorems *)

Section Theorems.
Context `{E : Env} {R : RandOk E} {T : ClockRange E} {MO : ClockMono E} {L : LocksOk E} `{C : Curl} `{I : Inet} {IO : InetOk I} `{H : Host} {HO : HostOk H}
  `{A : Avahi} `{N : Machine} {NO : MachineOk N}.
Context (send : cstring -> cstring -> Z -> cstring -> list (Z * Z) * Z).

(** A run of the whole program: a complete start, then any interleaving of the
    threads. *)
Definition program_run (fs : FileSystem) (enabled : bool) (calls : list call) (p : process) : Prop :=
  exists k k' g, main_start send k (main_boot fs) = (inr enabled, (k', g)) /\ run enabled (process_start g) calls p.

Lemma program_run_inv fs enabled calls p : program_run fs enabled calls p -> process_inv enabled calls p.
Proof.
intros (k & k' & g & Hstart & Hrun). eapply run_inv; [|exact Hrun].
destruct (wp_use _ _ _ _ _ _ _ (wp_main_start send fs k) Hstart) as [Hr Hf]. by apply process_start_inv.
Qed.

(** C1: the program makes no HTTP request of its own.  In every interleaving of
    the server, the worker and discovery after start-up, every request ever
    made either uploads a file to a peer, and then a client with an unlocked
    interface asked for it on /api/send, with its address, port and token those
    of a peer that was active and paired when it was asked for; or it asks a
    peer to pair, and then a client with an unlocked interface asked for it on
    /api/pair and the peer was active.  The same holds of every file still
    queued or being sent. *)
Theorem requests_are_asked_for fs enabled calls p : program_run fs enabled calls p ->
  Forall (request_justified calls) (w_sent (ps_world p)) /\ Forall (asked_for calls) (waiting (w_queue (ps_world p))) /\
  (forall i r, ps_worker p = Sending i r -> asked_for calls r).
Proof. intros Hrun. destruct (program_run_inv _ _ _ _ Hrun). by split_and!. Qed.

(** C6: no interleaving puts the program out of order.  Whatever requests
    arrive, whatever Avahi reports and however the threads interleave, the
    tables of every module stay well formed with their locks free, the ring
    holds exactly the queued jobs and the job being sent is the one the worker
    took, and discovery never resolves the device's own name and works on
    objects none of which was given back.  Every open connection keeps its
    staged file inside the staging directory, and one to a guarded route holds
    a file or a target only if one of its calls showed the credential of that
    route. *)
Theorem program_invariant fs enabled calls p : program_run fs enabled calls p ->
  world_good (ps_world p) /\ sys_inv {| sys_queue := w_queue (ps_world p); sys_worker := ps_worker p |} /\
  disc_inv (disc_view (ps_program p)) /\ disc_on enabled (p_disc (ps_program p)) /\
  map_Forall (fun _ c => conn_ok calls c) (ps_conns p).
Proof. intros Hrun. destruct (program_run_inv _ _ _ _ Hrun). by split_and!. Qed.

(** C20: the program can always be stopped.  From every state the running
    program reaches, the worker alone gets to the end of the file it may be
    sending, whatever the peer answers; shutdown, whatever requests are
    still open, then ends with status 0 and leaves no module initialised, no
    daemon, and, if discovery was on, each of its objects given back once. *)
Theorem program_stops fs enabled calls p k : program_run fs enabled calls p ->
  exists evs p' k' g, worker_run p evs p' /\ finished evs = sending_now (ps_worker p) /\
    main_stop send enabled (open_requests p') k (ps_program p') = (0, (k', g)) /\ all_down enabled g.
Proof.
intros Hrun. pose proof (program_run_inv _ _ _ _ Hrun) as Hp. destruct (worker_idles enabled calls p Hp) as (evs & p' & Hw & Hidle & _ & Hfin).
destruct (worker_run_inv enabled calls p evs p' Hp Hw) as [(Hw1 & Hw2 & _) Hcurl Hq [Hf Hd] Hi Hl _ _ _ _ _]. rewrite Hidle in Hq.
assert (Hr : running enabled (ps_program p')) by by split_and!.
pose proof (wp_stop send enabled (open_requests p') k (ps_program p') Hr) as Hs. unfold wp in Hs.
destruct (main_stop send enabled (open_requests p') k (ps_program p')) as [r [k1 g1]] eqn:He. destruct Hs as [-> Hs].
exists evs, p', k1, g1. split; [exact Hw|]. split; [exact Hfin|]. by split.
Qed.

(** C9: the queue never gets stuck.  From every state the running program
    reaches, the worker, left alone, empties the queue: it finishes the file it
    may be sending, then begins and finishes every waiting file in the order of
    the queue, each once, and rests; whatever the peers answer. *)
Theorem queue_drains fs enabled calls p : program_run fs enabled calls p ->
  exists evs p', worker_run p evs p' /\ ps_worker p' = Idle /\ waiting (w_queue (ps_world p')) = [] /\
    begun evs = waiting (w_queue (ps_world p)) /\ finished evs = sending_now (ps_worker p) ++ waiting (w_queue (ps_world p)).
Proof.
intros Hrun. pose proof (program_run_inv _ _ _ _ Hrun) as Hp. destruct (worker_idles enabled calls p Hp) as (e1 & p1 & H1 & Hidle & _ & _).
destruct (worker_drains enabled calls _ p1 (worker_run_inv enabled _ _ _ _ Hp H1) Hidle eq_refl) as (e2 & p2 & H2 & Hidle2 & Hnil).
pose proof (worker_run_app _ _ _ _ _ H1 H2) as H12. pose proof (worker_accepts_none _ _ _ H12) as Hacc.
destruct (trace_queue _ _ _ (pi_queue _ _ _ Hp) (worker_run_trace _ _ _ H12)) as [Hw Hn]. cbn [system_of sys_queue sys_worker] in Hw, Hn.
rewrite Hacc, Hnil, !app_nil_r in Hw. rewrite Hidle2, app_nil_r in Hn.
exists (e1 ++ e2), p2. split; [exact H12|]. split; [exact Hidle2|]. split; [exact Hnil|]. split; [done|]. by rewrite <- Hn, Hw.
Qed.
End Theorems.
