(* ===== verification/ServerExamples.v ===== *)
(** * ServerExamples: the theorems of the client and the server at concrete inputs

    A server whose interface [client] has unlocked and which [peer] has paired
    with, and a network in which every request is answered by the reply of a
    pairing. *)

From stdpp Require Import base numbers list strings gmap.
From Stdlib Require Import ZArith Lia Ascii.
From S2P Require Import Prelude Effects CLib Crypto JsonUtils JsonValue Storage StorageSpec Auth AuthSpec AuthTokens AuthLimiter AuthLife AuthExamples.
From S2P Require Import PeerRegistry PeerRegistrySpec TransferQueue TransferQueueSpec TransferQueueSystem TransferQueueTheorems TransferQueueExamples.
From S2P Require Import Transfer TransferSpec Ui Server ServerReply ServerSpec ServerTheorems ServerInvariant.

Import Sample.

(** ** The network and the host *)

#[export] Instance inet : Inet := {
  inet_pton4 s := (length s <=? 15)%nat && forallb (fun x => isdigit x || bool_decide (x = "."%char)) s;
  inet_pton6 s := bool_decide (s = lit "fe80::1")
}.

#[export] Instance inet_ok : InetOk inet.
Proof.
split; intros s H.
- apply andb_true_iff in H as [Hl Hf]. split; [by apply Nat.leb_le|]. apply Forall_forall. intros x Hx. apply list_elem_of_In in Hx.
  apply (proj1 (forallb_forall _ _) Hf) in Hx. apply orb_true_iff in Hx as [Hx|Hx]; [by left|right]. by apply bool_decide_eq_true in Hx.
- apply bool_decide_eq_true in H. subst s. split; [vm_compute; lia|]. split; [|apply (bool_decide_eq_true_1 _); vm_compute; reflexivity].
  apply (bool_decide_eq_true_1 _). vm_compute. reflexivity.
Qed.

(** The reply of the pairing, in two blocks. *)
Definition paired_body : cstring := pair_reply paired_text token2 expires2.
#[export] Instance curl : Curl := {
  curl_ok _ := true;
  curl_answer _ _ := {| an_code := 0; an_status := 200; an_body := [take 40 paired_body; drop 40 paired_body];
                        an_progress := [(0, 0, 0, 0); (0, 0, 10, 4); (0, 0, 10, 10)] |};
  curl_easy_strerror _ := lit "error"
}.

#[export] Instance curl_fine : CurlOk curl.
Proof. split; intros j req; [repeat constructor; vm_compute; discriminate|vm_compute; reflexivity]. Qed.

(** A body is one file, in one block. *)
#[export] Instance host : Host := {
  post_process before data :=
    ([{| it_key := lit "file"; it_filename := Some (lit "a.txt"); it_data := Some data; it_off := 0; it_size := length data |}], true);
  response_created _ := true;
  host_name _ := Some (lit "desk");
  daemon_started _ := true;
  stack_text _ := []
}.

(** ** The client *)

Definition transfer0 : TransferState := {| curl_ready := true; tf_fs := staged_file; tf_sent := [] |}.
Definition send0 := transfer_send_file staged (Some peer) 8080 (Some token2) true.

Lemma send_file_witness : result send0 70%nat transfer0 = (0, [(4, 10); (10, 10)]) /\
  exists req, tf_sent (final send0 70%nat transfer0) = [req] /\ http_url req = url_text peer 8080 (lit "/upload").
Proof.
assert (Hr : result send0 70%nat transfer0 = (0, [(4, 10); (10, 10)])) by (vm_compute; reflexivity). split; [exact Hr|].
destruct (send_file_correct staged peer 8080 token2 true 70%nat transfer0 _ _ _ _
  ltac:(vm_compute; lia) ltac:(lia) (run_eta2 send0 70%nat transfer0)) as [[H _]|(req & j & H & _ & _ & Hu & _)].
- rewrite Hr in H. discriminate H.
- exists req. rewrite H. split; [reflexivity|apply Hu].
Defined.

Definition pair0 := transfer_pair_peer (Some peer) 8080 (Some (lit "desk")) 9090 (Some (lit "123456")) (Some 65%nat) true (Some 256%nat).

Lemma pair_peer_witness : pr_code (result pair0 70%nat transfer0) = 0 /\
  pr_token (result pair0 70%nat transfer0) = Some token2 /\ pr_expires_at (result pair0 70%nat transfer0) = Some expires2.
Proof.
assert (Hr : pr_code (result pair0 70%nat transfer0) = 0) by (vm_compute; reflexivity).
destruct (pair_peer_correct peer 8080 (lit "desk") 9090 (lit "123456") 70%nat transfer0 _ _ _
  ltac:(lia) ltac:(lia) (run_eta pair0 70%nat transfer0)) as [(H & _)|(req & j & _ & _ & _ & _ & _ & _ & H)].
- exfalso. rewrite H in Hr. discriminate Hr.
- apply (H token2 expires2).
  + split; [reflexivity|cbn; lia].
  + vm_compute. reflexivity.
  + split; [vm_compute; reflexivity|]. apply (bool_decide_eq_true_1 _). vm_compute. reflexivity.
  + vm_compute. split; discriminate.
Defined.

(** ** The server *)

(** The peer is known, active and paired. *)
Definition reg_a : RegistryState := final (reg_run (RAdd (lit "peer") peer 8080)) 31%nat reg0.
Definition reg_b : RegistryState := final (reg_run (RPaired peer 8080 1)) 35%nat reg_a.

Lemma peer_endpoint : endpoint_ok peer 8080.
Proof. split; [c_text|split; [vm_compute; lia|lia]]. Qed.

Lemma reg_after r k s : reg_ready s -> reg_call_ok r -> reg_ready (final (reg_run r) k s).
Proof. intros Hs Hr. exact (proj1 (wp_use _ _ _ _ _ _ _ (wp_reg_run _ r k s Hs Hr) (run_eta _ _ _))). Qed.

Lemma reg_b_ready : reg_ready reg_b.
Proof. apply reg_after; [apply reg_after; [apply reg0_ready|split; [c_text|apply peer_endpoint]]|apply peer_endpoint]. Qed.

(** The queue, on a disk with the two directories. *)
Definition queue_a : QueueState := set_queue_fs (final storage_init 0%nat staged_file) queue0.

Definition world0 : World := {| w_auth := auth2; w_registry := reg_b; w_queue := queue_a; w_curl_ready := true; w_sent := []; w_server_port := 8080 |}.

Lemma queue0_ready : queue_ready queue_a /\ queue_initialized queue_a = true.
Proof.
destruct (wp_use _ _ _ _ _ _ _ (wp_queue_init staged_file 0%nat) queue0_run) as [H _]. destruct (H eq_refl) as [[Hq Hi _ _] _].
split; [exact (queue_ready_fs _ _ Hq)|exact Hi].
Qed.

Lemma world0_ok : world_ok world0.
Proof. split; [apply auth2_good|apply queue0_ready]. Qed.

(** An array of [n] bytes that holds a text. *)
Definition field (n : nat) (text : cstring) : list ascii := write_at (zeros n) 0 text.
Definition form ip port code pname pport : connection_info -> connection_info :=
  with_form (field 64 ip) (field 16 port) (zeros 256) (zeros 16) (field 16 code) (field 256 pname) (field 16 pport).

(** The peer pairs again, in time. *)
Definition exchange0 : connection_info := form [] [] (pairing_code auth2) (lit "peer") (lit "8080") (connection_new peer).

Lemma far_from_overflow k : env_clock k + 7 * 24 * 60 * 60 <= LONG_MAX.
Proof. change (env_clock k) with (start + Z.min (Z.of_nat k) (2 ^ 40)). unfold LONG_MAX, start. lia. Qed.

Lemma exchange0_ok : ip_ok (ci_client_ip exchange0) /\ short (ci_response_message exchange0).
Proof. split; [apply client_ok|vm_compute; reflexivity]. Qed.

Definition ok_reply (r : reply) : bool := match r with Response st _ _ => st =? 200 | _ => false end.
Lemma ok_not_refused r : ok_reply r = true -> refused_reply r -> False.
Proof. intros H (st & msg & Hst & [->|[-> _]]); [|done]. simpl in H. bool_prop. lia. Qed.

Lemma pairing_exchange_witness : exists tok e,
  peer_token_at (w_auth (final (post_exchange exchange0) 60%nat world0)) peer 8080 tok e /\
  understood (result (post_exchange exchange0) 60%nat world0) tok e.
Proof.
assert (Hok : ok_reply (result (post_exchange exchange0) 60%nat world0) = true) by (vm_compute; reflexivity).
destruct (pairing_exchange_correct exchange0 60%nat world0 _ _ _ auth2_good (proj1 exchange0_ok) (proj2 exchange0_ok)
  far_from_overflow (run_eta _ _ _)) as [[H _]|(port & tok & e & Hp & _ & _ & Hat & _ & _ & Hu)].
- destruct (ok_not_refused _ Hok H).
- exists tok, e. split; [|exact Hu]. replace 8080 with port; [exact Hat|]. vm_compute in Hp. by injection Hp as <-.
Defined.

(** The client, unlocked, sends a file it has staged to the peer. *)
Definition stage0 : UploadStage := {| st_fp := None; st_original_name := lit "a.bin"; st_staging_path := staged; st_bytes_received := 3; st_sealed := true |}.
Definition sending0 : connection_info := form peer (lit "8080") [] [] [] (with_stage stage0 true (connection_new client)).

Lemma stage0_ok : stage_path_ok stage0.
Proof. right. exists (lit "a.bin"). split; [reflexivity|]. split; [discriminate|]. apply (bool_decide_eq_true_1 _). vm_compute. reflexivity. Qed.

Lemma send_witness : exists id tok,
  target_allowed world0 (env_clock 60%nat) peer 8080 tok /\
  waiting (w_queue (final (post_send sending0) 60%nat world0)) = [accepted_request id staged peer 8080 tok].
Proof.
assert (Hok : ok_reply (fst (result (post_send sending0) 60%nat world0)) = true) by (vm_compute; reflexivity).
assert (Hp : parse_port (cstr (ci_target_port sending0)) = Some 8080) by (vm_compute; reflexivity).
assert (Hip : cstr (ci_target_ip sending0) = peer) by (vm_compute; reflexivity).
destruct (send_correct sending0 60%nat world0 _ _ _ _ auth2_good reg_b_ready (proj1 queue0_ready) (proj2 queue0_ready)
  stage0_ok ltac:(vm_compute; reflexivity) eq_refl (run_eta2 _ _ _)) as [(id & tok & port & Hp' & Ht & Hw & _)|[H _]].
- exists id, tok. rewrite Hp in Hp'. injection Hp' as <-. rewrite Hip in Ht, Hw. split; [exact Ht|exact Hw].
- destruct (ok_not_refused _ Hok H).
Defined.

(** The client uploads a file, with the token of its session: the call that
    creates the connection, one block, and the call that delivers. *)
Definition browser : Connection := {|
  cn_address := Some (AF_INET (Some client));
  cn_header name := if bool_decide (name = UI_TOKEN_HEADER) then Some session1 else None;
  cn_form := true |}.

Lemma browser_ok : connection_ok browser.
Proof.
split; [apply client_ok|]. intros name value H. cbn [cn_header browser] in H. destruct (bool_decide _); [|done].
injection H as <-. apply session1_c.
Qed.

Notation upload_call data con_cls := (answer_to_connection browser (lit "/upload") (lit "POST") data con_cls).
Definition con1 : option connection_info := an_con_cls (result (upload_call [] None) 60%nat world0).
Definition world1 : World := final (upload_call [] None) 60%nat world0.
Definition con2 : option connection_info := an_con_cls (result (upload_call (lit "abc") con1) 61%nat world1).
Definition world2 : World := final (upload_call (lit "abc") con1) 61%nat world1.
Definition world3 : World := final (upload_call [] con2) 100%nat world2.
Definition seen2 : list (nat * World) := [(61%nat, world1); (60%nat, world0)].

Lemma upload_text : c_string (lit "/upload") /\ c_string (lit "POST").
Proof. split; c_text. Qed.

Definition not_crashed (r : reply) : bool := match r with Crash => false | _ => true end.
Lemma not_crashed_spec r : not_crashed r = true -> r <> Crash.
Proof. by intros H ->. Qed.

(** The worlds between the calls are in order. *)
Lemma world0_good : world_good world0.
Proof. split; [apply auth2_good|]. split; [apply reg_b_ready|]. split; apply queue0_ready. Qed.

Definition of_browser (con_cls : option connection_info) : Prop := match con_cls with Some c => client_of browser c | None => True end.

Lemma upload_good data con_cls k w : world_good w -> of_browser con_cls ->
  not_crashed (an_reply (result (upload_call data con_cls) k w)) = true ->
  world_good (final (upload_call data con_cls) k w) /\ of_browser (an_con_cls (result (upload_call data con_cls) k w)).
Proof.
intros Hw Hc Hr.
destruct (wp_use _ _ _ _ _ _ _ (wp_answer_kept browser browser_ok (lit "/upload") (lit "POST") data con_cls k w Hw Hc) (run_eta _ _ _)) as [H|[[H _] H']].
- by apply not_crashed_spec in Hr.
- by split.
Qed.

Lemma world1_good : world_good world1 /\ of_browser con1.
Proof. exact (upload_good [] None 60%nat world0 world0_good Logic.I ltac:(vm_compute; reflexivity)). Qed.
Lemma world2_good : world_good world2 /\ of_browser con2.
Proof. exact (upload_good (lit "abc") con1 61%nat world1 (proj1 world1_good) (proj2 world1_good) ltac:(vm_compute; reflexivity)). Qed.

Lemma history_step seen con_cls data k w : conn_history browser (lit "/upload") (lit "POST") seen con_cls -> world_ok w ->
  not_crashed (an_reply (result (upload_call data con_cls) k w)) = true ->
  conn_history browser (lit "/upload") (lit "POST") ((k, w) :: seen) (an_con_cls (result (upload_call data con_cls) k w)).
Proof. intros Hh Hw Hr. eapply HistCall; [exact Hh|exact Hw|apply run_eta|by apply not_crashed_spec]. Qed.

Lemma upload_first : conn_history browser (lit "/upload") (lit "POST") [(60%nat, world0)] con1.
Proof. exact (history_step [] None [] 60%nat world0 (HistStart _ _ _) world0_ok ltac:(vm_compute; reflexivity)). Qed.
Lemma upload_history : conn_history browser (lit "/upload") (lit "POST") seen2 con2.
Proof.
exact (history_step [(60%nat, world0)] con1 (lit "abc") 61%nat world1 upload_first (world_good_ok _ (proj1 world1_good)) ltac:(vm_compute; reflexivity)).
Qed.

(** The call that delivers the file was preceded by the credential. *)
Definition delivered : cstring := lit "downloads/1700000105_a.txt".
Definition exists_at (w : World) (path : cstring) : bool := match fs_names (queue_fs (w_queue w)) !! path with Some _ => true | None => false end.

Lemma delivered_now : exists_at world2 delivered = false /\ exists_at world3 delivered = true.
Proof. split; vm_compute; reflexivity. Qed.

Lemma kept_at w w' p : downloads_kept w w' -> inside DOWNLOADS_DIR p -> exists_at w' p = exists_at w p.
Proof. intros H Hp. unfold exists_at. by rewrite (H p Hp). Qed.

Lemma delivered_inside : inside DOWNLOADS_DIR delivered.
Proof. exists (lit "1700000105_a.txt"). split; [reflexivity|]. split; [discriminate|]. apply (bool_decide_eq_true_1 _). vm_compute. reflexivity. Qed.

Lemma not_kept : downloads_kept world2 world3 -> False.
Proof.
intros H. pose proof (eq_trans (eq_sym (proj2 delivered_now)) (eq_trans (kept_at _ _ _ H delivered_inside) (proj1 delivered_now))) as Hc.
discriminate Hc.
Qed.

Definition answer3 : answer := result (upload_call [] con2) 100%nat world2.
Definition tick3 : nat := tick (upload_call [] con2) 100%nat world2.
Lemma upload_run : upload_call [] con2 100%nat world2 = (answer3, (tick3, world3)).
Proof. exact (run_eta (upload_call [] con2) 100%nat world2). Qed.
Lemma upload_answered : an_reply answer3 <> Crash.
Proof. apply not_crashed_spec. vm_compute. reflexivity. Qed.

Lemma effects_need_credentials_witness :
  exists_at world2 delivered = false /\ exists_at world3 delivered = true /\
  shown browser (lit "/upload") (lit "POST") ((100%nat, world2) :: seen2).
Proof.
split; [apply delivered_now|]. split; [apply delivered_now|].
destruct (effects_need_credentials browser (lit "/upload") (lit "POST") browser_ok (proj1 upload_text) (proj2 upload_text)
  seen2 con2 [] 100%nat world2 answer3 tick3 world3 upload_history (world_good_ok _ (proj1 world2_good)) upload_run upload_answered)
  as [[Hk|[_ Hs]] _].
- destruct (not_kept Hk).
- exact Hs.
Defined.
