(* ===== verification/DevicesExamples.v ===== *)
(** * DevicesExamples: two devices at concrete inputs

    The device at [client] pairs with the one at [peer] and uploads a file to
    it; the network of [wire] carries the reply of the one to the other. *)

From stdpp Require Import base numbers list strings gmap.
From Stdlib Require Import ZArith Lia Ascii.
From S2P Require Import Prelude Effects CLib Crypto JsonUtils JsonValue Storage StorageSpec Auth AuthSpec AuthTokens AuthLimiter AuthLife AuthExamples.
From S2P Require Import PeerRegistry PeerRegistrySpec TransferQueue TransferQueueExamples Transfer TransferSpec Server ServerReply ServerSpec ServerTheorems ServerInvariant ServerUpload.
From S2P Require Import Devices ServerExamples.

Import Sample.

(** The device that is paired with, and its reply. *)
Definition asked_b : connection_info := form [] [] (pairing_code auth2) (lit "desk") (lit "8080") (connection_new client).
Definition reply_b : reply := result (post_exchange asked_b) 60%nat world0.
Definition world_b : World := final (post_exchange asked_b) 60%nat world0.

(** The token both hold. *)
Definition token_b : cstring := pt_token (peer_tokens (w_auth world_b) !!! 1%nat).
Definition expires_b : Z := pt_expires_at (peer_tokens (w_auth world_b) !!! 1%nat).

Definition holds (s : AuthState) (i : nat) ip port tok e : bool :=
  match peer_tokens s !! i with
  | Some r => pt_active r && bool_decide (pt_peer_ip r = ip) && (pt_peer_port r =? port) && bool_decide (pt_token r = tok) && (pt_expires_at r =? e)
  | None => false
  end.
Lemma holds_at s i ip port tok e : holds s i ip port tok e = true -> peer_token_at s ip port tok e.
Proof.
unfold holds. destruct (peer_tokens s !! i) as [r|] eqn:Hr; [|discriminate]. intros H. bool_prop. exists i, r. by destruct_and?.
Qed.

Lemma token_b_c : c_string token_b.
Proof. c_text. Qed.

(** The connection on which the file comes. *)
Definition uploader : Connection := {|
  cn_address := Some (AF_INET (Some client));
  cn_header name := if bool_decide (name = PAIR_TOKEN_HEADER) then Some token_b else None;
  cn_form := true |}.

Lemma uploader_ok : connection_ok uploader.
Proof.
split; [apply client_ok|]. intros name value H. cbn [cn_header uploader] in H. destruct (bool_decide _); [|done].
rewrite <- (Some_inj _ _ H). apply token_b_c.
Qed.

Definition body : cstring := lit "hello".
Notation serve_b := (serve uploader (lit "/upload") (lit "POST") [body]).
Definition uploaded : reply := result serve_b 90%nat world_b.
Definition tick_uploaded : nat := tick serve_b 90%nat world_b.
Definition world_uploaded : World := final serve_b 90%nat world_b.
Lemma run_serve : serve_b 90%nat world_b = (uploaded, (tick_uploaded, world_uploaded)).
Proof. exact (run_eta serve_b 90%nat world_b). Qed.

(** Its reply is what the other one hears. *)
Definition hears (x : reply) : HttpAnswer := {| an_code := 0; an_status := 200;
  an_body := [match x with Response _ _ body => body | _ => [] end]; an_progress := [] |}.
Definition upload_url : cstring := url_text peer 8080 (lit "/upload").
Definition wire : Curl := {|
  curl_ok _ := true;
  curl_answer _ req := hears (if bool_decide (http_url req = upload_url) then uploaded else reply_b);
  curl_easy_strerror _ := lit "error" |}.

Lemma wire_ok : CurlOk wire.
Proof.
split; intros j req; [constructor|]. cbn [curl_answer wire]. destruct (bool_decide _); vm_compute; reflexivity.
Qed.
Lemma wire_set_up : CurlSetUp wire.
Proof. done. Qed.

(** The device that pairs, and its request. *)
Definition pairing_a : connection_info := form peer (lit "8080") (pairing_code auth2) [] [] (connection_new client).
Notation pair_a := (post_pair (C:=wire) pairing_a).
Definition world_a : World := final pair_a 60%nat world0.
Definition request_a : HttpRequest := {|
  http_url := url_text peer 8080 (lit "/api/pair/exchange");
  http_parts := exchange_fields (pairing_code auth2) (lit "desk") 8080;
  http_headers := []; http_connect_timeout := 10; http_timeout := 30 |}.

Lemma sent_a : w_sent world_a = w_sent world0 ++ [request_a].
Proof. vm_compute. reflexivity. Qed.

Lemma carried_a : carried request_a asked_b.
Proof.
intros code name port H. pose proof (f_equal (fun l => part_data <$> l !! 0%nat) H) as H0. pose proof (f_equal (fun l => part_data <$> l !! 2%nat) H) as H2.
cbn -[show_nat] in H0, H2. injection H0 as H0. injection H2 as H2. rewrite <- H0, <- H2. split; vm_compute; reflexivity.
Qed.

Lemma delivered_b : delivers (hears reply_b) reply_b /\ delivers (hears uploaded) uploaded.
Proof. vm_compute. auto. Qed.

Lemma wire_carries req j : w_sent world_a = w_sent world0 ++ [req] -> carried req asked_b /\ delivers (curl_answer (Curl:=wire) j req) reply_b.
Proof.
intros Hs. rewrite sent_a in Hs. apply app_inv_head in Hs as [= <-]. split; [apply carried_a|exact (proj1 delivered_b)].
Qed.

Lemma asked_b_ok : ip_ok (ci_client_ip asked_b) /\ short (ci_response_message asked_b).
Proof. split; [apply client_ok|vm_compute; reflexivity]. Qed.

Lemma not_full ip port : upsert_full (w_auth world0) ip port -> False.
Proof.
intros H. assert (Hs : pt_active <$> (peer_tokens auth2 !! 5%nat) = Some false) by (vm_compute; reflexivity).
destruct (peer_tokens auth2 !! 5%nat) as [r|] eqn:Hr; [|discriminate Hs]. destruct (H 5%nat r Hr) as [Ha _]. injection Hs as Hs. congruence.
Qed.

Definition reply_a : reply := result pair_a 60%nat world0.
Definition tick_a : nat := tick pair_a 60%nat world0.
Definition tick_b : nat := tick (post_exchange asked_b) 60%nat world0.
Lemma run_a : post_pair (C:=wire) pairing_a 60%nat world0 = (reply_a, (tick_a, world_a)).
Proof. exact (run_eta pair_a 60%nat world0). Qed.
Lemma run_b : post_exchange asked_b 60%nat world0 = (reply_b, (tick_b, world_b)).
Proof. exact (run_eta (post_exchange asked_b) 60%nat world0). Qed.
Lemma pairing_a_ok : auth_good (w_auth world0) /\ reg_ready (w_registry world0) /\ short (ci_response_message pairing_a) /\ w_curl_ready world0 = true.
Proof. split; [apply auth2_good|]. split; [apply reg_b_ready|]. split; vm_compute; reflexivity. Qed.
Lemma ok_a : ok_reply reply_a = true /\ w_sent world_a <> w_sent world0.
Proof. split; vm_compute; [reflexivity|discriminate]. Qed.

Lemma shared : share_token world_a peer 8080 world_b client 8080 token_b expires_b.
Proof.
split; [split; [vm_compute; reflexivity|apply (bool_decide_eq_true_1 _); vm_compute; reflexivity]|].
split; [apply (holds_at _ 0%nat)|apply (holds_at _ 1%nat)]; vm_compute; reflexivity.
Qed.

Lemma allowed : target_allowed world_a start peer 8080 token_b.
Proof.
split; [left; vm_compute; reflexivity|]. split.
- destruct (reg_view (w_registry world_a) !! (peer, 8080)) as [p|] eqn:Hp.
  + exists p. assert (Ha : (fun q => (pi_active q, pi_paired q)) <$> reg_view (w_registry world_a) !! (peer, 8080) = Some (true, true)) by (vm_compute; reflexivity).
    rewrite Hp in Ha. injection Ha as H1 H2. split; [reflexivity|split; assumption].
  + assert (Ha : pi_active <$> reg_view (w_registry world_a) !! (peer, 8080) = Some true) by (vm_compute; reflexivity). rewrite Hp in Ha. discriminate Ha.
- exists token_b, expires_b. split; [apply shared|]. split; vm_compute; reflexivity.
Qed.
Lemma uploaded_ok : ok_reply uploaded = true.
Proof. vm_compute. reflexivity. Qed.
#[global] Opaque reply_a tick_a tick_b world_a world_b token_b expires_b uploaded tick_uploaded world_uploaded.

Lemma devices_agree_witness : exists tok e, share_token world_a peer 8080 world_b client 8080 tok e.
Proof.
destruct (devices_agree (C:=wire) (CO:=wire_ok) (CS:=wire_set_up) pairing_a 60%nat world0 reply_a tick_a world_a asked_b 60%nat world0 reply_b tick_b world_b
  (proj1 pairing_a_ok) (proj1 (proj2 pairing_a_ok)) (proj1 (proj2 (proj2 pairing_a_ok))) (proj2 (proj2 (proj2 pairing_a_ok))) run_a
  (proj1 pairing_a_ok) (proj1 asked_b_ok) (proj2 asked_b_ok) far_from_overflow run_b wire_carries)
  as [(H & _)|(req & port & _ & (Hp & _) & [(H & _)|[(H & _)|(tok & e & _ & _ & _ & _ & Hshare)]])].
- destruct (proj2 ok_a H).
- destruct (ok_not_refused reply_a (proj1 ok_a) H).
- destruct (ok_not_refused reply_a (proj1 ok_a) H).
- destruct Hshare as [[Hf _]|Hs]; [destruct (not_full _ _ Hf)|]. exists tok, e. replace 8080 with port at 1; [exact Hs|]. vm_compute in Hp. by injection Hp.
Defined.

Definition upload_a : HttpRequest := {|
  http_url := url_text peer 8080 (lit "/upload");
  http_parts := [{| part_name := Some (lit "file"); part_data := Some (PartFile staged) |}];
  http_headers := [token_header token_b]; http_connect_timeout := 10; http_timeout := 300 |}.

Lemma heard_a : heard upload_a uploader.
Proof.
intros token H. apply list_elem_of_singleton in H. unfold token_header in H. apply app_inv_head in H. rewrite H. reflexivity.
Qed.

Lemma worlds_good : world_good world_a /\ world_good world_b.
Proof.
split.
- exact (proj1 (proj1 (wp_use _ _ _ _ _ _ _ (safe_post_pair pairing_a 60%nat world0 world0_good) run_a))).
- exact (proj1 (proj1 (wp_use _ _ _ _ _ _ _ (safe_post_exchange uploader uploader_ok asked_b eq_refl 60%nat world0 world0_good) run_b))).
Qed.

(** The disks of the two. *)
Definition disk_a : FileSystem := set_file 0 body start staged_file.
Definition transfer_before : TransferState := {| curl_ready := true; tf_fs := disk_a; tf_sent := [] |}.

Lemma disk_b_names : fs_names (disk world_b) = <[STAGING_DIR := Dir]> (<[DOWNLOADS_DIR := Dir]> {[staged := File 0]}).
Proof. apply (bool_decide_eq_true_1 _). vm_compute. reflexivity. Qed.

Lemma disk_b_file p i : fs_names (disk world_b) !! p = Some (File i) -> p = staged /\ i = 0%nat.
Proof.
rewrite disk_b_names. intros H. apply lookup_insert_Some in H as [[_ H]|[_ H]]; [discriminate H|].
apply lookup_insert_Some in H as [[_ H]|[_ H]]; [discriminate H|]. apply lookup_singleton_Some in H as [<- [= <-]]. done.
Qed.

Lemma disk_b_inv : fs_inv (disk world_b).
Proof.
split.
- intros p i H. apply disk_b_file in H as [_ ->]. vm_compute. lia.
- intros p q i Hp Hq. apply disk_b_file in Hp as [-> _], Hq as [-> _]. done.
Qed.

Lemma body_parsed : file_body (lit "a.txt") [] [body] [body].
Proof. apply (BodyBlock (lit "a.txt") [] body (fst (post_process [] body)) [body] [] []); [discriminate|reflexivity| | |constructor]; repeat constructor. Qed.

Lemma upload_page_witness : credential uploader 90%nat world_b /\ exists p, StorageSpec.delivered (disk world_b) body p (disk world_uploaded).
Proof.
destruct (upload_page_correct (C:=curl) rand_ok range_ok clock_ok locks_ok uploader (lit "a.txt") [body] [body] 90%nat world_b uploaded tick_uploaded world_uploaded
  uploader_ok (proj1 (proj1 (proj2 worlds_good))) disk_b_inv body_parsed run_serve)
  as [[(_ & Hc & _ & Hd)|[(H & _)|(st & [msg H] & Hst & _)]]|[H _]].
- split; [exact Hc|exact Hd].
- destruct (ok_not_refused uploaded uploaded_ok H).
- assert (Hr : refused_reply uploaded) by (exists st, msg; split; [exact (denied_error uploader world_b st _ Hst)|exact H]). destruct (ok_not_refused uploaded uploaded_ok Hr).
- assert (Hf : ok_reply uploaded = false) by (rewrite H; reflexivity). rewrite uploaded_ok in Hf. discriminate Hf.
Defined.

Notation send_a := (transfer_send_file (C:=wire) staged (Some peer) 8080 (Some token_b) true).
Definition sent_by_a : Z := fst (result send_a 70%nat transfer_before).
Definition calls_of_a : list (Z * Z) := snd (result send_a 70%nat transfer_before).
Definition tick_sent : nat := tick send_a 70%nat transfer_before.
Definition transfer_after : TransferState := final send_a 70%nat transfer_before.
Lemma run_send : send_a 70%nat transfer_before = ((sent_by_a, calls_of_a), (tick_sent, transfer_after)).
Proof. exact (run_eta2 send_a 70%nat transfer_before). Qed.
Lemma upload_sent : tf_sent transfer_after = tf_sent transfer_before ++ [upload_a] /\ sent_by_a = 0.
Proof. vm_compute. split; reflexivity. Qed.

Lemma upload_carried : carries_file disk_a upload_a (lit "a.txt") [body] [body].
Proof.
intros path content H Hr. pose proof (f_equal (fun l => match l with {| part_data := Some (PartFile p) |} :: _ => p | _ => [] end) H) as Hp.
cbn in Hp. subst path. assert (Hb : read_file disk_a staged = Some body) by (vm_compute; reflexivity). split.
- exact body_parsed.
- exact (Some_inj _ _ (eq_trans (eq_sym Hb) Hr)).
Qed.

Lemma in_time : env_clock tick_uploaded < expires_b.
Proof. vm_compute. reflexivity. Qed.
Lemma uploaded_delivers j : delivers (curl_answer (Curl:=wire) j upload_a) uploaded.
Proof. exact (proj2 delivered_b). Qed.
#[global] Opaque sent_by_a calls_of_a tick_sent transfer_after.

Lemma paired_file_arrives_witness : exists p, StorageSpec.delivered (disk world_b) body p (disk world_uploaded).
Proof.
destruct (paired_file_arrives (C:=wire) (CO:=wire_ok) (CS:=wire_set_up) (CR:=curl) uploader uploader_ok world_a start staged peer 8080 token_b true
  70%nat transfer_before sent_by_a calls_of_a tick_sent transfer_after upload_a body world_b 8080 token_b expires_b (lit "a.txt") [body] [body]
  90%nat uploaded tick_uploaded world_uploaded (proj1 (proj1 worlds_good)) shared allowed ltac:(lia) run_send (proj1 upload_sent)
  ltac:(vm_compute; reflexivity) (proj1 (proj1 (proj2 worlds_good))) disk_b_inv heard_a upload_carried run_serve in_time uploaded_delivers)
  as [_ [p _ _ Hd|p H _ _ _|H _|H _ _|H _ _]]; [exists p; exact Hd|..]; rewrite (proj2 upload_sent) in H; discriminate H.
Defined.
