(* ===== verification/SystemExamples.v ===== *)
(** * SystemExamples: a whole session of the program

    The program starts, finds a peer, a browser unlocks the interface, pairs
    with the peer and sends it two files, and the worker delivers the first. *)

From stdpp Require Import base numbers list strings gmap.
From Stdlib Require Import ZArith Lia Ascii.
From S2P Require Import Prelude Effects CLib Crypto JsonUtils Storage StorageSpec Auth AuthSpec AuthTokens AuthLimiter AuthLife AuthExamples.
From S2P Require Import PeerRegistry PeerRegistrySpec TransferQueue TransferQueueSpec TransferQueueSystem TransferQueueTheorems TransferQueueExamples.
From S2P Require Import Transfer TransferSpec Ui Server ServerReply ServerSpec ServerTheorems ServerInvariant Discovery DiscoverySpec Main MainSpec System SystemSpec ServerExamples.

Import Sample.

(** ** The machine *)

(** A posted block is one field, [key=value]; a file is called a.txt. *)
Definition form_item (data : list ascii) : post_item :=
  let rest := default [] (strchr data "="%char) in
  let key := take (length data - length rest) data in
  {| it_key := key; it_filename := if streq key (lit "file") then Some (lit "a.txt") else None;
     it_data := Some (tail rest); it_off := 0; it_size := length (tail rest) |}.

#[local] Instance form_host : Host := {
  post_process before data := ([form_item data], true);
  response_created _ := true;
  host_name _ := Some (lit "desk");
  daemon_started _ := true;
  stack_text _ := []
}.
#[local] Instance form_host_ok : HostOk form_host.
Proof. split; [intros k n [= <-]; c_text|intros k; constructor]. Qed.

#[local] Instance avahi : Avahi := { avahi_created _ := true; avahi_status _ := 0; avahi_strerror _ := lit "error" }.

(** The peer is announced and found; so is the device itself. *)
#[local] Instance machine : Machine := {
  getifaddrs _ := Some [{| ifa_inet := false; ifa_host := None |}; {| ifa_inet := true; ifa_host := Some (lit "127.0.0.1") |};
                        {| ifa_inet := true; ifa_host := Some (lit "192.168.0.10") |}];
  QRcode_encodeString _ _ := Some (2%nat, [1; 0; 0; 1]);
  avahi_reports _ := [EvBrowse AVAHI_BROWSER_NEW (Some (lit "desk")); EvBrowse AVAHI_BROWSER_NEW (Some (lit "peer"));
                      EvResolve 0 AVAHI_RESOLVER_FOUND (Some peer) 8080]
}.
#[local] Instance machine_ok : MachineOk machine.
Proof.
intros k. unfold event_ok, service_name. repeat constructor; cbn; try lia; try c_text.
Qed.

Definition disk0 : FileSystem := {| fs_names := ∅; fs_data := ∅; fs_mtime := ∅; fs_next := 0 |}.

(** ** Start and stop *)

Definition start0 := main_start flaky.
Definition enabled0 (r : Z + bool) : bool := match r with inr true => true | _ => false end.

Lemma enabled0_spec r : enabled0 r = true -> r = inr true.
Proof. destruct r as [?|[]]; done. Qed.

Lemma started : enabled0 (result start0 0%nat (main_boot disk0)) = true.
Proof. vm_compute. reflexivity. Qed.

Definition g0 : Program := final start0 0%nat (main_boot disk0).
Definition k0 : nat := tick start0 0%nat (main_boot disk0).

Lemma run_as {S B} (m : M S B) k s r : result m k s = r -> m k s = (r, (tick m k s, final m k s)).
Proof. intros <-. apply run_eta. Qed.

Lemma start_run : start0 0%nat (main_boot disk0) = (inr true, (k0, g0)).
Proof. exact (run_as start0 0%nat (main_boot disk0) (inr true) (enabled0_spec _ started)). Qed.
#[global] Opaque g0 k0.

Lemma main_start_witness : running true g0 /\ fresh g0.
Proof. exact (main_start_correct flaky disk0 0%nat (inr true) k0 g0 start_run). Defined.

(** A round of discovery after the start. *)
Definition reports : list avahi_event := avahi_reports 40.
Definition disc0 : DiscoveryState := disc_view g0.
Definition disc1 : DiscoveryState := final (discovery_poll reports) 40%nat disc0.

Lemma disc0_inv : disc_inv disc0.
Proof. exact (proj1 (proj2 (proj2 (proj1 (wp_use _ _ _ _ _ _ _ (wp_main_start flaky disk0 0%nat) start_run))))). Qed.
Lemma reports_fine : Forall event_ok reports.
Proof. exact (reports_ok 40%nat). Qed.
Lemma poll_run : discovery_poll reports 40%nat disc0 = (tt, (tick (discovery_poll reports) 40%nat disc0, disc1)).
Proof. apply (run_as (discovery_poll reports) 40%nat disc0 tt). by destruct (result _ _ _). Qed.

Lemma discovery_witness : bool_decide (is_Some (reg_view (d_registry disc1) !! (peer, 8080))) = true /\
  exists calls, reg_view (d_registry disc1) = replay calls (reg_view (d_registry disc0)).
Proof.
split; [vm_compute; reflexivity|].
destruct (discovery_correct reports 40%nat disc0 _ disc1 disc0_inv reports_fine poll_run) as [_ (calls & H & _)]. by exists calls.
Defined.

Definition main3 := main flaky 3 [].
Definition end3 : Program := final main3 0%nat (main_boot disk0).
Definition k3 : nat := tick main3 0%nat (main_boot disk0).
Lemma ended3 : result main3 0%nat (main_boot disk0) = 0.
Proof. vm_compute. reflexivity. Qed.
Lemma end_run : main3 0%nat (main_boot disk0) = (0, (k3, end3)).
Proof. exact (run_as main3 0%nat (main_boot disk0) 0 ended3). Qed.
#[global] Opaque end3 k3.

Lemma main_ends_clean_witness : exists started k1 p1 enabled, main_start flaky 0%nat (main_boot disk0) = (started, (k1, p1)) /\
  all_down enabled end3 /\
  match started with inl status => 0 = 1 /\ status = 1 /\ end3 = p1 | inr discovery_enabled => 0 = 0 /\ enabled = discovery_enabled end.
Proof. exact (main_ends_clean flaky disk0 3 [] 0%nat 0 k3 end3 end_run). Defined.

(** ** A schedule

    The steps, chosen one by one and executed. *)
Inductive act :=
| AOpen (id : nat) (c : conn) | ACall (id : nat) (data : list ascii) (k : nat) | ACompleted (id k : nat)
| ARound (k : nat) | ATake (k : nat) | ASend (k : nat) | AReport (k : nat) | AFinish (k : nat).

Definition call_of (c : conn) (k : nat) (w : World) : call :=
  {| ca_peer := cn_peer c; ca_url := cn_url c; ca_method := cn_method c; ca_tick := k; ca_world := w |}.

Definition perform (a : act) (p : process) : option (list call * process) :=
  match a with
  | AOpen id c => match ps_conns p !! id, cn_cls c with None, None => Some ([], set_ps_conns (<[id := c]> (ps_conns p)) p) | _, _ => None end
  | ACall id data k =>
      match ps_conns p !! id with
      | Some c =>
          let '(an, (_, w')) := answer_to_connection (cn_peer c) (cn_url c) (cn_method c) data (cn_cls c) k (ps_world p) in
          if not_crashed (an_reply an)
          then Some ([call_of c k (ps_world p)], set_ps_conns (<[id := set_cls (an_con_cls an) c]> (ps_conns p)) (set_ps_world w' p)) else None
      | None => None
      end
  | ACompleted id k =>
      match ps_conns p !! id with
      | Some c => let '(_, (_, w')) := request_completed (cn_cls c) k (ps_world p) in
                  Some ([], set_ps_conns (delete id (ps_conns p)) (set_ps_world w' p))
      | None => None
      end
  | ARound k => let '(_, (_, g)) := main_round true k (ps_program p) in Some ([], set_ps_program g p)
  | ATake k =>
      match ps_worker p with
      | Idle => let '(t, (_, q')) := worker_take k (w_queue (ps_world p)) in Some ([], set_ps_worker (after_take t q') None (set_ps_queue q' p))
      | _ => None
      end
  | ASend k =>
      match ps_worker p, ps_sending p with
      | Sending i r, None =>
          let job := job_at (w_queue (ps_world p)) i in
          let '((res, calls), (_, t')) :=
            transfer_send_file (tj_filepath job) (Some (tj_target_ip job)) (tj_target_port job) (Some (tj_pair_token job)) true k (w_transfer (ps_world p)) in
          Some ([], set_ps_worker (Sending i r) (Some (calls, res)) (set_ps_world (set_w_transfer t' (ps_world p)) p))
      | _, _ => None
      end
  | AReport k =>
      match ps_worker p, ps_sending p with
      | Sending i r, Some ((sent, total) :: calls, res) =>
          let '(_, (_, q')) := transfer_job_progress sent total (Some i) k (w_queue (ps_world p)) in
          Some ([], set_ps_worker (Sending i r) (Some (calls, res)) (set_ps_queue q' p))
      | _, _ => None
      end
  | AFinish k =>
      match ps_worker p, ps_sending p with
      | Sending i r, Some ([], res) =>
          let '(_, (_, q')) := worker_finish i res k (w_queue (ps_world p)) in Some ([], set_ps_worker Idle None (set_ps_queue q' p))
      | _, _ => None
      end
  end.

Definition opens_ok (a : act) : Prop :=
  match a with AOpen _ c => connection_ok (cn_peer c) /\ c_string (cn_url c) /\ c_string (cn_method c) | _ => True end.

Lemma perform_step a p new p' : opens_ok a -> perform a p = Some (new, p') -> step true p new p'.
Proof.
intros Ho Hp. destruct a; cbn [perform] in Hp; repeat case_match; simplify_eq;
  repeat match goal with u : unit |- _ => destruct u end.
- destruct Ho as (? & ? & ?). by apply StepOpen.
- eapply StepCall; [done|done|by apply not_crashed_spec].
- by eapply StepCompleted.
- by eapply StepRound.
- by eapply StepWorker, StepTake.
- by eapply StepWorker, StepSend.
- by eapply StepWorker, StepReport.
- by eapply StepWorker, StepFinished.
Qed.

Fixpoint schedule (l : list act) (calls : list call) (p : process) : option (list call * process) :=
  match l with
  | [] => Some (calls, p)
  | a :: l' => match perform a p with Some (new, p') => schedule l' (new ++ calls) p' | None => None end
  end.

Lemma schedule_run l calls p0 p calls' p' : Forall opens_ok l -> run true p0 calls p ->
  schedule l calls p = Some (calls', p') -> run true p0 calls' p'.
Proof.
intros Hl. revert calls p. induction Hl as [|a l Ha Hl IH]; intros calls p Hr Hs; cbn [schedule] in Hs; [by simplify_eq|].
destruct (perform a p) as [[new p1]|] eqn:Hp; [|done]. eapply IH; [|exact Hs]. eapply RunStep; [exact Hr|]. by eapply (perform_step a).
Qed.

(** ** The session *)

Definition post_to (peer : Connection) (url : string) : conn := {| cn_peer := peer; cn_url := lit url; cn_method := lit "POST"; cn_cls := None |}.
(** A form in blocks: the call that opens the connection, one per block, the
    one that delivers, and the end. *)
Definition submit (id : nat) (c : conn) (blocks : list cstring) (k : nat) : list act :=
  [AOpen id c; ACall id [] k] ++ imap (fun i block => ACall id block (k + 1 + i)%nat) blocks ++ [ACall id [] (k + 10)%nat; ACompleted id (k + 11)%nat].

Definition guest (token : cstring) : Connection := {|
  cn_address := Some (AF_INET (Some AuthExamples.client));
  cn_header name := if bool_decide (name = UI_TOKEN_HEADER) then Some token else None;
  cn_form := true |}.

(** Discovery finds the peer, the browser unlocks the interface. *)
Definition unlocking : list act :=
  [ARound 40] ++ submit 1 (post_to (guest []) "/api/session/unlock") [lit "admin_code=" ++ admin_code (w_auth (p_world g0))] 45.
Definition unlocked : option (list call * process) := schedule unlocking [] (process_start g0).
Definition session : cstring := Eval vm_compute in
  match unlocked with Some (_, p) => us_token (ui_sessions (w_auth (ps_world p)) !!! 0%nat) | None => [] end.

(** The browser, now with its session, pairs with the peer and sends it two
    files; the worker delivers the first. *)
Definition target_form : list cstring := [lit "target_ip=" ++ peer; lit "target_port=8080"].
Definition working : list act := unlocking ++
  submit 2 (post_to (guest session) "/api/pair") (target_form ++ [lit "pair_code=123456"]) 60 ++
  submit 3 (post_to (guest session) "/api/send") (target_form ++ [lit "file=abc"]) 120 ++
  submit 4 (post_to (guest session) "/api/send") (target_form ++ [lit "file=defg"]) 160 ++
  [ATake 200; ASend 210].
Definition evening : list act := working ++ [AReport 220; AReport 221; AFinish 230].

Lemma guest_ok token : c_string token -> connection_ok (guest token).
Proof.
intros Ht. split; [apply client_ok|]. intros name value Hv. cbn [cn_header guest] in Hv. destruct (bool_decide _); [|done]. by injection Hv as <-.
Qed.

Lemma submit_ok id c blocks k : connection_ok (cn_peer c) -> c_string (cn_url c) -> c_string (cn_method c) -> Forall opens_ok (submit id c blocks k).
Proof.
intros H1 H2 H3. unfold submit. constructor; [done|]. constructor; [done|]. apply Forall_app. split; [|by repeat constructor].
apply Forall_forall. intros a Ha. by apply elem_of_lookup_imap in Ha as (i & block & -> & _).
Qed.

Lemma evening_ok : Forall opens_ok evening.
Proof.
assert (Hg : connection_ok (guest [])) by by apply guest_ok; constructor.
assert (Hs : connection_ok (guest session)) by by apply guest_ok; c_text.
unfold evening, working, unlocking. repeat match goal with |- Forall _ (_ ++ _) => apply Forall_app; split end;
  try (apply submit_ok; [done|c_text|c_text]); by repeat constructor.
Qed.

Definition ended : option (list call * process) := schedule evening [] (process_start g0).
Definition evening_calls : list call := default [] (fst <$> ended).
Definition evening_end : process := default (process_start g0) (snd <$> ended).

Definition has_ended (o : option (list call * process)) : bool := match o with Some _ => true | None => false end.
Lemma ended_eta d1 d2 (o : option (list call * process)) : has_ended o = true -> o = Some (default d1 (fst <$> o), default d2 (snd <$> o)).
Proof. by destruct o as [[]|]. Qed.

Lemma evening_done : has_ended ended = true.
Proof. vm_compute. reflexivity. Qed.
Lemma evening_run : run true (process_start g0) evening_calls evening_end.
Proof. exact (schedule_run evening [] _ _ _ _ evening_ok (RunStart _ _) (ended_eta _ _ _ evening_done)). Qed.
#[global] Opaque evening_end evening_calls.

Lemma evening_program : program_run flaky disk0 true evening_calls evening_end.
Proof. exists 0%nat, k0, g0. split; [exact start_run|exact evening_run]. Qed.

(** Both requests of the session, the pairing and the upload, were asked for. *)
Lemma requests_are_asked_for_witness :
  map http_url (w_sent (ps_world evening_end)) = [url_text peer 8080 (lit "/api/pair/exchange"); url_text peer 8080 (lit "/upload")] /\
  Forall (request_justified evening_calls) (w_sent (ps_world evening_end)).
Proof.
split; [vm_compute; reflexivity|]. exact (proj1 (requests_are_asked_for flaky disk0 true evening_calls evening_end evening_program)).
Defined.

Lemma program_invariant_witness :
  ps_worker evening_end = Idle /\ tj_status (job_at (w_queue (ps_world evening_end)) 0) = TRANSFER_JOB_COMPLETED /\ world_good (ps_world evening_end).
Proof.
split; [vm_compute; reflexivity|]. split; [vm_compute; reflexivity|].
exact (proj1 (program_invariant flaky disk0 true evening_calls evening_end evening_program)).
Defined.

(** While the file is being sent, both reports still to come. *)
Definition halfway : option (list call * process) := schedule working [] (process_start g0).
Definition halfway_calls : list call := default [] (fst <$> halfway).
Definition halfway_end : process := default (process_start g0) (snd <$> halfway).
Lemma halfway_done : has_ended halfway = true.
Proof. vm_compute. reflexivity. Qed.
Lemma working_ok : Forall opens_ok working.
Proof. exact (proj1 (proj1 (Forall_app _ _ _) evening_ok)). Qed.
Lemma halfway_run : run true (process_start g0) halfway_calls halfway_end.
Proof. exact (schedule_run working [] _ _ _ _ working_ok (RunStart _ _) (ended_eta _ _ _ halfway_done)). Qed.
#[global] Opaque halfway_end halfway_calls.
Lemma halfway_program : program_run flaky disk0 true halfway_calls halfway_end.
Proof. exists 0%nat, k0, g0. split; [exact start_run|exact halfway_run]. Qed.

Definition reports_left (p : process) : nat := match ps_sending p with Some (calls, _) => length calls | None => 0 end.
Lemma program_stops_witness : reports_left halfway_end = 2%nat /\
  exists evs p' k' g, worker_run halfway_end evs p' /\ finished evs = sending_now (ps_worker halfway_end) /\
    main_stop flaky true (open_requests p') 300%nat (ps_program p') = (0, (k', g)) /\ all_down true g.
Proof. split; [vm_compute; reflexivity|]. exact (program_stops flaky disk0 true halfway_calls halfway_end 300%nat halfway_program). Defined.

Lemma queue_drains_witness : length (sending_now (ps_worker halfway_end)) = 1%nat /\ length (waiting (w_queue (ps_world halfway_end))) = 1%nat /\
  exists evs p', worker_run halfway_end evs p' /\ ps_worker p' = Idle /\ waiting (w_queue (ps_world p')) = [] /\
    begun evs = waiting (w_queue (ps_world halfway_end)) /\ finished evs = sending_now (ps_worker halfway_end) ++ waiting (w_queue (ps_world halfway_end)).
Proof.
split; [vm_compute; reflexivity|]. split; [vm_compute; reflexivity|]. exact (queue_drains flaky disk0 true halfway_calls halfway_end halfway_program).
Defined.
